(** * Field: a signed-distance-field modelling kernel (field.js)

    A shallow embedding of [src/field.js]: the parts that the
    specification makes claims about, with the theorems that settle the
    claims, and the operations around them, with further properties that
    the code itself shows.

    Conventions of the embedding.

    - A JavaScript number is a real number ([R]).  Rounding to binary64
      (and to binary32 when a value is stored in a [Float32Array]) is
      outside the model; [Math.sqrt], [Math.sin], [Math.cos], [Math.abs],
      [Math.max] and [Math.min] are the real functions of the same name.
      Two places where rounding decides what the code does are modelled
      more closely: the exponent of [Math.pow(x, 1/3)] is the binary64
      nearest to a third ([Math.third]), and the samples that
      [_marchCube] reads from the grid can be infinite or [NaN]
      ([Number], [MesherIEEE]).
    - In the mesher, the exporter and the smooth blends, where JavaScript
      would go on with [NaN] or [undefined] (a quotient with a zero
      divisor, a read past the end of an array), the model stops with the
      failure [NotANumber]; a [throw] is the failure [Thrown].  A theorem
      that such a function returns [Ok] therefore says both that nothing
      was thrown and that no [NaN] was produced.  A field evaluates to a
      real number: the fields of the model are those whose evaluation
      yields numbers.
    - Integers that the code uses as integers (loop counters, table
      entries, array indices, byte offsets) are [Z] or [nat]; bit
      operations are those of [Z].
    - Arrays are lists, read with stdpp's lookup and written with stdpp's
      insert; what JavaScript does out of range is written out. *)

From Stdlib Require Import Reals Lra Lia ZArith String Ascii List.
From Stdlib Require Import Floats.
From stdpp Require Import base numbers list.
Import ListNotations.

Local Open Scope R_scope.

(** Comparisons of numbers are decided, so that the conditions of the
    source can be written as they stand: [if decide (a <= b /\ b < c)]. *)
#[global] Instance Rle_decision (a b : R) : Decision (a <= b) := Rle_dec a b.
#[global] Instance Rlt_decision (a b : R) : Decision (a < b) := Rlt_dec a b.
#[global] Instance Rge_decision (a b : R) : Decision (a >= b) := Rge_dec a b.
#[global] Instance Rgt_decision (a b : R) : Decision (a > b) := Rgt_dec a b.
#[global] Instance Req_decision : EqDecision R := Req_dec_T.

(** ** Failures *)

Inductive failure :=
| Thrown (message : string)
    (* throw new Error(message), for a literal message *)
| ResolutionExceedsMemoryLimit (resolution : Z) (maxResolution : option Z)
    (* throw new Error(`Resolution ${resolution} exceeds memory limit.
       Use <=${maxResolution} or increase maxMemoryMB.`); a [maxResolution]
       that is NaN is [None] *)
| RangeError (message : string)
    (* thrown by the runtime: an invalid typed array length, a DataView
       offset outside the buffer *)
| TypeError (message : string)
    (* thrown by the runtime: a property of undefined is read *)
| NotANumber.
    (* NaN or undefined entered the computation *)

Inductive result (A : Type) :=
| Ok (a : A)
| Fail (e : failure).
Arguments Ok {A} a.
Arguments Fail {A} e.

Definition bind {A B} (m : result A) (k : A -> result B) : result B :=
  match m with
  | Ok a => k a
  | Fail e => Fail e
  end.

Notation "'do' x <- m ; k" := (bind m (fun x => k))
  (at level 10, x pattern, m at level 100, k at level 200).

(** [for (const a of l) st = body(a, st)], stopping at the first failure. *)
Fixpoint foldM {A S} (body : A -> S -> result S) (l : list A) (st : S) : result S :=
  match l with
  | [] => Ok st
  | a :: l' => do st' <- body a st; foldM body l' st'
  end.

(** [for (let i = 0; i < n; i++)]: the values [i] takes. *)
Definition range (n : nat) : list nat := seq 0 n.

(** ** Math *)

Module Math.
Definition abs (a : R) : R := Rabs a.
Definition sqrt (a : R) : R := R_sqrt.sqrt a.
Definition max (a b : R) : R := Rmax a b.
Definition min (a b : R) : R := Rmin a b.
Definition max3 (a b c : R) : R := Rmax (Rmax a b) c.
Definition min3 (a b c : R) : R := Rmin (Rmin a b) c.
Definition sin (a : R) : R := Rtrigo_def.sin a.
Definition cos (a : R) : R := Rtrigo_def.cos a.
Definition PI : R := Rtrigo1.PI.
Definition floor (a : R) : Z := Zfloor a.
(** Rounding towards zero, as the [%] operator uses it. *)
Definition trunc (a : R) : Z :=
  if decide (0 <= a) then Zfloor a else (- Zfloor (- a))%Z.
(** [a % b] on numbers: the remainder has the sign of [a]. *)
Definition rem (a b : R) : R := a - b * IZR (trunc (a / b)).
(** The number that the expression [1/3] evaluates to: the binary64
    nearest to a third, which lies below it by 1 / (3 * 2^54). *)
Definition third : R := 6004799503160661 / 2 ^ 54.
(** What is known of a result of [Math.pow] when its rounding is not
    modelled: [p] is within one part in 2^52 of the exact value, as a
    binary64 that is off by at most one unit in the last place is. *)
Definition rounds_to (exact p : R) : Prop := abs (p - exact) <= abs exact / 2 ^ 52.
(** [Math.pow(a, 1/3)]: the power with the exponent [third], [NaN] on a
    negative base.  The rounding of the exponent is modelled because
    [Math.floor] follows in the only use, and the exponent decides on
    which side of a whole number the power of a cube falls.  The
    rounding of the power itself is not; what is proved of the result
    is proved of every number that [rounds_to] allows as well. *)
Definition pow_third (a : R) : result R :=
  if decide (0 < a) then Ok (Rpower a third)
  else if decide (a < 0) then Fail NotANumber
  else Ok 0.
(** [Math.min(first, ...rest)] and [Math.max(first, ...rest)], for the
    calls that spread an array known to have a first element. *)
Definition min_list (first : R) (rest : list R) : R := fold_left Rmin rest first.
Definition max_list (first : R) (rest : list R) : R := fold_left Rmax rest first.
(** [Math.atan2(y, x)] (signed zeros apart). *)
Definition atan2 (y x : R) : R :=
  if decide (x > 0) then atan (y / x)
  else if decide (x < 0) then
    if decide (y >= 0) then atan (y / x) + Rtrigo1.PI else atan (y / x) - Rtrigo1.PI
  else if decide (y > 0) then Rtrigo1.PI / 2
  else if decide (y < 0) then - Rtrigo1.PI / 2
  else 0.
End Math.

(** ** Numbers that are not finite

    The values of IEEE 754: a finite number, an infinity or [NaN].  The
    code computes with finite numbers almost everywhere, and there the
    embedding takes a number as a real.  The elements of a
    [Float32Array] need not be finite: a store rounds to binary32, and
    beyond the range of binary32 the result is an infinity.  The
    operations below are the ones JavaScript does on such values; a
    finite number is a real, not rounded, and a zero is [+0]. *)

Module Number.

Inductive t :=
| Finite (r : R)
| Infinity (negative : bool) (* [Infinity], and [-Infinity] when [negative] *)
| NaN.


(** [Math.abs(a)] *)
Definition abs (a : t) : t :=
  match a with
  | Finite r => Finite (Math.abs r)
  | Infinity _ => Infinity false
  | NaN => NaN
  end.

(** [a + b]: the sum of two infinities of opposite sign is [NaN]. *)
Definition add (a b : t) : t :=
  match a, b with
  | Finite x, Finite y => Finite (x + y)
  | Finite _, Infinity negative => Infinity negative
  | Infinity negative, Finite _ => Infinity negative
  | Infinity negative, Infinity negative' =>
      if Bool.eqb negative negative' then Infinity negative else NaN
  | _, _ => NaN
  end.

(** [a * b]: the product of zero and an infinity is [NaN]. *)
Definition mul (a b : t) : t :=
  match a, b with
  | Finite x, Finite y => Finite (x * y)
  | Finite x, Infinity negative =>
      if decide (x = 0) then NaN else Infinity (xorb (bool_decide (x < 0)) negative)
  | Infinity negative, Finite y =>
      if decide (y = 0) then NaN else Infinity (xorb negative (bool_decide (y < 0)))
  | Infinity negative, Infinity negative' => Infinity (xorb negative negative')
  | _, _ => NaN
  end.

(** [a / b]: zero by zero and an infinity by an infinity are [NaN]. *)
Definition div (a b : t) : t :=
  match a, b with
  | Finite x, Finite y =>
      if decide (y = 0)
      then if decide (x = 0) then NaN else Infinity (bool_decide (x < 0))
      else Finite (x / y)
  | Finite _, Infinity _ => Finite 0
  | Infinity negative, Finite y => Infinity (xorb negative (bool_decide (y < 0)))
  | _, _ => NaN
  end.

(** [a <= b]: false when either is [NaN]. *)
Definition le (a b : t) : bool :=
  match a, b with
  | Finite x, Finite y => bool_decide (x <= y)
  | Finite _, Infinity negative => negb negative
  | Infinity negative, Finite _ => negative
  | Infinity negative, Infinity negative' => negative || negb negative'
  | _, _ => false
  end.


End Number.

(** ** Vec3 *)

Module Vec3.
Record t := mk { x : R; y : R; z : R }.

Definition add (a b : t) : t := mk (x a + x b) (y a + y b) (z a + z b).
Definition sub (a b : t) : t := mk (x a - x b) (y a - y b) (z a - z b).
Definition mul (v : t) (s : R) : t := mk (x v * s) (y v * s) (z v * s).
Definition dot (a b : t) : R := x a * x b + y a * y b + z a * z b.
Definition cross (a b : t) : t :=
  mk (y a * z b - z a * y b) (z a * x b - x a * z b) (x a * y b - y a * x b).
Definition length (v : t) : R := Math.sqrt (x v * x v + y v * y v + z v * z v).
Definition normalize (v : t) : t :=
  let len := length v in
  if decide (len > 0) then mul v (1 / len) else mk 0 0 0.
Definition distance (a b : t) : R := length (sub a b).
Definition clamp (v min max : t) : t :=
  mk (Math.max (x min) (Math.min (x max) (x v)))
     (Math.max (y min) (Math.min (y max) (y v)))
     (Math.max (z min) (Math.min (z max) (z v))).
Definition div (v : t) (s : R) : t :=
  if decide (s <> 0) then mk (x v / s) (y v / s) (z v / s) else mk 0 0 0.
Definition lengthSq (v : t) : R := x v * x v + y v * y v + z v * z v.
Definition lerp (a b : t) (t0 : R) : t :=
  mk (x a + (x b - x a) * t0) (y a + (y b - y a) * t0) (z a + (z b - z a) * t0).
End Vec3.

(** ** Bounds *)

Module Bounds.
Record t := mk { min : Vec3.t; max : Vec3.t }.

Definition contains (bounds : t) (point : Vec3.t) : Prop :=
  Vec3.x point >= Vec3.x (min bounds) /\ Vec3.x point <= Vec3.x (max bounds) /\
  Vec3.y point >= Vec3.y (min bounds) /\ Vec3.y point <= Vec3.y (max bounds) /\
  Vec3.z point >= Vec3.z (min bounds) /\ Vec3.z point <= Vec3.z (max bounds).

Definition center (bounds : t) : Vec3.t :=
  Vec3.mul (Vec3.add (min bounds) (max bounds)) 0.5.
Definition size (bounds : t) : Vec3.t := Vec3.sub (max bounds) (min bounds).

Definition isValid (bounds : t) : Prop :=
  Vec3.x (min bounds) <= Vec3.x (max bounds) /\
  Vec3.y (min bounds) <= Vec3.y (max bounds) /\
  Vec3.z (min bounds) <= Vec3.z (max bounds).

Definition fromCenterSize (center size : Vec3.t) : t :=
  mk (Vec3.mk (Vec3.x center - Vec3.x size / 2) (Vec3.y center - Vec3.y size / 2)
              (Vec3.z center - Vec3.z size / 2))
     (Vec3.mk (Vec3.x center + Vec3.x size / 2) (Vec3.y center + Vec3.y size / 2)
              (Vec3.z center + Vec3.z size / 2)).

Definition expand (bounds : t) (value : R) : t :=
  mk (Vec3.sub (min bounds) (Vec3.mk value value value))
     (Vec3.add (max bounds) (Vec3.mk value value value)).

Definition union (a b : t) : t :=
  mk (Vec3.mk (Math.min (Vec3.x (min a)) (Vec3.x (min b)))
              (Math.min (Vec3.y (min a)) (Vec3.y (min b)))
              (Math.min (Vec3.z (min a)) (Vec3.z (min b))))
     (Vec3.mk (Math.max (Vec3.x (max a)) (Vec3.x (max b)))
              (Math.max (Vec3.y (max a)) (Vec3.y (max b)))
              (Math.max (Vec3.z (max a)) (Vec3.z (max b)))).

Definition intersection (a b : t) : t :=
  mk (Vec3.mk (Math.max (Vec3.x (min a)) (Vec3.x (min b)))
              (Math.max (Vec3.y (min a)) (Vec3.y (min b)))
              (Math.max (Vec3.z (min a)) (Vec3.z (min b))))
     (Vec3.mk (Math.min (Vec3.x (max a)) (Vec3.x (max b)))
              (Math.min (Vec3.y (max a)) (Vec3.y (max b)))
              (Math.min (Vec3.z (max a)) (Vec3.z (max b)))).
End Bounds.

(** ** Field *)

Record Metadata := { type : string; complexity : nat }.

Record Field := {
  _evaluate : Vec3.t -> R;
  _bounds : option Bounds.t;
  _metadata : Metadata
}.

Record Sample := {
  distance : R;
  outsideBounds : bool
}.

Module FieldMethods.
(** [_gradient(p, epsilon)]; every call in the modelled code leaves
    [epsilon] to its default, 0.001, so the divisor is not zero. *)
Definition _gradient (f : Field) (p : Vec3.t) (epsilon : R) : Vec3.t :=
  let dx := _evaluate f (Vec3.mk (Vec3.x p + epsilon) (Vec3.y p) (Vec3.z p)) -
            _evaluate f (Vec3.mk (Vec3.x p - epsilon) (Vec3.y p) (Vec3.z p)) in
  let dy := _evaluate f (Vec3.mk (Vec3.x p) (Vec3.y p + epsilon) (Vec3.z p)) -
            _evaluate f (Vec3.mk (Vec3.x p) (Vec3.y p - epsilon) (Vec3.z p)) in
  let dz := _evaluate f (Vec3.mk (Vec3.x p) (Vec3.y p) (Vec3.z p + epsilon)) -
            _evaluate f (Vec3.mk (Vec3.x p) (Vec3.y p) (Vec3.z p - epsilon)) in
  Vec3.normalize (Vec3.mk (dx / (2 * epsilon)) (dy / (2 * epsilon)) (dz / (2 * epsilon))).

Definition default_epsilon : R := 0.001.

(** [bounds()]: the stored box, or the large default one. *)
Definition bounds (f : Field) : Bounds.t :=
  match _bounds f with
  | None => Bounds.mk (Vec3.mk (-1000) (-1000) (-1000)) (Vec3.mk 1000 1000 1000)
  | Some b => b
  end.

Definition metadata (f : Field) : Metadata := _metadata f.

(** The early return of [sample]: the field has bounds and the point is
    not in them. *)
Definition culled (f : Field) (p : Vec3.t) : option Bounds.t :=
  match _bounds f with
  | Some b => if decide (Bounds.contains b p) then None else Some b
  | None => None
  end.

(** [sample(p, options)]: the distance and the [outsideBounds] mark of
    the record it returns (its [normal] and [material] are left out). *)
Definition sample (f : Field) (p : Vec3.t) : Sample :=
  match culled f p with
  | Some b =>
      let toCenter := Vec3.sub p (Bounds.center b) in
      let size := Bounds.size b in
      let maxDim := Math.max3 (Vec3.x size) (Vec3.y size) (Vec3.z size) / 2 in
      {| distance := Vec3.length toCenter - maxDim; outsideBounds := true |}
  | None => {| distance := _evaluate f p; outsideBounds := false |}
  end.
End FieldMethods.

(** ** Primitives *)

Module Primitives.

Definition sphere (center : Vec3.t) (radius : R) : result Field :=
  if decide (radius <= 0) then Fail (Thrown "Sphere radius must be positive") else
  Ok {| _evaluate := fun p => Vec3.distance p center - radius;
        _bounds := Some (Bounds.mk (Vec3.sub center (Vec3.mk radius radius radius))
                                   (Vec3.add center (Vec3.mk radius radius radius)));
        _metadata := {| type := "sphere"; complexity := 1 |} |}.

Definition box_evaluate (center halfSize p : Vec3.t) : R :=
  let d := Vec3.mk (Math.abs (Vec3.x p - Vec3.x center) - Vec3.x halfSize)
                   (Math.abs (Vec3.y p - Vec3.y center) - Vec3.y halfSize)
                   (Math.abs (Vec3.z p - Vec3.z center) - Vec3.z halfSize) in
  let outside := Vec3.length (Vec3.mk (Math.max (Vec3.x d) 0)
                                      (Math.max (Vec3.y d) 0)
                                      (Math.max (Vec3.z d) 0)) in
  let inside := Math.min (Math.max3 (Vec3.x d) (Vec3.y d) (Vec3.z d)) 0 in
  outside + inside.

Definition box (center size : Vec3.t) : result Field :=
  if decide (Vec3.x size <= 0 \/ Vec3.y size <= 0 \/ Vec3.z size <= 0)
  then Fail (Thrown "Box dimensions must be positive") else
  let halfSize := Vec3.mul size 0.5 in
  Ok {| _evaluate := box_evaluate center halfSize;
        _bounds := Some (Bounds.mk (Vec3.sub center halfSize) (Vec3.add center halfSize));
        _metadata := {| type := "box"; complexity := 1 |} |}.

Definition cylinder_evaluate (start axis : Vec3.t) (height radius : R) (p : Vec3.t) : R :=
  let v := Vec3.sub p start in
  let proj := Vec3.dot v axis in
  let projPoint := Vec3.add start (Vec3.mul axis proj) in
  let vecToAxis := Vec3.sub p projPoint in
  let distToSide := Vec3.length vecToAxis - radius in
  let distToTop := proj - height in
  let distToBottom := - proj in
  let distToCap := Math.max distToTop distToBottom in
  if decide (proj >= 0 /\ proj <= height) then
    if decide (distToSide < 0) then Math.max distToSide distToCap else distToSide
  else
    let outsideDist := Math.sqrt (Math.max distToSide 0 ^ 2 + Math.max distToCap 0 ^ 2) in
    let insideDist := Math.min (Math.max distToSide distToCap) 0 in
    outsideDist + insideDist.

Definition segment_bounds (a b : Vec3.t) (radius : R) : Bounds.t :=
  Bounds.mk (Vec3.mk (Math.min (Vec3.x a) (Vec3.x b) - radius)
                     (Math.min (Vec3.y a) (Vec3.y b) - radius)
                     (Math.min (Vec3.z a) (Vec3.z b) - radius))
            (Vec3.mk (Math.max (Vec3.x a) (Vec3.x b) + radius)
                     (Math.max (Vec3.y a) (Vec3.y b) + radius)
                     (Math.max (Vec3.z a) (Vec3.z b) + radius)).

Definition cylinder (start end_ : Vec3.t) (radius : R) : result Field :=
  if decide (radius <= 0) then Fail (Thrown "Cylinder radius must be positive") else
  if decide (Vec3.distance start end_ < 0.0001)
  then Fail (Thrown "Cylinder start and end must be different") else
  let axis := Vec3.normalize (Vec3.sub end_ start) in
  let height := Vec3.distance start end_ in
  Ok {| _evaluate := cylinder_evaluate start axis height radius;
        _bounds := Some (segment_bounds start end_ radius);
        _metadata := {| type := "cylinder"; complexity := 2 |} |}.

Definition cone_evaluate (base tip axis : Vec3.t) (height radius : R) (p : Vec3.t) : R :=
  let v := Vec3.sub p base in
  let proj := Vec3.dot v axis in
  let projPoint := Vec3.add base (Vec3.mul axis proj) in
  let vecToAxis := Vec3.sub p projPoint in
  let distFromAxis := Vec3.length vecToAxis in
  let t := proj / height in
  let coneRadius := radius * (1 - t) in
  let distToBase := - proj in
  let distToTip := proj - height in
  if decide (proj < 0) then
    let distToConeSurface := distFromAxis - radius in
    Math.sqrt (Math.max distToConeSurface 0 ^ 2 + Math.max distToBase 0 ^ 2)
    + Math.min (Math.max distToConeSurface distToBase) 0
  else if decide (proj > height) then
    Vec3.distance p tip
  else
    let distToSlope := distFromAxis - coneRadius in
    let distToCap := Math.max distToBase distToTip in
    if decide (distToSlope < 0 /\ distToCap < 0) then Math.max distToSlope distToCap
    else Math.sqrt (Math.max distToSlope 0 ^ 2 + Math.max distToCap 0 ^ 2)
         + Math.min (Math.max distToSlope distToCap) 0.

Definition cone (base tip : Vec3.t) (radius : R) : result Field :=
  if decide (radius <= 0) then Fail (Thrown "Cone radius must be positive") else
  if decide (Vec3.distance base tip < 0.0001)
  then Fail (Thrown "Cone base and tip must be different") else
  let axis := Vec3.normalize (Vec3.sub tip base) in
  let height := Vec3.distance base tip in
  Ok {| _evaluate := cone_evaluate base tip axis height radius;
        _bounds := Some (Bounds.mk
           (Vec3.mk (Math.min (Vec3.x base - radius) (Vec3.x tip))
                    (Math.min (Vec3.y base - radius) (Vec3.y tip))
                    (Math.min (Vec3.z base - radius) (Vec3.z tip)))
           (Vec3.mk (Math.max (Vec3.x base + radius) (Vec3.x tip))
                    (Math.max (Vec3.y base + radius) (Vec3.y tip))
                    (Math.max (Vec3.z base + radius) (Vec3.z tip))));
        _metadata := {| type := "cone"; complexity := 2 |} |}.

Definition capsule_evaluate (start lineDir : Vec3.t) (lineLength radius : R)
  (p : Vec3.t) : R :=
  let v := Vec3.sub p start in
  let proj := Vec3.dot v lineDir in
  let t := Math.max 0 (Math.min lineLength proj) in
  let closest := Vec3.add start (Vec3.mul lineDir t) in
  Vec3.distance p closest - radius.

Definition capsule (start end_ : Vec3.t) (radius : R) : result Field :=
  if decide (radius <= 0) then Fail (Thrown "Capsule radius must be positive") else
  let lineVec := Vec3.sub end_ start in
  let lineLength := Vec3.length lineVec in
  let lineDir := Vec3.normalize lineVec in
  Ok {| _evaluate := capsule_evaluate start lineDir lineLength radius;
        _bounds := Some (segment_bounds start end_ radius);
        _metadata := {| type := "capsule"; complexity := 1 |} |}.

Definition torus (center normal : Vec3.t) (majorRadius minorRadius : R) : result Field :=
  if decide (majorRadius <= 0 \/ minorRadius <= 0)
  then Fail (Thrown "Torus radii must be positive") else
  let n := Vec3.normalize normal in
  let r := majorRadius + minorRadius in
  Ok {| _evaluate := fun p =>
          let v := Vec3.sub p center in
          let distAlongAxis := Vec3.dot v n in
          let radialVec := Vec3.sub v (Vec3.mul n distAlongAxis) in
          let distFromAxis := Vec3.length radialVec in
          let dx := distFromAxis - majorRadius in
          Math.sqrt (dx * dx + distAlongAxis * distAlongAxis) - minorRadius;
        _bounds := Some (Bounds.mk (Vec3.sub center (Vec3.mk r r r))
                                   (Vec3.add center (Vec3.mk r r r)));
        _metadata := {| type := "torus"; complexity := 2 |} |}.

Definition plane (point normal : Vec3.t) : Field :=
  let n := Vec3.normalize normal in
  {| _evaluate := fun p => Vec3.dot (Vec3.sub p point) n;
     _bounds := Some (Bounds.mk (Vec3.mk (-10000) (-10000) (-10000))
                                (Vec3.mk 10000 10000 10000));
     _metadata := {| type := "plane"; complexity := 1 |} |}.

End Primitives.

(** ** Boolean operations *)

Module Boolean.

Definition difference (a b : Field) : Field :=
  {| _evaluate := fun p => Math.max (_evaluate a p) (- _evaluate b p);
     _bounds := Some (FieldMethods.bounds a);
     _metadata := {| type := "difference";
                     complexity := complexity (FieldMethods.metadata a)
                                   + complexity (FieldMethods.metadata b) |} |}.

(** One turn of the loop of [_smoothMin]; the quotient by [k] is [NaN]
    when [k] is zero (the dividend is then zero too). *)
Definition smoothMin_step (k : R) (v : R) (res : R) : result R :=
  if decide (k = 0) then Fail NotANumber else
  let h := Math.max (k - Math.abs (res - v)) 0 / k in
  Ok (Math.min res v - h * h * k * 0.25).

Definition smoothMax_step (k : R) (v : R) (res : R) : result R :=
  if decide (k = 0) then Fail NotANumber else
  let h := Math.max (k - Math.abs (res - v)) 0 / k in
  Ok (Math.max res v + h * h * k * 0.25).

(** [_smoothMin(values, k)]; [values[0]] of an empty array is
    [undefined]. *)
Definition _smoothMin (values : list R) (k : R) : result R :=
  match values with
  | [] => Fail NotANumber
  | v0 :: rest => foldM (smoothMin_step k) rest v0
  end.

Definition _smoothMax (values : list R) (k : R) : result R :=
  match values with
  | [] => Fail NotANumber
  | v0 :: rest => foldM (smoothMax_step k) rest v0
  end.

(** [smoothUnion(fields, blendRadius)].  With two fields or more and a
    blend radius of zero every value would be [NaN]: the result is then
    not a field of the model. *)
Definition smoothUnion (fields : list Field) (blendRadius : R) : result Field :=
  match fields with
  | [] => Fail (Thrown "Smooth union requires at least one field")
  | [f] => Ok f
  | f :: rest =>
      if decide (blendRadius = 0) then Fail NotANumber else
      Ok {| _evaluate := fun p =>
              let distances := map (fun g => _evaluate g p) fields in
              match _smoothMin distances blendRadius with
              | Ok d => d
              | Fail _ => 0 (* not reached: the blend radius is not zero *)
              end;
            _bounds := Some (fold_left
                               (fun acc g => Bounds.union acc (FieldMethods.bounds g))
                               rest (FieldMethods.bounds f));
            _metadata := {| type := "smoothUnion";
                            complexity :=
                              fold_left (fun sum g =>
                                           (sum + complexity (FieldMethods.metadata g))%nat)
                                        fields 0%nat |} |}
  end.

Definition smoothIntersection (fields : list Field) (blendRadius : R) : result Field :=
  match fields with
  | [] => Fail (Thrown "Smooth intersection requires at least one field")
  | [f] => Ok f
  | f :: rest =>
      if decide (blendRadius = 0) then Fail NotANumber else
      Ok {| _evaluate := fun p =>
              let distances := map (fun g => _evaluate g p) fields in
              match _smoothMax distances blendRadius with
              | Ok d => d
              | Fail _ => 0 (* not reached: the blend radius is not zero *)
              end;
            _bounds := Some (fold_left
                               (fun acc g => Bounds.intersection acc (FieldMethods.bounds g))
                               rest (FieldMethods.bounds f));
            _metadata := {| type := "smoothIntersection";
                            complexity :=
                              fold_left (fun sum g =>
                                           (sum + complexity (FieldMethods.metadata g))%nat)
                                        fields 0%nat |} |}
  end.

(** [union(...fields)]: the reducers start from the first field. *)
Definition union (fields : list Field) : result Field :=
  match fields with
  | [] => Fail (Thrown "Union requires at least one field")
  | [f] => Ok f
  | f :: rest =>
      Ok {| _evaluate := fun p =>
              Math.min_list (_evaluate f p) (map (fun g => _evaluate g p) rest);
            _bounds := Some (fold_left
                               (fun acc g => Bounds.union acc (FieldMethods.bounds g))
                               rest (FieldMethods.bounds f));
            _metadata := {| type := "union";
                            complexity :=
                              fold_left (fun sum g =>
                                           (sum + complexity (FieldMethods.metadata g))%nat)
                                        fields 0%nat |} |}
  end.

Definition intersection (fields : list Field) : result Field :=
  match fields with
  | [] => Fail (Thrown "Intersection requires at least one field")
  | [f] => Ok f
  | f :: rest =>
      Ok {| _evaluate := fun p =>
              Math.max_list (_evaluate f p) (map (fun g => _evaluate g p) rest);
            _bounds := Some (fold_left
                               (fun acc g => Bounds.intersection acc (FieldMethods.bounds g))
                               rest (FieldMethods.bounds f));
            _metadata := {| type := "intersection";
                            complexity :=
                              fold_left (fun sum g =>
                                           (sum + complexity (FieldMethods.metadata g))%nat)
                                        fields 0%nat |} |}
  end.

Definition xor (a b : Field) : Field :=
  {| _evaluate := fun p =>
       let da := _evaluate a p in
       let db := _evaluate b p in
       Math.max (Math.min da (- db)) (Math.min (- da) db);
     _bounds := Some (Bounds.union (FieldMethods.bounds a) (FieldMethods.bounds b));
     _metadata := {| type := "xor";
                     complexity := complexity (FieldMethods.metadata a)
                                   + complexity (FieldMethods.metadata b) |} |}.

End Boolean.

(** ** Transformations *)

Inductive scale_arg :=
| Uniform (s : R)          (* typeof scale === 'number' *)
| PerAxis (s : Vec3.t).

Module Transform.

Definition scale (field : Field) (scale : scale_arg) (center : Vec3.t) : result Field :=
  let s := match scale with
           | Uniform n => Vec3.mk n n n
           | PerAxis v => v
           end in
  if decide (Vec3.x s <= 0 \/ Vec3.y s <= 0 \/ Vec3.z s <= 0)
  then Fail (Thrown "Scale factors must be positive") else
  let minScale := Math.min3 (Vec3.x s) (Vec3.y s) (Vec3.z s) in
  let b := FieldMethods.bounds field in
  Ok {| _evaluate := fun p =>
          let translated := Vec3.sub p center in
          let scaled := Vec3.mk (Vec3.x translated / Vec3.x s)
                                (Vec3.y translated / Vec3.y s)
                                (Vec3.z translated / Vec3.z s) in
          let backTranslated := Vec3.add scaled center in
          _evaluate field backTranslated * minScale;
        _bounds := Some (Bounds.mk
          (Vec3.mk (Vec3.x center + (Vec3.x (Bounds.min b) - Vec3.x center) * Vec3.x s)
                   (Vec3.y center + (Vec3.y (Bounds.min b) - Vec3.y center) * Vec3.y s)
                   (Vec3.z center + (Vec3.z (Bounds.min b) - Vec3.z center) * Vec3.z s))
          (Vec3.mk (Vec3.x center + (Vec3.x (Bounds.max b) - Vec3.x center) * Vec3.x s)
                   (Vec3.y center + (Vec3.y (Bounds.max b) - Vec3.y center) * Vec3.y s)
                   (Vec3.z center + (Vec3.z (Bounds.max b) - Vec3.z center) * Vec3.z s)));
        _metadata := {| type := "scale(" ++ type (FieldMethods.metadata field) ++ ")";
                        complexity := complexity (FieldMethods.metadata field) |} |}.

Definition translate (field : Field) (offset : Vec3.t) : Field :=
  let b := FieldMethods.bounds field in
  {| _evaluate := fun p => _evaluate field (Vec3.sub p offset);
     _bounds := Some (Bounds.mk (Vec3.add (Bounds.min b) offset)
                                (Vec3.add (Bounds.max b) offset));
     _metadata := {| type := "translate(" ++ type (FieldMethods.metadata field) ++ ")";
                     complexity := complexity (FieldMethods.metadata field) |} |}.

(** [rotatePoint] of [rotate], for the normalized axis [k]. *)
Definition rotatePoint (k center : Vec3.t) (angle : R) (p : Vec3.t) : Vec3.t :=
  let cos := Math.cos (- angle) in
  let sin := Math.sin (- angle) in
  let v := Vec3.sub p center in
  let crossKV := Vec3.cross k v in
  let dotKV := Vec3.dot k v in
  let rotated :=
    Vec3.mk (Vec3.x v * cos + Vec3.x crossKV * sin + Vec3.x k * dotKV * (1 - cos))
            (Vec3.y v * cos + Vec3.y crossKV * sin + Vec3.y k * dotKV * (1 - cos))
            (Vec3.z v * cos + Vec3.z crossKV * sin + Vec3.z k * dotKV * (1 - cos)) in
  Vec3.add rotated center.

(** The eight corners of a box, in the order of the source. *)
Definition corners (b : Bounds.t) : list Vec3.t :=
  [Vec3.mk (Vec3.x (Bounds.min b)) (Vec3.y (Bounds.min b)) (Vec3.z (Bounds.min b));
   Vec3.mk (Vec3.x (Bounds.max b)) (Vec3.y (Bounds.min b)) (Vec3.z (Bounds.min b));
   Vec3.mk (Vec3.x (Bounds.min b)) (Vec3.y (Bounds.max b)) (Vec3.z (Bounds.min b));
   Vec3.mk (Vec3.x (Bounds.max b)) (Vec3.y (Bounds.max b)) (Vec3.z (Bounds.min b));
   Vec3.mk (Vec3.x (Bounds.min b)) (Vec3.y (Bounds.min b)) (Vec3.z (Bounds.max b));
   Vec3.mk (Vec3.x (Bounds.max b)) (Vec3.y (Bounds.min b)) (Vec3.z (Bounds.max b));
   Vec3.mk (Vec3.x (Bounds.min b)) (Vec3.y (Bounds.max b)) (Vec3.z (Bounds.max b));
   Vec3.mk (Vec3.x (Bounds.max b)) (Vec3.y (Bounds.max b)) (Vec3.z (Bounds.max b))].

(** The corner loop of [rotate]: each corner turned by [angle]. *)
Definition rotatedCorner (k center : Vec3.t) (angle : R) (corner : Vec3.t) : Vec3.t :=
  let v := Vec3.sub corner center in
  let invCos := Math.cos angle in
  let invSin := Math.sin angle in
  let crossKV := Vec3.cross k v in
  let dotKV := Vec3.dot k v in
  Vec3.mk (Vec3.x center + Vec3.x v * invCos + Vec3.x crossKV * invSin
           + Vec3.x k * dotKV * (1 - invCos))
          (Vec3.y center + Vec3.y v * invCos + Vec3.y crossKV * invSin
           + Vec3.y k * dotKV * (1 - invCos))
          (Vec3.z center + Vec3.z v * invCos + Vec3.z crossKV * invSin
           + Vec3.z k * dotKV * (1 - invCos)).

(** [Math.min(...coordinates)] and [Math.max(...coordinates)] of the
    eight turned corners. *)
Definition cornersBounds (rotatedCorners : list Vec3.t) : option Bounds.t :=
  match rotatedCorners with
  | [] => None
  | c :: rest =>
      Some (Bounds.mk
              (Vec3.mk (Math.min_list (Vec3.x c) (map Vec3.x rest))
                       (Math.min_list (Vec3.y c) (map Vec3.y rest))
                       (Math.min_list (Vec3.z c) (map Vec3.z rest)))
              (Vec3.mk (Math.max_list (Vec3.x c) (map Vec3.x rest))
                       (Math.max_list (Vec3.y c) (map Vec3.y rest))
                       (Math.max_list (Vec3.z c) (map Vec3.z rest))))
  end.

Definition rotate (field : Field) (axis : Vec3.t) (angle : R) (center : Vec3.t) : Field :=
  let k := Vec3.normalize axis in
  let b := FieldMethods.bounds field in
  {| _evaluate := fun p => _evaluate field (rotatePoint k center angle p);
     _bounds := cornersBounds (map (rotatedCorner k center angle) (corners b));
     _metadata := {| type := "rotate(" ++ type (FieldMethods.metadata field) ++ ")";
                     complexity := complexity (FieldMethods.metadata field) |} |}.

Definition mirror (field : Field) (planePoint planeNormal : Vec3.t) : Field :=
  let n := Vec3.normalize planeNormal in
  {| _evaluate := fun p =>
       let v := Vec3.sub p planePoint in
       let dist := Vec3.dot v n in
       let mirrored := Vec3.sub p (Vec3.mul n (2 * dist)) in
       _evaluate field mirrored;
     _bounds := Some (FieldMethods.bounds field);
     _metadata := {| type := "mirror(" ++ type (FieldMethods.metadata field) ++ ")";
                     complexity := complexity (FieldMethods.metadata field) |} |}.

(** The point at which [twist] evaluates the wrapped field. *)
Definition twisted (k center : Vec3.t) (amount : R) (p : Vec3.t) : Vec3.t :=
  let v := Vec3.sub p center in
  let distAlongAxis := Vec3.dot v k in
  let angle := amount * distAlongAxis in
  let perp := Vec3.sub v (Vec3.mul k distAlongAxis) in
  let cos := Math.cos angle in
  let sin := Math.sin angle in
  let u := Vec3.normalize (Vec3.cross k (Vec3.mk 1 0 0)) in
  let v2 := Vec3.cross k u in
  let x := Vec3.dot perp u in
  let y := Vec3.dot perp v2 in
  let rotatedPerp := Vec3.add (Vec3.mul u (x * cos - y * sin))
                              (Vec3.mul v2 (x * sin + y * cos)) in
  Vec3.add (Vec3.add rotatedPerp (Vec3.mul k distAlongAxis)) center.

Definition twist (field : Field) (axis : Vec3.t) (amount : R) (center : Vec3.t) : Field :=
  let k := Vec3.normalize axis in
  {| _evaluate := fun p => _evaluate field (twisted k center amount p);
     _bounds := Some (FieldMethods.bounds field);
     _metadata := {| type := "twist(" ++ type (FieldMethods.metadata field) ++ ")";
                     complexity := complexity (FieldMethods.metadata field) |} |}.

End Transform.

(** ** Modifications *)

Module Modify.

Definition offset (field : Field) (distance : R) : Field :=
  let b := FieldMethods.bounds field in
  {| _evaluate := fun p => _evaluate field p - distance;
     _bounds := Some (Bounds.expand b (Math.abs distance));
     _metadata := {| type := "offset(" ++ type (FieldMethods.metadata field) ++ ")";
                     complexity := complexity (FieldMethods.metadata field) |} |}.

(** [result._metadata.type = ...] on the field just built. *)
Definition retype (result : Field) (type' : string) : Field :=
  {| _evaluate := _evaluate result;
     _bounds := _bounds result;
     _metadata := {| type := type'; complexity := complexity (_metadata result) |} |}.

Definition shell (field : Field) (thickness : R) : result Field :=
  if decide (thickness <= 0) then Fail (Thrown "Shell thickness must be positive") else
  let outer := field in
  let inner := offset field (- thickness) in
  let result := Boolean.difference outer inner in
  Ok (retype result ("shell(" ++ type (FieldMethods.metadata field) ++ ")")).

Definition fillet (field : Field) (radius : R) : result Field :=
  if decide (radius <= 0) then Fail (Thrown "Fillet radius must be positive") else
  let result := offset (offset field (- radius)) radius in
  Ok (retype result ("fillet(" ++ type (FieldMethods.metadata field) ++ ")")).

Definition chamfer (field : Field) (distance : R) : result Field :=
  if decide (distance <= 0) then Fail (Thrown "Chamfer distance must be positive") else
  let result := offset field (- distance * 0.5) in
  Ok (retype result ("chamfer(" ++ type (FieldMethods.metadata field) ++ ")")).

Definition blend (field : Field) (amount : R) : Field :=
  {| _evaluate := fun p =>
       let eps := amount in
       let samples :=
         [_evaluate field (Vec3.mk (Vec3.x p + eps) (Vec3.y p) (Vec3.z p));
          _evaluate field (Vec3.mk (Vec3.x p - eps) (Vec3.y p) (Vec3.z p));
          _evaluate field (Vec3.mk (Vec3.x p) (Vec3.y p + eps) (Vec3.z p));
          _evaluate field (Vec3.mk (Vec3.x p) (Vec3.y p - eps) (Vec3.z p));
          _evaluate field (Vec3.mk (Vec3.x p) (Vec3.y p) (Vec3.z p + eps));
          _evaluate field (Vec3.mk (Vec3.x p) (Vec3.y p) (Vec3.z p - eps))] in
       (* samples.reduce((a, b) => a + b) / samples.length, the first
          sample being the value at [p] *)
       fold_left Rplus samples (_evaluate field p) / 7;
     _bounds := Some (Bounds.expand (FieldMethods.bounds field) amount);
     _metadata := {| type := "blend(" ++ type (FieldMethods.metadata field) ++ ")";
                     complexity := complexity (FieldMethods.metadata field) |} |}.

End Modify.

(** ** Lattices

    Each of the six lattice functions opens with the same two statements:
    the test that the point is outside the bounds, and the distance to
    the bounding box returned in that case.  They are [outside] and
    [boxDistance] here.  [cellSize] is a divisor: the periodic formulas
    are those of the source for [cellSize <> 0]. *)

Module Lattice.

Definition outside (bounds : Bounds.t) (p : Vec3.t) : Prop :=
  Vec3.x p < Vec3.x (Bounds.min bounds) \/ Vec3.x p > Vec3.x (Bounds.max bounds) \/
  Vec3.y p < Vec3.y (Bounds.min bounds) \/ Vec3.y p > Vec3.y (Bounds.max bounds) \/
  Vec3.z p < Vec3.z (Bounds.min bounds) \/ Vec3.z p > Vec3.z (Bounds.max bounds).

Definition boxDistance (bounds : Bounds.t) (p : Vec3.t) : R :=
  let dx := Math.max3 (Vec3.x (Bounds.min bounds) - Vec3.x p)
                      (Vec3.x p - Vec3.x (Bounds.max bounds)) 0 in
  let dy := Math.max3 (Vec3.y (Bounds.min bounds) - Vec3.y p)
                      (Vec3.y p - Vec3.y (Bounds.max bounds)) 0 in
  let dz := Math.max3 (Vec3.z (Bounds.min bounds) - Vec3.z p)
                      (Vec3.z p - Vec3.z (Bounds.max bounds)) 0 in
  Math.sqrt (dx * dx + dy * dy + dz * dz).

Definition gyroid (bounds : Bounds.t) (cellSize thickness : R) : Field :=
  let freq := (2 * Math.PI) / cellSize in
  {| _evaluate := fun p =>
       if decide (outside bounds p) then boxDistance bounds p else
       let value := Math.sin (Vec3.x p * freq) * Math.cos (Vec3.y p * freq) +
                    Math.sin (Vec3.y p * freq) * Math.cos (Vec3.z p * freq) +
                    Math.sin (Vec3.z p * freq) * Math.cos (Vec3.x p * freq) in
       Math.abs value - thickness;
     _bounds := Some bounds;
     _metadata := {| type := "gyroid"; complexity := 3 |} |}.

Definition schwarzP (bounds : Bounds.t) (cellSize thickness : R) : Field :=
  let freq := (2 * Math.PI) / cellSize in
  {| _evaluate := fun p =>
       if decide (outside bounds p) then boxDistance bounds p else
       let value := Math.cos (Vec3.x p * freq) + Math.cos (Vec3.y p * freq)
                    + Math.cos (Vec3.z p * freq) in
       Math.abs value - thickness;
     _bounds := Some bounds;
     _metadata := {| type := "schwarzP"; complexity := 3 |} |}.

Definition diamond (bounds : Bounds.t) (cellSize thickness : R) : Field :=
  let freq := (2 * Math.PI) / cellSize in
  {| _evaluate := fun p =>
       if decide (outside bounds p) then boxDistance bounds p else
       let sx := Math.sin (Vec3.x p * freq) in let cx := Math.cos (Vec3.x p * freq) in
       let sy := Math.sin (Vec3.y p * freq) in let cy := Math.cos (Vec3.y p * freq) in
       let sz := Math.sin (Vec3.z p * freq) in let cz := Math.cos (Vec3.z p * freq) in
       let value := sx * sy * sz + sx * cy * cz + cx * sy * cz + cx * cy * sz in
       Math.abs value - thickness;
     _bounds := Some bounds;
     _metadata := {| type := "diamond"; complexity := 4 |} |}.

Definition schwarzD (bounds : Bounds.t) (cellSize thickness : R) : Field :=
  let freq := (2 * Math.PI) / cellSize in
  {| _evaluate := fun p =>
       if decide (outside bounds p) then boxDistance bounds p else
       let sx := Math.sin (Vec3.x p * freq) in let cx := Math.cos (Vec3.x p * freq) in
       let sy := Math.sin (Vec3.y p * freq) in let cy := Math.cos (Vec3.y p * freq) in
       let sz := Math.sin (Vec3.z p * freq) in let cz := Math.cos (Vec3.z p * freq) in
       let value := sx * sy * sz - sx * cy * cz - cx * sy * cz - cx * cy * sz in
       Math.abs value - thickness;
     _bounds := Some bounds;
     _metadata := {| type := "schwarzD"; complexity := 4 |} |}.

Definition cubic (bounds : Bounds.t) (cellSize beamThickness : R) : Field :=
  {| _evaluate := fun p =>
       if decide (outside bounds p) then boxDistance bounds p else
       let mx := Math.rem (Math.rem (Vec3.x p) cellSize + cellSize) cellSize in
       let my := Math.rem (Math.rem (Vec3.y p) cellSize + cellSize) cellSize in
       let mz := Math.rem (Math.rem (Vec3.z p) cellSize + cellSize) cellSize in
       let dx := Math.min mx (cellSize - mx) in
       let dy := Math.min my (cellSize - my) in
       let dz := Math.min mz (cellSize - mz) in
       Math.min3 (Math.sqrt (dy * dy + dz * dz))
                 (Math.sqrt (dx * dx + dz * dz))
                 (Math.sqrt (dx * dx + dy * dy)) - beamThickness;
     _bounds := Some bounds;
     _metadata := {| type := "cubic"; complexity := 3 |} |}.

Definition octet (bounds : Bounds.t) (cellSize beamThickness : R) : Field :=
  {| _evaluate := fun p =>
       if decide (outside bounds p) then boxDistance bounds p else
       let s := cellSize in
       let mx := Math.rem (Math.rem (Vec3.x p) s + s) s in
       let my := Math.rem (Math.rem (Vec3.y p) s + s) s in
       let mz := Math.rem (Math.rem (Vec3.z p) s + s) s in
       let d1 := Math.abs (mx + my - s) / Math.sqrt 2 in
       let d2 := Math.abs (mx - my) / Math.sqrt 2 in
       let d3 := Math.abs (my + mz - s) / Math.sqrt 2 in
       let d4 := Math.abs (my - mz) / Math.sqrt 2 in
       let d5 := Math.abs (mz + mx - s) / Math.sqrt 2 in
       let d6 := Math.abs (mz - mx) / Math.sqrt 2 in
       Math.min (Math.min (Math.min (Math.min (Math.min d1 d2) d3) d4) d5) d6
       - beamThickness;
     _bounds := Some bounds;
     _metadata := {| type := "octet"; complexity := 4 |} |}.

(** The lattice constructors of the module. *)
Definition all : list (Bounds.t -> R -> R -> Field) :=
  [gyroid; schwarzP; diamond; schwarzD; cubic; octet].

End Lattice.

(** ** Vec2 *)

Module Vec2.
Record t := mk { x : R; y : R }.

Definition create (x y : R) : t := mk x y.
Definition add (a b : t) : t := mk (x a + x b) (y a + y b).
Definition sub (a b : t) : t := mk (x a - x b) (y a - y b).
Definition mul (v : t) (s : R) : t := mk (x v * s) (y v * s).
Definition dot (a b : t) : R := x a * x b + y a * y b.
Definition length (v : t) : R := Math.sqrt (x v * x v + y v * y v).
Definition distance (a b : t) : R := length (sub a b).
End Vec2.

(** ** Sketches

    A sketch is the list of its elements, in the order in which they were
    added, and the [closed] mark.  ([plane] and [constraints] are stored
    and never read.) *)

Module Sketch.

Inductive element :=
| Line (start end_ : Vec2.t)
| Arc (center : Vec2.t) (radius startAngle endAngle : R)
| Circle (center : Vec2.t) (radius : R).

Record t := { elements : list element; closed : bool }.

(** [new Sketch()] *)
Definition new : t := {| elements := []; closed := false |}.

Definition line (s : t) (start end_ : Vec2.t) : t :=
  {| elements := elements s ++ [Line (Vec2.create (Vec2.x start) (Vec2.y start))
                                     (Vec2.create (Vec2.x end_) (Vec2.y end_))];
     closed := closed s |}.

Definition arc (s : t) (center : Vec2.t) (radius startAngle endAngle : R) : t :=
  {| elements := elements s ++ [Arc (Vec2.create (Vec2.x center) (Vec2.y center))
                                    radius startAngle endAngle];
     closed := closed s |}.

Definition circle (s : t) (center : Vec2.t) (radius : R) : t :=
  {| elements := elements s ++ [Circle (Vec2.create (Vec2.x center) (Vec2.y center)) radius];
     closed := true |}.

Definition rectangle (s : t) (corner : Vec2.t) (width height : R) : t :=
  let c := Vec2.create (Vec2.x corner) (Vec2.y corner) in
  {| elements := elements s ++
       [Line c (Vec2.mk (Vec2.x c + width) (Vec2.y c));
        Line (Vec2.mk (Vec2.x c + width) (Vec2.y c))
             (Vec2.mk (Vec2.x c + width) (Vec2.y c + height));
        Line (Vec2.mk (Vec2.x c + width) (Vec2.y c + height))
             (Vec2.mk (Vec2.x c) (Vec2.y c + height));
        Line (Vec2.mk (Vec2.x c) (Vec2.y c + height)) c];
     closed := true |}.

Definition close (s : t) : t := {| elements := elements s; closed := true |}.

(** [_distanceToElement(elem, x, y)] *)
Definition _distanceToElement (elem : element) (x y : R) : R :=
  let p := Vec2.mk x y in
  match elem with
  | Line start end_ =>
      let line := Vec2.sub end_ start in
      let lineLen := Vec2.length line in
      if decide (lineLen = 0) then Vec2.distance p start else
      let toPoint := Vec2.sub p start in
      let t := Math.max 0 (Math.min 1 (Vec2.dot toPoint line / (lineLen * lineLen))) in
      let closest := Vec2.add start (Vec2.mul line t) in
      Vec2.distance p closest
  | Arc center radius startAngle endAngle =>
      let toPoint := Vec2.sub p center in
      let angle := Math.atan2 (Vec2.y toPoint) (Vec2.x toPoint) in
      let normalizedAngle :=
        if decide (angle < startAngle) then angle + 2 * Math.PI else angle in
      if decide (normalizedAngle >= startAngle /\ normalizedAngle <= endAngle) then
        Math.abs (Vec2.length toPoint - radius)
      else
        let startPoint := Vec2.mk (Vec2.x center + radius * Math.cos startAngle)
                                  (Vec2.y center + radius * Math.sin startAngle) in
        let endPoint := Vec2.mk (Vec2.x center + radius * Math.cos endAngle)
                                (Vec2.y center + radius * Math.sin endAngle) in
        Math.min (Vec2.distance p startPoint) (Vec2.distance p endPoint)
  | Circle center radius =>
      Math.abs (Vec2.distance p center - radius)
  end.

(** [this.elements.filter(e => e.type === 'line')] *)
Definition lines (s : t) : list (Vec2.t * Vec2.t) :=
  flat_map (fun e => match e with
                     | Line start end_ => [(start, end_)]
                     | _ => []
                     end) (elements s).

(** [_pointInPolygon(x, y)]; the quotient is only computed when the two
    ends of the line are on different sides of [y]. *)
Definition _pointInPolygon (s : t) (x y : R) : bool :=
  fold_left
    (fun inside '(start, end_) =>
       let x1 := Vec2.x start in
       let y1 := Vec2.y start in
       let x2 := Vec2.x end_ in
       let y2 := Vec2.y end_ in
       if decide (bool_decide (y1 > y) <> bool_decide (y2 > y)) then
         if decide (x < (x2 - x1) * (y - y1) / (y2 - y1) + x1) then negb inside
         else inside
       else inside)
    (lines s) false.

(** The loop of [toSDF2D] on a sketch that has elements: the distance of
    the first element always replaces [Infinity]. *)
Definition minDist (first : element) (rest : list element) (x y : R) : R :=
  fold_left
    (fun minDist elem =>
       let dist := _distanceToElement elem x y in
       if decide (Math.abs dist < Math.abs minDist) then dist else minDist)
    rest (_distanceToElement first x y).

(** The function that [toSDF2D()] returns, for a sketch whose elements
    are [first :: rest]. *)
Definition sdf2D (s : t) (first : element) (rest : list element) (x y : R) : R :=
  let minDist := minDist first rest x y in
  if closed s then
    let isInside := _pointInPolygon s x y in
    if isInside then - Math.abs minDist else Math.abs minDist
  else minDist.

(** [toSDF2D()(x, y)]; [None] is [Infinity], the value on a sketch
    without elements. *)
Definition toSDF2D (s : t) (x y : R) : option R :=
  match elements s with
  | [] => None
  | first :: rest => Some (sdf2D s first rest x y)
  end.

(** The box that one element adds to the bounds. *)
Definition elementBox (elem : element) : Vec2.t * Vec2.t :=
  match elem with
  | Line start end_ =>
      (Vec2.mk (Math.min (Vec2.x start) (Vec2.x end_))
               (Math.min (Vec2.y start) (Vec2.y end_)),
       Vec2.mk (Math.max (Vec2.x start) (Vec2.x end_))
               (Math.max (Vec2.y start) (Vec2.y end_)))
  | Arc center radius _ _ | Circle center radius =>
      (Vec2.mk (Vec2.x center - radius) (Vec2.y center - radius),
       Vec2.mk (Vec2.x center + radius) (Vec2.y center + radius))
  end.

(** [bounds()]: [None] stands for the infinite bounds of a sketch
    without elements. *)
Definition bounds (s : t) : option (Vec2.t * Vec2.t) :=
  fold_left
    (fun acc elem =>
       let '(lo, hi) := elementBox elem in
       match acc with
       | None => Some (lo, hi)
       | Some (min, max) =>
           Some (Vec2.mk (Math.min (Vec2.x min) (Vec2.x lo))
                         (Math.min (Vec2.y min) (Vec2.y lo)),
                 Vec2.mk (Math.max (Vec2.x max) (Vec2.x hi))
                         (Math.max (Vec2.y max) (Vec2.y hi)))
       end)
    (elements s) None.

End Sketch.

(** ** Extrusion *)

Module Extrude.

(** [linear(sketch, direction, distance)].  On a sketch without elements
    the distances and the bounds are infinite, which a field of the model
    cannot hold: the result is then [None]. *)
Definition linear (sketch : Sketch.t) (direction : Vec3.t) (distance : R) : option Field :=
  match Sketch.elements sketch, Sketch.bounds sketch with
  | first :: rest, Some (min2D, max2D) =>
      let dir := Vec3.normalize direction in
      Some {| _evaluate := fun p =>
                let distAlongExtrusion := Vec3.dot p dir in
                let x := Vec3.x p in
                let y := Vec3.y p in
                let dist2D := Sketch.sdf2D sketch first rest x y in
                let distToBottom := - distAlongExtrusion in
                let distToTop := distAlongExtrusion - distance in
                let distToCap := Math.max distToBottom distToTop in
                if decide (distAlongExtrusion >= 0 /\ distAlongExtrusion <= distance) then
                  if decide (dist2D < 0) then Math.max dist2D distToCap else dist2D
                else
                  if decide (dist2D < 0) then
                    Math.abs (if decide (distAlongExtrusion < 0) then distToBottom
                              else distToTop)
                  else Math.sqrt (dist2D * dist2D + Math.max distToCap 0 ^ 2);
              _bounds := Some (Bounds.mk (Vec3.mk (Vec2.x min2D) (Vec2.y min2D) 0)
                                         (Vec3.mk (Vec2.x max2D) (Vec2.y max2D) distance));
              _metadata := {| type := "extrude-linear"; complexity := 3 |} |}
  | _, _ => None
  end.

End Extrude.

(** ** Marching Cubes lookup tables *)

Module MarchingCubesTables.

(** Which edges are intersected for each cube configuration: bit [i] of
    entry [c] says whether edge [i] is. *)
Definition edgeTable : list Z := [
  0x0; 0x109; 0x203; 0x30a; 0x406; 0x50f; 0x605; 0x70c;
  0x80c; 0x905; 0xa0f; 0xb06; 0xc0a; 0xd03; 0xe09; 0xf00;
  0x190; 0x99; 0x393; 0x29a; 0x596; 0x49f; 0x795; 0x69c;
  0x99c; 0x895; 0xb9f; 0xa96; 0xd9a; 0xc93; 0xf99; 0xe90;
  0x230; 0x339; 0x33; 0x13a; 0x636; 0x73f; 0x435; 0x53c;
  0xa3c; 0xb35; 0x83f; 0x936; 0xe3a; 0xf33; 0xc39; 0xd30;
  0x3a0; 0x2a9; 0x1a3; 0xaa; 0x7a6; 0x6af; 0x5a5; 0x4ac;
  0xbac; 0xaa5; 0x9af; 0x8a6; 0xfaa; 0xea3; 0xda9; 0xca0;
  0x460; 0x569; 0x663; 0x76a; 0x66; 0x16f; 0x265; 0x36c;
  0xc6c; 0xd65; 0xe6f; 0xf66; 0x86a; 0x963; 0xa69; 0xb60;
  0x5f0; 0x4f9; 0x7f3; 0x6fa; 0x1f6; 0xff; 0x3f5; 0x2fc;
  0xdfc; 0xcf5; 0xfff; 0xef6; 0x9fa; 0x8f3; 0xbf9; 0xaf0;
  0x650; 0x759; 0x453; 0x55a; 0x256; 0x35f; 0x55; 0x15c;
  0xe5c; 0xf55; 0xc5f; 0xd56; 0xa5a; 0xb53; 0x859; 0x950;
  0x7c0; 0x6c9; 0x5c3; 0x4ca; 0x3c6; 0x2cf; 0x1c5; 0xcc;
  0xfcc; 0xec5; 0xdcf; 0xcc6; 0xbca; 0xac3; 0x9c9; 0x8c0;
  0x8c0; 0x9c9; 0xac3; 0xbca; 0xcc6; 0xdcf; 0xec5; 0xfcc;
  0xcc; 0x1c5; 0x2cf; 0x3c6; 0x4ca; 0x5c3; 0x6c9; 0x7c0;
  0x950; 0x859; 0xb53; 0xa5a; 0xd56; 0xc5f; 0xf55; 0xe5c;
  0x15c; 0x55; 0x35f; 0x256; 0x55a; 0x453; 0x759; 0x650;
  0xaf0; 0xbf9; 0x8f3; 0x9fa; 0xef6; 0xfff; 0xcf5; 0xdfc;
  0x2fc; 0x3f5; 0xff; 0x1f6; 0x6fa; 0x7f3; 0x4f9; 0x5f0;
  0xb60; 0xa69; 0x963; 0x86a; 0xf66; 0xe6f; 0xd65; 0xc6c;
  0x36c; 0x265; 0x16f; 0x66; 0x76a; 0x663; 0x569; 0x460;
  0xca0; 0xda9; 0xea3; 0xfaa; 0x8a6; 0x9af; 0xaa5; 0xbac;
  0x4ac; 0x5a5; 0x6af; 0x7a6; 0xaa; 0x1a3; 0x2a9; 0x3a0;
  0xd30; 0xc39; 0xf33; 0xe3a; 0x936; 0x83f; 0xb35; 0xa3c;
  0x53c; 0x435; 0x73f; 0x636; 0x13a; 0x33; 0x339; 0x230;
  0xe90; 0xf99; 0xc93; 0xd9a; 0xa96; 0xb9f; 0x895; 0x99c;
  0x69c; 0x795; 0x49f; 0x596; 0x29a; 0x393; 0x99; 0x190;
  0xf00; 0xe09; 0xd03; 0xc0a; 0xb06; 0xa0f; 0x905; 0x80c;
  0x70c; 0x605; 0x50f; 0x406; 0x30a; 0x203; 0x109; 0x0
]%Z.

(** Which triangles to generate for each cube configuration, as triples
    of edge numbers. *)
Definition triTable : list (list nat) := [
  [];
  [0; 8; 3];
  [0; 1; 9];
  [1; 8; 3; 9; 8; 1];
  [1; 2; 10];
  [0; 8; 3; 1; 2; 10];
  [9; 2; 10; 0; 2; 9];
  [2; 8; 3; 2; 10; 8; 10; 9; 8];
  [3; 11; 2];
  [0; 11; 2; 8; 11; 0];
  [1; 9; 0; 2; 3; 11];
  [1; 11; 2; 1; 9; 11; 9; 8; 11];
  [3; 10; 1; 11; 10; 3];
  [0; 10; 1; 0; 8; 10; 8; 11; 10];
  [3; 9; 0; 3; 11; 9; 11; 10; 9];
  [9; 8; 10; 10; 8; 11];
  [4; 7; 8];
  [4; 3; 0; 7; 3; 4];
  [0; 1; 9; 8; 4; 7];
  [4; 1; 9; 4; 7; 1; 7; 3; 1];
  [1; 2; 10; 8; 4; 7];
  [3; 4; 7; 3; 0; 4; 1; 2; 10];
  [9; 2; 10; 9; 0; 2; 8; 4; 7];
  [2; 10; 9; 2; 9; 7; 2; 7; 3; 7; 9; 4];
  [8; 4; 7; 3; 11; 2];
  [11; 4; 7; 11; 2; 4; 2; 0; 4];
  [9; 0; 1; 8; 4; 7; 2; 3; 11];
  [4; 7; 11; 9; 4; 11; 9; 11; 2; 9; 2; 1];
  [3; 10; 1; 3; 11; 10; 7; 8; 4];
  [1; 11; 10; 1; 4; 11; 1; 0; 4; 7; 11; 4];
  [4; 7; 8; 9; 0; 11; 9; 11; 10; 11; 0; 3];
  [4; 7; 11; 4; 11; 9; 9; 11; 10];
  [9; 5; 4];
  [9; 5; 4; 0; 8; 3];
  [0; 5; 4; 1; 5; 0];
  [8; 5; 4; 8; 3; 5; 3; 1; 5];
  [1; 2; 10; 9; 5; 4];
  [3; 0; 8; 1; 2; 10; 4; 9; 5];
  [5; 2; 10; 5; 4; 2; 4; 0; 2];
  [2; 10; 5; 3; 2; 5; 3; 5; 4; 3; 4; 8];
  [9; 5; 4; 2; 3; 11];
  [0; 11; 2; 0; 8; 11; 4; 9; 5];
  [0; 5; 4; 0; 1; 5; 2; 3; 11];
  [2; 1; 5; 2; 5; 8; 2; 8; 11; 4; 8; 5];
  [10; 3; 11; 10; 1; 3; 9; 5; 4];
  [4; 9; 5; 0; 8; 1; 8; 10; 1; 8; 11; 10];
  [5; 4; 0; 5; 0; 11; 5; 11; 10; 11; 0; 3];
  [5; 4; 8; 5; 8; 10; 10; 8; 11];
  [9; 7; 8; 5; 7; 9];
  [9; 3; 0; 9; 5; 3; 5; 7; 3];
  [0; 7; 8; 0; 1; 7; 1; 5; 7];
  [1; 5; 3; 3; 5; 7];
  [9; 7; 8; 9; 5; 7; 10; 1; 2];
  [10; 1; 2; 9; 5; 0; 5; 3; 0; 5; 7; 3];
  [8; 0; 2; 8; 2; 5; 8; 5; 7; 10; 5; 2];
  [2; 10; 5; 2; 5; 3; 3; 5; 7];
  [7; 9; 5; 7; 8; 9; 3; 11; 2];
  [9; 5; 7; 9; 7; 2; 9; 2; 0; 2; 7; 11];
  [2; 3; 11; 0; 1; 8; 1; 7; 8; 1; 5; 7];
  [11; 2; 1; 11; 1; 7; 7; 1; 5];
  [9; 5; 8; 8; 5; 7; 10; 1; 3; 10; 3; 11];
  [5; 7; 0; 5; 0; 9; 7; 11; 0; 1; 0; 10; 11; 10; 0];
  [11; 10; 0; 11; 0; 3; 10; 5; 0; 8; 0; 7; 5; 7; 0];
  [11; 10; 5; 7; 11; 5];
  [10; 6; 5];
  [0; 8; 3; 5; 10; 6];
  [9; 0; 1; 5; 10; 6];
  [1; 8; 3; 1; 9; 8; 5; 10; 6];
  [1; 6; 5; 2; 6; 1];
  [1; 6; 5; 1; 2; 6; 3; 0; 8];
  [9; 6; 5; 9; 0; 6; 0; 2; 6];
  [5; 9; 8; 5; 8; 2; 5; 2; 6; 3; 2; 8];
  [2; 3; 11; 10; 6; 5];
  [11; 0; 8; 11; 2; 0; 10; 6; 5];
  [0; 1; 9; 2; 3; 11; 5; 10; 6];
  [5; 10; 6; 1; 9; 2; 9; 11; 2; 9; 8; 11];
  [6; 3; 11; 6; 5; 3; 5; 1; 3];
  [0; 8; 11; 0; 11; 5; 0; 5; 1; 5; 11; 6];
  [3; 11; 6; 0; 3; 6; 0; 6; 5; 0; 5; 9];
  [6; 5; 9; 6; 9; 11; 11; 9; 8];
  [5; 10; 6; 4; 7; 8];
  [4; 3; 0; 4; 7; 3; 6; 5; 10];
  [1; 9; 0; 5; 10; 6; 8; 4; 7];
  [10; 6; 5; 1; 9; 7; 1; 7; 3; 7; 9; 4];
  [6; 1; 2; 6; 5; 1; 4; 7; 8];
  [1; 2; 5; 5; 2; 6; 3; 0; 4; 3; 4; 7];
  [8; 4; 7; 9; 0; 5; 0; 6; 5; 0; 2; 6];
  [7; 3; 9; 7; 9; 4; 3; 2; 9; 5; 9; 6; 2; 6; 9];
  [3; 11; 2; 7; 8; 4; 10; 6; 5];
  [5; 10; 6; 4; 7; 2; 4; 2; 0; 2; 7; 11];
  [0; 1; 9; 4; 7; 8; 2; 3; 11; 5; 10; 6];
  [9; 2; 1; 9; 11; 2; 9; 4; 11; 7; 11; 4; 5; 10; 6];
  [8; 4; 7; 3; 11; 5; 3; 5; 1; 5; 11; 6];
  [5; 1; 11; 5; 11; 6; 1; 0; 11; 7; 11; 4; 0; 4; 11];
  [0; 5; 9; 0; 6; 5; 0; 3; 6; 11; 6; 3; 8; 4; 7];
  [6; 5; 9; 6; 9; 11; 4; 7; 9; 7; 11; 9];
  [10; 4; 9; 6; 4; 10];
  [4; 10; 6; 4; 9; 10; 0; 8; 3];
  [10; 0; 1; 10; 6; 0; 6; 4; 0];
  [8; 3; 1; 8; 1; 6; 8; 6; 4; 6; 1; 10];
  [1; 4; 9; 1; 2; 4; 2; 6; 4];
  [3; 0; 8; 1; 2; 9; 2; 4; 9; 2; 6; 4];
  [0; 2; 4; 4; 2; 6];
  [8; 3; 2; 8; 2; 4; 4; 2; 6];
  [10; 4; 9; 10; 6; 4; 11; 2; 3];
  [0; 8; 2; 2; 8; 11; 4; 9; 10; 4; 10; 6];
  [3; 11; 2; 0; 1; 6; 0; 6; 4; 6; 1; 10];
  [6; 4; 1; 6; 1; 10; 4; 8; 1; 2; 1; 11; 8; 11; 1];
  [9; 6; 4; 9; 3; 6; 9; 1; 3; 11; 6; 3];
  [8; 11; 1; 8; 1; 0; 11; 6; 1; 9; 1; 4; 6; 4; 1];
  [3; 11; 6; 3; 6; 0; 0; 6; 4];
  [6; 4; 8; 11; 6; 8];
  [7; 10; 6; 7; 8; 10; 8; 9; 10];
  [0; 7; 3; 0; 10; 7; 0; 9; 10; 6; 7; 10];
  [10; 6; 7; 1; 10; 7; 1; 7; 8; 1; 8; 0];
  [10; 6; 7; 10; 7; 1; 1; 7; 3];
  [1; 2; 6; 1; 6; 8; 1; 8; 9; 8; 6; 7];
  [2; 6; 9; 2; 9; 1; 6; 7; 9; 0; 9; 3; 7; 3; 9];
  [7; 8; 0; 7; 0; 6; 6; 0; 2];
  [7; 3; 2; 6; 7; 2];
  [2; 3; 11; 10; 6; 8; 10; 8; 9; 8; 6; 7];
  [2; 0; 7; 2; 7; 11; 0; 9; 7; 6; 7; 10; 9; 10; 7];
  [1; 8; 0; 1; 7; 8; 1; 10; 7; 6; 7; 10; 2; 3; 11];
  [11; 2; 1; 11; 1; 7; 10; 6; 1; 6; 7; 1];
  [8; 9; 6; 8; 6; 7; 9; 1; 6; 11; 6; 3; 1; 3; 6];
  [0; 9; 1; 11; 6; 7];
  [7; 8; 0; 7; 0; 6; 3; 11; 0; 11; 6; 0];
  [7; 11; 6];
  [7; 6; 11];
  [3; 0; 8; 11; 7; 6];
  [0; 1; 9; 11; 7; 6];
  [8; 1; 9; 8; 3; 1; 11; 7; 6];
  [10; 1; 2; 6; 11; 7];
  [1; 2; 10; 3; 0; 8; 6; 11; 7];
  [2; 9; 0; 2; 10; 9; 6; 11; 7];
  [6; 11; 7; 2; 10; 3; 10; 8; 3; 10; 9; 8];
  [7; 2; 3; 6; 2; 7];
  [7; 0; 8; 7; 6; 0; 6; 2; 0];
  [2; 7; 6; 2; 3; 7; 0; 1; 9];
  [1; 6; 2; 1; 8; 6; 1; 9; 8; 8; 7; 6];
  [10; 7; 6; 10; 1; 7; 1; 3; 7];
  [10; 7; 6; 1; 7; 10; 1; 8; 7; 1; 0; 8];
  [0; 3; 7; 0; 7; 10; 0; 10; 9; 6; 10; 7];
  [7; 6; 10; 7; 10; 8; 8; 10; 9];
  [6; 8; 4; 11; 8; 6];
  [3; 6; 11; 3; 0; 6; 0; 4; 6];
  [8; 6; 11; 8; 4; 6; 9; 0; 1];
  [9; 4; 6; 9; 6; 3; 9; 3; 1; 11; 3; 6];
  [6; 8; 4; 6; 11; 8; 2; 10; 1];
  [1; 2; 10; 3; 0; 11; 0; 6; 11; 0; 4; 6];
  [4; 11; 8; 4; 6; 11; 0; 2; 9; 2; 10; 9];
  [10; 9; 3; 10; 3; 2; 9; 4; 3; 11; 3; 6; 4; 6; 3];
  [8; 2; 3; 8; 4; 2; 4; 6; 2];
  [0; 4; 2; 4; 6; 2];
  [1; 9; 0; 2; 3; 4; 2; 4; 6; 4; 3; 8];
  [1; 9; 4; 1; 4; 2; 2; 4; 6];
  [8; 1; 3; 8; 6; 1; 8; 4; 6; 6; 10; 1];
  [10; 1; 0; 10; 0; 6; 6; 0; 4];
  [4; 6; 3; 4; 3; 8; 6; 10; 3; 0; 3; 9; 10; 9; 3];
  [10; 9; 4; 6; 10; 4];
  [4; 9; 5; 7; 6; 11];
  [0; 8; 3; 4; 9; 5; 11; 7; 6];
  [5; 0; 1; 5; 4; 0; 7; 6; 11];
  [11; 7; 6; 8; 3; 4; 3; 5; 4; 3; 1; 5];
  [9; 5; 4; 10; 1; 2; 7; 6; 11];
  [6; 11; 7; 1; 2; 10; 0; 8; 3; 4; 9; 5];
  [7; 6; 11; 5; 4; 10; 4; 2; 10; 4; 0; 2];
  [3; 4; 8; 3; 5; 4; 3; 2; 5; 10; 5; 2; 11; 7; 6];
  [7; 2; 3; 7; 6; 2; 5; 4; 9];
  [9; 5; 4; 0; 8; 6; 0; 6; 2; 6; 8; 7];
  [3; 6; 2; 3; 7; 6; 1; 5; 0; 5; 4; 0];
  [6; 2; 8; 6; 8; 7; 2; 1; 8; 4; 8; 5; 1; 5; 8];
  [9; 5; 4; 10; 1; 6; 1; 7; 6; 1; 3; 7];
  [1; 6; 10; 1; 7; 6; 1; 0; 7; 8; 7; 0; 9; 5; 4];
  [4; 0; 10; 4; 10; 5; 0; 3; 10; 6; 10; 7; 3; 7; 10];
  [7; 6; 10; 7; 10; 8; 5; 4; 10; 4; 8; 10];
  [6; 9; 5; 6; 11; 9; 11; 8; 9];
  [3; 6; 11; 0; 6; 3; 0; 5; 6; 0; 9; 5];
  [0; 11; 8; 0; 5; 11; 0; 1; 5; 5; 6; 11];
  [6; 11; 3; 6; 3; 5; 5; 3; 1];
  [1; 2; 10; 9; 5; 11; 9; 11; 8; 11; 5; 6];
  [0; 11; 3; 0; 6; 11; 0; 9; 6; 5; 6; 9; 1; 2; 10];
  [11; 8; 5; 11; 5; 6; 8; 0; 5; 10; 5; 2; 0; 2; 5];
  [6; 11; 3; 6; 3; 5; 2; 10; 3; 10; 5; 3];
  [5; 8; 9; 5; 2; 8; 5; 6; 2; 3; 8; 2];
  [9; 5; 6; 9; 6; 0; 0; 6; 2];
  [1; 5; 8; 1; 8; 0; 5; 6; 8; 3; 8; 2; 6; 2; 8];
  [1; 5; 6; 2; 1; 6];
  [1; 3; 6; 1; 6; 10; 3; 8; 6; 5; 6; 9; 8; 9; 6];
  [10; 1; 0; 10; 0; 6; 9; 5; 0; 5; 6; 0];
  [0; 3; 8; 5; 6; 10];
  [10; 5; 6];
  [11; 5; 10; 7; 5; 11];
  [11; 5; 10; 11; 7; 5; 8; 3; 0];
  [5; 11; 7; 5; 10; 11; 1; 9; 0];
  [10; 7; 5; 10; 11; 7; 9; 8; 1; 8; 3; 1];
  [11; 1; 2; 11; 7; 1; 7; 5; 1];
  [0; 8; 3; 1; 2; 7; 1; 7; 5; 7; 2; 11];
  [9; 7; 5; 9; 2; 7; 9; 0; 2; 2; 11; 7];
  [7; 5; 2; 7; 2; 11; 5; 9; 2; 3; 2; 8; 9; 8; 2];
  [2; 5; 10; 2; 3; 5; 3; 7; 5];
  [8; 2; 0; 8; 5; 2; 8; 7; 5; 10; 2; 5];
  [9; 0; 1; 5; 10; 3; 5; 3; 7; 3; 10; 2];
  [9; 8; 2; 9; 2; 1; 8; 7; 2; 10; 2; 5; 7; 5; 2];
  [1; 3; 5; 3; 7; 5];
  [0; 8; 7; 0; 7; 1; 1; 7; 5];
  [9; 0; 3; 9; 3; 5; 5; 3; 7];
  [9; 8; 7; 5; 9; 7];
  [5; 8; 4; 5; 10; 8; 10; 11; 8];
  [5; 0; 4; 5; 11; 0; 5; 10; 11; 11; 3; 0];
  [0; 1; 9; 8; 4; 10; 8; 10; 11; 10; 4; 5];
  [10; 11; 4; 10; 4; 5; 11; 3; 4; 9; 4; 1; 3; 1; 4];
  [2; 5; 1; 2; 8; 5; 2; 11; 8; 4; 5; 8];
  [0; 4; 11; 0; 11; 3; 4; 5; 11; 2; 11; 1; 5; 1; 11];
  [0; 2; 5; 0; 5; 9; 2; 11; 5; 4; 5; 8; 11; 8; 5];
  [9; 4; 5; 2; 11; 3];
  [2; 5; 10; 3; 5; 2; 3; 4; 5; 3; 8; 4];
  [5; 10; 2; 5; 2; 4; 4; 2; 0];
  [3; 10; 2; 3; 5; 10; 3; 8; 5; 4; 5; 8; 0; 1; 9];
  [5; 10; 2; 5; 2; 4; 1; 9; 2; 9; 4; 2];
  [8; 4; 5; 8; 5; 3; 3; 5; 1];
  [0; 4; 5; 1; 0; 5];
  [8; 4; 5; 8; 5; 3; 9; 0; 5; 0; 3; 5];
  [9; 4; 5];
  [4; 11; 7; 4; 9; 11; 9; 10; 11];
  [0; 8; 3; 4; 9; 7; 9; 11; 7; 9; 10; 11];
  [1; 10; 11; 1; 11; 4; 1; 4; 0; 7; 4; 11];
  [3; 1; 4; 3; 4; 8; 1; 10; 4; 7; 4; 11; 10; 11; 4];
  [4; 11; 7; 9; 11; 4; 9; 2; 11; 9; 1; 2];
  [9; 7; 4; 9; 11; 7; 9; 1; 11; 2; 11; 1; 0; 8; 3];
  [11; 7; 4; 11; 4; 2; 2; 4; 0];
  [11; 7; 4; 11; 4; 2; 8; 3; 4; 3; 2; 4];
  [2; 9; 10; 2; 7; 9; 2; 3; 7; 7; 4; 9];
  [9; 10; 7; 9; 7; 4; 10; 2; 7; 8; 7; 0; 2; 0; 7];
  [3; 7; 10; 3; 10; 2; 7; 4; 10; 1; 10; 0; 4; 0; 10];
  [1; 10; 2; 8; 7; 4];
  [4; 9; 1; 4; 1; 7; 7; 1; 3];
  [4; 9; 1; 4; 1; 7; 0; 8; 1; 8; 7; 1];
  [4; 0; 3; 7; 4; 3];
  [4; 8; 7];
  [9; 10; 8; 10; 11; 8];
  [3; 0; 9; 3; 9; 11; 11; 9; 10];
  [0; 1; 10; 0; 10; 8; 8; 10; 11];
  [3; 1; 10; 11; 3; 10];
  [1; 2; 11; 1; 11; 9; 9; 11; 8];
  [3; 0; 9; 3; 9; 11; 1; 2; 9; 2; 11; 9];
  [0; 2; 11; 8; 0; 11];
  [3; 2; 11];
  [2; 3; 8; 2; 8; 10; 10; 8; 9];
  [9; 10; 2; 0; 9; 2];
  [2; 3; 8; 2; 8; 10; 0; 1; 8; 1; 10; 8];
  [1; 10; 2];
  [1; 3; 8; 9; 1; 8];
  [0; 9; 1];
  [0; 3; 8];
  []
]%nat.

(** The two corners that each edge joins. *)
Definition edgeConnections : list (nat * nat) :=
  [(0, 1); (1, 2); (2, 3); (3, 0);     (* bottom edges (0-3) *)
   (4, 5); (5, 6); (6, 7); (7, 4);     (* top edges (4-7) *)
   (0, 4); (1, 5); (2, 6); (3, 7)]%nat. (* vertical edges (8-11) *)

End MarchingCubesTables.

(** ** Mesher: one cube *)

(** The three arrays that [marchingCubes] creates and [_marchCube]
    pushes to. *)
Record Arrays := {
  vertices : list R;
  normals : list R;
  indices : list Z
}.

(** [a[i]] used as a number: [undefined] becomes [NaN]. *)
Definition number_at (a : list R) (i : nat) : result R :=
  match a !! i with
  | Some v => Ok v
  | None => Fail NotANumber
  end.

(** [a[i]] for an integer [i]; a negative index is not an element. *)
Definition number_at_index (a : list R) (i : Z) : result R :=
  if decide (0 <= i)%Z then number_at a (Z.to_nat i) else Fail NotANumber.

(** The values of [i] in [for (let i = 0; i < length; i += 3)]. *)
Definition triangleStarts (length : nat) : list nat :=
  map (fun q => 3 * q)%nat (range ((length + 2) / 3)).

(** [a / b] where both are finite numbers and [a] is zero whenever [b]
    is: the quotient is [NaN] when [b] is zero.  ([Number.div] is the
    division on all values.) *)
Definition quotient (a b : R) : result R :=
  if decide (b = 0) then Fail NotANumber else Ok (a / b).

(** ** Binary buffers

    A byte of an [ArrayBuffer] is an 8-bit integer, or one of the four
    bytes of the binary32 encoding of a number; the encoding itself is
    not modelled. *)

Inductive byteval :=
| U8 (b : Z)             (* a byte, 0 <= b < 256 *)
| F32 (x : R) (n : nat). (* byte [n] of [x] as a binary32, least significant first *)

Module DataView.

(** The bytes of an unsigned integer of [size] bytes, little-endian. *)
Definition uint_le (size : nat) (value : Z) : list byteval :=
  map (fun n => U8 (value / 256 ^ Z.of_nat n mod 256)%Z) (range size).

Definition float32_le (x : R) : list byteval :=
  [F32 x 0; F32 x 1; F32 x 2; F32 x 3].

(** Every setter checks that the bytes fit in the buffer. *)
Definition write (view : list byteval) (byteOffset : nat) (bytes : list byteval)
  : result (list byteval) :=
  if decide (byteOffset + List.length bytes <= List.length view)%nat
  then Ok (list_inserts byteOffset bytes view)
  else Fail (RangeError "Offset is outside the bounds of the DataView").

Definition setUint8 (view : list byteval) (byteOffset : nat) (value : Z) :=
  write view byteOffset (uint_le 1 value).
(** [setUint16(byteOffset, value, true)] *)
Definition setUint16 (view : list byteval) (byteOffset : nat) (value : Z) :=
  write view byteOffset (uint_le 2 value).
(** [setUint32(byteOffset, value, true)] *)
Definition setUint32 (view : list byteval) (byteOffset : nat) (value : Z) :=
  write view byteOffset (uint_le 4 value).
(** [setFloat32(byteOffset, value, true)] *)
Definition setFloat32 (view : list byteval) (byteOffset : nat) (value : R) :=
  write view byteOffset (float32_le value).

End DataView.

(** A mesh, as [marchingCubes] returns it. *)
Module Mesh.
Record t := {
  vertices : list R;        (* Float32Array *)
  normals : list R;         (* Float32Array *)
  indices : list Z;         (* Uint32Array *)
  vertexCount : Z;
  triangleCount : Z;
  bounds : Bounds.t
}.
End Mesh.

(** *** Events

    What a call of [marchingCubes] does besides returning: the warnings
    it prints, the calls of [onProgress] it makes and the typed array it
    allocates for the grid.  ([console.log] and [console.time] are not
    recorded.) *)

Inductive message :=
| Text (s : string)
| Sampling (sampleCount totalSamples : Z)
    (* `Sampling: ${sampleCount}/${totalSamples}` *)
| CubesProcessed (cubeCount totalCubes : Z).
    (* `Cubes processed: ${cubeCount}/${totalCubes}` *)

Inductive event :=
| ConsoleWarnBounds
    (* 'Bounds not computed for this field - using default large bounds' *)
| ConsoleWarnMemory (resolution : Z) (estimatedMemory maxMemoryMB : R)
                    (maxResolution : option Z)
    (* the 'Memory limit exceeded!' warning with its four numbers *)
| OnProgress (percent : R) (message : message)
| NewFloat32Array (length : Z).

(** A program: it extends the trace of events and returns or fails. *)
Definition prog (A : Type) : Type := list event -> list event * result A.

Definition ret {A} (a : A) : prog A := fun trace => (trace, Ok a).

Definition pbind {A B} (m : prog A) (k : A -> prog B) : prog B :=
  fun trace =>
    match m trace with
    | (trace', Ok a) => k a trace'
    | (trace', Fail e) => (trace', Fail e)
    end.

Notation "'run' x <- m ; k" := (pbind m (fun x => k))
  (at level 10, x pattern, m at level 100, k at level 200).

Definition emit (e : event) : prog unit := fun trace => (trace ++ [e], Ok tt).

Definition lift {A} (r : result A) : prog A := fun trace => (trace, r).

Fixpoint forM {A S} (body : A -> S -> prog S) (l : list A) (st : S) : prog S :=
  match l with
  | [] => ret st
  | a :: l' => run st' <- body a st; forM body l' st'
  end.

(** The percentages passed to [onProgress], in the order of the calls. *)
Definition percents (trace : list event) : list R :=
  flat_map (fun e => match e with
                     | OnProgress percent _ => [percent]
                     | _ => []
                     end) trace.

Definition nondecreasing (l : list R) : Prop :=
  forall i j a b, (i <= j)%nat -> l !! i = Some a -> l !! j = Some b -> a <= b.

(** The percentages reported so far start at 0, never went down and are
    at most [bound]. *)
Definition progressUpTo (bound : R) (trace : list event) : Prop :=
  (exists rest, percents trace = 0 :: rest) /\
  nondecreasing (percents trace) /\
  Forall (fun p => p <= bound) (percents trace).

Module Mesher.

(** The loop that computes [cubeIndex]; [undefined <= 0] is false. *)
Definition cubeIndex (values : list R) : Z :=
  fold_left
    (fun cubeIndex i =>
       match values !! i with
       | Some v => if decide (v <= 0)
                   then Z.lor cubeIndex (Z.shiftl 1 (Z.of_nat i))
                   else cubeIndex
       | None => cubeIndex
       end)
    (range 8) 0%Z.

(** The body of the edge loop after the [continue]: the point where
    edge [i] crosses the surface. *)
Definition edgePoint (values : list R) (pos step : Vec3.t)
  (cornerOffsets : list (R * R * R)) (i : nat) : result Vec3.t :=
  match MarchingCubesTables.edgeConnections !! i with
  | None => Fail (TypeError "edge is undefined")
  | Some (v1, v2) =>
      do val1 <- number_at values v1;
      do val2 <- number_at values v2;
      do t <- quotient (Math.abs val1) (Math.abs val1 + Math.abs val2);
      match cornerOffsets !! v1, cornerOffsets !! v2 with
      | Some (p1_0, p1_1, p1_2), Some (p2_0, p2_1, p2_2) =>
          Ok (Vec3.mk (Vec3.x pos + (p1_0 + t * (p2_0 - p1_0)) * Vec3.x step)
                      (Vec3.y pos + (p1_1 + t * (p2_1 - p1_1)) * Vec3.y step)
                      (Vec3.z pos + (p1_2 + t * (p2_2 - p1_2)) * Vec3.z step))
      | _, _ => Fail (TypeError "p1 or p2 is undefined")
      end
  end.

(** The edge loop: [edgePoints] is [new Array(12)], a hole is [None]. *)
Definition edgePoints (values : list R) (pos step : Vec3.t)
  (cornerOffsets : list (R * R * R)) (edgeFlags : Z) : result (list (option Vec3.t)) :=
  foldM
    (fun i edgePoints =>
       if decide (Z.land edgeFlags (Z.shiftl 1 (Z.of_nat i)) = 0%Z)
       then Ok edgePoints else
       do point <- edgePoint values pos step cornerOffsets i;
       Ok (<[i := Some point]> edgePoints))
    (range 12) (replicate 12 None).

(** [edgePoints[triangles[i]]]: [undefined] when [triangles[i]] is, or
    when the slot is a hole or out of range. *)
Definition pointOfTriangle (edgePoints : list (option Vec3.t)) (triangles : list nat)
  (i : nat) : option Vec3.t :=
  match triangles !! i with
  | Some e => match edgePoints !! e with
              | Some (Some p) => Some p
              | _ => None
              end
  | None => None
  end.

(** The body of the triangle loop.  [baseIndex] is [vertices.length / 3];
    the arrays only ever grow by nine numbers at a time, so the division
    is exact. *)
Definition emitTriangle (field : Field) (edgePoints : list (option Vec3.t))
  (triangles : list nat) (i : nat) (arrays : Arrays) : Arrays :=
  match pointOfTriangle edgePoints triangles i,
        pointOfTriangle edgePoints triangles (i + 1),
        pointOfTriangle edgePoints triangles (i + 2) with
  | Some p0, Some p1, Some p2 =>
      let baseIndex := (Z.of_nat (List.length (vertices arrays)) / 3)%Z in
      let n0 := FieldMethods._gradient field p0 FieldMethods.default_epsilon in
      let n1 := FieldMethods._gradient field p1 FieldMethods.default_epsilon in
      let n2 := FieldMethods._gradient field p2 FieldMethods.default_epsilon in
      {| vertices := vertices arrays ++
           [Vec3.x p0; Vec3.y p0; Vec3.z p0;
            Vec3.x p1; Vec3.y p1; Vec3.z p1;
            Vec3.x p2; Vec3.y p2; Vec3.z p2];
         normals := normals arrays ++
           [Vec3.x n0; Vec3.y n0; Vec3.z n0;
            Vec3.x n1; Vec3.y n1; Vec3.z n1;
            Vec3.x n2; Vec3.y n2; Vec3.z n2];
         indices := indices arrays ++ [baseIndex; baseIndex + 1; baseIndex + 2]%Z |}
  | _, _, _ => arrays
  end.

(** [_marchCube(values, pos, step, cornerOffsets, vertices, normals,
    indices, field)]: the arrays after the call. *)
Definition _marchCube (values : list R) (pos step : Vec3.t)
  (cornerOffsets : list (R * R * R)) (arrays : Arrays) (field : Field) : result Arrays :=
  let cubeIndex := cubeIndex values in
  if decide (cubeIndex = 0 \/ cubeIndex = 255)%Z then Ok arrays else
  match MarchingCubesTables.edgeTable !! Z.to_nat cubeIndex with
  | None => Fail (TypeError "triangles is undefined")
  | Some edgeFlags =>
      if decide (edgeFlags = 0%Z) then Ok arrays else
      do edgePoints <- edgePoints values pos step cornerOffsets edgeFlags;
      match MarchingCubesTables.triTable !! Z.to_nat cubeIndex with
      | None => Fail (TypeError "triangles is undefined")
      | Some triangles =>
          Ok (fold_left (fun arrays i => emitTriangle field edgePoints triangles i arrays)
                        (triangleStarts (List.length triangles)) arrays)
      end
  end.

(** *** The whole grid *)

(** [options]: an omitted property is [None].  [onProgress] is not a
    field: the calls made to it are recorded as events. *)
Record Options := {
  resolution : option Z;
  maxMemoryMB : option R
}.

(** [options.resolution || 32]: zero is falsy. *)
Definition resolution_or_default (o : option Z) : Z :=
  match o with
  | Some r => if decide (r = 0%Z) then 32%Z else r
  | None => 32%Z
  end.

(** [options.maxMemoryMB || 512] *)
Definition maxMemoryMB_or_default (o : option R) : R :=
  match o with
  | Some m => if decide (m = 0) then 512 else m
  | None => 512
  end.

(** [Math.pow(resolution + 1, 3) * 4 / (1024 * 1024)] *)
Definition estimatedMemory (resolution : Z) : R :=
  (IZR resolution + 1) ^ 3 * 4 / (1024 * 1024).

(** [Math.floor(Math.pow(maxMemoryMB * 1024 * 1024 / 4, 1/3)) - 1]; [NaN]
    is [None]. *)
Definition maxResolution (maxMemoryMB : R) : option Z :=
  match Math.pow_third (maxMemoryMB * 1024 * 1024 / 4) with
  | Ok root => Some (Math.floor root - 1)%Z
  | Fail _ => None
  end.

Definition getIndex (resolution : Z) (i j k : Z) : Z :=
  (i + (resolution + 1) * (j + (resolution + 1) * k))%Z.

(** [grid[index] = value] on a typed array: no effect out of range.  The
    grid of this model holds the number as it is: the rounding to
    binary32, and the infinity that a number beyond the range of binary32
    becomes ([Number.fround]), are outside it. *)
Definition grid_set (grid : list R) (index : Z) (value : R) : list R :=
  if decide (0 <= index)%Z then <[Z.to_nat index := value]> grid else grid.

(** [grid[index]], [undefined] out of range. *)
Definition grid_get (grid : list R) (index : Z) : result R :=
  number_at_index grid index.

Definition cornerOffsets : list (R * R * R) :=
  [(0, 0, 0); (1, 0, 0); (1, 0, 1); (0, 0, 1);
   (0, 1, 0); (1, 1, 0); (1, 1, 1); (0, 1, 1)].

(** The point of the grid with indices [i], [j], [k]. *)
Definition gridPoint (min step : Vec3.t) (i j k : nat) : Vec3.t :=
  Vec3.mk (Vec3.x min + INR i * Vec3.x step)
          (Vec3.y min + INR j * Vec3.y step)
          (Vec3.z min + INR k * Vec3.z step).

(** The three nested loops that sample the field; the state is the grid
    and [sampleCount]. *)
Definition sampleStep (field : Field) (resolution : Z) (min step : Vec3.t)
  (k j i : nat) (st : list R * Z) : prog (list R * Z) :=
  let '(grid, sampleCount) := st in
  let p := gridPoint min step i j k in
  let grid := grid_set grid (getIndex resolution (Z.of_nat i) (Z.of_nat j) (Z.of_nat k))
                       (_evaluate field p) in
  let sampleCount := (sampleCount + 1)%Z in
  let totalSamples := ((resolution + 1) ^ 3)%Z in
  if decide (sampleCount mod 10000 = 0)%Z then
    let percent := 10 + (IZR sampleCount / IZR totalSamples) * 30 in
    run _ <- emit (OnProgress percent (Sampling sampleCount totalSamples));
    ret (grid, sampleCount)
  else ret (grid, sampleCount).

Definition sampleGrid (field : Field) (resolution : Z) (min step : Vec3.t)
  (grid : list R) : prog (list R * Z) :=
  let n := Z.to_nat (resolution + 1) in
  forM (fun k => forM (fun j => forM (sampleStep field resolution min step k j)
                                     (range n))
                      (range n))
       (range n) (grid, 0%Z).

(** The eight samples at the corners of the cube at [i], [j], [k]. *)
Definition cubeValues (grid : list R) (resolution : Z) (i j k : Z) : result (list R) :=
  do c0 <- grid_get grid (getIndex resolution i j k);
  do c1 <- grid_get grid (getIndex resolution (i + 1) j k);
  do c2 <- grid_get grid (getIndex resolution (i + 1) j (k + 1));
  do c3 <- grid_get grid (getIndex resolution i j (k + 1));
  do c4 <- grid_get grid (getIndex resolution i (j + 1) k);
  do c5 <- grid_get grid (getIndex resolution (i + 1) (j + 1) k);
  do c6 <- grid_get grid (getIndex resolution (i + 1) (j + 1) (k + 1));
  do c7 <- grid_get grid (getIndex resolution i (j + 1) (k + 1));
  Ok [c0; c1; c2; c3; c4; c5; c6; c7].

(** The three nested loops over the cubes; the state is the three arrays
    and [cubeCount]. *)
Definition cubeStep (field : Field) (resolution : Z) (min step : Vec3.t) (grid : list R)
  (k j i : nat) (st : Arrays * Z) : prog (Arrays * Z) :=
  let '(arrays, cubeCount) := st in
  run cube <- lift (cubeValues grid resolution (Z.of_nat i) (Z.of_nat j) (Z.of_nat k));
  let basePos := gridPoint min step i j k in
  run arrays <- lift (_marchCube cube basePos step cornerOffsets arrays field);
  let cubeCount := (cubeCount + 1)%Z in
  let totalCubes := (resolution ^ 3)%Z in
  if decide (cubeCount mod 1000 = 0)%Z then
    let percent := 40 + (IZR cubeCount / IZR totalCubes) * 50 in
    run _ <- emit (OnProgress percent (CubesProcessed cubeCount totalCubes));
    ret (arrays, cubeCount)
  else ret (arrays, cubeCount).

Definition processCubes (field : Field) (resolution : Z) (min step : Vec3.t)
  (grid : list R) : prog (Arrays * Z) :=
  let n := Z.to_nat resolution in
  forM (fun k => forM (fun j => forM (cubeStep field resolution min step grid k j)
                                     (range n))
                      (range n))
       (range n) ({| vertices := []; normals := []; indices := [] |}, 0%Z).

(** [new Float32Array(length)]: zeros, or a [RangeError]. *)
Definition newFloat32Array (length : Z) : prog (list R) :=
  run _ <- emit (NewFloat32Array length);
  if decide (length < 0)%Z then lift (Fail (RangeError "Invalid typed array length"))
  else ret (replicate (Z.to_nat length) 0).

(** [new Uint32Array(indices)]: each index modulo 2^32. *)
Definition newUint32Array (indices : list Z) : list Z :=
  map (fun n => n mod 2 ^ 32)%Z indices.

(** [marchingCubes(field, options)] as a program over the trace. *)
Definition marchingCubes_prog (field : Field) (options : Options) : prog Mesh.t :=
  let resolution := resolution_or_default (resolution options) in
  let bounds := FieldMethods.bounds field in
  run _ <- match _bounds field with
           | Some _ => ret tt
           | None => emit ConsoleWarnBounds
           end;
  let maxMemoryMB := maxMemoryMB_or_default (maxMemoryMB options) in
  let estimatedMemory := estimatedMemory resolution in
  if decide (estimatedMemory > maxMemoryMB) then
    let maxResolution := maxResolution maxMemoryMB in
    run _ <- emit (ConsoleWarnMemory resolution estimatedMemory maxMemoryMB maxResolution);
    lift (Fail (ResolutionExceedsMemoryLimit resolution maxResolution))
  else
    run _ <- emit (OnProgress 0 (Text "Starting mesh generation..."));
    let min := Bounds.min bounds in
    let max := Bounds.max bounds in
    let step := Vec3.mk ((Vec3.x max - Vec3.x min) / IZR resolution)
                        ((Vec3.y max - Vec3.y min) / IZR resolution)
                        ((Vec3.z max - Vec3.z min) / IZR resolution) in
    run _ <- emit (OnProgress 10 (Text "Sampling field on grid..."));
    run grid <- newFloat32Array ((resolution + 1) ^ 3);
    run sampled <- sampleGrid field resolution min step grid;
    run _ <- emit (OnProgress 40 (Text "Generating triangles..."));
    run meshed <- processCubes field resolution min step (fst sampled);
    run _ <- emit (OnProgress 90 (Text "Finalizing mesh..."));
    run _ <- emit (OnProgress 100 (Text "Mesh generation complete!"));
    let arrays := fst meshed in
    ret {| Mesh.vertices := vertices arrays;
           Mesh.normals := normals arrays;
           Mesh.indices := newUint32Array (indices arrays);
           Mesh.vertexCount := (Z.of_nat (List.length (vertices arrays)) / 3)%Z;
           Mesh.triangleCount := (Z.of_nat (List.length (indices arrays)) / 3)%Z;
           Mesh.bounds := bounds |}.

(** [marchingCubes(field, options)]: the events of the call, in order,
    and its outcome. *)
Definition marchingCubes (field : Field) (options : Options) : list event * result Mesh.t :=
  marchingCubes_prog field options [].

(** *** Export to STL *)

(** [`FIXED Marching Cubes - ${name}`] *)
Definition header (name : string) : string := "FIXED Marching Cubes - " ++ name.

(** The loop that writes the header text. *)
Definition writeHeader (view : list byteval) (header : string) : result (list byteval) :=
  foldM
    (fun i view =>
       match String.get i header with
       | Some c => DataView.setUint8 view i (Z.of_nat (nat_of_ascii c))
       | None => DataView.setUint8 view i 0 (* charCodeAt gives NaN, written as 0 *)
       end)
    (range (Nat.min (String.length header) 80)) view.

(** [mesh.indices[i]], [undefined] past the end. *)
Definition index_at (indices : list Z) (i : nat) : result Z :=
  match indices !! i with
  | Some n => Ok n
  | None => Fail NotANumber
  end.

(** [{ x: mesh.vertices[i], y: mesh.vertices[i + 1], z: mesh.vertices[i + 2] }] *)
Definition vertex_at (vertices : list R) (i : Z) : result Vec3.t :=
  do x <- number_at_index vertices i;
  do y <- number_at_index vertices (i + 1);
  do z <- number_at_index vertices (i + 2);
  Ok (Vec3.mk x y z).

(** The body of the triangle loop; the state is the buffer and
    [offset]. *)
Definition writeTriangle (mesh : Mesh.t) (i : nat) (st : list byteval * nat)
  : result (list byteval * nat) :=
  let '(view, offset) := st in
  do index0 <- index_at (Mesh.indices mesh) i;
  do index1 <- index_at (Mesh.indices mesh) (i + 1);
  do index2 <- index_at (Mesh.indices mesh) (i + 2);
  let i0 := (index0 * 3)%Z in
  let i1 := (index1 * 3)%Z in
  let i2 := (index2 * 3)%Z in
  do v0 <- vertex_at (Mesh.vertices mesh) i0;
  do v1 <- vertex_at (Mesh.vertices mesh) i1;
  do v2 <- vertex_at (Mesh.vertices mesh) i2;
  let edge1 := Vec3.mk (Vec3.x v1 - Vec3.x v0) (Vec3.y v1 - Vec3.y v0)
                       (Vec3.z v1 - Vec3.z v0) in
  let edge2 := Vec3.mk (Vec3.x v2 - Vec3.x v0) (Vec3.y v2 - Vec3.y v0)
                       (Vec3.z v2 - Vec3.z v0) in
  let normal := Vec3.mk (Vec3.y edge1 * Vec3.z edge2 - Vec3.z edge1 * Vec3.y edge2)
                        (Vec3.z edge1 * Vec3.x edge2 - Vec3.x edge1 * Vec3.z edge2)
                        (Vec3.x edge1 * Vec3.y edge2 - Vec3.y edge1 * Vec3.x edge2) in
  let length := Math.sqrt (Vec3.x normal * Vec3.x normal + Vec3.y normal * Vec3.y normal
                           + Vec3.z normal * Vec3.z normal) in
  let normal := if decide (length > 0)
                then Vec3.mk (Vec3.x normal / length) (Vec3.y normal / length)
                             (Vec3.z normal / length)
                else normal in
  do view <- DataView.setFloat32 view offset (Vec3.x normal);
  do view <- DataView.setFloat32 view (offset + 4) (Vec3.y normal);
  do view <- DataView.setFloat32 view (offset + 8) (Vec3.z normal);
  let offset := (offset + 12)%nat in
  do view <- DataView.setFloat32 view offset (Vec3.x v0);
  do view <- DataView.setFloat32 view (offset + 4) (Vec3.y v0);
  do view <- DataView.setFloat32 view (offset + 8) (Vec3.z v0);
  let offset := (offset + 12)%nat in
  do view <- DataView.setFloat32 view offset (Vec3.x v1);
  do view <- DataView.setFloat32 view (offset + 4) (Vec3.y v1);
  do view <- DataView.setFloat32 view (offset + 8) (Vec3.z v1);
  let offset := (offset + 12)%nat in
  do view <- DataView.setFloat32 view offset (Vec3.x v2);
  do view <- DataView.setFloat32 view (offset + 4) (Vec3.y v2);
  do view <- DataView.setFloat32 view (offset + 8) (Vec3.z v2);
  let offset := (offset + 12)%nat in
  do view <- DataView.setUint16 view offset 0;
  let offset := (offset + 2)%nat in
  Ok (view, offset).

(** [toSTL(mesh, name)]: the bytes of the buffer it returns. *)
Definition toSTL (mesh : Mesh.t) (name : string) : result (list byteval) :=
  let byteLength := (84 + Mesh.triangleCount mesh * 50)%Z in
  if decide (byteLength < 0)%Z then Fail (RangeError "Array buffer allocation failed") else
  let view := replicate (Z.to_nat byteLength) (U8 0) in
  do view <- writeHeader view (header name);
  do view <- DataView.setUint32 view 80 (Mesh.triangleCount mesh);
  do st <- foldM (writeTriangle mesh)
                 (triangleStarts (List.length (Mesh.indices mesh))) (view, 84%nat);
  Ok (fst st).

(** *** Export to OBJ *)

(** A line of the text that [toOBJ] builds.  The digits of a number
    ([toFixed(6)]) are outside the model: a line holds the numbers that
    are printed. *)
Inductive objLine :=
| ObjTitle                          (* # FIXED Marching Cubes Export *)
| ObjName (name : string)           (* # ${name} *)
| ObjVertices (vertexCount : Z)     (* # Vertices: ${mesh.vertexCount} *)
| ObjTriangles (triangleCount : Z)  (* # Triangles: ${mesh.triangleCount} *)
| ObjBlank
| ObjV (x y z : R)                  (* v x y z *)
| ObjVN (x y z : R)                 (* vn x y z *)
| ObjF (i1 i2 i3 : Z).              (* f i1//i1 i2//i2 i3//i3 *)

(** [a[i].toFixed(6)]: a [TypeError] when [a[i]] is [undefined]. *)
Definition toFixed_at (a : list R) (i : nat) : result R :=
  match a !! i with
  | Some v => Ok v
  | None => Fail (TypeError "Cannot read properties of undefined (reading 'toFixed')")
  end.

(** [toOBJ(mesh, name)]: the lines of the text, in order. *)
Definition toOBJ (mesh : Mesh.t) (name : string) : result (list objLine) :=
  let obj := [ObjTitle; ObjName name; ObjVertices (Mesh.vertexCount mesh);
              ObjTriangles (Mesh.triangleCount mesh); ObjBlank] in
  do obj <- foldM (fun i obj =>
                     do x <- toFixed_at (Mesh.vertices mesh) i;
                     do y <- toFixed_at (Mesh.vertices mesh) (i + 1);
                     do z <- toFixed_at (Mesh.vertices mesh) (i + 2);
                     Ok (obj ++ [ObjV x y z]))
                  (triangleStarts (List.length (Mesh.vertices mesh))) obj;
  let obj := obj ++ [ObjBlank] in
  do obj <- foldM (fun i obj =>
                     do x <- toFixed_at (Mesh.normals mesh) i;
                     do y <- toFixed_at (Mesh.normals mesh) (i + 1);
                     do z <- toFixed_at (Mesh.normals mesh) (i + 2);
                     Ok (obj ++ [ObjVN x y z]))
                  (triangleStarts (List.length (Mesh.normals mesh))) obj;
  let obj := obj ++ [ObjBlank] in
  foldM (fun i obj =>
           do index1 <- index_at (Mesh.indices mesh) i;
           do index2 <- index_at (Mesh.indices mesh) (i + 1);
           do index3 <- index_at (Mesh.indices mesh) (i + 2);
           let i1 := (index1 + 1)%Z in
           let i2 := (index2 + 1)%Z in
           let i3 := (index3 + 1)%Z in
           Ok (obj ++ [ObjF i1 i2 i3]))
        (triangleStarts (List.length (Mesh.indices mesh))) obj.

(** *** Statistics *)

Record MemoryUsage := {
  usage_vertices : Z;
  usage_normals : Z;
  usage_indices : Z;
  usage_total : Z
}.

Record Analysis := {
  analysis_vertexCount : Z;
  analysis_triangleCount : Z;
  analysis_bounds : Bounds.t;
  analysis_size : Vec3.t;
  memoryUsage : MemoryUsage;
  memoryMB : R
}.

(** [byteLength] of a [Float32Array] or [Uint32Array]: four bytes per
    element. *)
Definition byteLength {A} (a : list A) : Z := (4 * Z.of_nat (List.length a))%Z.

(** [analyze(mesh)]; a mesh of the model always has bounds. *)
Definition analyze (mesh : Mesh.t) : Analysis :=
  let bounds := Mesh.bounds mesh in
  let size := Vec3.mk (Vec3.x (Bounds.max bounds) - Vec3.x (Bounds.min bounds))
                      (Vec3.y (Bounds.max bounds) - Vec3.y (Bounds.min bounds))
                      (Vec3.z (Bounds.max bounds) - Vec3.z (Bounds.min bounds)) in
  {| analysis_vertexCount := Mesh.vertexCount mesh;
     analysis_triangleCount := Mesh.triangleCount mesh;
     analysis_bounds := bounds;
     analysis_size := size;
     memoryUsage :=
       {| usage_vertices := byteLength (Mesh.vertices mesh);
          usage_normals := byteLength (Mesh.normals mesh);
          usage_indices := byteLength (Mesh.indices mesh);
          usage_total := (byteLength (Mesh.vertices mesh) + byteLength (Mesh.normals mesh)
                          + byteLength (Mesh.indices mesh))%Z |};
     memoryMB := IZR (byteLength (Mesh.vertices mesh) + byteLength (Mesh.normals mesh)
                      + byteLength (Mesh.indices mesh)) / (1024 * 1024) |}.

End Mesher.

(** ** Mesher: one cube, with samples that need not be finite

    [_marchCube] takes its eight [values] from the grid, a
    [Float32Array].  [Mesher._marchCube] above is the embedding for
    finite samples.  The definitions here follow the same lines of
    [_marchCube] for samples of any value, as far as the [vertices]
    array: [pos], [step] and the corner offsets are finite numbers, the
    coordinates computed from the samples need not be. *)

Module MesherIEEE.

(** A point whose coordinates are any numbers. *)
Record Point := {
  x : Number.t;
  y : Number.t;
  z : Number.t
}.

Definition ofVec3 (p : Vec3.t) : Point :=
  {| x := Number.Finite (Vec3.x p);
     y := Number.Finite (Vec3.y p);
     z := Number.Finite (Vec3.z p) |}.

(** [values[i]] used as a number: [undefined] becomes [NaN]. *)
Definition number_at (values : list Number.t) (i : nat) : Number.t :=
  match values !! i with
  | Some v => v
  | None => Number.NaN
  end.

(** The loop that computes [cubeIndex]; [NaN <= 0] and [undefined <= 0]
    are false. *)
Definition cubeIndex (values : list Number.t) : Z :=
  fold_left
    (fun cubeIndex i =>
       match values !! i with
       | Some v => if Number.le v (Number.Finite 0)
                   then Z.lor cubeIndex (Z.shiftl 1 (Z.of_nat i))
                   else cubeIndex
       | None => cubeIndex
       end)
    (range 8) 0%Z.

(** [pos + (p1 + t * (p2 - p1)) * step], for one coordinate. *)
Definition coordinate (pos p1 p2 step : R) (t : Number.t) : Number.t :=
  Number.add (Number.Finite pos)
    (Number.mul (Number.add (Number.Finite p1) (Number.mul t (Number.Finite (p2 - p1))))
                (Number.Finite step)).

(** The object assigned to [edgePoints[i]]. *)
Definition interpolate (pos step : Vec3.t) (p1 p2 : R * R * R) (t : Number.t) : Point :=
  let '(p1_0, p1_1, p1_2) := p1 in
  let '(p2_0, p2_1, p2_2) := p2 in
  {| x := coordinate (Vec3.x pos) p1_0 p2_0 (Vec3.x step) t;
     y := coordinate (Vec3.y pos) p1_1 p2_1 (Vec3.y step) t;
     z := coordinate (Vec3.z pos) p1_2 p2_2 (Vec3.z step) t |}.

(** The body of the edge loop after the [continue]. *)
Definition edgePoint (values : list Number.t) (pos step : Vec3.t)
  (cornerOffsets : list (R * R * R)) (i : nat) : result Point :=
  match MarchingCubesTables.edgeConnections !! i with
  | None => Fail (TypeError "edge is undefined")
  | Some (v1, v2) =>
      let val1 := number_at values v1 in
      let val2 := number_at values v2 in
      let t := Number.div (Number.abs val1)
                          (Number.add (Number.abs val1) (Number.abs val2)) in
      match cornerOffsets !! v1, cornerOffsets !! v2 with
      | Some p1, Some p2 => Ok (interpolate pos step p1 p2 t)
      | _, _ => Fail (TypeError "p1 or p2 is undefined")
      end
  end.

(** The edge loop: [edgePoints] is [new Array(12)], a hole is [None]. *)
Definition edgePoints (values : list Number.t) (pos step : Vec3.t)
  (cornerOffsets : list (R * R * R)) (edgeFlags : Z) : result (list (option Point)) :=
  foldM
    (fun i edgePoints =>
       if decide (Z.land edgeFlags (Z.shiftl 1 (Z.of_nat i)) = 0%Z)
       then Ok edgePoints else
       do point <- edgePoint values pos step cornerOffsets i;
       Ok (<[i := Some point]> edgePoints))
    (range 12) (replicate 12 None).

(** [edgePoints[triangles[i]]]: [undefined] when [triangles[i]] is, or
    when the slot is a hole or out of range. *)
Definition pointOfTriangle (edgePoints : list (option Point)) (triangles : list nat)
  (i : nat) : option Point :=
  match triangles !! i with
  | Some e => match edgePoints !! e with
              | Some (Some p) => Some p
              | _ => None
              end
  | None => None
  end.

(** The body of the triangle loop, as far as [vertices]: the guard
    [!p0 || !p1 || !p2] passes every object, whatever its coordinates. *)
Definition pushTriangle (edgePoints : list (option Point)) (triangles : list nat)
  (i : nat) (vertices : list Number.t) : list Number.t :=
  match pointOfTriangle edgePoints triangles i,
        pointOfTriangle edgePoints triangles (i + 1),
        pointOfTriangle edgePoints triangles (i + 2) with
  | Some p0, Some p1, Some p2 =>
      vertices ++ [x p0; y p0; z p0; x p1; y p1; z p1; x p2; y p2; z p2]
  | _, _, _ => vertices
  end.

(** [_marchCube(values, pos, step, cornerOffsets, vertices, ...)]: the
    array [vertices] after the call. *)
Definition _marchCube (values : list Number.t) (pos step : Vec3.t)
  (cornerOffsets : list (R * R * R)) (vertices : list Number.t)
  : result (list Number.t) :=
  let cubeIndex := cubeIndex values in
  if decide (cubeIndex = 0 \/ cubeIndex = 255)%Z then Ok vertices else
  match MarchingCubesTables.edgeTable !! Z.to_nat cubeIndex with
  | None => Fail (TypeError "triangles is undefined")
  | Some edgeFlags =>
      if decide (edgeFlags = 0%Z) then Ok vertices else
      do edgePoints <- edgePoints values pos step cornerOffsets edgeFlags;
      match MarchingCubesTables.triTable !! Z.to_nat cubeIndex with
      | None => Fail (TypeError "triangles is undefined")
      | Some triangles =>
          Ok (fold_left (fun vertices i => pushTriangle edgePoints triangles i vertices)
                        (triangleStarts (List.length triangles)) vertices)
      end
  end.


(** Whether corner [i] counts as inside: the test of the [cubeIndex]
    loop. *)
Definition inside (values : list Number.t) (i : nat) : bool :=
  match values !! i with
  | Some v => Number.le v (Number.Finite 0)
  | None => false
  end.


End MesherIEEE.

(** ** The specification's formulas

    Definitions that follow the words of the specification, to be
    compared with the code above. *)

Module Spec.

(** "h = clamp(k - |a - b|, 0, k) / k" *)
Definition clamp (v lo hi : R) : R := Math.max lo (Math.min hi v).
Definition h (a b k : R) : R := clamp (k - Math.abs (a - b)) 0 k / k.

(** "result = min(a,b) - h^2 k / 4 (respectively max(a,b) + h^2 k / 4)" *)
Definition smoothMin (a b k : R) : R := Math.min a b - (h a b k) ^ 2 * k / 4.
Definition smoothMax (a b k : R) : R := Math.max a b + (h a b k) ^ 2 * k / 4.

(** "distance ~ 0": within the tolerance that [Vec3.equals] uses. *)
Definition approx (a b : R) : Prop := Math.abs (a - b) < 1 / 1000000.

(** The squared Euclidean distance from a point to a box is attained at
    the nearest point of the box; [nearest] is the distance to it. *)
Definition nearest (bounds : Bounds.t) (p : Vec3.t) (d : R) : Prop :=
  exists q, Bounds.contains bounds q /\ d = Vec3.distance p q /\
            forall q', Bounds.contains bounds q' -> d <= Vec3.distance p q'.

(** The sign convention of the fields: negative inside, positive
    outside; the mesher counts a corner on the surface as inside. *)
Definition fullyInside (values : list R) : Prop := Forall (fun v => v <= 0) values.
Definition fullyOutside (values : list R) : Prop := Forall (fun v => v > 0) values.

(** "linearly interpolate the zero-crossing position between its two
    corner samples using t = |v1| / (|v1| + |v2|)": the parameter and the
    point, for a cube at [pos] with sides [step] and corners at the
    offsets [p1] and [p2]. *)
Definition crossing (val1 val2 : R) : R :=
  Math.abs val1 / (Math.abs val1 + Math.abs val2).
Definition interpolate (pos step : Vec3.t) (p1 p2 : R * R * R) (t : R) : Vec3.t :=
  let '(p1_0, p1_1, p1_2) := p1 in
  let '(p2_0, p2_1, p2_2) := p2 in
  Vec3.mk (Vec3.x pos + (p1_0 + t * (p2_0 - p1_0)) * Vec3.x step)
          (Vec3.y pos + (p1_1 + t * (p2_1 - p1_1)) * Vec3.y step)
          (Vec3.z pos + (p1_2 + t * (p2_2 - p1_2)) * Vec3.z step).

(** "fixed 80-byte header": byte [i] is the code of character [i] of
    the header text, or zero past its end. *)
Definition stlHeaderByte (name : string) (i : nat) : byteval :=
  match String.get i (Mesher.header name) with
  | Some c => U8 (Z.of_nat (nat_of_ascii c))
  | None => U8 0
  end.
Definition stlHeader (name : string) : list byteval :=
  map (stlHeaderByte name) (seq 0 80).

(** Vertex [n] of a mesh, and the three vertices of triangle [q]. *)
Definition vertex (mesh : Mesh.t) (n : Z) : Vec3.t :=
  Vec3.mk (nth (Z.to_nat (n * 3)) (Mesh.vertices mesh) 0)
          (nth (Z.to_nat (n * 3 + 1)) (Mesh.vertices mesh) 0)
          (nth (Z.to_nat (n * 3 + 2)) (Mesh.vertices mesh) 0).
Definition triangle (mesh : Mesh.t) (q : nat) : Vec3.t * Vec3.t * Vec3.t :=
  (vertex mesh (nth (3 * q) (Mesh.indices mesh) 0%Z),
   vertex mesh (nth (3 * q + 1) (Mesh.indices mesh) 0%Z),
   vertex mesh (nth (3 * q + 2) (Mesh.indices mesh) 0%Z)).

(** "the geometric normal from the cross product of the triangle's edge
    vectors, normalized" *)
Definition faceNormal (t : Vec3.t * Vec3.t * Vec3.t) : Vec3.t :=
  let '(v0, v1, v2) := t in
  Vec3.normalize (Vec3.cross (Vec3.sub v1 v0) (Vec3.sub v2 v0)).

(** "12 bytes face normal, 3 x 12 bytes vertices, 2 bytes unused
    attribute field" *)
Definition stlVector (v : Vec3.t) : list byteval :=
  DataView.float32_le (Vec3.x v) ++ DataView.float32_le (Vec3.y v)
  ++ DataView.float32_le (Vec3.z v).
Definition stlTriangle (t : Vec3.t * Vec3.t * Vec3.t) : list byteval :=
  let '(v0, v1, v2) := t in
  stlVector (faceNormal t) ++ stlVector v0 ++ stlVector v1 ++ stlVector v2
  ++ [U8 0; U8 0].

(** "80-byte header + 4-byte little-endian triangle count, followed by
    50 bytes per triangle" *)
Definition stl (mesh : Mesh.t) (name : string) : list byteval :=
  stlHeader name ++ DataView.uint_le 4 (Mesh.triangleCount mesh)
  ++ flat_map (fun q => stlTriangle (triangle mesh q))
              (seq 0 (Z.to_nat (Mesh.triangleCount mesh))).

(** The mesh of the data model: the indices come in threes, there are
    [triangleCount] triples, and every index names a vertex that the
    vertex array holds. *)
Definition wellFormed (mesh : Mesh.t) : Prop :=
  (0 <= Mesh.triangleCount mesh)%Z /\
  Z.of_nat (List.length (Mesh.indices mesh)) = (3 * Mesh.triangleCount mesh)%Z /\
  Forall (fun n => 0 <= n /\ n * 3 + 2 < Z.of_nat (List.length (Mesh.vertices mesh)))%Z
         (Mesh.indices mesh).

(** What the three arrays of the mesher satisfy between two cubes: nine
    coordinates and three indices per triangle, every index naming a
    vertex that is there. *)
Definition arraysWellFormed (arrays : Arrays) : Prop :=
  exists count : nat,
    List.length (vertices arrays) = (9 * count)%nat /\
    List.length (indices arrays) = (3 * count)%nat /\
    Forall (fun n => 0 <= n /\ n * 3 + 2 < Z.of_nat (List.length (vertices arrays)))%Z
           (indices arrays).

End Spec.

(** ** Examples *)

Module Examples.
Definition origin : Vec3.t := Vec3.mk 0 0 0.
Definition unitStep : Vec3.t := Vec3.mk 1 1 1.
Definition cube40 : Bounds.t := Bounds.mk (Vec3.mk (-40) (-40) (-40)) (Vec3.mk 40 40 40).
(** A gyroid lattice bounded to [-40,40]^3. *)
Definition gyroid40 : Field := Lattice.gyroid cube40 10 1.
Definition noArrays : Arrays := {| vertices := []; normals := []; indices := [] |}.
(** A cube with every corner outside, one with every corner inside, and
    one that the surface crosses. *)
Definition outsideCube : list R := [1; 1; 1; 1; 1; 1; 1; 1].
Definition insideCube : list R := [-1; -1; -1; -1; -1; -1; -1; -1].
Definition crossedCube : list R := [-1; 1; 1; 1; 1; 1; 1; 1].
(** One triangle in the plane [z = 0]; its normals are deliberately not
    the geometric one. *)
Definition oneTriangle : Mesh.t :=
  {| Mesh.vertices := [0; 0; 0; 1; 0; 0; 0; 1; 0];
     Mesh.normals := [1; 0; 0; 1; 0; 0; 1; 0; 0];
     Mesh.indices := [0; 1; 2]%Z;
     Mesh.vertexCount := 3;
     Mesh.triangleCount := 1;
     Mesh.bounds := Bounds.mk (Vec3.mk 0 0 0) (Vec3.mk 1 1 0) |}.
End Examples.

(** ** Checks of the lookup tables

    Boolean functions that inspect one configuration of corner signs
    against the tables; they are run on all 256 configurations below. *)

Module TableCheck.

(** Whether corner [i] counts as inside: the test of the [cubeIndex]
    loop. *)
Definition inside (values : list R) (i : nat) : bool :=
  match values !! i with
  | Some v => bool_decide (v <= 0)
  | None => false
  end.

(** [cubeIndex] computed from the eight tests. *)
Definition indexOfSigns (signs : list bool) : Z :=
  fold_left
    (fun cubeIndex i =>
       if nth i signs false
       then Z.lor cubeIndex (Z.shiftl 1 (Z.of_nat i))
       else cubeIndex)
    (range 8) 0%Z.

(** [(edgeFlags & (1 << i)) !== 0] *)
Definition flagged (edgeFlags : Z) (i : nat) : bool :=
  negb (Z.land edgeFlags (Z.shiftl 1 (Z.of_nat i)) =? 0)%Z.

(** Edge [i] is flagged exactly when its two corners differ in sign, and
    both corners are among the eight. *)
Definition edgeConsistent (signs : list bool) (edgeFlags : Z) (i : nat) : bool :=
  match MarchingCubesTables.edgeConnections !! i with
  | Some (v1, v2) =>
      (v1 <? 8)%nat && (v2 <? 8)%nat &&
      Bool.eqb (flagged edgeFlags i) (xorb (nth v1 signs false) (nth v2 signs false))
  | None => false
  end.

(** The configuration has its entries in both tables; every edge is
    consistent; every edge that a triangle names is one of the twelve and
    is flagged; the triangle list is made of triples. *)
Definition configurationConsistent (signs : list bool) : bool :=
  let cubeIndex := Z.to_nat (indexOfSigns signs) in
  match MarchingCubesTables.edgeTable !! cubeIndex,
        MarchingCubesTables.triTable !! cubeIndex with
  | Some edgeFlags, Some triangles =>
      forallb (edgeConsistent signs edgeFlags) (range 12) &&
      forallb (fun e => (e <? 12)%nat && flagged edgeFlags e) triangles &&
      (List.length triangles mod 3 =? 0)%nat
  | _, _ => false
  end.

(** Entry [cubeIndex] of the tables, for a cube that the surface
    crosses: some edge is flagged and the triangle list holds from one to
    five triangles. *)
Definition crossedEntry (cubeIndex : nat) : bool :=
  match MarchingCubesTables.edgeTable !! cubeIndex,
        MarchingCubesTables.triTable !! cubeIndex with
  | Some edgeFlags, Some triangles =>
      negb (edgeFlags =? 0)%Z &&
      (3 <=? List.length triangles)%nat && (List.length triangles <=? 15)%nat
  | _, _ => false
  end.

End TableCheck.

(** * Theorems *)

(** ** Arithmetic of the modelled functions *)

Ltac unfold_math :=
  unfold Math.max3, Math.min3, Math.max, Math.min, Math.abs, Math.sqrt in *.

Ltac split_minmax :=
  unfold_math; unfold Rmax, Rmin, Rabs in *;
  repeat match goal with
         | |- context [Rle_dec ?a ?b] => destruct (Rle_dec a b)
         | |- context [Rcase_abs ?a] => destruct (Rcase_abs a)
         | H : context [Rle_dec ?a ?b] |- _ => destruct (Rle_dec a b)
         | H : context [Rcase_abs ?a] |- _ => destruct (Rcase_abs a)
         end.

Lemma decide_true_if {A} (P : Prop) `{Decision P} (a b : A) :
  P -> (if decide P then a else b) = a.
Proof. intros HP. destruct (decide P); [reflexivity | contradiction]. Qed.

Lemma decide_false_if {A} (P : Prop) `{Decision P} (a b : A) :
  ~ P -> (if decide P then a else b) = b.
Proof. intros HP. destruct (decide P); [contradiction | reflexivity]. Qed.

Lemma sum_squares_nonneg (a b c : R) : 0 <= a * a + b * b + c * c.
Proof. nra. Qed.

Lemma length_axis (a : R) : 0 <= a -> Vec3.length (Vec3.mk a 0 0) = a.
Proof.
  intros Ha. unfold Vec3.length, Math.sqrt. simpl.
  replace (a * a + 0 * 0 + 0 * 0) with (a * a) by ring.
  apply sqrt_square, Ha.
Qed.

Lemma length_zero : Vec3.length (Vec3.mk 0 0 0) = 0.
Proof. apply length_axis. lra. Qed.

(** ** Boolean operations *)

(** C7: the difference of two fields evaluates, at every point, to the
    maximum of the first field's value and the negated second field's
    value: the very same number, with no tolerance.  So a point is in
    the difference (value <= 0) exactly when it is in the first field
    and not strictly inside the second; the difference keeps the bounds
    of the first field, and within them [sample] returns that same
    maximum. *)
Theorem difference_evaluate_exact (a b : Field) (p : Vec3.t) :
  _evaluate (Boolean.difference a b) p = Math.max (_evaluate a p) (- _evaluate b p) /\
  (_evaluate (Boolean.difference a b) p <= 0
   <-> _evaluate a p <= 0 /\ 0 <= _evaluate b p) /\
  FieldMethods.bounds (Boolean.difference a b) = FieldMethods.bounds a /\
  (Bounds.contains (FieldMethods.bounds a) p ->
   FieldMethods.sample (Boolean.difference a b) p
   = {| distance := Math.max (_evaluate a p) (- _evaluate b p);
        outsideBounds := false |}).
Proof.
  split; [reflexivity |]. split; [| split; [reflexivity |]].
  - cbn [_evaluate Boolean.difference]. split_minmax; lra.
  - intros Hin. unfold FieldMethods.sample, FieldMethods.culled.
    cbn [_bounds Boolean.difference]. rewrite decide_true_if by exact Hin.
    reflexivity.
Qed.

Lemma difference_evaluate_exact_witness :
  FieldMethods.sample (Boolean.difference Examples.gyroid40 Examples.gyroid40)
                      Examples.origin
  = {| distance := Math.max (_evaluate Examples.gyroid40 Examples.origin)
                            (- _evaluate Examples.gyroid40 Examples.origin);
       outsideBounds := false |}.
Proof.
  apply (difference_evaluate_exact Examples.gyroid40 Examples.gyroid40 Examples.origin).
  unfold Bounds.contains, Examples.gyroid40, Examples.cube40, Examples.origin. cbn. lra.
Defined.

Lemma smoothMin_two (a b k : R) :
  k <> 0 -> Boolean._smoothMin [a; b] k = Ok (Spec.smoothMin a b k).
Proof.
  intros Hk. unfold Boolean._smoothMin, Boolean.smoothMin_step; simpl.
  rewrite decide_false_if by assumption. cbn [bind]. f_equal.
  unfold Spec.smoothMin, Spec.h, Spec.clamp.
  assert (Hc : Math.max 0 (Math.min k (k - Math.abs (a - b)))
               = Math.max (k - Math.abs (a - b)) 0) by (split_minmax; lra).
  rewrite Hc. replace 0.25 with (1 / 4) by lra. field. assumption.
Qed.

Lemma smoothMax_two (a b k : R) :
  k <> 0 -> Boolean._smoothMax [a; b] k = Ok (Spec.smoothMax a b k).
Proof.
  intros Hk. unfold Boolean._smoothMax, Boolean.smoothMax_step; simpl.
  rewrite decide_false_if by assumption. cbn [bind]. f_equal.
  unfold Spec.smoothMax, Spec.h, Spec.clamp.
  assert (Hc : Math.max 0 (Math.min k (k - Math.abs (a - b)))
               = Math.max (k - Math.abs (a - b)) 0) by (split_minmax; lra).
  rewrite Hc. replace 0.25 with (1 / 4) by lra. field. assumption.
Qed.

Lemma h_vanishes (a b k : R) : 0 < k < Math.abs (a - b) -> Spec.h a b k = 0.
Proof.
  intros [Hk Hlt]. unfold Spec.h, Spec.clamp.
  assert (Hc : Math.max 0 (Math.min k (k - Math.abs (a - b))) = 0)
    by (split_minmax; lra).
  rewrite Hc. field. lra.
Qed.

(** C9: on two values the code computes the polynomial smooth minimum
    and maximum of the specification, and for distinct values both
    reduce to the plain minimum and maximum once the blend radius is
    small enough (below the gap between the values). *)
Theorem smooth_blend_reduces_to_min_max (a b : R) :
  a <> b ->
  exists k0, 0 < k0 /\
    forall k, 0 < k < k0 ->
      Boolean._smoothMin [a; b] k = Ok (Spec.smoothMin a b k) /\
      Spec.smoothMin a b k = Math.min a b /\
      Boolean._smoothMax [a; b] k = Ok (Spec.smoothMax a b k) /\
      Spec.smoothMax a b k = Math.max a b.
Proof.
  intros Hab. exists (Math.abs (a - b)). split.
  - unfold Math.abs. apply Rabs_pos_lt. lra.
  - intros k Hk.
    assert (Hne : k <> 0) by lra.
    pose proof (h_vanishes a b k Hk) as Hh.
    repeat split.
    + apply smoothMin_two, Hne.
    + unfold Spec.smoothMin. rewrite Hh. field.
    + apply smoothMax_two, Hne.
    + unfold Spec.smoothMax. rewrite Hh. field.
Qed.

Lemma smooth_blend_reduces_to_min_max_witness :
  exists k0, 0 < k0 /\
    forall k, 0 < k < k0 ->
      Boolean._smoothMin [0; 1] k = Ok (Spec.smoothMin 0 1 k) /\
      Spec.smoothMin 0 1 k = Math.min 0 1 /\
      Boolean._smoothMax [0; 1] k = Ok (Spec.smoothMax 0 1 k) /\
      Spec.smoothMax 0 1 k = Math.max 0 1.
Proof. apply (smooth_blend_reduces_to_min_max 0 1). lra. Defined.

(** ** Primitives *)

Lemma length_diagonal (a : R) : 0 <= a -> Vec3.length (Vec3.mk a a a) = a * Math.sqrt 3.
Proof.
  intros Ha. unfold Vec3.length, Math.sqrt. cbn [Vec3.x Vec3.y Vec3.z].
  replace (a * a + a * a + a * a) with (a * a * 3) by ring.
  rewrite sqrt_mult by nra. rewrite sqrt_square by exact Ha. reflexivity.
Qed.

Lemma box_ok (center size : Vec3.t) :
  0 < Vec3.x size -> 0 < Vec3.y size -> 0 < Vec3.z size ->
  Primitives.box center size =
  Ok {| _evaluate := Primitives.box_evaluate center (Vec3.mul size 0.5);
        _bounds := Some (Bounds.mk (Vec3.sub center (Vec3.mul size 0.5))
                                   (Vec3.add center (Vec3.mul size 0.5)));
        _metadata := {| type := "box"; complexity := 1 |} |}.
Proof.
  intros Hx Hy Hz. unfold Primitives.box.
  rewrite decide_false_if by lra. reflexivity.
Qed.

(** The box signed distance on the positive x axis of a cube centred at
    the origin: the distance to the face [x = h]. *)
Lemma box_evaluate_on_axis (h a : R) :
  0 < h -> 0 <= a ->
  Primitives.box_evaluate (Vec3.mk 0 0 0) (Vec3.mk h h h) (Vec3.mk a 0 0) = a - h.
Proof.
  intros Hh Ha. unfold Primitives.box_evaluate. cbn [Vec3.x Vec3.y Vec3.z].
  replace (Math.abs (a - 0) - h) with (a - h) by (split_minmax; lra).
  replace (Math.abs (0 - 0) - h) with (- h) by (split_minmax; lra).
  replace (Math.max (- h) 0) with 0 by (split_minmax; lra).
  destruct (Rle_dec h a) as [Hle | Hgt].
  - replace (Math.max (a - h) 0) with (a - h) by (split_minmax; lra).
    rewrite length_axis by lra.
    replace (Math.min (Math.max3 (a - h) (- h) (- h)) 0) with 0 by (split_minmax; lra).
    ring.
  - replace (Math.max (a - h) 0) with 0 by (split_minmax; lra).
    rewrite length_zero.
    replace (Math.min (Math.max3 (a - h) (- h) (- h)) 0) with (a - h)
      by (split_minmax; lra).
    ring.
Qed.

(** C6, as the code has it: for the box of size 10 centred at the origin
    the point (10,0,0) is 5 away from the face [x = 5], and both
    [_evaluate] and [sample] return 5 there; the distance is 0 on the
    face, at (5,0,0), and -5 at the centre. *)
Theorem box_scenario :
  exists f, Primitives.box (Vec3.mk 0 0 0) (Vec3.mk 10 10 10) = Ok f /\
    _evaluate f (Vec3.mk 10 0 0) = 5 /\
    distance (FieldMethods.sample f (Vec3.mk 10 0 0)) = 5 /\
    _evaluate f (Vec3.mk 5 0 0) = 0 /\
    _evaluate f (Vec3.mk 0 0 0) = -5.
Proof.
  eexists. split; [apply box_ok; cbn; lra |].
  cbn [_evaluate]. unfold Vec3.mul; cbn [Vec3.x Vec3.y Vec3.z].
  replace (10 * 0.5) with 5 by lra.
  repeat split.
  - rewrite box_evaluate_on_axis by lra. lra.
  - unfold FieldMethods.sample, FieldMethods.culled. cbn [_bounds].
    rewrite decide_false_if
      by (unfold Bounds.contains, Vec3.add, Vec3.sub; cbn; lra).
    cbn [distance]. unfold Bounds.center, Bounds.size, Vec3.add, Vec3.sub, Vec3.mul.
    cbn [Bounds.min Bounds.max Vec3.x Vec3.y Vec3.z].
    replace (10 - (0 - 5 + (0 + 5)) * 0.5) with 10 by lra.
    replace (0 - (0 - 5 + (0 + 5)) * 0.5) with 0 by lra.
    rewrite length_axis by lra.
    replace (0 + 5 - (0 - 5)) with 10 by lra.
    replace (Math.max3 10 10 10) with 10 by (split_minmax; lra).
    lra.
  - rewrite box_evaluate_on_axis by lra. lra.
  - rewrite box_evaluate_on_axis by lra. lra.
Qed.

(** C6 as stated fails: at (10,0,0) the distance is 5, which is not
    approximately 0. *)
Lemma point_10_0_0_is_off_the_face :
  exists f, Primitives.box (Vec3.mk 0 0 0) (Vec3.mk 10 10 10) = Ok f /\
    ~ Spec.approx (_evaluate f (Vec3.mk 10 0 0)) 0.
Proof.
  eexists. split; [apply box_ok; cbn; lra |].
  cbn [_evaluate]. unfold Vec3.mul; cbn [Vec3.x Vec3.y Vec3.z].
  replace (10 * 0.5) with 5 by lra.
  rewrite box_evaluate_on_axis by lra.
  unfold Spec.approx. split_minmax; lra.
Qed.

Lemma distance_self (a : Vec3.t) : Vec3.distance a a = 0.
Proof.
  unfold Vec3.distance, Vec3.sub, Vec3.length, Math.sqrt. cbn [Vec3.x Vec3.y Vec3.z].
  replace ((Vec3.x a - Vec3.x a) * (Vec3.x a - Vec3.x a)
           + (Vec3.y a - Vec3.y a) * (Vec3.y a - Vec3.y a)
           + (Vec3.z a - Vec3.z a) * (Vec3.z a - Vec3.z a)) with 0 by ring.
  apply sqrt_0.
Qed.

Lemma cylinder_coincident (start : Vec3.t) (radius : R) :
  exists message, Primitives.cylinder start start radius = Fail (Thrown message).
Proof.
  unfold Primitives.cylinder.
  destruct (decide (radius <= 0)); [eexists; reflexivity |].
  rewrite decide_true_if by (rewrite distance_self; lra).
  eexists; reflexivity.
Qed.

Lemma cone_coincident (base : Vec3.t) (radius : R) :
  exists message, Primitives.cone base base radius = Fail (Thrown message).
Proof.
  unfold Primitives.cone.
  destruct (decide (radius <= 0)); [eexists; reflexivity |].
  rewrite decide_true_if by (rewrite distance_self; lra).
  eexists; reflexivity.
Qed.

(** The checks that the constructors make: a non-positive radius of a
    sphere, cylinder, cone or capsule, a non-positive component of a box
    size, a non-positive scale factor (given as one number or per axis),
    and coincident end points of a cylinder or of a cone, each make the
    constructing call throw; no field is returned. *)
Theorem degenerate_parameters_throw
  (center start end_ : Vec3.t) (radius : R) (size factors : Vec3.t) (field : Field) :
  radius <= 0 ->
  Vec3.x size <= 0 \/ Vec3.y size <= 0 \/ Vec3.z size <= 0 ->
  Vec3.x factors <= 0 \/ Vec3.y factors <= 0 \/ Vec3.z factors <= 0 ->
  Primitives.sphere center radius = Fail (Thrown "Sphere radius must be positive") /\
  Primitives.cylinder start end_ radius = Fail (Thrown "Cylinder radius must be positive") /\
  Primitives.cone start end_ radius = Fail (Thrown "Cone radius must be positive") /\
  Primitives.capsule start end_ radius = Fail (Thrown "Capsule radius must be positive") /\
  Primitives.box center size = Fail (Thrown "Box dimensions must be positive") /\
  Transform.scale field (PerAxis factors) center
    = Fail (Thrown "Scale factors must be positive") /\
  Transform.scale field (Uniform radius) center
    = Fail (Thrown "Scale factors must be positive") /\
  (forall r, exists message,
      Primitives.cylinder start start r = Fail (Thrown message)) /\
  (forall r, exists message,
      Primitives.cone start start r = Fail (Thrown message)).
Proof.
  intros Hr Hsize Hfactors.
  unfold Primitives.sphere, Primitives.cylinder, Primitives.cone, Primitives.capsule,
    Primitives.box, Transform.scale.
  rewrite !(decide_true_if (radius <= 0)) by assumption.
  rewrite (decide_true_if _ _ _ Hsize).
  rewrite (decide_true_if _ _ _ Hfactors).
  rewrite decide_true_if by (cbn; left; assumption).
  repeat split; try reflexivity.
  - intros r. apply cylinder_coincident.
  - intros r. apply cone_coincident.
Qed.

Lemma degenerate_parameters_throw_witness :
  Primitives.sphere (Vec3.mk 0 0 0) 0 = Fail (Thrown "Sphere radius must be positive") /\
  Primitives.cylinder (Vec3.mk 0 0 0) (Vec3.mk 0 0 1) 0
    = Fail (Thrown "Cylinder radius must be positive") /\
  Primitives.cone (Vec3.mk 0 0 0) (Vec3.mk 0 0 1) 0
    = Fail (Thrown "Cone radius must be positive") /\
  Primitives.capsule (Vec3.mk 0 0 0) (Vec3.mk 0 0 1) 0
    = Fail (Thrown "Capsule radius must be positive") /\
  Primitives.box (Vec3.mk 0 0 0) (Vec3.mk 1 0 1)
    = Fail (Thrown "Box dimensions must be positive") /\
  Transform.scale (Lattice.gyroid (Bounds.mk (Vec3.mk 0 0 0) (Vec3.mk 1 1 1)) 1 1)
                  (PerAxis (Vec3.mk 1 1 (-1))) (Vec3.mk 0 0 0)
    = Fail (Thrown "Scale factors must be positive") /\
  Transform.scale (Lattice.gyroid (Bounds.mk (Vec3.mk 0 0 0) (Vec3.mk 1 1 1)) 1 1)
                  (Uniform 0) (Vec3.mk 0 0 0)
    = Fail (Thrown "Scale factors must be positive") /\
  (forall r, exists message,
      Primitives.cylinder (Vec3.mk 0 0 0) (Vec3.mk 0 0 0) r = Fail (Thrown message)) /\
  (forall r, exists message,
      Primitives.cone (Vec3.mk 0 0 0) (Vec3.mk 0 0 0) r = Fail (Thrown message)).
Proof.
  apply (degenerate_parameters_throw (Vec3.mk 0 0 0) (Vec3.mk 0 0 0) (Vec3.mk 0 0 1) 0
           (Vec3.mk 1 0 1) (Vec3.mk 1 1 (-1))); cbn; lra.
Defined.

(** C5, the code against the claim at coincident end points.  With
    [start] equal to [end] and a positive radius, [cylinder] and [cone]
    throw from the constructing call, as the claim says they must;
    [capsule], which has the same parameters, makes no such check: it
    returns a field, the sphere of that radius around the point. *)
Theorem capsule_accepts_coincident_points (start : Vec3.t) (radius : R) :
  0 < radius ->
  Primitives.cylinder start start radius
  = Fail (Thrown "Cylinder start and end must be different") /\
  Primitives.cone start start radius
  = Fail (Thrown "Cone base and tip must be different") /\
  exists f, Primitives.capsule start start radius = Ok f /\
            forall p, _evaluate f p = Vec3.distance p start - radius.
Proof.
  intros Hr. split; [| split].
  - unfold Primitives.cylinder. rewrite decide_false_if by lra.
    rewrite decide_true_if by (rewrite distance_self; lra). reflexivity.
  - unfold Primitives.cone. rewrite decide_false_if by lra.
    rewrite decide_true_if by (rewrite distance_self; lra). reflexivity.
  - unfold Primitives.capsule. rewrite decide_false_if by lra.
    eexists. split; [reflexivity |]. intros p. cbn [_evaluate].
    unfold Primitives.capsule_evaluate. cbv zeta. f_equal. f_equal.
    unfold Vec3.sub, Vec3.add, Vec3.mul. cbn [Vec3.x Vec3.y Vec3.z].
    destruct start as [sx sy sz]. cbn [Vec3.x Vec3.y Vec3.z].
    replace (sx - sx) with 0 by ring. replace (sy - sy) with 0 by ring.
    replace (sz - sz) with 0 by ring.
    unfold Vec3.normalize. rewrite length_zero. rewrite decide_false_if by lra.
    cbn [Vec3.x Vec3.y Vec3.z]. f_equal; ring.
Qed.

Lemma capsule_accepts_coincident_points_witness :
  0 < 1 /\
  exists f, Primitives.capsule (Vec3.mk 0 0 0) (Vec3.mk 0 0 0) 1 = Ok f /\
            forall p, _evaluate f p = Vec3.distance p (Vec3.mk 0 0 0) - 1.
Proof.
  split; [lra |].
  apply (capsule_accepts_coincident_points (Vec3.mk 0 0 0) 1). lra.
Defined.

(** ** Lattices *)

Lemma outside_iff_not_contains (bounds : Bounds.t) (p : Vec3.t) :
  Lattice.outside bounds p <-> ~ Bounds.contains bounds p.
Proof.
  unfold Lattice.outside, Bounds.contains. split; intros H; [lra |].
  destruct (Rlt_dec (Vec3.x p) (Vec3.x (Bounds.min bounds))); [lra |].
  destruct (Rgt_dec (Vec3.x p) (Vec3.x (Bounds.max bounds))); [lra |].
  destruct (Rlt_dec (Vec3.y p) (Vec3.y (Bounds.min bounds))); [lra |].
  destruct (Rgt_dec (Vec3.y p) (Vec3.y (Bounds.max bounds))); [lra |].
  destruct (Rlt_dec (Vec3.z p) (Vec3.z (Bounds.min bounds))); [lra |].
  destruct (Rgt_dec (Vec3.z p) (Vec3.z (Bounds.max bounds))); [lra |].
  exfalso. apply H. lra.
Qed.

Lemma lattice_evaluate_outside (mk : Bounds.t -> R -> R -> Field)
  (bounds : Bounds.t) (cellSize thickness : R) (p : Vec3.t) :
  In mk Lattice.all -> Lattice.outside bounds p ->
  _evaluate (mk bounds cellSize thickness) p = Lattice.boxDistance bounds p.
Proof.
  intros Hmk Hout. simpl in Hmk.
  destruct Hmk as [<- | [<- | [<- | [<- | [<- | [<- | []]]]]]];
    cbn [_evaluate Lattice.gyroid Lattice.schwarzP Lattice.diamond Lattice.schwarzD
         Lattice.cubic Lattice.octet];
    apply decide_true_if; assumption.
Qed.

(** One coordinate of the distance to a box: the offset [d] that the code
    computes is the distance from [x] to its clamped value, which lies in
    [lo, hi] and is the point of [lo, hi] nearest to [x]. *)
Lemma box_offset_coordinate (lo hi x : R) :
  lo <= hi ->
  let c := Math.max lo (Math.min hi x) in
  let d := Math.max3 (lo - x) (x - hi) 0 in
  c >= lo /\ c <= hi /\ (x - c) * (x - c) = d * d /\ 0 <= d /\
  forall q, q >= lo -> q <= hi -> d * d <= (x - q) * (x - q).
Proof.
  intros Hle c d. subst c d.
  repeat split; try (split_minmax; nra).
  intros q Hq1 Hq2. split_minmax;
    first [ nra
          | pose proof (Rle_0_sqr (x - q)) as Hsq; unfold Rsqr in Hsq; lra
          | assert (0 <= (q - lo) * (q + lo - 2 * x)) by (apply Rmult_le_pos; lra); nra
          | assert (0 <= (hi - q) * (2 * x - hi - q)) by (apply Rmult_le_pos; lra); nra ].
Qed.

Lemma boxDistance_positive (bounds : Bounds.t) (p : Vec3.t) :
  Lattice.outside bounds p -> Lattice.boxDistance bounds p > 0.
Proof.
  intros Hout. unfold Lattice.boxDistance, Math.sqrt.
  apply Rlt_gt, sqrt_lt_R0.
  set (dx := Math.max3 _ _ 0). set (dy := Math.max3 _ _ 0). set (dz := Math.max3 _ _ 0).
  assert (0 <= dx /\ 0 <= dy /\ 0 <= dz /\ (0 < dx \/ 0 < dy \/ 0 < dz)) as (Hx & Hy & Hz & Hpos).
  { subst dx dy dz. unfold Lattice.outside in Hout.
    repeat split; split_minmax; lra. }
  nra.
Qed.

Lemma boxDistance_nearest (bounds : Bounds.t) (p : Vec3.t) :
  Bounds.isValid bounds -> Spec.nearest bounds p (Lattice.boxDistance bounds p).
Proof.
  intros (Hx & Hy & Hz).
  pose proof (box_offset_coordinate _ _ (Vec3.x p) Hx) as (Hx1 & Hx2 & Hx3 & Hx4 & Hx5).
  pose proof (box_offset_coordinate _ _ (Vec3.y p) Hy) as (Hy1 & Hy2 & Hy3 & Hy4 & Hy5).
  pose proof (box_offset_coordinate _ _ (Vec3.z p) Hz) as (Hz1 & Hz2 & Hz3 & Hz4 & Hz5).
  exists (Vec3.clamp p (Bounds.min bounds) (Bounds.max bounds)).
  split; [| split].
  - unfold Bounds.contains, Vec3.clamp. cbn [Vec3.x Vec3.y Vec3.z]. tauto.
  - unfold Lattice.boxDistance, Vec3.distance, Vec3.length, Vec3.sub, Vec3.clamp.
    cbn [Vec3.x Vec3.y Vec3.z]. rewrite Hx3, Hy3, Hz3. reflexivity.
  - intros q (Hq1 & Hq2 & Hq3 & Hq4 & Hq5 & Hq6).
    unfold Lattice.boxDistance, Vec3.distance, Vec3.length, Vec3.sub, Math.sqrt.
    cbn [Vec3.x Vec3.y Vec3.z]. apply sqrt_le_1_alt.
    specialize (Hx5 _ Hq1 Hq2). specialize (Hy5 _ Hq3 Hq4). specialize (Hz5 _ Hq5 Hq6).
    lra.
Qed.

(** C8: every lattice, evaluated at a point outside its bounds, returns
    the Euclidean distance from the point to the bounding box (the
    distance to the nearest point of the box), and that distance is
    positive. *)
Theorem lattice_outside_bounds (mk : Bounds.t -> R -> R -> Field)
  (bounds : Bounds.t) (cellSize thickness : R) (p : Vec3.t) :
  In mk Lattice.all ->
  Bounds.isValid bounds ->
  ~ Bounds.contains bounds p ->
  Spec.nearest bounds p (_evaluate (mk bounds cellSize thickness) p) /\
  _evaluate (mk bounds cellSize thickness) p > 0.
Proof.
  intros Hmk Hvalid Hout. apply outside_iff_not_contains in Hout.
  rewrite (lattice_evaluate_outside mk) by assumption.
  split; [apply boxDistance_nearest, Hvalid | apply boxDistance_positive, Hout].
Qed.

Lemma lattice_outside_bounds_witness :
  Spec.nearest (Bounds.mk (Vec3.mk (-40) (-40) (-40)) (Vec3.mk 40 40 40))
    (Vec3.mk 1000 1000 1000)
    (_evaluate (Lattice.gyroid (Bounds.mk (Vec3.mk (-40) (-40) (-40)) (Vec3.mk 40 40 40))
                               10 1)
               (Vec3.mk 1000 1000 1000)) /\
  _evaluate (Lattice.gyroid (Bounds.mk (Vec3.mk (-40) (-40) (-40)) (Vec3.mk 40 40 40))
                            10 1)
            (Vec3.mk 1000 1000 1000) > 0.
Proof.
  apply (lattice_outside_bounds Lattice.gyroid).
  - left; reflexivity.
  - unfold Bounds.isValid; cbn; lra.
  - unfold Bounds.contains; cbn; lra.
Defined.

(** The scenario of the specification: the gyroid bounded to
    [-40,40]^3, at (1000,1000,1000), returns the distance to the corner
    (40,40,40), which is [960 * sqrt 3]. *)
Lemma gyroid_far_corner (cellSize thickness : R) :
  _evaluate (Lattice.gyroid (Bounds.mk (Vec3.mk (-40) (-40) (-40)) (Vec3.mk 40 40 40))
                            cellSize thickness)
            (Vec3.mk 1000 1000 1000)
  = 960 * Math.sqrt 3.
Proof.
  rewrite (lattice_evaluate_outside Lattice.gyroid)
    by (first [left; reflexivity | unfold Lattice.outside; cbn; lra]).
  unfold Lattice.boxDistance. cbn [Bounds.min Bounds.max Vec3.x Vec3.y Vec3.z].
  replace (Math.max3 (-40 - 1000) (1000 - 40) 0) with 960 by (split_minmax; lra).
  unfold Math.sqrt.
  replace (960 * 960 + 960 * 960 + 960 * 960) with (960 * 960 * 3) by ring.
  rewrite sqrt_mult by lra. rewrite sqrt_square by lra. reflexivity.
Qed.

(** [sample] does not reach the lattice there: the point is outside the
    stored bounds, and the early return gives the distance to the centre
    less half the largest side, [1000 * sqrt 3 - 40], positive as well. *)
Lemma gyroid_far_corner_sample :
  FieldMethods.sample Examples.gyroid40 (Vec3.mk 1000 1000 1000)
  = {| distance := 1000 * Math.sqrt 3 - 40; outsideBounds := true |}.
Proof.
  unfold FieldMethods.sample, FieldMethods.culled, Examples.gyroid40, Lattice.gyroid.
  cbn [_bounds].
  rewrite decide_false_if by (unfold Bounds.contains, Examples.cube40; cbn; lra).
  unfold Bounds.center, Bounds.size, Examples.cube40, Vec3.add, Vec3.sub, Vec3.mul.
  cbn [Bounds.min Bounds.max Vec3.x Vec3.y Vec3.z].
  replace (1000 - (-40 + 40) * 0.5) with 1000 by lra.
  rewrite length_diagonal by lra.
  replace (40 - -40) with 80 by lra.
  replace (Math.max3 80 80 80) with 80 by (split_minmax; lra).
  f_equal. lra.
Qed.

(** ** Marching cubes: the index of a cube and the tables *)

Lemma cubeIndex_step (values : list R) (i : nat) (f : Z -> Z) (acc : Z) :
  match values !! i with
  | Some v => if decide (v <= 0) then f acc else acc
  | None => acc
  end = if TableCheck.inside values i then f acc else acc.
Proof.
  unfold TableCheck.inside. destruct (values !! i) as [v |]; [| reflexivity].
  unfold bool_decide, decide. destruct (Rle_decision v 0); reflexivity.
Qed.

Lemma cubeIndex_signs (values : list R) :
  Mesher.cubeIndex values
  = TableCheck.indexOfSigns (map (TableCheck.inside values) (range 8)).
Proof.
  unfold Mesher.cubeIndex, TableCheck.indexOfSigns, range.
  cbn [seq fold_left map nth].
  rewrite !(cubeIndex_step values _ (fun c => Z.lor c _)). reflexivity.
Qed.

(** All 256 configurations pass the check. *)
Lemma all_configurations_consistent (signs : list bool) :
  List.length signs = 8%nat -> TableCheck.configurationConsistent signs = true.
Proof.
  intros Hlen.
  destruct signs as [| b0 [| b1 [| b2 [| b3 [| b4 [| b5 [| b6 [| b7 [| ? ?]]]]]]]]];
    try discriminate Hlen.
  destruct b0, b1, b2, b3, b4, b5, b6, b7; vm_compute; reflexivity.
Qed.

Lemma indexOfSigns_bits (signs : list bool) :
  List.length signs = 8%nat ->
  (0 <= TableCheck.indexOfSigns signs < 256)%Z /\
  (forall i, (i < 8)%nat ->
     Z.testbit (TableCheck.indexOfSigns signs) (Z.of_nat i) = nth i signs false) /\
  (TableCheck.indexOfSigns signs = 0%Z <-> signs = repeat false 8) /\
  (TableCheck.indexOfSigns signs = 255%Z <-> signs = repeat true 8).
Proof.
  intros Hlen.
  destruct signs as [| b0 [| b1 [| b2 [| b3 [| b4 [| b5 [| b6 [| b7 [| ? ?]]]]]]]]];
    try discriminate Hlen.
  destruct b0, b1, b2, b3, b4, b5, b6, b7;
    (split; [vm_compute; split; [discriminate | reflexivity] |]);
    (split; [intros i Hi; do 8 (destruct i as [| i]; [reflexivity |]); lia |]);
    (split; split; intros H; first [reflexivity | discriminate H]).
Qed.

Lemma inside_true (values : list R) (i : nat) (v : R) :
  values !! i = Some v -> (TableCheck.inside values i = true <-> v <= 0).
Proof.
  intros Hv. unfold TableCheck.inside. rewrite Hv. apply bool_decide_eq_true.
Qed.

Lemma nth_signs (values : list R) (i : nat) :
  (i < 8)%nat ->
  nth i (map (TableCheck.inside values) (range 8)) false = TableCheck.inside values i.
Proof.
  intros Hi. do 8 (destruct i as [| i]; [reflexivity |]). lia.
Qed.

Lemma signs_all_false (values : list R) :
  List.length values = 8%nat ->
  (map (TableCheck.inside values) (range 8) = repeat false 8 <-> Spec.fullyOutside values).
Proof.
  intros Hlen.
  destruct values as [| v0 [| v1 [| v2 [| v3 [| v4 [| v5 [| v6 [| v7 [| ? ?]]]]]]]]];
    try discriminate Hlen.
  unfold Spec.fullyOutside, range, TableCheck.inside. cbn [seq map repeat lookup list_lookup].
  rewrite !Forall_cons, Forall_nil. split.
  - intros H. injection H as H0 H1 H2 H3 H4 H5 H6 H7.
    apply bool_decide_eq_false in H0, H1, H2, H3, H4, H5, H6, H7.
    repeat split; lra.
  - intros (H0 & H1 & H2 & H3 & H4 & H5 & H6 & H7 & _).
    rewrite !bool_decide_eq_false_2 by lra. reflexivity.
Qed.

Lemma signs_all_true (values : list R) :
  List.length values = 8%nat ->
  (map (TableCheck.inside values) (range 8) = repeat true 8 <-> Spec.fullyInside values).
Proof.
  intros Hlen.
  destruct values as [| v0 [| v1 [| v2 [| v3 [| v4 [| v5 [| v6 [| v7 [| ? ?]]]]]]]]];
    try discriminate Hlen.
  unfold Spec.fullyInside, range, TableCheck.inside. cbn [seq map repeat lookup list_lookup].
  rewrite !Forall_cons, Forall_nil. split.
  - intros H. injection H as H0 H1 H2 H3 H4 H5 H6 H7.
    apply bool_decide_eq_true in H0, H1, H2, H3, H4, H5, H6, H7.
    repeat split; assumption.
  - intros (H0 & H1 & H2 & H3 & H4 & H5 & H6 & H7 & _).
    rewrite !bool_decide_eq_true_2 by assumption. reflexivity.
Qed.

Lemma signs_length (values : list R) :
  List.length (map (TableCheck.inside values) (range 8)) = 8%nat.
Proof. reflexivity. Qed.

(** C3, as the code has it: bit [i] of the index of a cube is set exactly
    when the value at corner [i] is <= 0, the index is an 8-bit number,
    index 0 is the cube that is fully outside (every corner > 0), index
    255 the cube that is fully inside (every corner <= 0), and for both
    [_marchCube] returns at once, leaving the arrays as they were. *)
Theorem cube_index_and_skip (values : list R) (pos step : Vec3.t)
  (offsets : list (R * R * R)) (arrays : Arrays) (field : Field) :
  List.length values = 8%nat ->
  (0 <= Mesher.cubeIndex values < 256)%Z /\
  (forall i v, values !! i = Some v ->
     (Z.testbit (Mesher.cubeIndex values) (Z.of_nat i) = true <-> v <= 0)) /\
  (Mesher.cubeIndex values = 0%Z <-> Spec.fullyOutside values) /\
  (Mesher.cubeIndex values = 255%Z <-> Spec.fullyInside values) /\
  (Spec.fullyOutside values \/ Spec.fullyInside values ->
   Mesher._marchCube values pos step offsets arrays field = Ok arrays).
Proof.
  intros Hlen. rewrite cubeIndex_signs.
  pose proof (indexOfSigns_bits _ (signs_length values)) as (Hrange & Hbits & H0 & H255).
  rewrite (signs_all_false values Hlen) in H0.
  rewrite (signs_all_true values Hlen) in H255.
  repeat split; try tauto; try lia.
  - intros Hbit. assert (Hi : (i < 8)%nat) by (apply lookup_lt_Some in H; lia).
    rewrite Hbits, nth_signs in Hbit by assumption.
    apply (inside_true values i v H), Hbit.
  - intros Hv. assert (Hi : (i < 8)%nat) by (apply lookup_lt_Some in H; lia).
    rewrite Hbits, nth_signs by assumption.
    apply (inside_true values i v H), Hv.
  - intros Hskip. unfold Mesher._marchCube. rewrite cubeIndex_signs.
    apply decide_true_if. tauto.
Qed.

Lemma cube_index_and_skip_witness :
  List.length Examples.outsideCube = 8%nat /\
  (Mesher.cubeIndex Examples.outsideCube = 0%Z <-> Spec.fullyOutside Examples.outsideCube) /\
  Mesher._marchCube Examples.outsideCube Examples.origin Examples.unitStep
    Mesher.cornerOffsets Examples.noArrays Examples.gyroid40 = Ok Examples.noArrays.
Proof.
  split; [reflexivity |].
  pose proof (cube_index_and_skip Examples.outsideCube Examples.origin Examples.unitStep
                Mesher.cornerOffsets Examples.noArrays Examples.gyroid40 eq_refl)
    as (_ & _ & H0 & _ & Hskip).
  split; [exact H0 |]. apply Hskip. left.
  unfold Spec.fullyOutside, Examples.outsideCube. repeat constructor; lra.
Defined.

(** C3 as stated fails: the cube with every corner outside has index 0,
    and the cube with every corner inside has index 255, not 0. *)
Lemma cube_index_zero_is_outside :
  Spec.fullyOutside Examples.outsideCube /\
  ~ Spec.fullyInside Examples.outsideCube /\
  Mesher.cubeIndex Examples.outsideCube = 0%Z /\
  Spec.fullyInside Examples.insideCube /\
  ~ Spec.fullyOutside Examples.insideCube /\
  Mesher.cubeIndex Examples.insideCube = 255%Z.
Proof.
  assert (Hout : Spec.fullyOutside Examples.outsideCube)
    by (unfold Spec.fullyOutside, Examples.outsideCube; repeat constructor; lra).
  assert (Hin : Spec.fullyInside Examples.insideCube)
    by (unfold Spec.fullyInside, Examples.insideCube; repeat constructor; lra).
  repeat split; try assumption.
  - intros H. apply Forall_inv in H. lra.
  - rewrite cubeIndex_signs.
    pose proof (indexOfSigns_bits _ (signs_length Examples.outsideCube)) as (_ & _ & H0 & _).
    apply H0, (signs_all_false Examples.outsideCube eq_refl), Hout.
  - intros H. apply Forall_inv in H. lra.
  - rewrite cubeIndex_signs.
    pose proof (indexOfSigns_bits _ (signs_length Examples.insideCube)) as (_ & _ & _ & H255).
    apply H255, (signs_all_true Examples.insideCube eq_refl), Hin.
Qed.

(** ** Marching cubes: interpolation along the flagged edges *)

Lemma foldM_ok {A S} (body : A -> S -> result S) (l : list A) (st : S) :
  (forall a st, In a l -> exists st', body a st = Ok st') ->
  exists st', foldM body l st = Ok st'.
Proof.
  revert st. induction l as [| a l IH]; intros st Hbody; cbn [foldM].
  - eexists; reflexivity.
  - destruct (Hbody a st (or_introl eq_refl)) as [st' Hst']. rewrite Hst'. cbn [bind].
    apply IH. intros a' st'' Hin. apply Hbody. right; exact Hin.
Qed.

Lemma configuration_entries (values : list R) :
  exists edgeFlags triangles,
    MarchingCubesTables.edgeTable !! Z.to_nat (Mesher.cubeIndex values) = Some edgeFlags /\
    MarchingCubesTables.triTable !! Z.to_nat (Mesher.cubeIndex values) = Some triangles /\
    (forall i, (i < 12)%nat ->
       TableCheck.edgeConsistent (map (TableCheck.inside values) (range 8)) edgeFlags i
       = true) /\
    (forall e, In e triangles -> (e < 12)%nat /\ TableCheck.flagged edgeFlags e = true) /\
    (List.length triangles mod 3 = 0)%nat.
Proof.
  pose proof (all_configurations_consistent _ (signs_length values)) as Hc.
  unfold TableCheck.configurationConsistent in Hc. rewrite <- cubeIndex_signs in Hc.
  destruct (MarchingCubesTables.edgeTable !! Z.to_nat (Mesher.cubeIndex values))
    as [edgeFlags |]; [| discriminate Hc].
  destruct (MarchingCubesTables.triTable !! Z.to_nat (Mesher.cubeIndex values))
    as [triangles |]; [| discriminate Hc].
  apply andb_prop in Hc as [Hc Hmod]. apply andb_prop in Hc as [Hedges Htris].
  exists edgeFlags, triangles. repeat split.
  - intros i Hi. rewrite forallb_forall in Hedges. apply Hedges.
    unfold range. apply in_seq. lia.
  - rewrite forallb_forall in Htris. specialize (Htris e H).
    apply andb_prop in Htris as [He _]. apply Nat.ltb_lt, He.
  - rewrite forallb_forall in Htris. specialize (Htris e H).
    apply andb_prop in Htris as [_ Hf]. exact Hf.
  - apply Nat.eqb_eq, Hmod.
Qed.

(** An edge is flagged exactly when its corners differ in sign. *)
Lemma flagged_edge_corners (values : list R) (edgeFlags : Z) (i : nat) :
  TableCheck.edgeConsistent (map (TableCheck.inside values) (range 8)) edgeFlags i = true ->
  exists v1 v2,
    MarchingCubesTables.edgeConnections !! i = Some (v1, v2) /\
    (v1 < 8)%nat /\ (v2 < 8)%nat /\
    TableCheck.flagged edgeFlags i
    = xorb (TableCheck.inside values v1) (TableCheck.inside values v2).
Proof.
  unfold TableCheck.edgeConsistent.
  destruct (MarchingCubesTables.edgeConnections !! i) as [[v1 v2] |]; [| discriminate].
  intros H. apply andb_prop in H as [H Heq]. apply andb_prop in H as [H1 H2].
  apply Nat.ltb_lt in H1, H2. apply Bool.eqb_prop in Heq.
  rewrite !nth_signs in Heq by assumption.
  exists v1, v2. repeat split; assumption.
Qed.

(** Where the signs differ the divisor of the interpolation is positive
    and the parameter lies between 0 and 1. *)
Lemma crossing_defined (val1 val2 : R) :
  xorb (bool_decide (val1 <= 0)) (bool_decide (val2 <= 0)) = true ->
  Math.abs val1 + Math.abs val2 > 0 /\ 0 <= Spec.crossing val1 val2 <= 1.
Proof.
  intros Hx.
  assert (Hpos : Math.abs val1 + Math.abs val2 > 0).
  { destruct (bool_decide_reflect (val1 <= 0)), (bool_decide_reflect (val2 <= 0));
      try discriminate Hx; split_minmax; lra. }
  split; [exact Hpos |].
  assert (H1 : 0 <= Math.abs val1) by (apply Rabs_pos).
  assert (H2 : 0 <= Math.abs val2) by (apply Rabs_pos).
  unfold Spec.crossing. split.
  - apply Rmult_le_pos; [exact H1 | left; apply Rinv_0_lt_compat; lra].
  - apply Rmult_le_reg_r with (Math.abs val1 + Math.abs val2); [lra |].
    unfold Rdiv. rewrite Rmult_assoc, Rinv_l by lra. lra.
Qed.

Lemma cornerOffsets_defined (v : nat) :
  (v < 8)%nat -> exists p, Mesher.cornerOffsets !! v = Some p.
Proof. intros Hv. do 8 (destruct v as [| v]; [eexists; reflexivity |]). lia. Qed.

Lemma flagged_true_iff (edgeFlags : Z) (i : nat) :
  TableCheck.flagged edgeFlags i = true
  <-> Z.land edgeFlags (Z.shiftl 1 (Z.of_nat i)) <> 0%Z.
Proof.
  unfold TableCheck.flagged. rewrite Bool.negb_true_iff, Z.eqb_neq. reflexivity.
Qed.

(** The point computed for a flagged edge. *)
Lemma edgePoint_flagged (values : list R) (pos step : Vec3.t) (edgeFlags : Z) (i : nat) :
  List.length values = 8%nat ->
  TableCheck.edgeConsistent (map (TableCheck.inside values) (range 8)) edgeFlags i = true ->
  TableCheck.flagged edgeFlags i = true ->
  exists v1 v2 val1 val2 p1 p2,
    MarchingCubesTables.edgeConnections !! i = Some (v1, v2) /\
    values !! v1 = Some val1 /\ values !! v2 = Some val2 /\
    Mesher.cornerOffsets !! v1 = Some p1 /\ Mesher.cornerOffsets !! v2 = Some p2 /\
    Math.abs val1 + Math.abs val2 > 0 /\
    0 <= Spec.crossing val1 val2 <= 1 /\
    Mesher.edgePoint values pos step Mesher.cornerOffsets i
    = Ok (Spec.interpolate pos step p1 p2 (Spec.crossing val1 val2)).
Proof.
  intros Hlen Hcons Hflag.
  destruct (flagged_edge_corners values edgeFlags i Hcons) as (v1 & v2 & Hedge & Hv1 & Hv2 & Hx).
  destruct (lookup_lt_is_Some_2 values v1) as [val1 Hval1]; [lia |].
  destruct (lookup_lt_is_Some_2 values v2) as [val2 Hval2]; [lia |].
  destruct (cornerOffsets_defined v1 Hv1) as [[[a1 b1] c1] Hp1].
  destruct (cornerOffsets_defined v2 Hv2) as [[[a2 b2] c2] Hp2].
  rewrite Hflag in Hx. unfold TableCheck.inside in Hx. rewrite Hval1, Hval2 in Hx.
  destruct (crossing_defined val1 val2 (eq_sym Hx)) as [Hpos Ht].
  exists v1, v2, val1, val2, (a1, b1, c1), (a2, b2, c2).
  repeat split; try assumption; try apply Ht.
  unfold Mesher.edgePoint. rewrite Hedge. unfold number_at. rewrite Hval1, Hval2.
  cbn [bind]. unfold quotient. rewrite decide_false_if by lra. cbn [bind].
  rewrite Hp1, Hp2. reflexivity.
Qed.

Lemma edgePoints_ok (values : list R) (pos step : Vec3.t) (edgeFlags : Z) :
  List.length values = 8%nat ->
  (forall i, (i < 12)%nat ->
     TableCheck.edgeConsistent (map (TableCheck.inside values) (range 8)) edgeFlags i
     = true) ->
  exists points, Mesher.edgePoints values pos step Mesher.cornerOffsets edgeFlags = Ok points.
Proof.
  intros Hlen Hcons. unfold Mesher.edgePoints. apply foldM_ok.
  intros i points Hi. unfold range in Hi. apply in_seq in Hi.
  destruct (decide (Z.land edgeFlags (Z.shiftl 1 (Z.of_nat i)) = 0%Z)) as [| Hne];
    [eexists; reflexivity |].
  apply flagged_true_iff in Hne.
  destruct (edgePoint_flagged values pos step edgeFlags i Hlen (Hcons i ltac:(lia)) Hne)
    as (v1 & v2 & val1 & val2 & p1 & p2 & _ & _ & _ & _ & _ & _ & _ & Hpoint).
  rewrite Hpoint. cbn [bind]. eexists; reflexivity.
Qed.

(** [_marchCube] on the eight corner samples of a cube completes: no
    quotient has a zero divisor and nothing undefined is read. *)
Lemma marchCube_ok (values : list R) (pos step : Vec3.t) (arrays : Arrays) (field : Field) :
  List.length values = 8%nat ->
  exists arrays',
    Mesher._marchCube values pos step Mesher.cornerOffsets arrays field = Ok arrays'.
Proof.
  intros Hlen. unfold Mesher._marchCube.
  destruct (decide (Mesher.cubeIndex values = 0%Z \/ Mesher.cubeIndex values = 255%Z));
    [eexists; reflexivity |].
  destruct (configuration_entries values)
    as (edgeFlags & triangles & Hflags & Htris & Hcons & _ & _).
  rewrite Hflags.
  destruct (decide (edgeFlags = 0%Z)); [eexists; reflexivity |].
  destruct (edgePoints_ok values pos step edgeFlags Hlen Hcons) as [points Hpoints].
  rewrite Hpoints. cbn [bind]. rewrite Htris. eexists; reflexivity.
Qed.

(** ** Marching cubes: interpolation when a sample is not finite *)

Lemma ieee_cubeIndex_signs (values : list Number.t) :
  MesherIEEE.cubeIndex values
  = TableCheck.indexOfSigns (map (MesherIEEE.inside values) (range 8)).
Proof.
  unfold MesherIEEE.cubeIndex, TableCheck.indexOfSigns, MesherIEEE.inside, range.
  cbn [seq fold_left map nth].
  repeat match goal with
         | |- context [values !! ?i] => destruct (values !! i); cbn [negb]
         end; reflexivity.
Qed.













(** *** Finite samples: the two embeddings of [_marchCube] agree *)

Lemma lookup_map_Finite (values : list R) (i : nat) :
  map Number.Finite values !! i = option_map Number.Finite (values !! i).
Proof.
  revert i. induction values as [| v values IH]; intros [| i]; try reflexivity.
  cbn [map]. apply IH.
Qed.

Lemma inside_of_finite (values : list R) (i : nat) :
  MesherIEEE.inside (map Number.Finite values) i = TableCheck.inside values i.
Proof.
  unfold MesherIEEE.inside, TableCheck.inside. rewrite lookup_map_Finite.
  destruct (values !! i); reflexivity.
Qed.

Lemma cubeIndex_of_finite (values : list R) :
  MesherIEEE.cubeIndex (map Number.Finite values) = Mesher.cubeIndex values.
Proof.
  rewrite ieee_cubeIndex_signs, cubeIndex_signs. unfold range. cbn [seq map].
  rewrite !inside_of_finite. reflexivity.
Qed.

Lemma edgePoint_of_finite (values : list R) (pos step : Vec3.t)
  (offsets : list (R * R * R)) (i : nat) (p : Vec3.t) :
  Mesher.edgePoint values pos step offsets i = Ok p ->
  MesherIEEE.edgePoint (map Number.Finite values) pos step offsets i
  = Ok (MesherIEEE.ofVec3 p).
Proof.
  unfold Mesher.edgePoint, MesherIEEE.edgePoint, number_at, MesherIEEE.number_at, quotient.
  destruct (MarchingCubesTables.edgeConnections !! i) as [[v1 v2] |]; [| discriminate].
  rewrite !lookup_map_Finite.
  destruct (values !! v1) as [val1 |]; [| discriminate].
  destruct (values !! v2) as [val2 |]; [| discriminate].
  cbn [bind option_map].
  destruct (decide (Math.abs val1 + Math.abs val2 = 0)) as [| Hne]; [discriminate |].
  cbn [bind].
  destruct (offsets !! v1) as [[[a1 b1] c1] |]; [| discriminate].
  destruct (offsets !! v2) as [[[a2 b2] c2] |]; [| discriminate].
  intros [= <-]. cbn [Number.abs Number.add Number.div].
  rewrite decide_false_if by exact Hne. reflexivity.
Qed.

Lemma map_insert_slot (points : list (option Vec3.t)) (i : nat) (p : Vec3.t) :
  map (option_map MesherIEEE.ofVec3) (<[i := Some p]> points)
  = <[i := Some (MesherIEEE.ofVec3 p)]> (map (option_map MesherIEEE.ofVec3) points).
Proof.
  revert i. induction points as [| q points IH]; intros [| i]; try reflexivity.
  cbn [map insert list_insert]. f_equal. apply IH.
Qed.

Lemma edgePoints_of_finite (values : list R) (pos step : Vec3.t)
  (offsets : list (R * R * R)) (edgeFlags : Z) (points : list (option Vec3.t)) :
  Mesher.edgePoints values pos step offsets edgeFlags = Ok points ->
  MesherIEEE.edgePoints (map Number.Finite values) pos step offsets edgeFlags
  = Ok (map (option_map MesherIEEE.ofVec3) points).
Proof.
  unfold Mesher.edgePoints, MesherIEEE.edgePoints.
  change (replicate 12 (@None MesherIEEE.Point))
    with (map (option_map MesherIEEE.ofVec3) (replicate 12 None)).
  generalize (replicate 12 (@None Vec3.t)). generalize (range 12).
  intros l. induction l as [| i l IH]; intros start Hrun; cbn [foldM] in *.
  - injection Hrun as <-. reflexivity.
  - destruct (decide (Z.land edgeFlags (Z.shiftl 1 (Z.of_nat i)) = 0%Z)).
    + cbn [bind] in *. apply IH, Hrun.
    + destruct (Mesher.edgePoint values pos step offsets i) as [p |] eqn:Hp;
        [| discriminate Hrun].
      rewrite (edgePoint_of_finite _ _ _ _ _ _ Hp). cbn [bind] in *.
      rewrite <- map_insert_slot. apply IH, Hrun.
Qed.

Lemma pointOfTriangle_of_finite (points : list (option Vec3.t)) (triangles : list nat)
  (i : nat) :
  MesherIEEE.pointOfTriangle (map (option_map MesherIEEE.ofVec3) points) triangles i
  = option_map MesherIEEE.ofVec3 (Mesher.pointOfTriangle points triangles i).
Proof.
  unfold MesherIEEE.pointOfTriangle, Mesher.pointOfTriangle.
  destruct (triangles !! i) as [e |]; [| reflexivity].
  revert e. induction points as [| q points IH]; intros [| e]; try reflexivity.
  - destruct q; reflexivity.
  - apply IH.
Qed.

Lemma pushTriangle_of_finite (field : Field) (points : list (option Vec3.t))
  (triangles : list nat) (i : nat) (arrays : Arrays) :
  MesherIEEE.pushTriangle (map (option_map MesherIEEE.ofVec3) points) triangles i
    (map Number.Finite (vertices arrays))
  = map Number.Finite (vertices (Mesher.emitTriangle field points triangles i arrays)).
Proof.
  unfold MesherIEEE.pushTriangle, Mesher.emitTriangle.
  rewrite !pointOfTriangle_of_finite.
  destruct (Mesher.pointOfTriangle points triangles i) as [p0 |]; [| reflexivity].
  destruct (Mesher.pointOfTriangle points triangles (i + 1)) as [p1 |]; [| reflexivity].
  destruct (Mesher.pointOfTriangle points triangles (i + 2)) as [p2 |]; [| reflexivity].
  cbn [option_map vertices]. rewrite map_app. reflexivity.
Qed.

(** On finite samples [MesherIEEE._marchCube] computes what
    [Mesher._marchCube] computes: the call returns, and the [vertices]
    of the one are those of the other. *)
Lemma marchCube_of_finite (values : list R) (pos step : Vec3.t)
  (arrays : Arrays) (field : Field) :
  List.length values = 8%nat ->
  exists arrays',
    Mesher._marchCube values pos step Mesher.cornerOffsets arrays field = Ok arrays' /\
    MesherIEEE._marchCube (map Number.Finite values) pos step Mesher.cornerOffsets
      (map Number.Finite (vertices arrays))
    = Ok (map Number.Finite (vertices arrays')).
Proof.
  intros Hlen.
  destruct (marchCube_ok values pos step arrays field Hlen) as [arrays' Hrun].
  exists arrays'. split; [exact Hrun |].
  unfold Mesher._marchCube in Hrun. unfold MesherIEEE._marchCube.
  rewrite cubeIndex_of_finite.
  destruct (decide (Mesher.cubeIndex values = 0%Z \/ Mesher.cubeIndex values = 255%Z)).
  { injection Hrun as <-. reflexivity. }
  destruct (MarchingCubesTables.edgeTable !! Z.to_nat (Mesher.cubeIndex values))
    as [edgeFlags |]; [| discriminate Hrun].
  destruct (decide (edgeFlags = 0%Z)).
  { injection Hrun as <-. reflexivity. }
  destruct (Mesher.edgePoints values pos step Mesher.cornerOffsets edgeFlags)
    as [points |] eqn:Hpoints; [| discriminate Hrun].
  rewrite (edgePoints_of_finite _ _ _ _ _ _ Hpoints). cbn [bind] in *.
  destruct (MarchingCubesTables.triTable !! Z.to_nat (Mesher.cubeIndex values))
    as [triangles |]; [| discriminate Hrun].
  injection Hrun as <-. f_equal.
  generalize (triangleStarts (List.length triangles)). intros starts. revert arrays.
  induction starts as [| i starts IH]; intros arrays; [reflexivity |].
  cbn [fold_left]. rewrite (pushTriangle_of_finite field). apply IH.
Qed.





(** ** The mesher: the whole call completes *)

Lemma forM_ok {A S} (I : S -> Prop) (body : A -> S -> prog S) (l : list A) :
  (forall a st trace, In a l -> I st ->
     exists trace' st', body a st trace = (trace', Ok st') /\ I st') ->
  forall st trace, I st ->
    exists trace' st', forM body l st trace = (trace', Ok st') /\ I st'.
Proof.
  induction l as [| a l IH]; intros Hbody st trace Hst; cbn [forM].
  - exists trace, st. split; [reflexivity | exact Hst].
  - destruct (Hbody a st trace (or_introl eq_refl) Hst) as (trace1 & st1 & Hrun & Hst1).
    unfold pbind. rewrite Hrun.
    apply IH; [| exact Hst1].
    intros a' st' trace' Hin. apply Hbody. right; exact Hin.
Qed.

Lemma getIndex_in_grid (resolution i j k : Z) :
  (0 <= i <= resolution)%Z -> (0 <= j <= resolution)%Z -> (0 <= k <= resolution)%Z ->
  (0 <= Mesher.getIndex resolution i j k < (resolution + 1) ^ 3)%Z.
Proof.
  intros Hi Hj Hk. unfold Mesher.getIndex.
  replace ((resolution + 1) ^ 3)%Z
    with ((resolution + 1) * ((resolution + 1) * (resolution + 1)))%Z by ring.
  assert (H1 : (0 <= (resolution + 1) * k <= (resolution + 1) * resolution)%Z) by nia.
  assert (H2 : (0 <= (resolution + 1) * (j + (resolution + 1) * k)
                <= (resolution + 1) * (resolution + (resolution + 1) * resolution))%Z) by nia.
  nia.
Qed.

Lemma grid_get_ok (grid : list R) (index : Z) :
  (0 <= index < Z.of_nat (List.length grid))%Z ->
  exists v, Mesher.grid_get grid index = Ok v.
Proof.
  intros Hin. unfold Mesher.grid_get, number_at_index, number_at.
  rewrite decide_true_if by lia.
  destruct (lookup_lt_is_Some_2 grid (Z.to_nat index)) as [v Hv]; [lia |].
  rewrite Hv. eexists; reflexivity.
Qed.

Lemma grid_set_length (grid : list R) (index : Z) (value : R) :
  List.length (Mesher.grid_set grid index value) = List.length grid.
Proof.
  unfold Mesher.grid_set. destruct (decide (0 <= index)%Z); [apply length_insert | reflexivity].
Qed.

Lemma cubeValues_ok (grid : list R) (resolution i j k : Z) :
  Z.of_nat (List.length grid) = ((resolution + 1) ^ 3)%Z ->
  (0 <= i < resolution)%Z -> (0 <= j < resolution)%Z -> (0 <= k < resolution)%Z ->
  exists cube, Mesher.cubeValues grid resolution i j k = Ok cube /\
               List.length cube = 8%nat.
Proof.
  intros Hlen Hi Hj Hk. unfold Mesher.cubeValues.
  repeat match goal with
         | |- context [Mesher.grid_get grid (Mesher.getIndex resolution ?a ?b ?c)] =>
             let v := fresh "c" in
             let Hv := fresh "Hc" in
             destruct (grid_get_ok grid (Mesher.getIndex resolution a b c)) as [v Hv];
             [rewrite Hlen; apply getIndex_in_grid; lia |];
             rewrite Hv; cbn [bind]
         end.
  eexists; split; reflexivity.
Qed.

Lemma in_range (n i : nat) : In i (range n) -> (i < n)%nat.
Proof. unfold range. rewrite in_seq. lia. Qed.

Lemma sampleGrid_ok (field : Field) (resolution : Z) (min step : Vec3.t)
  (grid : list R) (trace : list event) :
  exists trace' grid' count,
    Mesher.sampleGrid field resolution min step grid trace = (trace', Ok (grid', count)) /\
    List.length grid' = List.length grid.
Proof.
  unfold Mesher.sampleGrid.
  set (I := fun st : list R * Z => List.length (fst st) = List.length grid).
  destruct (forM_ok I
              (fun k => forM (fun j => forM (Mesher.sampleStep field resolution min step k j)
                                            (range (Z.to_nat (resolution + 1))))
                             (range (Z.to_nat (resolution + 1))))
              (range (Z.to_nat (resolution + 1))))
    with (st := (grid, 0%Z)) (trace := trace) as (trace' & [grid' count] & Hrun & Hlen).
  - intros k st tr _ Hst. apply (forM_ok I); [| exact Hst].
    intros j st1 tr1 _ Hst1. apply (forM_ok I); [| exact Hst1].
    intros i [g c] tr2 _ Hst2. unfold I in *. cbn [fst] in *.
    unfold Mesher.sampleStep.
    destruct (decide ((c + 1) mod 10000 = 0)%Z);
      cbv [pbind emit ret]; do 2 eexists; (split; [reflexivity |]);
      cbn [fst]; rewrite grid_set_length; exact Hst2.
  - reflexivity.
  - exists trace', grid', count. split; [exact Hrun | exact Hlen].
Qed.

Lemma emitTriangle_wellFormed (field : Field) (points : list (option Vec3.t))
  (triangles : list nat) (i : nat) (arrays : Arrays) :
  Spec.arraysWellFormed arrays ->
  Spec.arraysWellFormed (Mesher.emitTriangle field points triangles i arrays).
Proof.
  intros (count & Hv & Hi & Hall). unfold Mesher.emitTriangle.
  destruct (Mesher.pointOfTriangle points triangles i) as [p0 |]; [| exists count; tauto].
  destruct (Mesher.pointOfTriangle points triangles (i + 1)) as [p1 |];
    [| exists count; tauto].
  destruct (Mesher.pointOfTriangle points triangles (i + 2)) as [p2 |];
    [| exists count; tauto].
  exists (S count). cbn [vertices indices].
  rewrite !length_app, Hv, Hi. cbn [List.length].
  split; [lia |]. split; [lia |].
  replace (Z.of_nat (9 * count) / 3)%Z with (Z.of_nat (3 * count))
    by (replace (Z.of_nat (9 * count)) with (Z.of_nat (3 * count) * 3)%Z by lia;
        rewrite Z.div_mul by lia; reflexivity).
  apply Forall_app. split.
  - eapply Forall_impl; [exact Hall |]. intros n Hn. cbn beta in Hn |- *. lia.
  - repeat constructor; lia.
Qed.

Lemma marchCube_wellFormed (values : list R) (pos step : Vec3.t)
  (offsets : list (R * R * R)) (arrays arrays' : Arrays) (field : Field) :
  Mesher._marchCube values pos step offsets arrays field = Ok arrays' ->
  Spec.arraysWellFormed arrays -> Spec.arraysWellFormed arrays'.
Proof.
  unfold Mesher._marchCube. intros Hrun Hwf.
  destruct (decide _); [injection Hrun as <-; exact Hwf |].
  destruct (MarchingCubesTables.edgeTable !! _) as [edgeFlags |]; [| discriminate Hrun].
  destruct (decide _); [injection Hrun as <-; exact Hwf |].
  destruct (Mesher.edgePoints _ _ _ _ _) as [points |]; [| discriminate Hrun].
  cbn [bind] in Hrun.
  destruct (MarchingCubesTables.triTable !! _) as [triangles |]; [| discriminate Hrun].
  injection Hrun as <-.
  generalize (triangleStarts (List.length triangles)). intros starts.
  revert arrays Hwf. induction starts as [| i starts IH]; intros arrays Hwf; cbn [fold_left].
  - exact Hwf.
  - apply IH, emitTriangle_wellFormed, Hwf.
Qed.

Lemma processCubes_ok (field : Field) (resolution : Z) (min step : Vec3.t)
  (grid : list R) (trace : list event) :
  Z.of_nat (List.length grid) = ((resolution + 1) ^ 3)%Z ->
  exists trace' arrays count,
    Mesher.processCubes field resolution min step grid trace = (trace', Ok (arrays, count)) /\
    Spec.arraysWellFormed arrays.
Proof.
  intros Hlen. unfold Mesher.processCubes.
  set (I := fun st : Arrays * Z => Spec.arraysWellFormed (fst st)).
  assert (Hempty : I ({| vertices := []; normals := []; indices := [] |}, 0%Z)).
  { exists 0%nat. cbn. repeat split; constructor. }
  destruct (forM_ok I
              (fun k => forM (fun j => forM (Mesher.cubeStep field resolution min step grid k j)
                                            (range (Z.to_nat resolution)))
                             (range (Z.to_nat resolution)))
              (range (Z.to_nat resolution)))
    with (st := ({| vertices := []; normals := []; indices := [] |}, 0%Z)) (trace := trace)
    as (trace' & [arrays count] & Hrun & Hwf).
  - intros k st tr Hk Hst. apply in_range in Hk.
    apply (forM_ok I); [| exact Hst].
    intros j st1 tr1 Hj Hst1. apply in_range in Hj.
    apply (forM_ok I); [| exact Hst1].
    intros i [arrays c] tr2 Hi Hst2. apply in_range in Hi.
    unfold Mesher.cubeStep.
    destruct (cubeValues_ok grid resolution (Z.of_nat i) (Z.of_nat j) (Z.of_nat k) Hlen)
      as (cube & Hcube & Hcube8); try lia.
    destruct (marchCube_ok cube (Mesher.gridPoint min step i j k) step arrays field Hcube8)
      as [arrays' Harrays].
    pose proof (marchCube_wellFormed _ _ _ _ _ _ _ Harrays Hst2) as Hwf'.
    rewrite Hcube. cbv beta iota delta [pbind lift]. rewrite Harrays.
    destruct (decide ((c + 1) mod 1000 = 0)%Z);
      cbv [pbind emit ret lift]; do 2 eexists; (split; [reflexivity | exact Hwf']).
  - exact Hempty.
  - exists trace', arrays, count. split; [exact Hrun | exact Hwf].
Qed.

Lemma mesh_of_arrays_wellFormed (arrays : Arrays) (bounds : Bounds.t) :
  Spec.arraysWellFormed arrays ->
  Spec.wellFormed
    {| Mesh.vertices := vertices arrays;
       Mesh.normals := normals arrays;
       Mesh.indices := Mesher.newUint32Array (indices arrays);
       Mesh.vertexCount := (Z.of_nat (List.length (vertices arrays)) / 3)%Z;
       Mesh.triangleCount := (Z.of_nat (List.length (indices arrays)) / 3)%Z;
       Mesh.bounds := bounds |}.
Proof.
  intros (count & Hv & Hi & Hall). unfold Spec.wellFormed, Mesher.newUint32Array.
  cbn [Mesh.vertices Mesh.indices Mesh.triangleCount].
  rewrite length_map, Hi.
  replace (Z.of_nat (3 * count) / 3)%Z with (Z.of_nat count)
    by (replace (Z.of_nat (3 * count)) with (Z.of_nat count * 3)%Z by lia;
        rewrite Z.div_mul by lia; reflexivity).
  split; [lia |]. split; [lia |].
  apply Forall_map. eapply Forall_impl; [exact Hall |].
  intros n [Hn Hlt]. cbn beta.
  pose proof (Z.mod_pos_bound n (2 ^ 32) ltac:(lia)) as Hmod.
  pose proof (Z.mod_le n (2 ^ 32) Hn ltac:(lia)) as Hle.
  lia.
Qed.

(** A call whose grid fits the budget returns a mesh, whatever the field,
    for every resolution from -1 up: nothing is thrown and no NaN is
    produced; and the mesh is well formed. *)
Lemma marchingCubes_returns (field : Field) (options : Mesher.Options) :
  Mesher.estimatedMemory (Mesher.resolution_or_default (Mesher.resolution options))
  <= Mesher.maxMemoryMB_or_default (Mesher.maxMemoryMB options) ->
  (-1 <= Mesher.resolution_or_default (Mesher.resolution options))%Z ->
  exists trace mesh,
    Mesher.marchingCubes field options = (trace, Ok mesh) /\ Spec.wellFormed mesh.
Proof.
  intros Hfits Hres.
  unfold Mesher.marchingCubes, Mesher.marchingCubes_prog.
  set (resolution := Mesher.resolution_or_default (Mesher.resolution options)) in *.
  rewrite decide_false_if by lra.
  assert (Hsize : (0 <= (resolution + 1) ^ 3)%Z) by (apply Z.pow_nonneg; lia).
  unfold Mesher.newFloat32Array. rewrite decide_false_if by lia.
  destruct (_bounds field); cbv beta iota delta [pbind emit ret]; cbn [app];
    match goal with
    | |- context [Mesher.sampleGrid ?f ?r ?m ?s ?g ?t] =>
        destruct (sampleGrid_ok f r m s g t) as (trace2 & grid' & count & Hsample & Hlen);
        rewrite Hsample; cbn [fst];
        assert (Hgrid : Z.of_nat (List.length grid') = ((resolution + 1) ^ 3)%Z)
          by (rewrite Hlen, length_replicate; lia)
    end;
    match goal with
    | |- context [Mesher.processCubes ?f ?r ?m ?s ?g ?t] =>
        destruct (processCubes_ok f r m s g t Hgrid)
          as (trace3 & arrays & count' & Hcubes & Hwf);
        rewrite Hcubes
    end;
    do 2 eexists; (split; [reflexivity |]);
    apply mesh_of_arrays_wellFormed; exact Hwf.
Qed.

(** Every mesh that [marchingCubes] returns is well formed. *)
Lemma marchingCubes_wellFormed (field : Field) (options : Mesher.Options)
  (trace : list event) (mesh : Mesh.t) :
  Mesher.marchingCubes field options = (trace, Ok mesh) -> Spec.wellFormed mesh.
Proof.
  intros Hrun.
  destruct (decide (Mesher.estimatedMemory
                      (Mesher.resolution_or_default (Mesher.resolution options))
                    > Mesher.maxMemoryMB_or_default (Mesher.maxMemoryMB options)))
    as [Hexceeds | Hfits].
  - exfalso. revert Hrun.
    unfold Mesher.marchingCubes, Mesher.marchingCubes_prog.
    rewrite decide_true_if by exact Hexceeds.
    destruct (_bounds field); cbv [pbind emit ret lift]; discriminate.
  - destruct (decide (-1 <= Mesher.resolution_or_default (Mesher.resolution options))%Z)
      as [Hres | Hneg].
    + destruct (marchingCubes_returns field options ltac:(lra) Hres)
        as (trace' & mesh' & Hrun' & Hwf).
      rewrite Hrun in Hrun'. injection Hrun' as _ <-. exact Hwf.
    + exfalso. revert Hrun.
      unfold Mesher.marchingCubes, Mesher.marchingCubes_prog.
      rewrite decide_false_if by exact Hfits.
      unfold Mesher.newFloat32Array.
      assert (Hcube : ((Mesher.resolution_or_default (Mesher.resolution options) + 1) ^ 3
                       < 0)%Z).
      { set (r := Mesher.resolution_or_default (Mesher.resolution options)) in *.
        replace ((r + 1) ^ 3)%Z with ((r + 1) * ((r + 1) * (r + 1)))%Z by ring. nia. }
      rewrite decide_true_if by exact Hcube.
      destruct (_bounds field); cbv [pbind emit ret lift]; discriminate.
Qed.

(** C10: a call with [options.resolution] omitted or equal to 0 is the
    call with resolution 32: the same events and the same outcome; and
    when the grid of resolution 32 fits the budget (as it does when
    [maxMemoryMB] is omitted) the call returns a mesh: nothing is thrown
    for the resolution. *)
Theorem falsy_resolution_defaults (field : Field) (options : Mesher.Options) :
  Mesher.resolution options = None \/ Mesher.resolution options = Some 0%Z ->
  Mesher.resolution_or_default (Mesher.resolution options) = 32%Z /\
  Mesher.marchingCubes field options
  = Mesher.marchingCubes field
      {| Mesher.resolution := Some 32%Z; Mesher.maxMemoryMB := Mesher.maxMemoryMB options |} /\
  (Mesher.estimatedMemory 32 <= Mesher.maxMemoryMB_or_default (Mesher.maxMemoryMB options) ->
   exists trace mesh, Mesher.marchingCubes field options = (trace, Ok mesh)) /\
  (Mesher.maxMemoryMB options = None ->
   exists trace mesh, Mesher.marchingCubes field options = (trace, Ok mesh)).
Proof.
  intros Hfalsy.
  assert (Hres : Mesher.resolution_or_default (Mesher.resolution options) = 32%Z)
    by (destruct Hfalsy as [-> | ->]; reflexivity).
  assert (Hreturns :
    Mesher.estimatedMemory 32 <= Mesher.maxMemoryMB_or_default (Mesher.maxMemoryMB options) ->
    exists trace mesh, Mesher.marchingCubes field options = (trace, Ok mesh)).
  { intros Hfits.
    destruct (marchingCubes_returns field options) as (trace & mesh & Hrun & _);
      rewrite ?Hres; [exact Hfits | lia |].
    exists trace, mesh. exact Hrun. }
  split; [exact Hres |]. split; [| split; [exact Hreturns |]].
  - unfold Mesher.marchingCubes, Mesher.marchingCubes_prog.
    cbn [Mesher.resolution Mesher.maxMemoryMB]. rewrite Hres. reflexivity.
  - intros Hnone. apply Hreturns. rewrite Hnone.
    unfold Mesher.estimatedMemory. cbn [Mesher.maxMemoryMB_or_default]. lra.
Qed.

Lemma falsy_resolution_defaults_witness :
  Mesher.marchingCubes Examples.gyroid40
    {| Mesher.resolution := Some 0%Z; Mesher.maxMemoryMB := None |}
  = Mesher.marchingCubes Examples.gyroid40
      {| Mesher.resolution := Some 32%Z; Mesher.maxMemoryMB := None |} /\
  exists trace mesh,
    Mesher.marchingCubes Examples.gyroid40
      {| Mesher.resolution := Some 0%Z; Mesher.maxMemoryMB := None |} = (trace, Ok mesh).
Proof.
  destruct (falsy_resolution_defaults Examples.gyroid40
              {| Mesher.resolution := Some 0%Z; Mesher.maxMemoryMB := None |})
    as (_ & Hsame & _ & Hreturns).
  - right; reflexivity.
  - split; [exact Hsame | apply Hreturns; reflexivity].
Defined.

(** ** The mesher: memory budget *)

Lemma estimate_exceeds (resolution : Z) (budget : R) :
  (IZR resolution + 1) ^ 3 * 4 > budget * 1024 * 1024
  <-> Mesher.estimatedMemory resolution > budget.
Proof.
  unfold Mesher.estimatedMemory. split; intros H.
  - apply Rlt_gt. apply Rmult_lt_reg_r with (1024 * 1024); [lra |].
    unfold Rdiv. rewrite Rmult_assoc, Rinv_l by lra. lra.
  - apply Rgt_lt in H. apply Rmult_lt_compat_r with (r := 1024 * 1024) in H; [| lra].
    unfold Rdiv in H. rewrite Rmult_assoc, Rinv_l in H by lra. lra.
Qed.

(** [Math.third] is the binary64 that the division [1/3] yields. *)
Lemma third_is_binary64 :
  Prim2SF (1 / 3)%float = S754_finite false 6004799503160661 (-54).
Proof. vm_compute. reflexivity. Qed.

Lemma third_gap : / 3 - Math.third = / (3 * 2 ^ 54).
Proof. unfold Math.third. lra. Qed.

Lemma third_bounds : 0 < Math.third < / 3.
Proof. unfold Math.third. lra. Qed.

Lemma cube_of_third_power (a : R) : 0 < a -> Rpower a (/ 3) ^ 3 = a.
Proof.
  intros Ha. rewrite <- Rpower_pow by apply exp_pos.
  rewrite Rpower_mult. replace (/ 3 * INR 3) with 1 by (simpl; field).
  apply Rpower_1, Ha.
Qed.

Lemma cube_lt (x y : R) : 0 <= x -> x < y -> x ^ 3 < y ^ 3.
Proof.
  intros Hx Hlt.
  replace (x ^ 3) with (x * x * x) by ring. replace (y ^ 3) with (y * y * y) by ring.
  assert (H2 : x * x < y * y) by (apply Rmult_le_0_lt_compat; lra).
  apply Rmult_le_0_lt_compat; nra.
Qed.

Lemma cube_root_le (a : R) : 0 < a <= 2 ^ 78 -> Rpower a (/ 3) <= 2 ^ 26.
Proof.
  intros [Ha Hhi]. destruct (Rle_dec (Rpower a (/ 3)) (2 ^ 26)) as [| Hn]; [assumption |].
  exfalso. assert (Hlt : 2 ^ 26 < Rpower a (/ 3)) by lra.
  apply cube_lt in Hlt; [| lra]. rewrite cube_of_third_power in Hlt by exact Ha. lra.
Qed.

Lemma ln_le_pred (y : R) : 0 < y -> ln y <= y - 1.
Proof.
  intros Hy. pose proof (exp_ineq1_le (ln y)) as H. rewrite exp_ln in H by exact Hy. lra.
Qed.

Lemma exp_times (n : nat) (x : R) : exp (INR n * x) = exp x ^ n.
Proof.
  rewrite <- Rpower_pow by apply exp_pos. unfold Rpower. rewrite ln_exp. reflexivity.
Qed.

Lemma ln_2_lower : 2 / 3 < ln 2.
Proof.
  assert (H1 : 23 / 24 <= exp (- / 24)).
  { pose proof (exp_ineq1_le (- / 24)). lra. }
  assert (H16 : (23 / 24) ^ 16 <= exp (- / 24) ^ 16) by (apply pow_incr; lra).
  rewrite <- exp_times in H16.
  replace (INR 16 * - / 24) with (- (2 / 3)) in H16 by (simpl; field).
  assert (Hhalf : / 2 < exp (- (2 / 3))) by lra.
  rewrite exp_Ropp in Hhalf.
  assert (Hexp : exp (2 / 3) < 2).
  { pose proof (exp_pos (2 / 3)) as Hpos.
    apply Rinv_lt_contravar in Hhalf; [| apply Rmult_lt_0_compat; [lra |]; apply Rinv_0_lt_compat; lra].
    rewrite Rinv_inv in Hhalf. lra. }
  rewrite <- (ln_exp (2 / 3)). apply ln_increasing; [apply exp_pos | exact Hexp].
Qed.

(** The power with the exponent [Math.third] is the cube root, scaled
    down by the part of the exponent that is missing. *)
Lemma pow_third_split (a : R) :
  Rpower a Math.third = Rpower a (/ 3) * exp (- (/ (3 * 2 ^ 54) * ln a)).
Proof.
  rewrite <- third_gap.
  replace Math.third with (/ 3 + - (/ 3 - Math.third)) at 1 by ring.
  rewrite Rpower_plus. unfold Rpower at 2. f_equal. f_equal. ring.
Qed.

(** It is at most the cube root, and at most a quarter below it. *)
Lemma pow_third_near_root (a : R) :
  1 <= a <= 2 ^ 78 ->
  Rpower a (/ 3) - / 4 <= Rpower a Math.third <= Rpower a (/ 3).
Proof.
  intros [Hlo Hhi]. pose proof third_bounds as [Ht0 Ht1].
  split; [| apply Rle_Rpower; lra].
  rewrite pow_third_split.
  set (y := Rpower a (/ 3)).
  assert (Hy0 : 0 < y) by apply exp_pos.
  assert (Hy1 : 1 <= y).
  { unfold y. rewrite <- (Rpower_O a) by lra. apply Rle_Rpower; lra. }
  assert (Hy26 : y <= 2 ^ 26) by (apply cube_root_le; lra).
  assert (Hln : ln a = 3 * ln y).
  { unfold y. rewrite ln_Rpower. field. }
  assert (Hlny : 0 <= ln y <= y - 1).
  { split; [| apply ln_le_pred; exact Hy0].
    rewrite <- ln_1. destruct (Req_dec 1 y) as [<- | Hne]; [lra |].
    left. apply ln_increasing; lra. }
  pose proof (exp_ineq1_le (- (/ (3 * 2 ^ 54) * ln a))) as Hexp.
  rewrite Hln in *.
  set (e := exp (- (/ (3 * 2 ^ 54) * (3 * ln y)))) in *.
  assert (Hbound : y * (/ (3 * 2 ^ 54) * (3 * ln y)) <= / 4).
  { replace (y * (/ (3 * 2 ^ 54) * (3 * ln y))) with (y * ln y / 2 ^ 54) by (field; lra).
    assert (Hyy : y * ln y <= 2 ^ 26 * 2 ^ 26).
    { apply Rmult_le_compat; lra. }
    lra. }
  assert (Hye : y * (1 + - (/ (3 * 2 ^ 54) * (3 * ln y))) <= y * e).
  { apply Rmult_le_compat_l; lra. }
  lra.
Qed.

Lemma pow_third_small (a : R) : 0 < a < 1 -> 0 < Rpower a Math.third < 1.
Proof.
  intros [H0 H1]. pose proof third_bounds as [Ht0 _]. split; [apply exp_pos |].
  unfold Rpower. rewrite <- exp_0. apply exp_increasing.
  assert (Hln : ln a < 0) by (rewrite <- ln_1; apply ln_increasing; lra).
  nra.
Qed.

(** As [Math.pow] may round it: for a base from 2^18 to 2^78, every
    number within one part in 2^52 of that power is still below the cube
    root, and less than one below it. *)
Lemma rounded_pow_third_near_root (a p : R) :
  2 ^ 18 <= a <= 2 ^ 78 ->
  Math.rounds_to (Rpower a Math.third) p ->
  Rpower a (/ 3) - 1 < p < Rpower a (/ 3).
Proof.
  intros [Hlo Hhi] Hp. unfold Math.rounds_to, Math.abs in Hp.
  destruct (pow_third_near_root a) as [Hnear Hle]; [lra |].
  pose proof (pow_third_split a) as Hq.
  set (q := Rpower a Math.third) in *. set (y := Rpower a (/ 3)) in *.
  assert (Hq0 : 0 < q) by apply exp_pos.
  rewrite (Rabs_right q) in Hp by lra.
  assert (Hp' : - (q / 2 ^ 52) <= p - q <= q / 2 ^ 52)
    by (unfold Rabs in Hp; destruct (Rcase_abs (p - q)); lra).
  clear Hp.
  assert (Hy0 : 0 < y) by apply exp_pos.
  assert (Hy26 : y <= 2 ^ 26) by (apply cube_root_le; lra).
  split; [lra |].
  assert (Hlna : 12 < ln a).
  { assert (H18 : ln (2 ^ 18) <= ln a).
    { destruct Hlo as [Hlt | <-]; [left; apply ln_increasing; lra | lra]. }
    rewrite ln_pow in H18 by lra. pose proof ln_2_lower. simpl INR in H18. lra. }
  set (L := / (3 * 2 ^ 54) * ln a) in *.
  assert (HL : / 2 ^ 52 < L) by (unfold L; lra).
  pose proof (exp_ineq1_le L) as HexpL.
  pose proof (exp_pos (- L)) as Hpos.
  assert (Hprod : exp (- L) * exp L = 1).
  { rewrite <- exp_plus. replace (- L + L) with 0 by ring. apply exp_0. }
  assert (Hbound : exp (- L) * (1 + / 2 ^ 52) < 1).
  { rewrite <- Hprod. apply Rmult_lt_compat_l; lra. }
  assert (Hyq : q * (1 + / 2 ^ 52) < y).
  { rewrite Hq. rewrite Rmult_assoc. rewrite <- (Rmult_1_r y) at 2.
    apply Rmult_lt_compat_l; lra. }
  unfold Rdiv in Hp'. lra.
Qed.

(** What [Math.floor(p) - 1] is worth as a resolution when [p] is
    positive, at most the cube root of the number of samples that fit the
    budget, and less than one below it: its grid fits the budget, that of
    the resolution two above does not. *)
Lemma resolution_of_power (budget p : R) :
  0 < p ->
  Rpower (budget * 1024 * 1024 / 4) (/ 3) - 1 < p <= Rpower (budget * 1024 * 1024 / 4) (/ 3) ->
  0 < budget ->
  (IZR (Math.floor p - 1) + 1) ^ 3 * 4 <= budget * 1024 * 1024 /\
  (IZR (Math.floor p - 1) + 3) ^ 3 * 4 > budget * 1024 * 1024.
Proof.
  intros Hp [Hnear Hle] Hb. unfold Math.floor.
  set (a := budget * 1024 * 1024 / 4) in *.
  assert (Ha : 0 < a) by (unfold a; lra).
  set (root := Rpower a (/ 3)) in *.
  assert (Hroot : root ^ 3 = a) by (apply cube_of_third_power, Ha).
  assert (Hroot0 : 0 < root) by apply exp_pos.
  pose proof (Zfloor_bound p) as [Hlo Hup].
  assert (H0 : (0 <= Zfloor p)%Z) by (apply Zfloor_lub; simpl; lra).
  apply IZR_le in H0.
  rewrite minus_IZR.
  replace (IZR (Zfloor p) - 1 + 1) with (IZR (Zfloor p)) by ring.
  replace (IZR (Zfloor p) - 1 + 3) with (IZR (Zfloor p) + 2) by ring.
  split.
  - assert (Hcube : IZR (Zfloor p) ^ 3 <= root ^ 3) by (apply pow_incr; lra).
    rewrite Hroot in Hcube. unfold a in Hcube. lra.
  - assert (Hcube : root ^ 3 < (IZR (Zfloor p) + 2) ^ 3) by (apply cube_lt; lra).
    rewrite Hroot in Hcube. unfold a in Hcube. lra.
Qed.

(** The resolution named in the error is safe, its grid fits the budget,
    and it is the largest such resolution or the one below it: the grid
    of the resolution two above does not fit. *)
Lemma maxResolution_safe (budget : R) :
  budget > 0 ->
  exists m, Mesher.maxResolution budget = Some m /\
            (IZR m + 1) ^ 3 * 4 <= budget * 1024 * 1024 /\
            (budget <= 2 ^ 60 -> (IZR m + 3) ^ 3 * 4 > budget * 1024 * 1024).
Proof.
  intros Hb. unfold Mesher.maxResolution, Math.pow_third.
  set (a := budget * 1024 * 1024 / 4).
  assert (Ha : 0 < a) by (unfold a; lra).
  rewrite decide_true_if by exact Ha.
  eexists; split; [reflexivity |].
  set (p := Rpower a Math.third).
  assert (Hp : 0 < p) by apply exp_pos.
  destruct (Rlt_dec a 1) as [Hsmall | Hlarge].
  - destruct (pow_third_small a (conj Ha Hsmall)) as [_ Hp1]. fold p in Hp1.
    assert (Hfloor : Math.floor p = 0%Z).
    { unfold Math.floor. apply Zfloor_eq. simpl. lra. }
    rewrite Hfloor. change (IZR (0 - 1)) with (-1). unfold a in Hsmall.
    split; [lra | intros _; lra].
  - split.
    + assert (Hle : p <= Rpower a (/ 3))
        by (apply Rle_Rpower; [lra | apply Rlt_le, third_bounds]).
      pose proof (Zfloor_bound p) as [Hlo _].
      assert (H0 : (0 <= Zfloor p)%Z) by (apply Zfloor_lub; simpl; lra).
      apply IZR_le in H0. unfold Math.floor. rewrite minus_IZR.
      replace (IZR (Zfloor p) - 1 + 1) with (IZR (Zfloor p)) by ring.
      assert (Hcube : IZR (Zfloor p) ^ 3 <= Rpower a (/ 3) ^ 3) by (apply pow_incr; lra).
      rewrite cube_of_third_power in Hcube by exact Ha. unfold a in Hcube. lra.
    + intros Hmax. apply (resolution_of_power budget p Hp); [| lra].
      destruct (pow_third_near_root a) as [Hnear Hle].
      { split; [lra |]. unfold a.
        replace (2 ^ 78) with (2 ^ 60 * 1024 * 1024 / 4) by lra. lra. }
      fold a. fold p in Hnear, Hle. lra.
Qed.

(** The same of every number that [Math.pow] may return for that power,
    for a budget from 1 MB to 2^60 MB. *)
Lemma maxResolution_rounded (budget p : R) :
  1 <= budget <= 2 ^ 60 ->
  Math.rounds_to (Rpower (budget * 1024 * 1024 / 4) Math.third) p ->
  (IZR (Math.floor p - 1) + 1) ^ 3 * 4 <= budget * 1024 * 1024 /\
  (IZR (Math.floor p - 1) + 3) ^ 3 * 4 > budget * 1024 * 1024.
Proof.
  intros [Hlo Hhi] Hp.
  destruct (rounded_pow_third_near_root (budget * 1024 * 1024 / 4) p) as [Hnear Hle].
  { split; [lra |]. replace (2 ^ 78) with (2 ^ 60 * 1024 * 1024 / 4) by lra. lra. }
  { exact Hp. }
  assert (Hroot : 1 <= Rpower (budget * 1024 * 1024 / 4) (/ 3)).
  { rewrite <- (Rpower_O (budget * 1024 * 1024 / 4)) by lra.
    apply Rle_Rpower; lra. }
  apply resolution_of_power; lra.
Qed.

Lemma cube_root_512 : Rpower (512 * 1024 * 1024 / 4) (/ 3) = 512.
Proof.
  replace (512 * 1024 * 1024 / 4) with (512 ^ 3) by lra.
  rewrite <- Rpower_pow by lra. rewrite Rpower_mult.
  replace (INR 3 * / 3) with 1 by (simpl; field). apply Rpower_1; lra.
Qed.

(** At the default budget the power of 2^27 falls just below 512, also
    as [Math.pow] may round it: [Math.floor] gives 511. *)
Lemma floor_rounded_default (p : R) :
  Math.rounds_to (Rpower (512 * 1024 * 1024 / 4) Math.third) p ->
  (Math.floor p - 1)%Z = 510%Z.
Proof.
  intros Hp.
  destruct (rounded_pow_third_near_root (512 * 1024 * 1024 / 4) p) as [Hnear Hlt].
  { lra. }
  { exact Hp. }
  rewrite cube_root_512 in Hnear, Hlt.
  assert (Hfloor : Math.floor p = 511%Z).
  { unfold Math.floor. apply Zfloor_eq. split; [lra |].
    replace (IZR 511 + 1) with 512 by lra. exact Hlt. }
  rewrite Hfloor. reflexivity.
Qed.

Lemma rounds_to_self (x : R) : Math.rounds_to x x.
Proof.
  unfold Math.rounds_to, Math.abs. replace (x - x) with 0 by ring. rewrite Rabs_R0.
  pose proof (Rabs_pos x). unfold Rdiv. apply Rmult_le_pos; [assumption |].
  left. apply Rinv_0_lt_compat. lra.
Qed.

(** The resolution computed at the default budget is 510. *)
Lemma maxResolution_default : Mesher.maxResolution 512 = Some 510%Z.
Proof.
  unfold Mesher.maxResolution, Math.pow_third.
  rewrite decide_true_if by lra.
  rewrite (floor_rounded_default _ (rounds_to_self _)). reflexivity.
Qed.

(** C1, as the code has it.  The resolution and the budget that the call
    uses are [options.resolution || 32] and [options.maxMemoryMB || 512].
    When the grid of that resolution needs more bytes than that budget,
    [marchingCubes] throws an error that carries the resolution and the
    resolution computed from the budget, it prints the warning with the
    same numbers, and the trace of the call holds no allocation of the
    grid.  For a positive budget the resolution computed is safe, its
    grid fits the budget; it is the largest safe resolution or the one
    below it (for a budget of at most 2^60 MB): the grid of the
    resolution two above does not fit.  The last two hold as well of
    the resolution computed from any number that [Math.pow] may return
    in place of the power of the model, for a budget from 1 MB. *)
Theorem memory_limit_enforced (field : Field) (options : Mesher.Options) :
  (IZR (Mesher.resolution_or_default (Mesher.resolution options)) + 1) ^ 3 * 4
  > Mesher.maxMemoryMB_or_default (Mesher.maxMemoryMB options) * 1024 * 1024 ->
  exists trace,
    Mesher.marchingCubes field options
    = (trace,
       Fail (ResolutionExceedsMemoryLimit
               (Mesher.resolution_or_default (Mesher.resolution options))
               (Mesher.maxResolution
                  (Mesher.maxMemoryMB_or_default (Mesher.maxMemoryMB options))))) /\
    In (ConsoleWarnMemory
          (Mesher.resolution_or_default (Mesher.resolution options))
          (Mesher.estimatedMemory (Mesher.resolution_or_default (Mesher.resolution options)))
          (Mesher.maxMemoryMB_or_default (Mesher.maxMemoryMB options))
          (Mesher.maxResolution
             (Mesher.maxMemoryMB_or_default (Mesher.maxMemoryMB options)))) trace /\
    (forall n, ~ In (NewFloat32Array n) trace) /\
    (Mesher.maxMemoryMB_or_default (Mesher.maxMemoryMB options) > 0 ->
     exists m,
       Mesher.maxResolution (Mesher.maxMemoryMB_or_default (Mesher.maxMemoryMB options))
       = Some m /\
       (IZR m + 1) ^ 3 * 4
       <= Mesher.maxMemoryMB_or_default (Mesher.maxMemoryMB options) * 1024 * 1024 /\
       (Mesher.maxMemoryMB_or_default (Mesher.maxMemoryMB options) <= 2 ^ 60 ->
        (IZR m + 3) ^ 3 * 4
        > Mesher.maxMemoryMB_or_default (Mesher.maxMemoryMB options) * 1024 * 1024)) /\
    (1 <= Mesher.maxMemoryMB_or_default (Mesher.maxMemoryMB options) <= 2 ^ 60 ->
     forall p,
       Math.rounds_to
         (Rpower (Mesher.maxMemoryMB_or_default (Mesher.maxMemoryMB options)
                  * 1024 * 1024 / 4) Math.third) p ->
       (IZR (Math.floor p - 1) + 1) ^ 3 * 4
       <= Mesher.maxMemoryMB_or_default (Mesher.maxMemoryMB options) * 1024 * 1024 /\
       (IZR (Math.floor p - 1) + 3) ^ 3 * 4
       > Mesher.maxMemoryMB_or_default (Mesher.maxMemoryMB options) * 1024 * 1024).
Proof.
  intros Hexceeds. apply estimate_exceeds in Hexceeds.
  unfold Mesher.marchingCubes, Mesher.marchingCubes_prog.
  set (resolution := Mesher.resolution_or_default (Mesher.resolution options)) in *.
  set (budget := Mesher.maxMemoryMB_or_default (Mesher.maxMemoryMB options)) in *.
  rewrite decide_true_if by exact Hexceeds.
  destruct (_bounds field); cbn; eexists; (split; [reflexivity |]);
    (split; [cbn; tauto |]);
    (split; [intros n Hin; cbn in Hin; intuition discriminate |]);
    (split; [apply maxResolution_safe |]);
    intros Hbudget p Hp; apply maxResolution_rounded; assumption.
Qed.

Lemma memory_limit_enforced_witness :
  exists trace,
    Mesher.marchingCubes Examples.gyroid40
      {| Mesher.resolution := Some 1000%Z; Mesher.maxMemoryMB := None |}
    = (trace, Fail (ResolutionExceedsMemoryLimit 1000 (Mesher.maxResolution 512))) /\
    forall n, ~ In (NewFloat32Array n) trace.
Proof.
  destruct (memory_limit_enforced Examples.gyroid40
              {| Mesher.resolution := Some 1000%Z; Mesher.maxMemoryMB := None |})
    as (trace & Hcall & _ & Halloc & _).
  - cbn [Mesher.resolution Mesher.maxMemoryMB Mesher.maxMemoryMB_or_default].
    change (Mesher.resolution_or_default (Some 1000%Z)) with 1000%Z. lra.
  - exists trace. split; [exact Hcall | exact Halloc].
Defined.

(** C1 as stated fails in two ways.  With [maxMemoryMB: 0] the grid of
    every resolution needs more than 0 bytes, yet the budget that the
    call uses is the default one and the call returns a mesh.  And the
    resolution that the error names need not be the maximum safe one:
    at the default budget of 512 MB it is 510, whatever [Math.pow]
    rounds the power to, while the grid of resolution 511 needs 512 MB
    exactly and is accepted. *)
Lemma zero_budget_returns_and_510_is_not_the_maximum :
  ((IZR 10 + 1) ^ 3 * 4 > 0 * 1024 * 1024 /\
   exists trace mesh,
     Mesher.marchingCubes Examples.gyroid40
       {| Mesher.resolution := Some 10%Z; Mesher.maxMemoryMB := Some 0 |}
     = (trace, Ok mesh)) /\
  ((exists trace,
      Mesher.marchingCubes Examples.gyroid40
        {| Mesher.resolution := Some 1000%Z; Mesher.maxMemoryMB := None |}
      = (trace, Fail (ResolutionExceedsMemoryLimit 1000 (Some 510%Z)))) /\
   (forall p,
      Math.rounds_to (Rpower (512 * 1024 * 1024 / 4) Math.third) p ->
      (Math.floor p - 1)%Z = 510%Z) /\
   (IZR 511 + 1) ^ 3 * 4 <= 512 * 1024 * 1024 /\
   ~ Mesher.estimatedMemory 511 > Mesher.maxMemoryMB_or_default None).
Proof.
  split; [split; [lra |] | split; [| split; [| split]]].
  - destruct (marchingCubes_returns Examples.gyroid40
                {| Mesher.resolution := Some 10%Z; Mesher.maxMemoryMB := Some 0 |})
      as (trace & mesh & Hrun & _).
    + cbn [Mesher.resolution Mesher.maxMemoryMB].
      change (Mesher.resolution_or_default (Some 10%Z)) with 10%Z.
      unfold Mesher.maxMemoryMB_or_default. rewrite decide_true_if by reflexivity.
      unfold Mesher.estimatedMemory. lra.
    + cbn [Mesher.resolution]. change (Mesher.resolution_or_default (Some 10%Z)) with 10%Z.
      lia.
    + exists trace, mesh. exact Hrun.
  - unfold Mesher.marchingCubes, Mesher.marchingCubes_prog.
    cbn [Mesher.resolution Mesher.maxMemoryMB Mesher.maxMemoryMB_or_default].
    change (Mesher.resolution_or_default (Some 1000%Z)) with 1000%Z.
    rewrite decide_true_if by (unfold Mesher.estimatedMemory; lra).
    rewrite maxResolution_default. cbn. eexists; reflexivity.
  - apply floor_rounded_default.
  - lra.
  - unfold Mesher.estimatedMemory, Mesher.maxMemoryMB_or_default. lra.
Qed.

(** ** Export to STL *)

Lemma write_at (pre old post bytes : list byteval) (byteOffset : nat) :
  List.length pre = byteOffset -> List.length old = List.length bytes ->
  DataView.write (pre ++ old ++ post) byteOffset bytes = Ok (pre ++ bytes ++ post).
Proof.
  intros Hpre Hold. unfold DataView.write.
  rewrite decide_true_if by (rewrite !length_app; lia).
  f_equal. subst byteOffset.
  replace (List.length pre) with (List.length pre + 0)%nat by lia.
  rewrite list_inserts_app_r. f_equal.
  apply list_inserts_0_r. symmetry; exact Hold.
Qed.

(** Two writes, the second right after the first, are one write. *)
Lemma write_then {B} (view : list byteval) (off off2 : nat) (b1 b2 : list byteval)
  (k : list byteval -> result B) :
  off2 = (off + List.length b1)%nat ->
  (do v <- DataView.write view off b1; do v' <- DataView.write v off2 b2; k v')
  = (do v' <- DataView.write view off (b1 ++ b2); k v').
Proof.
  intros ->. unfold DataView.write. rewrite length_app.
  destruct (decide (off + List.length b1 <= List.length view)%nat) as [H1 | H1].
  - cbn [bind]. rewrite length_inserts.
    destruct (decide (off + List.length b1 + List.length b2 <= List.length view)%nat)
      as [H2 | H2].
    + rewrite decide_true_if by lia. cbn [bind].
      rewrite list_inserts_app_l.
      replace (List.length b1 + off)%nat with (off + List.length b1)%nat by lia.
      reflexivity.
    + rewrite decide_false_if by lia. reflexivity.
  - cbn [bind]. rewrite decide_false_if by lia. reflexivity.
Qed.

Lemma number_at_index_ok (a : list R) (i : Z) :
  (0 <= i < Z.of_nat (List.length a))%Z ->
  number_at_index a i = Ok (nth (Z.to_nat i) a 0).
Proof.
  intros Hi. unfold number_at_index, number_at. rewrite decide_true_if by lia.
  destruct (lookup_lt_is_Some_2 a (Z.to_nat i)) as [v Hv]; [lia |].
  rewrite Hv. f_equal. symmetry. apply nth_lookup_Some with (d := 0) in Hv. exact Hv.
Qed.

Lemma vertex_at_ok (mesh : Mesh.t) (n : Z) :
  (0 <= n)%Z -> (n * 3 + 2 < Z.of_nat (List.length (Mesh.vertices mesh)))%Z ->
  Mesher.vertex_at (Mesh.vertices mesh) (n * 3) = Ok (Spec.vertex mesh n).
Proof.
  intros Hn Hlt. unfold Mesher.vertex_at.
  rewrite !number_at_index_ok by lia. reflexivity.
Qed.

Lemma index_at_ok (indices : list Z) (i : nat) :
  (i < List.length indices)%nat ->
  Mesher.index_at indices i = Ok (nth i indices 0%Z).
Proof.
  intros Hi. unfold Mesher.index_at.
  destruct (lookup_lt_is_Some_2 indices i Hi) as [n Hn].
  rewrite Hn. f_equal. symmetry. apply nth_lookup_Some with (d := 0%Z) in Hn. exact Hn.
Qed.

Lemma sqrt_sum_squares_zero (a b c : R) :
  ~ Math.sqrt (a * a + b * b + c * c) > 0 -> a = 0 /\ b = 0 /\ c = 0.
Proof.
  intros Hn. unfold Math.sqrt in Hn.
  pose proof (sum_squares_nonneg a b c) as Hss.
  destruct (Rle_lt_or_eq_dec _ _ Hss) as [Hpos | Hzero].
  - exfalso. apply Hn, Rlt_gt, sqrt_lt_R0, Hpos.
  - repeat split; nra.
Qed.

(** The normal that [toSTL] computes in place is the normalized cross
    product. *)
Lemma inplace_normalize (c : Vec3.t) :
  (if decide (Vec3.length c > 0)
   then Vec3.mk (Vec3.x c / Vec3.length c) (Vec3.y c / Vec3.length c)
                (Vec3.z c / Vec3.length c)
   else c) = Vec3.normalize c.
Proof.
  unfold Vec3.normalize. destruct (decide (Vec3.length c > 0)) as [Hpos | Hzero].
  - unfold Vec3.mul. f_equal; field; lra.
  - destruct c as [a b c]. unfold Vec3.length in Hzero. cbn [Vec3.x Vec3.y Vec3.z] in Hzero.
    destruct (sqrt_sum_squares_zero a b c Hzero) as (-> & -> & ->). reflexivity.
Qed.

Lemma stlTriangle_length (t : Vec3.t * Vec3.t * Vec3.t) :
  List.length (Spec.stlTriangle t) = 50%nat.
Proof. destruct t as [[v0 v1] v2]. reflexivity. Qed.

(** The triangle loop body writes the 50-byte record of triangle [q] at
    [offset], as one write. *)
Lemma writeTriangle_record (mesh : Mesh.t) (q : nat) (view : list byteval) (offset : nat) :
  Spec.wellFormed mesh ->
  (q < Z.to_nat (Mesh.triangleCount mesh))%nat ->
  Mesher.writeTriangle mesh (3 * q) (view, offset)
  = do view' <- DataView.write view offset (Spec.stlTriangle (Spec.triangle mesh q));
    Ok (view', (offset + 50)%nat).
Proof.
  intros (Hcount & Hlen & Hall) Hq.
  assert (Hin : forall j, (j < 3)%nat ->
            (3 * q + j < List.length (Mesh.indices mesh))%nat /\
            (0 <= nth (3 * q + j) (Mesh.indices mesh) 0
             /\ nth (3 * q + j) (Mesh.indices mesh) 0 * 3 + 2
                < Z.of_nat (List.length (Mesh.vertices mesh)))%Z).
  { intros j Hj. assert (Hlt : (3 * q + j < List.length (Mesh.indices mesh))%nat) by lia.
    split; [exact Hlt |].
    rewrite Forall_forall in Hall. apply Hall. apply list_elem_of_In, nth_In. exact Hlt. }
  destruct (Hin 0%nat ltac:(lia)) as (Hi0 & Hn0 & Hv0).
  destruct (Hin 1%nat ltac:(lia)) as (Hi1 & Hn1 & Hv1).
  destruct (Hin 2%nat ltac:(lia)) as (Hi2 & Hn2 & Hv2).
  rewrite Nat.add_0_r in Hi0, Hn0, Hv0.
  unfold Mesher.writeTriangle.
  rewrite !index_at_ok by assumption. cbn [bind].
  rewrite !vertex_at_ok by assumption. cbn [bind].
  unfold Spec.triangle.
  set (v0 := Spec.vertex mesh (nth (3 * q) (Mesh.indices mesh) 0%Z)).
  set (v1 := Spec.vertex mesh (nth (3 * q + 1) (Mesh.indices mesh) 0%Z)).
  set (v2 := Spec.vertex mesh (nth (3 * q + 2) (Mesh.indices mesh) 0%Z)).
  cbn [Vec3.x Vec3.y Vec3.z].
  pose proof (inplace_normalize (Vec3.cross (Vec3.sub v1 v0) (Vec3.sub v2 v0))) as Hn.
  unfold Vec3.length at 1 2 3 4 in Hn. unfold Vec3.cross at 1 2 3 4 5 6 7 8 9 10 in Hn.
  unfold Vec3.sub at 1 2 3 4 5 6 7 8 9 10 11 12 13 14 15 16 17 18 19 20 in Hn.
  cbn [Vec3.x Vec3.y Vec3.z] in Hn.
  change (Spec.stlTriangle (v0, v1, v2))
    with (Spec.stlVector (Vec3.normalize (Vec3.cross (Vec3.sub v1 v0) (Vec3.sub v2 v0)))
          ++ Spec.stlVector v0 ++ Spec.stlVector v1 ++ Spec.stlVector v2 ++ [U8 0; U8 0]).
  rewrite <- Hn. clear Hn.
  set (normal := if decide (_ > 0) then _ else _).
  unfold DataView.setFloat32, DataView.setUint16.
  repeat (rewrite write_then by (cbn [List.length app DataView.float32_le]; lia)).
  unfold Spec.stlVector. rewrite <- !app_assoc.
  destruct (DataView.write view offset _); cbn [bind]; [| reflexivity].
  do 2 f_equal. lia.
Qed.

Lemma triangles_loop (mesh : Mesh.t) (m q : nat) (pre post : list byteval) (offset : nat) :
  Spec.wellFormed mesh ->
  (q + m <= Z.to_nat (Mesh.triangleCount mesh))%nat ->
  List.length pre = offset ->
  foldM (Mesher.writeTriangle mesh) (map (fun q => 3 * q)%nat (seq q m))
        (pre ++ replicate (50 * m) (U8 0) ++ post, offset)
  = Ok (pre ++ flat_map (fun q => Spec.stlTriangle (Spec.triangle mesh q)) (seq q m) ++ post,
        (offset + 50 * m)%nat).
Proof.
  intros Hwf. revert q pre offset.
  induction m as [| m IH]; intros q pre offset Hq Hpre.
  - cbn. rewrite Nat.add_0_r. reflexivity.
  - cbn [seq map foldM].
    rewrite writeTriangle_record by (assumption || lia).
    replace (50 * S m)%nat with (50 + 50 * m)%nat by lia.
    rewrite replicate_add, <- app_assoc.
    rewrite write_at by (assumption || (rewrite stlTriangle_length; reflexivity)).
    cbn [bind].
    replace (pre ++ Spec.stlTriangle (Spec.triangle mesh q) ++ replicate (50 * m) (U8 0) ++ post)
      with ((pre ++ Spec.stlTriangle (Spec.triangle mesh q))
            ++ replicate (50 * m) (U8 0) ++ post)
      by (rewrite <- app_assoc; reflexivity).
    rewrite IH by (try lia; rewrite length_app, stlTriangle_length; lia).
    cbn [flat_map]. rewrite <- !app_assoc. do 2 f_equal. lia.
Qed.

Lemma triangleStarts_exact (n : nat) :
  triangleStarts (3 * n) = map (fun q => 3 * q)%nat (seq 0 n).
Proof.
  unfold triangleStarts, range. do 2 f_equal.
  replace (3 * n + 2)%nat with (2 + n * 3)%nat by lia.
  rewrite Nat.div_add by lia. reflexivity.
Qed.

Lemma get_some (s : string) (i : nat) :
  (i < String.length s)%nat -> exists c, String.get i s = Some c.
Proof.
  revert i. induction s as [| c s IH]; intros i Hi; cbn in Hi; [lia |].
  destruct i as [| i]; cbn; [eexists; reflexivity | apply IH; lia].
Qed.

Lemma get_none (s : string) (i : nat) :
  (String.length s <= i)%nat -> String.get i s = None.
Proof.
  revert i. induction s as [| c s IH]; intros i Hi; cbn in Hi; [reflexivity |].
  destruct i as [| i]; cbn; [lia | apply IH; lia].
Qed.

Lemma uint_le_byte (c : ascii) :
  DataView.uint_le 1 (Z.of_nat (nat_of_ascii c)) = [U8 (Z.of_nat (nat_of_ascii c))].
Proof.
  unfold DataView.uint_le, range. cbn [seq map]. do 2 f_equal.
  pose proof (nat_ascii_bounded c) as Hc.
  change (256 ^ Z.of_nat 0)%Z with 1%Z. rewrite Z.div_1_r.
  apply Z.mod_small. lia.
Qed.

Lemma header_loop (name : string) (m i k : nat) (pre : list byteval) :
  List.length pre = i ->
  (i + m <= String.length (Mesher.header name))%nat ->
  (m <= k)%nat ->
  foldM (fun i view =>
           match String.get i (Mesher.header name) with
           | Some c => DataView.setUint8 view i (Z.of_nat (nat_of_ascii c))
           | None => DataView.setUint8 view i 0
           end)
        (seq i m) (pre ++ replicate k (U8 0))
  = Ok (pre ++ map (Spec.stlHeaderByte name) (seq i m) ++ replicate (k - m) (U8 0)).
Proof.
  revert i k pre. induction m as [| m IH]; intros i k pre Hpre Hlen Hk.
  - cbn. rewrite Nat.sub_0_r. reflexivity.
  - cbn [seq map foldM].
    destruct (get_some (Mesher.header name) i) as [c Hc]; [lia |].
    unfold Spec.stlHeaderByte at 1. rewrite Hc.
    unfold DataView.setUint8. rewrite uint_le_byte.
    destruct k as [| k]; [lia |]. cbn [replicate].
    change (U8 0 :: replicate k (U8 0)) with ([U8 0] ++ replicate k (U8 0)).
    rewrite write_at by (assumption || reflexivity). cbn [bind].
    replace (pre ++ [U8 (Z.of_nat (nat_of_ascii c))] ++ replicate k (U8 0))
      with ((pre ++ [U8 (Z.of_nat (nat_of_ascii c))]) ++ replicate k (U8 0))
      by (rewrite <- app_assoc; reflexivity).
    rewrite IH by (try lia; rewrite length_app; cbn; lia).
    rewrite <- app_assoc. reflexivity.
Qed.

Lemma header_padding (name : string) (n : nat) :
  n = Nat.min (String.length (Mesher.header name)) 80 ->
  Spec.stlHeader name
  = map (Spec.stlHeaderByte name) (seq 0 n) ++ replicate (80 - n) (U8 0).
Proof.
  intros Hn. unfold Spec.stlHeader.
  replace 80%nat with (n + (80 - n))%nat at 1 by lia.
  rewrite seq_app, map_app. f_equal. cbn [Nat.add].
  assert (Hpad : forall i m, (String.length (Mesher.header name) <= i)%nat \/ m = 0%nat ->
            map (Spec.stlHeaderByte name) (seq i m) = replicate m (U8 0)).
  { intros i m. revert i. induction m as [| m IH]; intros i Hi; [reflexivity |].
    cbn [seq map replicate]. destruct Hi as [Hi | Hi]; [| discriminate Hi].
    unfold Spec.stlHeaderByte at 1. rewrite get_none by exact Hi.
    f_equal. apply IH. left; lia. }
  apply Hpad. lia.
Qed.

Lemma writeHeader_ok (name : string) (k : nat) :
  Mesher.writeHeader (replicate (80 + k) (U8 0)) (Mesher.header name)
  = Ok (Spec.stlHeader name ++ replicate k (U8 0)).
Proof.
  unfold Mesher.writeHeader, range.
  set (n := Nat.min (String.length (Mesher.header name)) 80).
  pose proof (header_loop name n 0 (80 + k) [] eq_refl) as Hloop.
  cbn [app] in Hloop. rewrite Hloop by lia.
  rewrite (header_padding name n eq_refl), <- app_assoc, <- replicate_add.
  do 3 f_equal. lia.
Qed.

Lemma stlHeader_length (name : string) : List.length (Spec.stlHeader name) = 80%nat.
Proof. unfold Spec.stlHeader. rewrite length_map, length_seq. reflexivity. Qed.

Lemma flat_map_constant_length {A B} (f : A -> list B) (l : list A) (n : nat) :
  (forall a, List.length (f a) = n) -> List.length (flat_map f l) = (n * List.length l)%nat.
Proof.
  intros Hf. induction l as [| a l IH]; cbn [flat_map List.length]; [lia |].
  rewrite length_app, Hf, IH. lia.
Qed.

(** The unit length of the face normal of a triangle that is not
    degenerate. *)
Lemma normalize_unit (c : Vec3.t) :
  Vec3.length c > 0 -> Vec3.length (Vec3.normalize c) = 1.
Proof.
  intros Hpos. unfold Vec3.normalize. rewrite decide_true_if by exact Hpos.
  unfold Vec3.mul. set (len := Vec3.length c) in *.
  unfold Vec3.length. cbn [Vec3.x Vec3.y Vec3.z].
  assert (Hsq : Vec3.x c * Vec3.x c + Vec3.y c * Vec3.y c + Vec3.z c * Vec3.z c
                = len * len).
  { unfold len, Vec3.length, Math.sqrt. rewrite sqrt_sqrt; [reflexivity |].
    apply sum_squares_nonneg. }
  replace (Vec3.x c * (1 / len) * (Vec3.x c * (1 / len))
           + Vec3.y c * (1 / len) * (Vec3.y c * (1 / len))
           + Vec3.z c * (1 / len) * (Vec3.z c * (1 / len)))
    with ((Vec3.x c * Vec3.x c + Vec3.y c * Vec3.y c + Vec3.z c * Vec3.z c)
          * (/ len * / len)) by (field; lra).
  rewrite Hsq. replace (len * len * (/ len * / len)) with 1 by (field; lra).
  unfold Math.sqrt. apply sqrt_1.
Qed.

Lemma toSTL_ok (mesh : Mesh.t) (name : string) :
  Spec.wellFormed mesh -> Mesher.toSTL mesh name = Ok (Spec.stl mesh name).
Proof.
  intros Hwf. pose proof Hwf as (Hcount & Hlen & _).
  unfold Mesher.toSTL, Spec.stl.
  set (count := Z.to_nat (Mesh.triangleCount mesh)).
  rewrite decide_false_if by lia.
  replace (Z.to_nat (84 + Mesh.triangleCount mesh * 50)) with (80 + (4 + 50 * count))%nat
    by (unfold count; lia).
  rewrite writeHeader_ok. cbn [bind].
  rewrite replicate_add. unfold DataView.setUint32.
  rewrite write_at by (rewrite ?stlHeader_length, ?length_replicate; reflexivity).
  cbn [bind].
  replace (List.length (Mesh.indices mesh)) with (3 * count)%nat by (unfold count; lia).
  rewrite triangleStarts_exact.
  pose proof (triangles_loop mesh count 0
                (Spec.stlHeader name ++ DataView.uint_le 4 (Mesh.triangleCount mesh)) []
                84 Hwf) as Hloop.
  rewrite app_nil_r in Hloop. rewrite <- app_assoc in Hloop.
  rewrite Hloop.
  - cbn [bind fst]. rewrite app_nil_r. reflexivity.
  - unfold count. lia.
  - rewrite length_app, stlHeader_length. reflexivity.
Qed.

(** Every mesh that [marchingCubes] returns is exported, in the layout of
    the specification. *)
Lemma toSTL_of_marchingCubes (field : Field) (options : Mesher.Options)
  (trace : list event) (mesh : Mesh.t) (name : string) :
  Mesher.marchingCubes field options = (trace, Ok mesh) ->
  Mesher.toSTL mesh name = Ok (Spec.stl mesh name).
Proof. intros Hrun. apply toSTL_ok, (marchingCubes_wellFormed _ _ _ _ Hrun). Qed.

(** C4: for a well-formed mesh [toSTL] returns a buffer of
    84 + 50 * triangleCount bytes: the 80-byte header, the triangle
    count as four little-endian bytes, and for each triangle 50 bytes:
    the face normal, the three vertices, each as three binary32 numbers,
    and two zero bytes.  The face normal is the normalized cross product
    of the two edge vectors from the first vertex (of unit length unless
    the triangle is degenerate), and the buffer does not depend on the
    normals stored in the mesh. *)
Theorem toSTL_layout (mesh : Mesh.t) (name : string) :
  Spec.wellFormed mesh ->
  Mesher.toSTL mesh name = Ok (Spec.stl mesh name) /\
  Z.of_nat (List.length (Spec.stl mesh name)) = (84 + 50 * Mesh.triangleCount mesh)%Z /\
  List.length (Spec.stlHeader name) = 80%nat /\
  List.length (DataView.uint_le 4 (Mesh.triangleCount mesh)) = 4%nat /\
  (forall t, List.length (Spec.stlTriangle t) = 50%nat) /\
  (forall v0 v1 v2,
     Vec3.length (Vec3.cross (Vec3.sub v1 v0) (Vec3.sub v2 v0)) > 0 ->
     Vec3.length (Spec.faceNormal (v0, v1, v2)) = 1) /\
  (forall normals',
     Mesher.toSTL {| Mesh.vertices := Mesh.vertices mesh;
                     Mesh.normals := normals';
                     Mesh.indices := Mesh.indices mesh;
                     Mesh.vertexCount := Mesh.vertexCount mesh;
                     Mesh.triangleCount := Mesh.triangleCount mesh;
                     Mesh.bounds := Mesh.bounds mesh |} name
     = Mesher.toSTL mesh name).
Proof.
  intros Hwf. pose proof Hwf as (Hcount & _ & _).
  split; [| split; [| split; [| split; [| split; [| split]]]]].
  - apply toSTL_ok, Hwf.
  - unfold Spec.stl. rewrite !length_app, stlHeader_length.
    rewrite (flat_map_constant_length _ _ 50) by (intros q; apply stlTriangle_length).
    rewrite length_seq. cbn [DataView.uint_le range seq map List.length]. lia.
  - apply stlHeader_length.
  - reflexivity.
  - apply stlTriangle_length.
  - intros v0 v1 v2. apply normalize_unit.
  - intros normals'. reflexivity.
Qed.

Lemma toSTL_layout_witness :
  Spec.wellFormed Examples.oneTriangle /\
  Mesher.toSTL Examples.oneTriangle "model"
  = Ok (Spec.stl Examples.oneTriangle "model") /\
  Z.of_nat (List.length (Spec.stl Examples.oneTriangle "model")) = 134%Z.
Proof.
  assert (Hwf : Spec.wellFormed Examples.oneTriangle).
  { unfold Spec.wellFormed, Examples.oneTriangle. cbn.
    repeat split; try lia. repeat constructor; lia. }
  split; [exact Hwf |].
  destruct (toSTL_layout Examples.oneTriangle "model" Hwf) as (Hok & Hlen & _).
  split; [exact Hok | exact Hlen].
Defined.

(** The record of the example triangle: its face normal is (0,0,1),
    although the normals stored in the mesh are (1,0,0). *)
Lemma oneTriangle_normal :
  Spec.faceNormal (Spec.triangle Examples.oneTriangle 0) = Vec3.mk 0 0 1.
Proof.
  change (Spec.triangle Examples.oneTriangle 0)
    with (Vec3.mk 0 0 0, Vec3.mk 1 0 0, Vec3.mk 0 1 0).
  unfold Spec.faceNormal, Vec3.normalize, Vec3.cross, Vec3.sub, Vec3.length, Vec3.mul, Math.sqrt.
  cbn [Vec3.x Vec3.y Vec3.z].
  replace ((0 - 0) * (0 - 0) - (0 - 0) * (1 - 0)) with 0 by ring.
  replace ((0 - 0) * (0 - 0) - (1 - 0) * (0 - 0)) with 0 by ring.
  replace ((1 - 0) * (1 - 0) - (0 - 0) * (0 - 0)) with 1 by ring.
  replace (0 * 0 + 0 * 0 + 1 * 1) with 1 by ring.
  rewrite sqrt_1. rewrite decide_true_if by lra.
  f_equal; field.
Qed.

(** * Further properties

    Properties of the operations that the code itself shows: their edge
    cases, how they compose and what their bounds hold. *)

(** ** Boolean operations on any number of fields *)

Lemma min_list_le_iff (c first : R) (rest : list R) :
  Math.min_list first rest <= c <-> first <= c \/ Exists (fun v => v <= c) rest.
Proof.
  unfold Math.min_list. revert first.
  induction rest as [| v rest IH]; intros first; cbn [fold_left].
  - rewrite Exists_nil. tauto.
  - rewrite IH, Exists_cons.
    assert (Rmin first v <= c <-> first <= c \/ v <= c) by (split_minmax; lra).
    tauto.
Qed.

Lemma max_list_le_iff (c first : R) (rest : list R) :
  Math.max_list first rest <= c <-> first <= c /\ Forall (fun v => v <= c) rest.
Proof.
  unfold Math.max_list. revert first.
  induction rest as [| v rest IH]; intros first; cbn [fold_left].
  - split; [intros H; split; [exact H | constructor] | tauto].
  - rewrite IH, Forall_cons.
    assert (Rmax first v <= c <-> first <= c /\ v <= c) by (split_minmax; lra).
    tauto.
Qed.

Lemma min_list_ge_iff (c first : R) (rest : list R) :
  c <= Math.min_list first rest <-> c <= first /\ Forall (fun v => c <= v) rest.
Proof.
  unfold Math.min_list. revert first.
  induction rest as [| v rest IH]; intros first; cbn [fold_left].
  - split; [intros H; split; [exact H | constructor] | tauto].
  - rewrite IH, Forall_cons.
    assert (c <= Rmin first v <-> c <= first /\ c <= v) by (split_minmax; lra).
    tauto.
Qed.

Lemma max_list_ge_iff (c first : R) (rest : list R) :
  c <= Math.max_list first rest <-> c <= first \/ Exists (fun v => c <= v) rest.
Proof.
  unfold Math.max_list. revert first.
  induction rest as [| v rest IH]; intros first; cbn [fold_left].
  - rewrite Exists_nil. tauto.
  - rewrite IH, Exists_cons.
    assert (c <= Rmax first v <-> c <= first \/ c <= v) by (split_minmax; lra).
    tauto.
Qed.

Lemma contains_intersection (a b : Bounds.t) (p : Vec3.t) :
  Bounds.contains (Bounds.intersection a b) p <->
  Bounds.contains a p /\ Bounds.contains b p.
Proof.
  unfold Bounds.contains, Bounds.intersection.
  cbn [Bounds.min Bounds.max Vec3.x Vec3.y Vec3.z].
  split_minmax; lra.
Qed.

Lemma contains_union (a b : Bounds.t) (p : Vec3.t) :
  Bounds.contains a p \/ Bounds.contains b p ->
  Bounds.contains (Bounds.union a b) p.
Proof.
  unfold Bounds.contains, Bounds.union.
  cbn [Bounds.min Bounds.max Vec3.x Vec3.y Vec3.z].
  split_minmax; lra.
Qed.

Lemma contains_fold_union (p : Vec3.t) (rest : list Field) (acc : Bounds.t) :
  Bounds.contains acc p \/
  Exists (fun g => Bounds.contains (FieldMethods.bounds g) p) rest ->
  Bounds.contains
    (fold_left (fun acc g => Bounds.union acc (FieldMethods.bounds g)) rest acc) p.
Proof.
  revert acc. induction rest as [| g rest IH]; intros acc H; cbn [fold_left].
  - rewrite Exists_nil in H. tauto.
  - apply IH. rewrite Exists_cons in H.
    destruct H as [H | [H | H]]; [left | left | right; exact H];
      apply contains_union; tauto.
Qed.

Lemma contains_fold_intersection (p : Vec3.t) (rest : list Field) (acc : Bounds.t) :
  Bounds.contains
    (fold_left (fun acc g => Bounds.intersection acc (FieldMethods.bounds g)) rest acc) p
  <-> Bounds.contains acc p /\
      Forall (fun g => Bounds.contains (FieldMethods.bounds g) p) rest.
Proof.
  revert acc. induction rest as [| g rest IH]; intros acc; cbn [fold_left].
  - split; [intros H; split; [exact H | constructor] | tauto].
  - rewrite IH, contains_intersection, Forall_cons. tauto.
Qed.

(** X1: a union of fields.  Without fields the call throws; otherwise it
    returns a field whose value is at most [c] exactly where the value of
    some given field is (so, with [c = 0], a point is in the union exactly
    when it is in one of them), and whose bounds hold every point of the
    bounds of each given field. *)
Theorem union_of_fields (fields : list Field) :
  Boolean.union [] = Fail (Thrown "Union requires at least one field") /\
  (fields <> [] ->
   exists u, Boolean.union fields = Ok u /\
     (forall p c, _evaluate u p <= c <-> Exists (fun f => _evaluate f p <= c) fields) /\
     (forall p, Exists (fun f => Bounds.contains (FieldMethods.bounds f) p) fields ->
                Bounds.contains (FieldMethods.bounds u) p)).
Proof.
  split; [reflexivity |]. intros Hne.
  destruct fields as [| f [| g rest]]; [congruence | |].
  - exists f. split; [reflexivity |]. split.
    + intros p c. rewrite Exists_cons, Exists_nil. tauto.
    + intros p H. rewrite Exists_cons, Exists_nil in H. tauto.
  - eexists. split; [reflexivity |]. split.
    + intros p c. cbn [_evaluate]. rewrite min_list_le_iff, Exists_cons.
      rewrite List.Exists_map. reflexivity.
    + intros p H. unfold FieldMethods.bounds at 1. cbn [_bounds].
      apply contains_fold_union. rewrite Exists_cons in H. exact H.
Qed.

Lemma union_of_fields_witness :
  exists u,
    Boolean.union [Primitives.plane (Vec3.mk 0 0 0) (Vec3.mk 0 0 1);
                   Primitives.plane (Vec3.mk 0 0 0) (Vec3.mk 1 0 0)] = Ok u /\
    (forall p c, _evaluate u p <= c <->
       Exists (fun f => _evaluate f p <= c)
         [Primitives.plane (Vec3.mk 0 0 0) (Vec3.mk 0 0 1);
          Primitives.plane (Vec3.mk 0 0 0) (Vec3.mk 1 0 0)]) /\
    (forall p,
       Exists (fun f => Bounds.contains (FieldMethods.bounds f) p)
         [Primitives.plane (Vec3.mk 0 0 0) (Vec3.mk 0 0 1);
          Primitives.plane (Vec3.mk 0 0 0) (Vec3.mk 1 0 0)] ->
       Bounds.contains (FieldMethods.bounds u) p).
Proof.
  apply (union_of_fields
           [Primitives.plane (Vec3.mk 0 0 0) (Vec3.mk 0 0 1);
            Primitives.plane (Vec3.mk 0 0 0) (Vec3.mk 1 0 0)]).
  discriminate.
Defined.

(** X2: an intersection of fields.  Without fields the call throws;
    otherwise the value is at most [c] exactly where the value of every
    given field is, and the bounds are exactly the common part of the
    bounds of the given fields. *)
Theorem intersection_of_fields (fields : list Field) :
  Boolean.intersection [] = Fail (Thrown "Intersection requires at least one field") /\
  (fields <> [] ->
   exists u, Boolean.intersection fields = Ok u /\
     (forall p c, _evaluate u p <= c <-> Forall (fun f => _evaluate f p <= c) fields) /\
     (forall p, Bounds.contains (FieldMethods.bounds u) p <->
                Forall (fun f => Bounds.contains (FieldMethods.bounds f) p) fields)).
Proof.
  split; [reflexivity |]. intros Hne.
  destruct fields as [| f [| g rest]]; [congruence | |].
  - exists f. split; [reflexivity |]. split.
    + intros p c. rewrite Forall_cons, Forall_nil. tauto.
    + intros p. rewrite Forall_cons, Forall_nil. tauto.
  - eexists. split; [reflexivity |]. split.
    + intros p c. cbn [_evaluate]. rewrite max_list_le_iff.
      rewrite List.Forall_map, (Forall_cons _ f). reflexivity.
    + intros p. unfold FieldMethods.bounds at 1. cbn [_bounds].
      rewrite contains_fold_intersection, (Forall_cons _ f). reflexivity.
Qed.

Lemma intersection_of_fields_witness :
  exists u,
    Boolean.intersection [Primitives.plane (Vec3.mk 0 0 0) (Vec3.mk 0 0 1);
                          Primitives.plane (Vec3.mk 0 0 0) (Vec3.mk 1 0 0)] = Ok u /\
    (forall p c, _evaluate u p <= c <->
       Forall (fun f => _evaluate f p <= c)
         [Primitives.plane (Vec3.mk 0 0 0) (Vec3.mk 0 0 1);
          Primitives.plane (Vec3.mk 0 0 0) (Vec3.mk 1 0 0)]) /\
    (forall p,
       Bounds.contains (FieldMethods.bounds u) p <->
       Forall (fun f => Bounds.contains (FieldMethods.bounds f) p)
         [Primitives.plane (Vec3.mk 0 0 0) (Vec3.mk 0 0 1);
          Primitives.plane (Vec3.mk 0 0 0) (Vec3.mk 1 0 0)]).
Proof.
  apply (intersection_of_fields
           [Primitives.plane (Vec3.mk 0 0 0) (Vec3.mk 0 0 1);
            Primitives.plane (Vec3.mk 0 0 0) (Vec3.mk 1 0 0)]).
  discriminate.
Defined.

(** X3: the sign of [xor].  The value of [Boolean.xor a b] is negative
    exactly at the points strictly inside both fields or strictly outside
    both, and positive exactly at the points strictly inside one and
    strictly outside the other; its magnitude is the smaller of the two
    magnitudes, and the operation is symmetric. *)
Theorem xor_sign (a b : Field) (p : Vec3.t) :
  (_evaluate (Boolean.xor a b) p < 0 <->
     (_evaluate a p < 0 /\ _evaluate b p < 0) \/
     (_evaluate a p > 0 /\ _evaluate b p > 0)) /\
  (_evaluate (Boolean.xor a b) p > 0 <->
     (_evaluate a p < 0 /\ _evaluate b p > 0) \/
     (_evaluate a p > 0 /\ _evaluate b p < 0)) /\
  Math.abs (_evaluate (Boolean.xor a b) p) =
    Math.min (Math.abs (_evaluate a p)) (Math.abs (_evaluate b p)) /\
  _evaluate (Boolean.xor a b) p = _evaluate (Boolean.xor b a) p.
Proof.
  unfold Boolean.xor. cbn [_evaluate].
  generalize (_evaluate a p) (_evaluate b p). intros da db.
  repeat split; split_minmax; lra.
Qed.

Lemma smoothMin_step_below (k v res : R) :
  0 < k ->
  exists r, Boolean.smoothMin_step k v res = Ok r /\ r <= res /\ r <= v /\
            Rmin res v - k / 4 <= r.
Proof.
  intros Hk. unfold Boolean.smoothMin_step.
  rewrite decide_false_if by lra. eexists. split; [reflexivity |].
  set (h := Math.max (k - Math.abs (res - v)) 0 / k).
  assert (Hh : 0 <= h <= 1).
  { unfold h. split.
    - apply Rmult_le_pos; [unfold_math; apply Rmax_r | left; apply Rinv_0_lt_compat, Hk].
    - apply Rmult_le_reg_r with k; [exact Hk |].
      unfold Rdiv. rewrite Rmult_assoc, Rinv_l by lra. split_minmax; lra. }
  assert (Hhh : 0 <= h * h <= 1) by nra.
  assert (Hhk : 0 <= h * h * k <= k) by nra.
  assert (0 <= h * h * k * 0.25 <= k / 4) by lra.
  unfold_math. split_minmax; lra.
Qed.

Lemma smoothMax_step_above (k v res : R) :
  0 < k ->
  exists r, Boolean.smoothMax_step k v res = Ok r /\ res <= r /\ v <= r /\
            r <= Rmax res v + k / 4.
Proof.
  intros Hk. unfold Boolean.smoothMax_step.
  rewrite decide_false_if by lra. eexists. split; [reflexivity |].
  set (h := Math.max (k - Math.abs (res - v)) 0 / k).
  assert (Hh : 0 <= h <= 1).
  { unfold h. split.
    - apply Rmult_le_pos; [unfold_math; apply Rmax_r | left; apply Rinv_0_lt_compat, Hk].
    - apply Rmult_le_reg_r with k; [exact Hk |].
      unfold Rdiv. rewrite Rmult_assoc, Rinv_l by lra. split_minmax; lra. }
  assert (Hhh : 0 <= h * h <= 1) by nra.
  assert (Hhk : 0 <= h * h * k <= k) by nra.
  assert (0 <= h * h * k * 0.25 <= k / 4) by lra.
  unfold_math. split_minmax; lra.
Qed.

Lemma smoothMin_loop (k : R) (rest : list R) (res : R) :
  0 < k ->
  exists r, foldM (Boolean.smoothMin_step k) rest res = Ok r /\
            r <= res /\ Forall (fun v => r <= v) rest.
Proof.
  intros Hk. revert res. induction rest as [| v rest IH]; intros res; cbn [foldM].
  - exists res. split; [reflexivity |]. split; [lra | constructor].
  - destruct (smoothMin_step_below k v res Hk) as (r1 & E & H1 & H2 & _).
    rewrite E. cbn [bind]. destruct (IH r1) as (r & E2 & H3 & H4).
    exists r. split; [exact E2 |]. split; [lra |].
    constructor; [lra | exact H4].
Qed.

Lemma smoothMax_loop (k : R) (rest : list R) (res : R) :
  0 < k ->
  exists r, foldM (Boolean.smoothMax_step k) rest res = Ok r /\
            res <= r /\ Forall (fun v => v <= r) rest.
Proof.
  intros Hk. revert res. induction rest as [| v rest IH]; intros res; cbn [foldM].
  - exists res. split; [reflexivity |]. split; [lra | constructor].
  - destruct (smoothMax_step_above k v res Hk) as (r1 & E & H1 & H2 & _).
    rewrite E. cbn [bind]. destruct (IH r1) as (r & E2 & H3 & H4).
    exists r. split; [exact E2 |]. split; [lra |].
    constructor; [lra | exact H4].
Qed.

(** X4: the smooth minimum never exceeds the minimum.  For a positive
    blend radius [k] and at least one value, [_smoothMin] returns a number
    that is at most every value; with two values it is at least their
    minimum less [k / 4].  [_smoothMax] mirrors this. *)
Theorem smooth_blend_bounds (values : list R) (k : R) :
  0 < k -> values <> [] ->
  (exists r, Boolean._smoothMin values k = Ok r /\
             Forall (fun v => r <= v) values /\
             (forall a b, values = [a; b] -> Math.min a b - k / 4 <= r)) /\
  (exists r, Boolean._smoothMax values k = Ok r /\
             Forall (fun v => v <= r) values /\
             (forall a b, values = [a; b] -> r <= Math.max a b + k / 4)).
Proof.
  intros Hk Hne. destruct values as [| v0 rest]; [congruence |].
  unfold Boolean._smoothMin, Boolean._smoothMax. split.
  - destruct (smoothMin_loop k rest v0 Hk) as (r & E & H1 & H2).
    exists r. split; [exact E |]. split; [constructor; assumption |].
    intros a b Hab. injection Hab as -> ->. cbn [foldM] in E.
    destruct (smoothMin_step_below k b a Hk) as (r1 & E1 & _ & _ & H3).
    rewrite E1 in E. cbn [bind] in E. injection E as <-. exact H3.
  - destruct (smoothMax_loop k rest v0 Hk) as (r & E & H1 & H2).
    exists r. split; [exact E |]. split; [constructor; assumption |].
    intros a b Hab. injection Hab as -> ->. cbn [foldM] in E.
    destruct (smoothMax_step_above k b a Hk) as (r1 & E1 & _ & _ & H3).
    rewrite E1 in E. cbn [bind] in E. injection E as <-. exact H3.
Qed.

Lemma smooth_blend_bounds_witness :
  (exists r, Boolean._smoothMin [1; 2] 4 = Ok r /\
             Forall (fun v => r <= v) [1; 2] /\
             (forall a b, [1; 2] = [a; b] -> Math.min a b - 4 / 4 <= r)) /\
  (exists r, Boolean._smoothMax [1; 2] 4 = Ok r /\
             Forall (fun v => v <= r) [1; 2] /\
             (forall a b, [1; 2] = [a; b] -> r <= Math.max a b + 4 / 4)).
Proof.
  apply (smooth_blend_bounds [1; 2] 4); [lra | discriminate].
Defined.

(** ** Modifications *)

(** Offsets add up, and never shrink the bounds.  Offsetting by [a]
    and then by [b] evaluates as one offset by [a + b]; the offset solid
    is the set where the field is at most the distance; and the bounds
    grow by the magnitude of the distance, so that they hold the bounds
    of the field also when the solid is made smaller. *)
Lemma offset_composes (field : Field) (a b : R) (p : Vec3.t) :
  _evaluate (Modify.offset (Modify.offset field a) b) p =
    _evaluate (Modify.offset field (a + b)) p /\
  (_evaluate (Modify.offset field a) p <= 0 <-> _evaluate field p <= a) /\
  (Bounds.contains (FieldMethods.bounds field) p ->
   Bounds.contains (FieldMethods.bounds (Modify.offset field a)) p).
Proof.
  unfold Modify.offset. cbn [_evaluate]. split; [ring |]. split; [lra |].
  unfold FieldMethods.bounds at 2. cbn [_bounds].
  unfold Bounds.contains, Bounds.expand, Vec3.sub, Vec3.add.
  cbn [Bounds.min Bounds.max Vec3.x Vec3.y Vec3.z].
  pose proof (Rabs_pos a). unfold Math.abs. lra.
Qed.


(** X5: [fillet] and [chamfer] are plain offsets.  For a positive radius
    [fillet] returns a field that has, at every point, the value of the
    given field (it offsets inwards and back outwards by the same
    amount), while its bounds have grown by twice the radius; for a
    positive distance [chamfer] returns the field raised by half the
    distance everywhere.  Non-positive arguments throw. *)
Theorem fillet_and_chamfer_are_offsets (field : Field) (d : R) :
  (0 < d ->
   (exists g, Modify.fillet field d = Ok g /\
      (forall p, _evaluate g p = _evaluate field p) /\
      FieldMethods.bounds g =
        Bounds.expand (Bounds.expand (FieldMethods.bounds field) d) d) /\
   (exists g, Modify.chamfer field d = Ok g /\
      (forall p, _evaluate g p = _evaluate field p + d / 2) /\
      FieldMethods.bounds g = Bounds.expand (FieldMethods.bounds field) (d / 2))) /\
  (d <= 0 ->
   Modify.fillet field d = Fail (Thrown "Fillet radius must be positive") /\
   Modify.chamfer field d = Fail (Thrown "Chamfer distance must be positive")).
Proof.
  unfold Modify.fillet, Modify.chamfer. split.
  - intros Hd. rewrite !decide_false_if by lra. split.
    + eexists. split; [reflexivity |]. split.
      * intros p. cbn [Modify.retype Modify.offset _evaluate]. ring.
      * unfold FieldMethods.bounds at 1.
        cbn [Modify.retype Modify.offset _bounds].
        unfold FieldMethods.bounds at 1. cbn [Modify.offset _bounds].
        unfold Math.abs. rewrite Rabs_Ropp, Rabs_pos_eq by lra. reflexivity.
    + eexists. split; [reflexivity |]. split.
      * intros p. cbn [Modify.retype Modify.offset _evaluate]. lra.
      * unfold FieldMethods.bounds at 1.
        cbn [Modify.retype Modify.offset _bounds].
        unfold Math.abs.
        replace (Rabs (- d * 0.5)) with (d / 2); [reflexivity |].
        rewrite Rabs_left by lra. lra.
  - intros Hd. rewrite !decide_true_if by lra. split; reflexivity.
Qed.

Lemma fillet_and_chamfer_are_offsets_witness :
  (exists g, Modify.fillet (Primitives.plane (Vec3.mk 0 0 0) (Vec3.mk 0 0 1)) 2 = Ok g /\
     (forall p, _evaluate g p
                = _evaluate (Primitives.plane (Vec3.mk 0 0 0) (Vec3.mk 0 0 1)) p) /\
     FieldMethods.bounds g =
       Bounds.expand
         (Bounds.expand
            (FieldMethods.bounds (Primitives.plane (Vec3.mk 0 0 0) (Vec3.mk 0 0 1))) 2) 2) /\
  (exists g, Modify.chamfer (Primitives.plane (Vec3.mk 0 0 0) (Vec3.mk 0 0 1)) 2 = Ok g /\
     (forall p, _evaluate g p
                = _evaluate (Primitives.plane (Vec3.mk 0 0 0) (Vec3.mk 0 0 1)) p + 2 / 2) /\
     FieldMethods.bounds g =
       Bounds.expand
         (FieldMethods.bounds (Primitives.plane (Vec3.mk 0 0 0) (Vec3.mk 0 0 1))) (2 / 2)).
Proof.
  apply (proj1 (fillet_and_chamfer_are_offsets
                  (Primitives.plane (Vec3.mk 0 0 0) (Vec3.mk 0 0 1)) 2)).
  lra.
Defined.

(** X6: the wall of a shell.  For a positive thickness [shell] returns a
    field that is non-positive exactly where the given field lies between
    minus the thickness and zero: the wall is cut inside the solid, up to
    its surface.  A non-positive thickness throws. *)
Theorem shell_wall (field : Field) (thickness : R) :
  (0 < thickness ->
   exists g, Modify.shell field thickness = Ok g /\
     (forall p, _evaluate g p <= 0 <->
                - thickness <= _evaluate field p <= 0) /\
     FieldMethods.bounds g = FieldMethods.bounds field) /\
  (thickness <= 0 ->
   Modify.shell field thickness = Fail (Thrown "Shell thickness must be positive")).
Proof.
  unfold Modify.shell. split.
  - intros Ht. rewrite decide_false_if by lra. eexists. split; [reflexivity |].
    split; [| reflexivity].
    intros p. cbn [Modify.retype Boolean.difference Modify.offset _evaluate].
    split_minmax; lra.
  - intros Ht. rewrite decide_true_if by lra. reflexivity.
Qed.

Lemma shell_wall_witness :
  exists g, Modify.shell (Primitives.plane (Vec3.mk 0 0 0) (Vec3.mk 0 0 1)) 2 = Ok g /\
    (forall p, _evaluate g p <= 0 <->
               - 2 <= _evaluate (Primitives.plane (Vec3.mk 0 0 0) (Vec3.mk 0 0 1)) p <= 0) /\
    FieldMethods.bounds g
    = FieldMethods.bounds (Primitives.plane (Vec3.mk 0 0 0) (Vec3.mk 0 0 1)).
Proof.
  apply (proj1 (shell_wall (Primitives.plane (Vec3.mk 0 0 0) (Vec3.mk 0 0 1)) 2)).
  lra.
Defined.

(** ** Transformations *)

(** Translations compose and undo each other.  Translating by [a]
    and then by [b] evaluates as one translation by [a + b]; translating
    back by [-a] restores every value; and a point is in the bounds of
    the translated field exactly when the point moved back is in the
    bounds of the field. *)
Lemma translate_composes (field : Field) (a b p : Vec3.t) :
  _evaluate (Transform.translate (Transform.translate field a) b) p =
    _evaluate (Transform.translate field (Vec3.add a b)) p /\
  _evaluate (Transform.translate (Transform.translate field a) (Vec3.mul a (-1))) p =
    _evaluate field p /\
  (Bounds.contains (FieldMethods.bounds (Transform.translate field a)) p <->
   Bounds.contains (FieldMethods.bounds field) (Vec3.sub p a)).
Proof.
  unfold Transform.translate. cbn [_evaluate]. split; [| split].
  - f_equal. unfold Vec3.sub, Vec3.add. cbn [Vec3.x Vec3.y Vec3.z]. f_equal; ring.
  - f_equal. destruct p as [px py pz]. unfold Vec3.sub, Vec3.mul.
    cbn [Vec3.x Vec3.y Vec3.z]. f_equal; ring.
  - unfold FieldMethods.bounds at 1. cbn [_bounds].
    unfold Bounds.contains, Vec3.add, Vec3.sub.
    cbn [Bounds.min Bounds.max Vec3.x Vec3.y Vec3.z]. lra.
Qed.

Lemma length_sq (v : Vec3.t) : Vec3.length v * Vec3.length v = Vec3.dot v v.
Proof.
  unfold Vec3.length, Vec3.dot, Math.sqrt. apply sqrt_sqrt, sum_squares_nonneg.
Qed.

Lemma length_nonneg (v : Vec3.t) : 0 <= Vec3.length v.
Proof. unfold Vec3.length, Math.sqrt. apply sqrt_pos. Qed.

Lemma normalize_dot (v : Vec3.t) :
  Vec3.length v > 0 -> Vec3.dot (Vec3.normalize v) (Vec3.normalize v) = 1.
Proof.
  intros Hv. rewrite <- length_sq, normalize_unit by exact Hv. ring.
Qed.

Lemma length_x_axis (a : R) : Vec3.length (Vec3.mk a 0 0) = Rabs a.
Proof.
  unfold Vec3.length, Math.sqrt. cbn [Vec3.x Vec3.y Vec3.z].
  replace (a * a + 0 * 0 + 0 * 0) with (Rsqr a) by (unfold Rsqr; ring).
  apply sqrt_Rsqr_abs.
Qed.

Lemma normalize_x_axis (a : R) :
  a <> 0 ->
  Vec3.normalize (Vec3.mk a 0 0) = Vec3.mk (a / Rabs a) 0 0 /\
  (a / Rabs a = 1 \/ a / Rabs a = -1).
Proof.
  intros Ha. pose proof (Rabs_pos_lt a Ha) as Hpos. split.
  - unfold Vec3.normalize. rewrite length_x_axis.
    rewrite decide_true_if by lra. unfold Vec3.mul. cbn [Vec3.x Vec3.y Vec3.z].
    f_equal; field; lra.
  - unfold Rabs in *. destruct (Rcase_abs a); [right | left]; field; lra.
Qed.

Lemma reflect_twice (k pp p : Vec3.t) :
  Vec3.dot k k = 1 ->
  let reflect q := Vec3.sub q (Vec3.mul k (2 * Vec3.dot (Vec3.sub q pp) k)) in
  reflect (reflect p) = p.
Proof.
  intros Hk reflect. unfold reflect.
  destruct k as [kx ky kz], pp as [qx qy qz], p as [px py pz].
  unfold Vec3.dot, Vec3.sub, Vec3.mul in *. cbn [Vec3.x Vec3.y Vec3.z] in *.
  set (d := (px - qx) * kx + (py - qy) * ky + (pz - qz) * kz).
  match goal with
  | |- context [2 * ?e] =>
      lazymatch e with
      | d => fail
      | _ => replace e with (d - 2 * d * (kx * kx + ky * ky + kz * kz)) by (unfold d; ring)
      end
  end.
  rewrite Hk. f_equal; ring.
Qed.

(** X7: a mirror is an involution that keeps the bounds where they were.
    For a plane with a non-zero normal, mirroring twice restores every
    value; the bounds of the mirrored field are the bounds of the given
    field, not their mirror image. *)
Theorem mirror_involution (field : Field) (planePoint planeNormal p : Vec3.t) :
  Vec3.length planeNormal > 0 ->
  _evaluate (Transform.mirror (Transform.mirror field planePoint planeNormal)
                              planePoint planeNormal) p = _evaluate field p /\
  FieldMethods.bounds (Transform.mirror field planePoint planeNormal) =
    FieldMethods.bounds field.
Proof.
  intros Hn. split; [| reflexivity].
  unfold Transform.mirror. cbn [_evaluate]. f_equal.
  apply (reflect_twice (Vec3.normalize planeNormal) planePoint p).
  apply normalize_dot, Hn.
Qed.

Lemma mirror_involution_witness :
  _evaluate (Transform.mirror
               (Transform.mirror (Primitives.plane (Vec3.mk 0 0 0) (Vec3.mk 0 0 1))
                                 (Vec3.mk 0 0 0) (Vec3.mk 1 0 0))
               (Vec3.mk 0 0 0) (Vec3.mk 1 0 0)) (Vec3.mk 1 2 3) =
    _evaluate (Primitives.plane (Vec3.mk 0 0 0) (Vec3.mk 0 0 1)) (Vec3.mk 1 2 3) /\
  FieldMethods.bounds
    (Transform.mirror (Primitives.plane (Vec3.mk 0 0 0) (Vec3.mk 0 0 1))
                      (Vec3.mk 0 0 0) (Vec3.mk 1 0 0)) =
    FieldMethods.bounds (Primitives.plane (Vec3.mk 0 0 0) (Vec3.mk 0 0 1)).
Proof.
  apply (mirror_involution (Primitives.plane (Vec3.mk 0 0 0) (Vec3.mk 0 0 1))
           (Vec3.mk 0 0 0) (Vec3.mk 1 0 0) (Vec3.mk 1 2 3)).
  rewrite length_axis; lra.
Defined.

Lemma sphere_ok (center : Vec3.t) (radius : R) :
  0 < radius ->
  Primitives.sphere center radius =
  Ok {| _evaluate := fun p => Vec3.distance p center - radius;
        _bounds := Some (Bounds.mk (Vec3.sub center (Vec3.mk radius radius radius))
                                   (Vec3.add center (Vec3.mk radius radius radius)));
        _metadata := {| type := "sphere"; complexity := 1 |} |}.
Proof.
  intros Hr. unfold Primitives.sphere. rewrite decide_false_if by lra. reflexivity.
Qed.

(** X8: the mirror image of a solid can lie outside the mirrored field's
    bounds.  Take a sphere of radius [r] whose centre is further than [r]
    from the plane [x = 0], and mirror it in that plane: at the mirror
    image of the centre the mirrored field has the value [-r] (the point
    is inside the solid), yet the point is outside the field's bounds, and
    [sample] reports it as outside with a positive distance. *)
Theorem mirrored_solid_outside_bounds (center : Vec3.t) (r : R) :
  0 < r -> r < Vec3.x center ->
  exists f,
    Primitives.sphere center r = Ok f /\
    let m := Transform.mirror f (Vec3.mk 0 0 0) (Vec3.mk 1 0 0) in
    let image := Vec3.mk (- Vec3.x center) (Vec3.y center) (Vec3.z center) in
    _evaluate m image = - r /\
    ~ Bounds.contains (FieldMethods.bounds m) image /\
    outsideBounds (FieldMethods.sample m image) = true /\
    distance (FieldMethods.sample m image) > 0.
Proof.
  intros Hr Hc. eexists. split; [apply sphere_ok, Hr |].
  cbv zeta. set (f := Build_Field _ _ _).
  set (image := Vec3.mk (- Vec3.x center) (Vec3.y center) (Vec3.z center)).
  assert (Hout : ~ Bounds.contains (FieldMethods.bounds
                     (Transform.mirror f (Vec3.mk 0 0 0) (Vec3.mk 1 0 0))) image).
  { unfold Transform.mirror, FieldMethods.bounds, f, image, Bounds.contains,
      Vec3.sub, Vec3.add.
    cbn [_bounds Bounds.min Bounds.max Vec3.x Vec3.y Vec3.z]. lra. }
  split; [| split; [exact Hout | ]].
  - unfold Transform.mirror, f. cbn [_evaluate].
    destruct (normalize_x_axis 1) as [-> _]; [lra |].
    rewrite Rabs_R1.
    match goal with
    | |- Vec3.distance ?q center - r = _ => replace q with center
    end.
    + rewrite distance_self. ring.
    + destruct center as [cx cy cz]. unfold image, Vec3.sub, Vec3.mul, Vec3.dot.
      cbn [Vec3.x Vec3.y Vec3.z]. f_equal; field.
  - unfold FieldMethods.sample, FieldMethods.culled.
    unfold FieldMethods.bounds in Hout.
    destruct (_bounds (Transform.mirror f (Vec3.mk 0 0 0) (Vec3.mk 1 0 0))) as [b |] eqn:Eb;
      [| discriminate Eb].
    rewrite decide_false_if by exact Hout.
    split; [reflexivity |]. cbn [distance].
    injection Eb as <-. unfold FieldMethods.bounds, f. cbn [_bounds].
    unfold Bounds.center, Bounds.size, Vec3.sub, Vec3.add, Vec3.mul.
    cbn [Bounds.min Bounds.max Vec3.x Vec3.y Vec3.z].
    replace (Math.max3 (Vec3.x center + r - (Vec3.x center - r))
                       (Vec3.y center + r - (Vec3.y center - r))
                       (Vec3.z center + r - (Vec3.z center - r))) with (2 * r)
      by (split_minmax; lra).
    unfold image. cbn [Vec3.x Vec3.y Vec3.z].
    match goal with
    | |- Vec3.length ?v - _ > 0 => replace v with (Vec3.mk (- (2 * Vec3.x center)) 0 0)
    end.
    + rewrite length_x_axis, Rabs_left by lra. lra.
    + f_equal; lra.
Qed.

Lemma mirrored_solid_outside_bounds_witness :
  exists f,
    Primitives.sphere (Vec3.mk 3 0 0) 1 = Ok f /\
    let m := Transform.mirror f (Vec3.mk 0 0 0) (Vec3.mk 1 0 0) in
    let image := Vec3.mk (- Vec3.x (Vec3.mk 3 0 0)) (Vec3.y (Vec3.mk 3 0 0))
                         (Vec3.z (Vec3.mk 3 0 0)) in
    _evaluate m image = - 1 /\
    ~ Bounds.contains (FieldMethods.bounds m) image /\
    outsideBounds (FieldMethods.sample m image) = true /\
    distance (FieldMethods.sample m image) > 0.
Proof.
  apply (mirrored_solid_outside_bounds (Vec3.mk 3 0 0) 1); cbn [Vec3.x]; lra.
Defined.

(** ** Smooth union *)

Lemma bounds_union_self (b : Bounds.t) : Bounds.union b b = b.
Proof.
  destruct b as [[ax ay az] [bx by' bz]]. unfold Bounds.union, Math.min, Math.max.
  cbn [Bounds.min Bounds.max Vec3.x Vec3.y Vec3.z].
  rewrite !Rmin_left, !Rmax_left by lra. reflexivity.
Qed.

(** X9: a smooth union grows past its bounds.  For a positive blend
    radius [k] the smooth union of fields is, at every point, at most the
    value of each of the fields, so that its solid holds theirs; but its
    bounds are only the union of their bounds.  Blending a sphere of
    radius [r] with itself gives the sphere's value less [k / 4]: the
    point at the distance [r + k / 8] from the centre is inside the
    blended solid and outside its bounds.  Without fields the call
    throws. *)
Theorem smooth_union_outgrows_bounds (fields : list Field) (center : Vec3.t) (r k : R) :
  0 < k ->
  Boolean.smoothUnion [] k = Fail (Thrown "Smooth union requires at least one field") /\
  (fields <> [] ->
   exists u, Boolean.smoothUnion fields k = Ok u /\
     forall p, Forall (fun f => _evaluate u p <= _evaluate f p) fields) /\
  (0 < r ->
   exists s u, Primitives.sphere center r = Ok s /\
     Boolean.smoothUnion [s; s] k = Ok u /\
     (forall p, _evaluate u p = _evaluate s p - k / 4) /\
     FieldMethods.bounds u = FieldMethods.bounds s /\
     let p := Vec3.add center (Vec3.mk (r + k / 8) 0 0) in
     _evaluate u p < 0 /\ ~ Bounds.contains (FieldMethods.bounds u) p).
Proof.
  intros Hk. split; [reflexivity |]. split.
  - intros Hne. destruct fields as [| f [| g rest]]; [congruence | |].
    + exists f. split; [reflexivity |]. intros p. constructor; [lra | constructor].
    + unfold Boolean.smoothUnion. rewrite decide_false_if by lra.
      eexists. split; [reflexivity |]. intros p. cbn [_evaluate].
      destruct (smoothMin_loop k (map (fun h => _evaluate h p) (g :: rest))
                  (_evaluate f p) Hk) as (v & Hv & Hfirst & Hrest).
      cbn [map Boolean._smoothMin] in Hv |- *. rewrite Hv.
      constructor; [exact Hfirst |].
      rewrite List.Forall_map in Hrest. exact Hrest.
  - intros Hr. do 2 eexists. split; [apply sphere_ok, Hr |].
    unfold Boolean.smoothUnion. rewrite decide_false_if by lra.
    split; [reflexivity |].
    assert (Hvalue : forall a, Boolean._smoothMin [a; a] k = Ok (a - k / 4)).
    { intros a. unfold Boolean._smoothMin. cbn [foldM]. unfold Boolean.smoothMin_step.
      rewrite decide_false_if by lra. cbn [bind]. f_equal.
      replace (a - a) with 0 by ring. unfold Math.abs. rewrite Rabs_R0.
      replace (Math.max (k - 0) 0) with k by (split_minmax; lra).
      replace (Math.min a a) with a by (split_minmax; lra).
      replace 0.25 with (1 / 4) by lra. field. lra. }
    split; [| split].
    + intros p. cbn [_evaluate map]. rewrite Hvalue. reflexivity.
    + unfold FieldMethods.bounds. cbn [_bounds fold_left]. apply bounds_union_self.
    + cbv zeta. cbn [_evaluate map]. rewrite Hvalue.
      unfold FieldMethods.bounds. cbn [_bounds fold_left]. rewrite bounds_union_self.
      assert (Hdist : Vec3.distance (Vec3.add center (Vec3.mk (r + k / 8) 0 0)) center
                      = r + k / 8).
      { unfold Vec3.distance, Vec3.sub, Vec3.add. cbn [Vec3.x Vec3.y Vec3.z].
        replace (Vec3.mk (Vec3.x center + (r + k / 8) - Vec3.x center)
                         (Vec3.y center + 0 - Vec3.y center)
                         (Vec3.z center + 0 - Vec3.z center))
          with (Vec3.mk (r + k / 8) 0 0) by (f_equal; ring).
        apply length_axis. lra. }
      rewrite Hdist. split; [lra |].
      unfold Bounds.contains, Vec3.sub, Vec3.add.
      cbn [Bounds.min Bounds.max Vec3.x Vec3.y Vec3.z]. lra.
Qed.

Lemma smooth_union_outgrows_bounds_witness :
  Boolean.smoothUnion [] 4 = Fail (Thrown "Smooth union requires at least one field") /\
  ([Primitives.plane (Vec3.mk 0 0 0) (Vec3.mk 0 0 1)] <> [] ->
   exists u, Boolean.smoothUnion [Primitives.plane (Vec3.mk 0 0 0) (Vec3.mk 0 0 1)] 4 = Ok u /\
     forall p, Forall (fun f => _evaluate u p <= _evaluate f p)
                 [Primitives.plane (Vec3.mk 0 0 0) (Vec3.mk 0 0 1)]) /\
  (0 < 1 ->
   exists s u, Primitives.sphere (Vec3.mk 0 0 0) 1 = Ok s /\
     Boolean.smoothUnion [s; s] 4 = Ok u /\
     (forall p, _evaluate u p = _evaluate s p - 4 / 4) /\
     FieldMethods.bounds u = FieldMethods.bounds s /\
     let p := Vec3.add (Vec3.mk 0 0 0) (Vec3.mk (1 + 4 / 8) 0 0) in
     _evaluate u p < 0 /\ ~ Bounds.contains (FieldMethods.bounds u) p).
Proof.
  apply (smooth_union_outgrows_bounds
           [Primitives.plane (Vec3.mk 0 0 0) (Vec3.mk 0 0 1)] (Vec3.mk 0 0 0) 1 4).
  lra.
Defined.

From Stdlib Require Import RNsatz.

Lemma normalize_zero : Vec3.normalize (Vec3.mk 0 0 0) = Vec3.mk 0 0 0.
Proof.
  unfold Vec3.normalize. rewrite length_zero. apply decide_false_if. lra.
Qed.

Lemma normalize_z_axis (a : R) : 0 < a -> Vec3.normalize (Vec3.mk 0 0 a) = Vec3.mk 0 0 1.
Proof.
  intros Ha.
  assert (Hlen : Vec3.length (Vec3.mk 0 0 a) = a).
  { unfold Vec3.length, Math.sqrt. cbn [Vec3.x Vec3.y Vec3.z].
    replace (0 * 0 + 0 * 0 + a * a) with (a * a) by ring. apply sqrt_square. lra. }
  unfold Vec3.normalize. rewrite Hlen, decide_true_if by lra.
  unfold Vec3.mul. cbn [Vec3.x Vec3.y Vec3.z]. f_equal; field; lra.
Qed.

Lemma normalize_y_unit : Vec3.normalize (Vec3.mk 0 1 0) = Vec3.mk 0 1 0.
Proof.
  assert (Hlen : Vec3.length (Vec3.mk 0 1 0) = 1).
  { unfold Vec3.length, Math.sqrt. cbn [Vec3.x Vec3.y Vec3.z].
    replace (0 * 0 + 1 * 1 + 0 * 0) with 1 by ring. apply sqrt_1. }
  unfold Vec3.normalize. rewrite Hlen, decide_true_if by lra.
  unfold Vec3.mul. cbn [Vec3.x Vec3.y Vec3.z]. f_equal; field.
Qed.

(** X10: a twist about the x axis flattens the field; about the z axis it
    turns it.  With an axis along x, the helper vector
    [cross(k, (1, 0, 0))] is zero, so the twisted field has at [p] the
    value of the field at the foot of [p] on the axis through the centre:
    it no longer depends on [p.y] and [p.z].  With an axis along +z the
    field is evaluated at [p] turned about the axis by the angle
    [amount * (p.z - center.z)]. *)
Theorem twist_axes (field : Field) (a amount : R) (center p : Vec3.t) :
  a <> 0 ->
  _evaluate (Transform.twist field (Vec3.mk a 0 0) amount center) p =
    _evaluate field (Vec3.mk (Vec3.x p) (Vec3.y center) (Vec3.z center)) /\
  (0 < a ->
   _evaluate (Transform.twist field (Vec3.mk 0 0 a) amount center) p =
     let v := Vec3.sub p center in
     let angle := amount * Vec3.z v in
     _evaluate field
       (Vec3.mk (Vec3.x center + (Vec3.x v * Math.cos angle - Vec3.y v * Math.sin angle))
                (Vec3.y center + (Vec3.x v * Math.sin angle + Vec3.y v * Math.cos angle))
                (Vec3.z p))).
Proof.
  intros Ha. unfold Transform.twist. cbn [_evaluate]. split.
  - f_equal. unfold Transform.twisted.
    destruct (normalize_x_axis a Ha) as [-> Hs]. set (s := a / Rabs a) in *.
    assert (Hss : s * s = 1) by (destruct Hs as [-> | ->]; ring).
    replace (Vec3.cross (Vec3.mk s 0 0) (Vec3.mk 1 0 0)) with (Vec3.mk 0 0 0)
      by (unfold Vec3.cross; cbn [Vec3.x Vec3.y Vec3.z]; f_equal; ring).
    rewrite normalize_zero.
    destruct p as [px py pz], center as [cx cy cz].
    unfold Vec3.cross, Vec3.dot, Vec3.sub, Vec3.add, Vec3.mul.
    cbn [Vec3.x Vec3.y Vec3.z]. f_equal; try ring.
    match goal with
    | |- ?l = px => replace l with ((px - cx) * (s * s) + cx) by ring
    end.
    rewrite Hss. ring.
  - intros Hpos. cbv zeta. f_equal. unfold Transform.twisted.
    rewrite (normalize_z_axis a Hpos).
    replace (Vec3.cross (Vec3.mk 0 0 1) (Vec3.mk 1 0 0)) with (Vec3.mk 0 1 0)
      by (unfold Vec3.cross; cbn [Vec3.x Vec3.y Vec3.z]; f_equal; ring).
    rewrite normalize_y_unit.
    destruct p as [px py pz], center as [cx cy cz].
    unfold Vec3.cross, Vec3.dot, Vec3.sub, Vec3.add, Vec3.mul.
    cbn [Vec3.x Vec3.y Vec3.z].
    replace ((px - cx) * 0 + (py - cy) * 0 + (pz - cz) * 1) with (pz - cz) by ring.
    f_equal; ring.
Qed.

Lemma twist_axes_witness :
  _evaluate (Transform.twist (Primitives.plane (Vec3.mk 0 0 0) (Vec3.mk 0 0 1))
                             (Vec3.mk 2 0 0) 1 (Vec3.mk 0 0 0)) (Vec3.mk 1 2 3) =
    _evaluate (Primitives.plane (Vec3.mk 0 0 0) (Vec3.mk 0 0 1))
              (Vec3.mk (Vec3.x (Vec3.mk 1 2 3)) (Vec3.y (Vec3.mk 0 0 0))
                       (Vec3.z (Vec3.mk 0 0 0))) /\
  (0 < 2 ->
   _evaluate (Transform.twist (Primitives.plane (Vec3.mk 0 0 0) (Vec3.mk 0 0 1))
                              (Vec3.mk 0 0 2) 1 (Vec3.mk 0 0 0)) (Vec3.mk 1 2 3) =
     let v := Vec3.sub (Vec3.mk 1 2 3) (Vec3.mk 0 0 0) in
     let angle := 1 * Vec3.z v in
     _evaluate (Primitives.plane (Vec3.mk 0 0 0) (Vec3.mk 0 0 1))
       (Vec3.mk (Vec3.x (Vec3.mk 0 0 0)
                 + (Vec3.x v * Math.cos angle - Vec3.y v * Math.sin angle))
                (Vec3.y (Vec3.mk 0 0 0)
                 + (Vec3.x v * Math.sin angle + Vec3.y v * Math.cos angle))
                (Vec3.z (Vec3.mk 1 2 3)))).
Proof.
  apply (twist_axes (Primitives.plane (Vec3.mk 0 0 0) (Vec3.mk 0 0 1)) 2 1
           (Vec3.mk 0 0 0) (Vec3.mk 1 2 3)).
  lra.
Defined.

Lemma length_div (a b c s : R) :
  0 < s ->
  Vec3.length (Vec3.mk (a / s) (b / s) (c / s)) = Vec3.length (Vec3.mk a b c) / s.
Proof.
  intros Hs. unfold Vec3.length, Math.sqrt. cbn [Vec3.x Vec3.y Vec3.z].
  replace (a / s * (a / s) + b / s * (b / s) + c / s * (c / s))
    with ((a * a + b * b + c * c) * (/ s * / s)) by (field; lra).
  rewrite sqrt_mult by first [apply sum_squares_nonneg | nra].
  rewrite sqrt_square by (left; apply Rinv_0_lt_compat, Hs). reflexivity.
Qed.

Lemma uniform_scale_returns (field : Field) (s : R) (center : Vec3.t) :
  0 < s ->
  exists g, Transform.scale field (Uniform s) center = Ok g /\
    (forall p, _evaluate g p =
       _evaluate field (Vec3.mk ((Vec3.x p - Vec3.x center) / s + Vec3.x center)
                                ((Vec3.y p - Vec3.y center) / s + Vec3.y center)
                                ((Vec3.z p - Vec3.z center) / s + Vec3.z center)) * s) /\
    FieldMethods.bounds g =
      Bounds.mk
        (Vec3.mk (Vec3.x center + (Vec3.x (Bounds.min (FieldMethods.bounds field)) - Vec3.x center) * s)
                 (Vec3.y center + (Vec3.y (Bounds.min (FieldMethods.bounds field)) - Vec3.y center) * s)
                 (Vec3.z center + (Vec3.z (Bounds.min (FieldMethods.bounds field)) - Vec3.z center) * s))
        (Vec3.mk (Vec3.x center + (Vec3.x (Bounds.max (FieldMethods.bounds field)) - Vec3.x center) * s)
                 (Vec3.y center + (Vec3.y (Bounds.max (FieldMethods.bounds field)) - Vec3.y center) * s)
                 (Vec3.z center + (Vec3.z (Bounds.max (FieldMethods.bounds field)) - Vec3.z center) * s)).
Proof.
  intros Hs. unfold Transform.scale. cbn [Vec3.x Vec3.y Vec3.z].
  rewrite decide_false_if by lra. eexists. split; [reflexivity |].
  split; [| reflexivity].
  intros p. cbn [_evaluate]. unfold Vec3.sub, Vec3.add. cbn [Vec3.x Vec3.y Vec3.z].
  replace (Math.min3 s s s) with s by (split_minmax; lra). reflexivity.
Qed.

(** X11: uniform scaling.  For a positive factor [s], scaling a field
    about a centre and then scaling the result by [1 / s] about the same
    centre restores every value and the bounds; and scaling a sphere
    about its own centre gives, in values and bounds, the sphere of [s]
    times the radius. *)
Theorem scale_uniform (field : Field) (s : R) (center : Vec3.t) :
  0 < s ->
  (exists g h,
     Transform.scale field (Uniform s) center = Ok g /\
     Transform.scale g (Uniform (1 / s)) center = Ok h /\
     (forall p, _evaluate h p = _evaluate field p) /\
     FieldMethods.bounds h = FieldMethods.bounds field) /\
  (forall r, 0 < r ->
     exists f g h,
       Primitives.sphere center r = Ok f /\
       Transform.scale f (Uniform s) center = Ok g /\
       Primitives.sphere center (s * r) = Ok h /\
       (forall p, _evaluate g p = _evaluate h p) /\
       FieldMethods.bounds g = FieldMethods.bounds h).
Proof.
  intros Hs. assert (Hinv : 0 < 1 / s) by (apply Rdiv_lt_0_compat; lra). split.
  - destruct (uniform_scale_returns field s center Hs) as (g & Eg & Hg & Bg).
    destruct (uniform_scale_returns g (1 / s) center Hinv) as (h & Eh & Hh & Bh).
    exists g, h. split; [exact Eg |]. split; [exact Eh |]. split.
    + intros p. rewrite Hh, Hg. cbn [Vec3.x Vec3.y Vec3.z].
      destruct p as [px py pz], center as [cx cy cz]. cbn [Vec3.x Vec3.y Vec3.z].
      replace ((((px - cx) / (1 / s) + cx - cx) / s + cx)) with px by (field; lra).
      replace ((((py - cy) / (1 / s) + cy - cy) / s + cy)) with py by (field; lra).
      replace ((((pz - cz) / (1 / s) + cz - cz) / s + cz)) with pz by (field; lra).
      field. lra.
    + rewrite Bh, Bg. cbn [Bounds.min Bounds.max Vec3.x Vec3.y Vec3.z].
      destruct (FieldMethods.bounds field) as [[ax ay az] [bx by' bz]].
      cbn [Bounds.min Bounds.max Vec3.x Vec3.y Vec3.z].
      f_equal; f_equal; field; lra.
  - intros r Hr. assert (Hsr : 0 < s * r) by (apply Rmult_lt_0_compat; lra).
    destruct (uniform_scale_returns
                {| _evaluate := fun p => Vec3.distance p center - r;
                   _bounds := Some (Bounds.mk (Vec3.sub center (Vec3.mk r r r))
                                              (Vec3.add center (Vec3.mk r r r)));
                   _metadata := {| type := "sphere"; complexity := 1 |} |}
                s center Hs) as (g & Eg & Hg & Bg).
    eexists. exists g. eexists.
    split; [apply sphere_ok, Hr |]. split; [exact Eg |].
    split; [apply sphere_ok, Hsr |]. split.
    + intros p. rewrite Hg. cbn [_evaluate].
      unfold Vec3.distance, Vec3.sub. cbn [Vec3.x Vec3.y Vec3.z].
      replace ((Vec3.x p - Vec3.x center) / s + Vec3.x center - Vec3.x center)
        with ((Vec3.x p - Vec3.x center) / s) by ring.
      replace ((Vec3.y p - Vec3.y center) / s + Vec3.y center - Vec3.y center)
        with ((Vec3.y p - Vec3.y center) / s) by ring.
      replace ((Vec3.z p - Vec3.z center) / s + Vec3.z center - Vec3.z center)
        with ((Vec3.z p - Vec3.z center) / s) by ring.
      rewrite length_div by exact Hs. field. lra.
    + rewrite Bg. unfold FieldMethods.bounds. cbn [_bounds].
      unfold Vec3.sub, Vec3.add. cbn [Bounds.min Bounds.max Vec3.x Vec3.y Vec3.z].
      f_equal; f_equal; ring.
Qed.

Lemma scale_uniform_witness :
  (exists g h,
     Transform.scale (Primitives.plane (Vec3.mk 0 0 0) (Vec3.mk 0 0 1))
                     (Uniform 2) (Vec3.mk 0 0 0) = Ok g /\
     Transform.scale g (Uniform (1 / 2)) (Vec3.mk 0 0 0) = Ok h /\
     (forall p, _evaluate h p =
                _evaluate (Primitives.plane (Vec3.mk 0 0 0) (Vec3.mk 0 0 1)) p) /\
     FieldMethods.bounds h =
       FieldMethods.bounds (Primitives.plane (Vec3.mk 0 0 0) (Vec3.mk 0 0 1))) /\
  (forall r, 0 < r ->
     exists f g h,
       Primitives.sphere (Vec3.mk 0 0 0) r = Ok f /\
       Transform.scale f (Uniform 2) (Vec3.mk 0 0 0) = Ok g /\
       Primitives.sphere (Vec3.mk 0 0 0) (2 * r) = Ok h /\
       (forall p, _evaluate g p = _evaluate h p) /\
       FieldMethods.bounds g = FieldMethods.bounds h).
Proof.
  apply (scale_uniform (Primitives.plane (Vec3.mk 0 0 0) (Vec3.mk 0 0 1)) 2
           (Vec3.mk 0 0 0)).
  lra.
Defined.

Lemma rotatePoint_rotatedCorner (k c q : Vec3.t) (angle : R) :
  Vec3.dot k k = 1 ->
  Transform.rotatePoint k c angle (Transform.rotatedCorner k c angle q) = q.
Proof.
  intros Hk. unfold Transform.rotatePoint, Transform.rotatedCorner, Math.cos, Math.sin.
  rewrite cos_neg, sin_neg.
  pose proof (sin2_cos2 angle) as Hcs. unfold Rsqr in Hcs.
  set (C := cos angle) in *. set (S := sin angle) in *.
  destruct k as [kx ky kz], c as [cx cy cz], q as [qx qy qz].
  unfold Vec3.dot, Vec3.cross, Vec3.sub, Vec3.add in *.
  cbn [Vec3.x Vec3.y Vec3.z] in *. f_equal; nsatz.
Qed.

Lemma rotatedCorner_rotatePoint (k c p : Vec3.t) (angle : R) :
  Vec3.dot k k = 1 ->
  Transform.rotatedCorner k c angle (Transform.rotatePoint k c angle p) = p.
Proof.
  intros Hk. unfold Transform.rotatePoint, Transform.rotatedCorner, Math.cos, Math.sin.
  rewrite cos_neg, sin_neg.
  pose proof (sin2_cos2 angle) as Hcs. unfold Rsqr in Hcs.
  set (C := cos angle) in *. set (S := sin angle) in *.
  destruct k as [kx ky kz], c as [cx cy cz], p as [px py pz].
  unfold Vec3.dot, Vec3.cross, Vec3.sub, Vec3.add in *.
  cbn [Vec3.x Vec3.y Vec3.z] in *. f_equal; nsatz.
Qed.

Lemma rotatePoint_distance (k c p : Vec3.t) (angle : R) :
  Vec3.dot k k = 1 ->
  Vec3.distance (Transform.rotatePoint k c angle p) c = Vec3.distance p c.
Proof.
  intros Hk. unfold Vec3.distance, Vec3.length, Math.sqrt. f_equal.
  unfold Transform.rotatePoint, Math.cos, Math.sin.
  rewrite cos_neg, sin_neg.
  pose proof (sin2_cos2 angle) as Hcs. unfold Rsqr in Hcs.
  set (C := cos angle) in *. set (S := sin angle) in *.
  destruct k as [kx ky kz], c as [cx cy cz], p as [px py pz].
  unfold Vec3.dot, Vec3.cross, Vec3.sub, Vec3.add in *.
  cbn [Vec3.x Vec3.y Vec3.z] in *. nsatz.
Qed.

(** X12: a rotation is rigid.  For a non-zero axis: turning by the angle
    zero changes no value; turning by an angle and then by its opposite
    about the same axis and centre restores every value; and a sphere
    centred at the centre of rotation keeps all its values. *)
Theorem rotate_rigid (field : Field) (axis center p : Vec3.t) (angle : R) :
  Vec3.length axis > 0 ->
  _evaluate (Transform.rotate field axis 0 center) p = _evaluate field p /\
  _evaluate (Transform.rotate (Transform.rotate field axis angle center)
                              axis (- angle) center) p = _evaluate field p /\
  (forall r f, Primitives.sphere center r = Ok f ->
     _evaluate (Transform.rotate f axis angle center) p = _evaluate f p).
Proof.
  intros Haxis. pose proof (normalize_dot axis Haxis) as Hk.
  unfold Transform.rotate. cbn [_evaluate]. split; [| split].
  - f_equal. unfold Transform.rotatePoint, Math.cos, Math.sin.
    rewrite Ropp_0, cos_0, sin_0.
    destruct p as [px py pz]. unfold Vec3.sub, Vec3.add. cbn [Vec3.x Vec3.y Vec3.z].
    f_equal; ring.
  - f_equal.
    replace (Transform.rotatePoint (Vec3.normalize axis) center (- angle) p)
      with (Transform.rotatedCorner (Vec3.normalize axis) center angle p).
    + apply rotatePoint_rotatedCorner, Hk.
    + unfold Transform.rotatePoint, Transform.rotatedCorner, Vec3.add.
      rewrite Ropp_involutive. cbn [Vec3.x Vec3.y Vec3.z]. f_equal; ring.
  - intros r f Hf. unfold Primitives.sphere in Hf.
    destruct (decide (r <= 0)); [discriminate |]. injection Hf as <-.
    cbn [_evaluate]. rewrite rotatePoint_distance by exact Hk. reflexivity.
Qed.

Lemma rotate_rigid_witness :
  _evaluate (Transform.rotate (Primitives.plane (Vec3.mk 0 0 0) (Vec3.mk 0 0 1))
                              (Vec3.mk 1 0 0) 0 (Vec3.mk 0 0 0)) (Vec3.mk 1 2 3) =
    _evaluate (Primitives.plane (Vec3.mk 0 0 0) (Vec3.mk 0 0 1)) (Vec3.mk 1 2 3) /\
  _evaluate (Transform.rotate
               (Transform.rotate (Primitives.plane (Vec3.mk 0 0 0) (Vec3.mk 0 0 1))
                                 (Vec3.mk 1 0 0) 1 (Vec3.mk 0 0 0))
               (Vec3.mk 1 0 0) (- 1) (Vec3.mk 0 0 0)) (Vec3.mk 1 2 3) =
    _evaluate (Primitives.plane (Vec3.mk 0 0 0) (Vec3.mk 0 0 1)) (Vec3.mk 1 2 3) /\
  (forall r f, Primitives.sphere (Vec3.mk 0 0 0) r = Ok f ->
     _evaluate (Transform.rotate f (Vec3.mk 1 0 0) 1 (Vec3.mk 0 0 0)) (Vec3.mk 1 2 3) =
     _evaluate f (Vec3.mk 1 2 3)).
Proof.
  apply (rotate_rigid (Primitives.plane (Vec3.mk 0 0 0) (Vec3.mk 0 0 1))
           (Vec3.mk 1 0 0) (Vec3.mk 0 0 0) (Vec3.mk 1 2 3) 1).
  rewrite length_axis; lra.
Defined.

Lemma affine_within_corners (g : Vec3.t -> R) (a b c d : R) (bounds : Bounds.t)
  (q : Vec3.t) :
  (forall v, g v = a * Vec3.x v + b * Vec3.y v + c * Vec3.z v + d) ->
  Bounds.contains bounds q ->
  match map g (Transform.corners bounds) with
  | first :: rest =>
      Math.min_list first rest <= g q /\ g q <= Math.max_list first rest
  | [] => False
  end.
Proof.
  intros Hg Hq. unfold Transform.corners. cbn [map].
  destruct bounds as [[lx ly lz] [hx hy hz]], q as [qx qy qz].
  unfold Bounds.contains in Hq. cbn [Bounds.min Bounds.max Vec3.x Vec3.y Vec3.z] in *.
  rewrite min_list_le_iff, max_list_ge_iff, !Exists_cons, !Exists_nil, !Hg.
  cbn [Vec3.x Vec3.y Vec3.z].
  assert (Ha : a * lx <= a * qx <= a * hx \/ a * hx <= a * qx <= a * lx)
    by (destruct (Rle_dec 0 a); [left | right]; nra).
  assert (Hb : b * ly <= b * qy <= b * hy \/ b * hy <= b * qy <= b * ly)
    by (destruct (Rle_dec 0 b); [left | right]; nra).
  assert (Hc : c * lz <= c * qz <= c * hz \/ c * hz <= c * qz <= c * lz)
    by (destruct (Rle_dec 0 c); [left | right]; nra).
  split; destruct Ha, Hb, Hc;
    repeat (first [solve [left; lra] | right]).
Qed.

(** X13: the bounds of a rotated field enclose the rotated box.  For a
    non-zero axis, turn any point of the bounds of a field by the angle
    about the axis: the image lies in the bounds of the rotated field,
    and the rotated field has there the value that the field has at the
    point.  So a solid held by the bounds of the field is, once rotated,
    held by the bounds of the rotated field. *)
Theorem rotate_bounds_enclose (field : Field) (axis center q : Vec3.t) (angle : R) :
  Vec3.length axis > 0 ->
  Bounds.contains (FieldMethods.bounds field) q ->
  let image := Transform.rotatedCorner (Vec3.normalize axis) center angle q in
  Bounds.contains (FieldMethods.bounds (Transform.rotate field axis angle center)) image /\
  _evaluate (Transform.rotate field axis angle center) image = _evaluate field q.
Proof.
  intros Haxis Hq image. split.
  - set (k := Vec3.normalize axis) in *.
    set (C := Math.cos angle). set (S := Math.sin angle).
    pose proof (affine_within_corners
                  (fun v => Vec3.x (Transform.rotatedCorner k center angle v))
                  (C + Vec3.x k * Vec3.x k * (1 - C))
                  (- Vec3.z k * S + Vec3.x k * Vec3.y k * (1 - C))
                  (Vec3.y k * S + Vec3.x k * Vec3.z k * (1 - C))
                  (Vec3.x (Transform.rotatedCorner k center angle (Vec3.mk 0 0 0)))
                  (FieldMethods.bounds field) q) as Hx.
    pose proof (affine_within_corners
                  (fun v => Vec3.y (Transform.rotatedCorner k center angle v))
                  (Vec3.z k * S + Vec3.y k * Vec3.x k * (1 - C))
                  (C + Vec3.y k * Vec3.y k * (1 - C))
                  (- Vec3.x k * S + Vec3.y k * Vec3.z k * (1 - C))
                  (Vec3.y (Transform.rotatedCorner k center angle (Vec3.mk 0 0 0)))
                  (FieldMethods.bounds field) q) as Hy.
    pose proof (affine_within_corners
                  (fun v => Vec3.z (Transform.rotatedCorner k center angle v))
                  (- Vec3.y k * S + Vec3.z k * Vec3.x k * (1 - C))
                  (Vec3.x k * S + Vec3.z k * Vec3.y k * (1 - C))
                  (C + Vec3.z k * Vec3.z k * (1 - C))
                  (Vec3.z (Transform.rotatedCorner k center angle (Vec3.mk 0 0 0)))
                  (FieldMethods.bounds field) q) as Hz.
    unfold Transform.rotate. unfold FieldMethods.bounds at 1. cbn [_bounds].
    fold k. unfold Transform.corners in *. cbn [map Transform.cornersBounds] in *.
    unfold Bounds.contains. cbn [Bounds.min Bounds.max Vec3.x Vec3.y Vec3.z].
    fold image in Hx, Hy, Hz.
    destruct Hx as [Hx1 Hx2];
      [intros v; unfold Transform.rotatedCorner, Vec3.sub, Vec3.cross, Vec3.dot;
       cbn [Vec3.x Vec3.y Vec3.z]; fold C S; ring | exact Hq |].
    destruct Hy as [Hy1 Hy2];
      [intros v; unfold Transform.rotatedCorner, Vec3.sub, Vec3.cross, Vec3.dot;
       cbn [Vec3.x Vec3.y Vec3.z]; fold C S; ring | exact Hq |].
    destruct Hz as [Hz1 Hz2];
      [intros v; unfold Transform.rotatedCorner, Vec3.sub, Vec3.cross, Vec3.dot;
       cbn [Vec3.x Vec3.y Vec3.z]; fold C S; ring | exact Hq |].
    repeat split; first [apply Rle_ge; assumption | assumption].
  - unfold Transform.rotate. cbn [_evaluate]. f_equal.
    apply rotatePoint_rotatedCorner, normalize_dot, Haxis.
Qed.

Lemma rotate_bounds_enclose_witness :
  let image := Transform.rotatedCorner (Vec3.normalize (Vec3.mk 1 0 0)) (Vec3.mk 0 0 0) 1
                 (Vec3.mk 1 2 3) in
  Bounds.contains
    (FieldMethods.bounds
       (Transform.rotate (Primitives.plane (Vec3.mk 0 0 0) (Vec3.mk 0 0 1))
                         (Vec3.mk 1 0 0) 1 (Vec3.mk 0 0 0))) image /\
  _evaluate (Transform.rotate (Primitives.plane (Vec3.mk 0 0 0) (Vec3.mk 0 0 1))
                              (Vec3.mk 1 0 0) 1 (Vec3.mk 0 0 0)) image =
    _evaluate (Primitives.plane (Vec3.mk 0 0 0) (Vec3.mk 0 0 1)) (Vec3.mk 1 2 3).
Proof.
  apply (rotate_bounds_enclose (Primitives.plane (Vec3.mk 0 0 0) (Vec3.mk 0 0 1))
           (Vec3.mk 1 0 0) (Vec3.mk 0 0 0) (Vec3.mk 1 2 3) 1).
  - rewrite length_axis; lra.
  - unfold FieldMethods.bounds, Primitives.plane, Bounds.contains.
    cbn [_bounds Bounds.min Bounds.max Vec3.x Vec3.y Vec3.z]. lra.
Defined.

(** ** Primitives: the solids and their bounds *)

Lemma coordinate_le_length (a b c : R) :
  Rabs a <= Math.sqrt (a * a + b * b + c * c).
Proof.
  unfold Math.sqrt. rewrite <- sqrt_Rsqr_abs. apply sqrt_le_1_alt.
  unfold Rsqr. nra.
Qed.

(** X14: a sphere and its bounds.  For a positive radius the sphere has
    the value minus the radius at its centre; every point of the solid
    (value at most zero) is in the bounds; and [sample] returns the value
    of the field at every point, inside the bounds or not. *)
Theorem sphere_within_bounds (center p : Vec3.t) (radius : R) :
  0 < radius ->
  exists f, Primitives.sphere center radius = Ok f /\
    _evaluate f center = - radius /\
    (_evaluate f p <= 0 -> Bounds.contains (FieldMethods.bounds f) p) /\
    distance (FieldMethods.sample f p) = _evaluate f p.
Proof.
  intros Hr. eexists. split; [apply sphere_ok, Hr |].
  cbn [_evaluate]. split; [rewrite distance_self; ring |]. split.
  - intros Hin. unfold FieldMethods.bounds, Bounds.contains, Vec3.sub, Vec3.add.
    cbn [_bounds Bounds.min Bounds.max Vec3.x Vec3.y Vec3.z].
    unfold Vec3.distance, Vec3.length, Vec3.sub in Hin. cbn [Vec3.x Vec3.y Vec3.z] in Hin.
    set (a := Vec3.x p - Vec3.x center) in *.
    set (b := Vec3.y p - Vec3.y center) in *.
    set (c := Vec3.z p - Vec3.z center) in *.
    pose proof (coordinate_le_length a b c) as Ha.
    pose proof (coordinate_le_length b c a) as Hb.
    pose proof (coordinate_le_length c a b) as Hc.
    replace (b * b + c * c + a * a) with (a * a + b * b + c * c) in Hb by ring.
    replace (c * c + a * a + b * b) with (a * a + b * b + c * c) in Hc by ring.
    unfold a, b, c in *. split_minmax; lra.
  - unfold FieldMethods.sample, FieldMethods.culled. cbn [_bounds].
    destruct (decide _) as [Hin | Hout]; [reflexivity |].
    cbn [distance _evaluate].
    unfold Bounds.center, Bounds.size, Vec3.sub, Vec3.add, Vec3.mul, Vec3.distance.
    cbn [Bounds.min Bounds.max Vec3.x Vec3.y Vec3.z].
    replace (Math.max3 (Vec3.x center + radius - (Vec3.x center - radius))
                       (Vec3.y center + radius - (Vec3.y center - radius))
                       (Vec3.z center + radius - (Vec3.z center - radius)))
      with (2 * radius) by (split_minmax; lra).
    unfold Vec3.sub. cbn [Vec3.x Vec3.y Vec3.z].
    replace ((Vec3.x center - radius + (Vec3.x center + radius)) * 0.5)
      with (Vec3.x center) by lra.
    replace ((Vec3.y center - radius + (Vec3.y center + radius)) * 0.5)
      with (Vec3.y center) by lra.
    replace ((Vec3.z center - radius + (Vec3.z center + radius)) * 0.5)
      with (Vec3.z center) by lra.
    lra.
Qed.

Lemma sphere_within_bounds_witness :
  exists f, Primitives.sphere (Vec3.mk 0 0 0) 1 = Ok f /\
    _evaluate f (Vec3.mk 0 0 0) = - 1 /\
    (_evaluate f (Vec3.mk 5 0 0) <= 0 ->
     Bounds.contains (FieldMethods.bounds f) (Vec3.mk 5 0 0)) /\
    distance (FieldMethods.sample f (Vec3.mk 5 0 0)) = _evaluate f (Vec3.mk 5 0 0).
Proof.
  apply (sphere_within_bounds (Vec3.mk 0 0 0) (Vec3.mk 5 0 0) 1). lra.
Defined.

Lemma box_evaluate_outside (center halfSize p : Vec3.t) :
  let bounds := Bounds.mk (Vec3.sub center halfSize) (Vec3.add center halfSize) in
  Lattice.outside bounds p ->
  Primitives.box_evaluate center halfSize p = Lattice.boxDistance bounds p.
Proof.
  intros bounds Hout. unfold Primitives.box_evaluate, Lattice.boxDistance, bounds.
  unfold Lattice.outside, bounds, Vec3.sub, Vec3.add in Hout.
  unfold Vec3.length, Vec3.sub, Vec3.add.
  cbn [Bounds.min Bounds.max Vec3.x Vec3.y Vec3.z] in *.
  set (px := Vec3.x p) in *. set (py := Vec3.y p) in *. set (pz := Vec3.z p) in *.
  set (cx := Vec3.x center) in *. set (cy := Vec3.y center) in *.
  set (cz := Vec3.z center) in *.
  set (hx := Vec3.x halfSize) in *. set (hy := Vec3.y halfSize) in *.
  set (hz := Vec3.z halfSize) in *.
  replace (Math.max (Math.abs (px - cx) - hx) 0)
    with (Math.max3 (cx - hx - px) (px - (cx + hx)) 0) by (split_minmax; lra).
  replace (Math.max (Math.abs (py - cy) - hy) 0)
    with (Math.max3 (cy - hy - py) (py - (cy + hy)) 0) by (split_minmax; lra).
  replace (Math.max (Math.abs (pz - cz) - hz) 0)
    with (Math.max3 (cz - hz - pz) (pz - (cz + hz)) 0) by (split_minmax; lra).
  replace (Math.min (Math.max3 (Math.abs (px - cx) - hx) (Math.abs (py - cy) - hy)
                               (Math.abs (pz - cz) - hz)) 0)
    with 0 by (split_minmax; lra).
  ring.
Qed.

Lemma box_evaluate_inside (center halfSize p : Vec3.t) :
  Bounds.contains (Bounds.mk (Vec3.sub center halfSize) (Vec3.add center halfSize)) p ->
  Primitives.box_evaluate center halfSize p <= 0.
Proof.
  intros Hin. unfold Primitives.box_evaluate.
  unfold Bounds.contains, Vec3.sub, Vec3.add in Hin.
  cbn [Bounds.min Bounds.max Vec3.x Vec3.y Vec3.z] in *.
  set (px := Vec3.x p) in *. set (py := Vec3.y p) in *. set (pz := Vec3.z p) in *.
  set (cx := Vec3.x center) in *. set (cy := Vec3.y center) in *.
  set (cz := Vec3.z center) in *.
  set (hx := Vec3.x halfSize) in *. set (hy := Vec3.y halfSize) in *.
  set (hz := Vec3.z halfSize) in *.
  replace (Math.max (Math.abs (px - cx) - hx) 0) with 0 by (split_minmax; lra).
  replace (Math.max (Math.abs (py - cy) - hy) 0) with 0 by (split_minmax; lra).
  replace (Math.max (Math.abs (pz - cz) - hz) 0) with 0 by (split_minmax; lra).
  rewrite length_zero. split_minmax; lra.
Qed.

(** X15: the solid of a box is its bounds, and outside it the value is the
    Euclidean distance.  For positive dimensions the box field is
    non-positive exactly at the points of its bounds; at every other point
    its value is the distance to the nearest point of the box. *)
Theorem box_solid (center size p : Vec3.t) :
  0 < Vec3.x size -> 0 < Vec3.y size -> 0 < Vec3.z size ->
  exists f, Primitives.box center size = Ok f /\
    (_evaluate f p <= 0 <-> Bounds.contains (FieldMethods.bounds f) p) /\
    (~ Bounds.contains (FieldMethods.bounds f) p ->
     Spec.nearest (FieldMethods.bounds f) p (_evaluate f p)).
Proof.
  intros Hx Hy Hz. eexists. split; [apply box_ok; assumption |].
  unfold FieldMethods.bounds. cbn [_evaluate _bounds].
  set (h := Vec3.mul size 0.5).
  set (bounds := Bounds.mk (Vec3.sub center h) (Vec3.add center h)).
  assert (Hvalid : Bounds.isValid bounds).
  { unfold Bounds.isValid, bounds, h, Vec3.sub, Vec3.add, Vec3.mul.
    cbn [Bounds.min Bounds.max Vec3.x Vec3.y Vec3.z]. lra. }
  split; [split |].
  - intros Hle. destruct (decide (Bounds.contains bounds p)) as [Hin | Hout]; [exact Hin |].
    apply outside_iff_not_contains in Hout.
    pose proof (boxDistance_positive bounds p Hout) as Hpos.
    rewrite (box_evaluate_outside center h p Hout) in Hle. fold bounds in Hle. lra.
  - apply box_evaluate_inside.
  - intros Hout. apply outside_iff_not_contains in Hout.
    rewrite (box_evaluate_outside center h p Hout). fold bounds.
    apply boxDistance_nearest, Hvalid.
Qed.

Lemma box_solid_witness :
  exists f, Primitives.box (Vec3.mk 0 0 0) (Vec3.mk 10 10 10) = Ok f /\
    (_evaluate f (Vec3.mk 10 0 0) <= 0 <->
     Bounds.contains (FieldMethods.bounds f) (Vec3.mk 10 0 0)) /\
    (~ Bounds.contains (FieldMethods.bounds f) (Vec3.mk 10 0 0) ->
     Spec.nearest (FieldMethods.bounds f) (Vec3.mk 10 0 0)
                  (_evaluate f (Vec3.mk 10 0 0))).
Proof.
  apply (box_solid (Vec3.mk 0 0 0) (Vec3.mk 10 10 10) (Vec3.mk 10 0 0));
    cbn [Vec3.x Vec3.y Vec3.z]; lra.
Defined.

Lemma length_y_axis (a : R) : Vec3.length (Vec3.mk 0 a 0) = Rabs a.
Proof.
  unfold Vec3.length, Math.sqrt. cbn [Vec3.x Vec3.y Vec3.z].
  replace (0 * 0 + a * a + 0 * 0) with (Rsqr a) by (unfold Rsqr; ring).
  apply sqrt_Rsqr_abs.
Qed.

(** X16: [sample] can contradict the field outside the bounds.  Take a box
    that is longer along x than along y, and a point above its centre
    that is higher than half the y size but lower than half the x size.
    The point is outside the box and the field is positive there, yet
    [sample], which for a point outside the bounds returns the distance
    to the centre less half the largest dimension, reports a negative
    distance. *)
Theorem sample_sign_disagrees (center size : Vec3.t) (h : R) :
  0 < Vec3.y size -> 0 < Vec3.z size ->
  Vec3.y size / 2 < h -> h < Vec3.x size / 2 ->
  exists f, Primitives.box center size = Ok f /\
    let p := Vec3.mk (Vec3.x center) (Vec3.y center + h) (Vec3.z center) in
    _evaluate f p > 0 /\
    outsideBounds (FieldMethods.sample f p) = true /\
    distance (FieldMethods.sample f p) < 0.
Proof.
  intros Hy Hz Hlow Hhigh. eexists. split; [apply box_ok; lra |].
  cbv zeta. set (p := Vec3.mk _ _ _). set (hs := Vec3.mul size 0.5).
  set (bounds := Bounds.mk (Vec3.sub center hs) (Vec3.add center hs)).
  assert (Hout : ~ Bounds.contains bounds p).
  { unfold Bounds.contains, bounds, hs, p, Vec3.sub, Vec3.add, Vec3.mul.
    cbn [Bounds.min Bounds.max Vec3.x Vec3.y Vec3.z]. lra. }
  split; [| split].
  - cbn [_evaluate]. pose proof Hout as Hout'.
    apply outside_iff_not_contains in Hout'.
    rewrite (box_evaluate_outside center hs p Hout').
    apply boxDistance_positive, Hout'.
  - unfold FieldMethods.sample, FieldMethods.culled. cbn [_bounds]. fold bounds.
    rewrite decide_false_if by exact Hout. reflexivity.
  - unfold FieldMethods.sample, FieldMethods.culled. cbn [_bounds]. fold bounds.
    rewrite decide_false_if by exact Hout. cbn [distance].
    unfold Bounds.center, Bounds.size, bounds, hs, p, Vec3.sub, Vec3.add, Vec3.mul.
    cbn [Bounds.min Bounds.max Vec3.x Vec3.y Vec3.z].
    match goal with
    | |- Vec3.length ?v - _ < 0 => replace v with (Vec3.mk 0 h 0) by (f_equal; lra)
    end.
    rewrite length_y_axis, Rabs_pos_eq by lra.
    split_minmax; lra.
Qed.

Lemma sample_sign_disagrees_witness :
  exists f, Primitives.box (Vec3.mk 0 0 0) (Vec3.mk 100 2 2) = Ok f /\
    let p := Vec3.mk (Vec3.x (Vec3.mk 0 0 0)) (Vec3.y (Vec3.mk 0 0 0) + 3)
                     (Vec3.z (Vec3.mk 0 0 0)) in
    _evaluate f p > 0 /\
    outsideBounds (FieldMethods.sample f p) = true /\
    distance (FieldMethods.sample f p) < 0.
Proof.
  apply (sample_sign_disagrees (Vec3.mk 0 0 0) (Vec3.mk 100 2 2) 3);
    cbn [Vec3.x Vec3.y Vec3.z]; lra.
Defined.

Lemma length_sub_sym (a b : Vec3.t) : Vec3.length (Vec3.sub a b) = Vec3.length (Vec3.sub b a).
Proof.
  unfold Vec3.length, Vec3.sub, Math.sqrt. cbn [Vec3.x Vec3.y Vec3.z]. f_equal. ring.
Qed.

Lemma normalize_scaled (v : Vec3.t) :
  Vec3.length v > 0 -> Vec3.mul (Vec3.normalize v) (Vec3.length v) = v.
Proof.
  intros Hv. unfold Vec3.normalize. rewrite decide_true_if by exact Hv.
  destruct v as [a b c]. unfold Vec3.mul. cbn [Vec3.x Vec3.y Vec3.z].
  set (len := Vec3.length (Vec3.mk a b c)) in *. f_equal; field; lra.
Qed.

Lemma coordinates_le_distance (p q : Vec3.t) :
  Rabs (Vec3.x p - Vec3.x q) <= Vec3.distance p q /\
  Rabs (Vec3.y p - Vec3.y q) <= Vec3.distance p q /\
  Rabs (Vec3.z p - Vec3.z q) <= Vec3.distance p q.
Proof.
  unfold Vec3.distance, Vec3.length, Vec3.sub. cbn [Vec3.x Vec3.y Vec3.z].
  set (a := Vec3.x p - Vec3.x q). set (b := Vec3.y p - Vec3.y q).
  set (c := Vec3.z p - Vec3.z q).
  pose proof (coordinate_le_length a b c) as Ha.
  pose proof (coordinate_le_length b c a) as Hb.
  pose proof (coordinate_le_length c a b) as Hc.
  replace (b * b + c * c + a * a) with (a * a + b * b + c * c) in Hb by ring.
  replace (c * c + a * a + b * b) with (a * a + b * b + c * c) in Hc by ring.
  tauto.
Qed.

(** A point of the segment from [s] to [e], at the distance [t] from [s]
    along the normalized direction, has each coordinate between those of
    the two ends. *)
Lemma segment_point_between (s e : Vec3.t) (t : R) :
  0 <= t <= Vec3.length (Vec3.sub e s) ->
  let q := Vec3.add s (Vec3.mul (Vec3.normalize (Vec3.sub e s)) t) in
  exists u, 0 <= u <= 1 /\
    Vec3.x q = Vec3.x s + u * (Vec3.x e - Vec3.x s) /\
    Vec3.y q = Vec3.y s + u * (Vec3.y e - Vec3.y s) /\
    Vec3.z q = Vec3.z s + u * (Vec3.z e - Vec3.z s).
Proof.
  intros Ht q. unfold q.
  destruct (decide (Vec3.length (Vec3.sub e s) > 0)) as [Hpos | Hzero].
  - exists (t / Vec3.length (Vec3.sub e s)).
    pose proof (normalize_scaled _ Hpos) as Hscaled.
    set (len := Vec3.length (Vec3.sub e s)) in *.
    set (a := Vec3.normalize (Vec3.sub e s)) in *.
    assert (Hx : Vec3.x a * len = Vec3.x e - Vec3.x s)
      by (change (Vec3.x (Vec3.mul a len) = Vec3.x (Vec3.sub e s)); rewrite Hscaled;
          reflexivity).
    assert (Hy : Vec3.y a * len = Vec3.y e - Vec3.y s)
      by (change (Vec3.y (Vec3.mul a len) = Vec3.y (Vec3.sub e s)); rewrite Hscaled;
          reflexivity).
    assert (Hz : Vec3.z a * len = Vec3.z e - Vec3.z s)
      by (change (Vec3.z (Vec3.mul a len) = Vec3.z (Vec3.sub e s)); rewrite Hscaled;
          reflexivity).
    split.
    + split; [apply Rmult_le_pos; [lra | left; apply Rinv_0_lt_compat, Hpos] |].
      apply Rmult_le_reg_r with len; [exact Hpos |].
      unfold Rdiv. rewrite Rmult_assoc, Rinv_l by lra. lra.
    + unfold Vec3.add, Vec3.mul. cbn [Vec3.x Vec3.y Vec3.z].
      rewrite <- Hx, <- Hy, <- Hz. repeat split; field; lra.
  - exists 0. split; [lra |].
    unfold Vec3.normalize. rewrite decide_false_if by exact Hzero.
    unfold Vec3.add, Vec3.mul. cbn [Vec3.x Vec3.y Vec3.z]. repeat split; ring.
Qed.

Lemma between_ends (lo hi u : R) :
  0 <= u <= 1 ->
  Rmin lo hi <= lo + u * (hi - lo) <= Rmax lo hi.
Proof.
  intros Hu. unfold Rmin, Rmax. destruct (Rle_dec lo hi).
  - assert (0 <= u * (hi - lo) <= hi - lo) by nra. lra.
  - assert (hi - lo <= u * (hi - lo) <= 0) by nra. lra.
Qed.

Lemma abs_le_bounds (a b : R) : Rabs a <= b -> - b <= a <= b.
Proof. unfold Rabs. destruct (Rcase_abs a); lra. Qed.

(** A point within [r] of a point of the segment is in the box that
    [cylinder] and [capsule] declare. *)
Lemma near_segment_in_bounds (s e p : Vec3.t) (r t : R) :
  0 <= t <= Vec3.length (Vec3.sub e s) ->
  Vec3.distance p (Vec3.add s (Vec3.mul (Vec3.normalize (Vec3.sub e s)) t)) <= r ->
  Bounds.contains (Primitives.segment_bounds s e r) p.
Proof.
  intros Ht Hr.
  destruct (segment_point_between s e t Ht) as (u & Hu & Hx & Hy & Hz).
  cbv zeta in Hx, Hy, Hz.
  pose proof (coordinates_le_distance p
                (Vec3.add s (Vec3.mul (Vec3.normalize (Vec3.sub e s)) t)))
    as (Cx & Cy & Cz).
  rewrite Hx in Cx. rewrite Hy in Cy. rewrite Hz in Cz.
  pose proof (between_ends (Vec3.x s) (Vec3.x e) u Hu).
  pose proof (between_ends (Vec3.y s) (Vec3.y e) u Hu).
  pose proof (between_ends (Vec3.z s) (Vec3.z e) u Hu).
  unfold Bounds.contains, Primitives.segment_bounds, Math.min, Math.max.
  cbn [Bounds.min Bounds.max Vec3.x Vec3.y Vec3.z].
  apply abs_le_bounds in Cx. apply abs_le_bounds in Cy. apply abs_le_bounds in Cz.
  repeat split; lra.
Qed.

Lemma sqrt_sum_ge (a b : R) : 0 <= b -> b <= Math.sqrt (a ^ 2 + b ^ 2).
Proof.
  intros Hb. unfold Math.sqrt.
  rewrite <- (sqrt_square b) at 1 by exact Hb.
  apply sqrt_le_1_alt. nra.
Qed.

Lemma sqrt_sum_left (a : R) : 0 <= a -> Math.sqrt (a ^ 2 + 0 ^ 2) = a.
Proof.
  intros Ha. unfold Math.sqrt. replace (a ^ 2 + 0 ^ 2) with (a * a) by ring.
  apply sqrt_square, Ha.
Qed.

Lemma cylinder_sign (proj height side : R) :
  (let distToTop := proj - height in
   let distToBottom := - proj in
   let distToCap := Math.max distToTop distToBottom in
   if decide (proj >= 0 /\ proj <= height) then
     if decide (side < 0) then Math.max side distToCap else side
   else
     let outsideDist := Math.sqrt (Math.max side 0 ^ 2 + Math.max distToCap 0 ^ 2) in
     let insideDist := Math.min (Math.max side distToCap) 0 in
     outsideDist + insideDist) <= 0
  <-> (0 <= proj <= height /\ side <= 0).
Proof.
  cbv zeta. destruct (decide (proj >= 0 /\ proj <= height)) as [Hin | Hout].
  - destruct (decide (side < 0)); split_minmax; lra.
  - set (cap := Math.max (proj - height) (- proj)).
    assert (Hcap : 0 < cap) by (unfold cap; split_minmax; lra).
    pose proof (sqrt_sum_ge (Math.max side 0) (Math.max cap 0)) as Hge.
    assert (Hm : Math.max cap 0 = cap) by (split_minmax; lra).
    assert (Hi : Math.min (Math.max side cap) 0 = 0) by (split_minmax; lra).
    rewrite Hm in *. rewrite Hi. split; intros H; lra.
Qed.

(** X17: the solid of a cylinder.  For a positive radius and end points at
    least 0.0001 apart, the field is non-positive exactly at the points
    whose foot on the axis lies between the end points and whose distance
    from the axis is at most the radius; beside the cylinder (foot
    between the end points, distance at least the radius) its value is
    that distance less the radius; and the bounds of the field hold every
    point of the solid. *)
Theorem cylinder_solid (start end_ p : Vec3.t) (radius : R) :
  0 < radius -> Vec3.distance start end_ >= 0.0001 ->
  exists f, Primitives.cylinder start end_ radius = Ok f /\
    let axis := Vec3.normalize (Vec3.sub end_ start) in
    let proj := Vec3.dot (Vec3.sub p start) axis in
    let radial := Vec3.length (Vec3.sub p (Vec3.add start (Vec3.mul axis proj))) in
    (_evaluate f p <= 0 <->
     0 <= proj <= Vec3.distance start end_ /\ radial <= radius) /\
    (0 <= proj <= Vec3.distance start end_ -> radius <= radial ->
     _evaluate f p = radial - radius) /\
    (_evaluate f p <= 0 -> Bounds.contains (FieldMethods.bounds f) p).
Proof.
  intros Hr Hd. unfold Primitives.cylinder.
  rewrite !decide_false_if by lra. eexists. split; [reflexivity |].
  cbv zeta. unfold FieldMethods.bounds. cbn [_evaluate _bounds].
  unfold Primitives.cylinder_evaluate. cbv zeta.
  set (axis := Vec3.normalize (Vec3.sub end_ start)).
  set (proj := Vec3.dot (Vec3.sub p start) axis).
  set (radial := Vec3.length (Vec3.sub p (Vec3.add start (Vec3.mul axis proj)))).
  pose proof (cylinder_sign proj (Vec3.distance start end_) (radial - radius)) as Hsign.
  cbv zeta in Hsign.
  split; [| split].
  - rewrite Hsign. split; intros [H1 H2]; (split; [exact H1 | lra]).
  - intros Hp Hrad. rewrite decide_true_if by lra.
    rewrite decide_false_if by lra. reflexivity.
  - intros Hle. apply Hsign in Hle. destruct Hle as [Hproj Hrad].
    apply (near_segment_in_bounds start end_ p radius proj).
    + rewrite length_sub_sym. exact Hproj.
    + fold axis. unfold radial in Hrad. unfold Vec3.distance. lra.
Qed.

Lemma cylinder_solid_witness :
  exists f, Primitives.cylinder (Vec3.mk 0 0 0) (Vec3.mk 1 0 0) 1 = Ok f /\
    let axis := Vec3.normalize (Vec3.sub (Vec3.mk 1 0 0) (Vec3.mk 0 0 0)) in
    let proj := Vec3.dot (Vec3.sub (Vec3.mk 0 0 0) (Vec3.mk 0 0 0)) axis in
    let radial := Vec3.length (Vec3.sub (Vec3.mk 0 0 0)
                                 (Vec3.add (Vec3.mk 0 0 0) (Vec3.mul axis proj))) in
    (_evaluate f (Vec3.mk 0 0 0) <= 0 <->
     0 <= proj <= Vec3.distance (Vec3.mk 0 0 0) (Vec3.mk 1 0 0) /\ radial <= 1) /\
    (0 <= proj <= Vec3.distance (Vec3.mk 0 0 0) (Vec3.mk 1 0 0) -> 1 <= radial ->
     _evaluate f (Vec3.mk 0 0 0) = radial - 1) /\
    (_evaluate f (Vec3.mk 0 0 0) <= 0 ->
     Bounds.contains (FieldMethods.bounds f) (Vec3.mk 0 0 0)).
Proof.
  apply (cylinder_solid (Vec3.mk 0 0 0) (Vec3.mk 1 0 0) (Vec3.mk 0 0 0) 1); [lra |].
  unfold Vec3.distance, Vec3.sub. cbn [Vec3.x Vec3.y Vec3.z].
  replace (Vec3.mk (0 - 1) (0 - 0) (0 - 0)) with (Vec3.mk (-1) 0 0) by (f_equal; ring).
  rewrite length_x_axis, Rabs_left by lra. lra.
Defined.

Lemma dot_normalize (v : Vec3.t) :
  Vec3.length v > 0 -> Vec3.dot v (Vec3.normalize v) = Vec3.length v.
Proof.
  intros Hv. unfold Vec3.normalize. rewrite decide_true_if by exact Hv.
  pose proof (length_sq v) as Hsq. unfold Vec3.dot, Vec3.mul in *.
  cbn [Vec3.x Vec3.y Vec3.z].
  replace (Vec3.x v * (Vec3.x v * (1 / Vec3.length v))
           + Vec3.y v * (Vec3.y v * (1 / Vec3.length v))
           + Vec3.z v * (Vec3.z v * (1 / Vec3.length v)))
    with ((Vec3.x v * Vec3.x v + Vec3.y v * Vec3.y v + Vec3.z v * Vec3.z v)
          / Vec3.length v) by (field; lra).
  rewrite <- Hsq. field. lra.
Qed.

Lemma distance_zero_eq (a b : Vec3.t) : ~ Vec3.distance a b > 0 -> a = b.
Proof.
  intros H. unfold Vec3.distance, Vec3.length, Vec3.sub in H.
  cbn [Vec3.x Vec3.y Vec3.z] in H.
  apply sqrt_sum_squares_zero in H. destruct H as (Hx & Hy & Hz).
  destruct a as [ax ay az], b as [bx by' bz]. cbn [Vec3.x Vec3.y Vec3.z] in *.
  f_equal; lra.
Qed.

Lemma cone_sign (proj height radial radius tipDistance : R) :
  (proj > height -> tipDistance > 0) ->
  (let t := proj / height in
   let coneRadius := radius * (1 - t) in
   let distToBase := - proj in
   let distToTip := proj - height in
   if decide (proj < 0) then
     let distToConeSurface := radial - radius in
     Math.sqrt (Math.max distToConeSurface 0 ^ 2 + Math.max distToBase 0 ^ 2)
     + Math.min (Math.max distToConeSurface distToBase) 0
   else if decide (proj > height) then tipDistance
   else
     let distToSlope := radial - coneRadius in
     let distToCap := Math.max distToBase distToTip in
     if decide (distToSlope < 0 /\ distToCap < 0) then Math.max distToSlope distToCap
     else Math.sqrt (Math.max distToSlope 0 ^ 2 + Math.max distToCap 0 ^ 2)
          + Math.min (Math.max distToSlope distToCap) 0) <= 0
  <-> (0 <= proj <= height /\ radial <= radius * (1 - proj / height)).
Proof.
  intros Htip. cbv zeta. destruct (decide (proj < 0)) as [Hneg | Hnn].
  - pose proof (sqrt_sum_ge (Math.max (radial - radius) 0) (Math.max (- proj) 0)) as Hge.
    assert (Hm : Math.max (- proj) 0 = - proj) by (split_minmax; lra).
    assert (Hi : Math.min (Math.max (radial - radius) (- proj)) 0 = 0)
      by (split_minmax; lra).
    rewrite Hm in *. rewrite Hi. split; intros H; lra.
  - destruct (decide (proj > height)) as [Hhigh | Hlow].
    + specialize (Htip Hhigh). split; intros H; lra.
    + set (slope := radial - radius * (1 - proj / height)).
      set (cap := Math.max (- proj) (proj - height)).
      assert (Hcap : cap <= 0) by (unfold cap; split_minmax; lra).
      destruct (decide (slope < 0 /\ cap < 0)) as [Hboth | Hnot].
      * unfold slope in *. split_minmax; lra.
      * assert (Hm : Math.max cap 0 = 0) by (split_minmax; lra).
        rewrite Hm, sqrt_sum_left by (unfold_math; apply Rmax_r).
        unfold slope in *. clearbody cap. split_minmax; lra.
Qed.

Lemma segment_point_at (s e : Vec3.t) (t : R) :
  Vec3.length (Vec3.sub e s) > 0 ->
  let q := Vec3.add s (Vec3.mul (Vec3.normalize (Vec3.sub e s)) t) in
  let u := t / Vec3.length (Vec3.sub e s) in
  Vec3.x q = Vec3.x s + u * (Vec3.x e - Vec3.x s) /\
  Vec3.y q = Vec3.y s + u * (Vec3.y e - Vec3.y s) /\
  Vec3.z q = Vec3.z s + u * (Vec3.z e - Vec3.z s).
Proof.
  intros Hpos q u. unfold q, u.
  pose proof (normalize_scaled _ Hpos) as Hscaled.
  set (len := Vec3.length (Vec3.sub e s)) in *.
  set (a := Vec3.normalize (Vec3.sub e s)) in *.
  assert (Hx : Vec3.x a * len = Vec3.x e - Vec3.x s)
    by (change (Vec3.x (Vec3.mul a len) = Vec3.x (Vec3.sub e s)); rewrite Hscaled;
        reflexivity).
  assert (Hy : Vec3.y a * len = Vec3.y e - Vec3.y s)
    by (change (Vec3.y (Vec3.mul a len) = Vec3.y (Vec3.sub e s)); rewrite Hscaled;
        reflexivity).
  assert (Hz : Vec3.z a * len = Vec3.z e - Vec3.z s)
    by (change (Vec3.z (Vec3.mul a len) = Vec3.z (Vec3.sub e s)); rewrite Hscaled;
        reflexivity).
  unfold Vec3.add, Vec3.mul. cbn [Vec3.x Vec3.y Vec3.z].
  rewrite <- Hx, <- Hy, <- Hz. repeat split; field; lra.
Qed.

Lemma cone_coordinate (b t r u q x : R) :
  0 <= u <= 1 -> 0 <= r ->
  q = b + u * (t - b) -> Rabs (x - q) <= r * (1 - u) ->
  Rmin (b - r) t <= x <= Rmax (b + r) t.
Proof.
  intros Hu Hr -> Habs. apply abs_le_bounds in Habs.
  pose proof (between_ends (b - r) t u Hu).
  pose proof (between_ends (b + r) t u Hu).
  split; nra.
Qed.

(** X18: the solid of a cone.  For a positive radius and base and tip at
    least 0.0001 apart, the field is non-positive exactly at the points
    whose foot on the axis lies between base and tip and whose distance
    from the axis is at most the radius of the cone at that height, which
    falls linearly from the radius at the base to zero at the tip; and
    the bounds of the field hold every point of the solid. *)
Theorem cone_solid (base tip p : Vec3.t) (radius : R) :
  0 < radius -> Vec3.distance base tip >= 0.0001 ->
  exists f, Primitives.cone base tip radius = Ok f /\
    let axis := Vec3.normalize (Vec3.sub tip base) in
    let height := Vec3.distance base tip in
    let proj := Vec3.dot (Vec3.sub p base) axis in
    let radial := Vec3.length (Vec3.sub p (Vec3.add base (Vec3.mul axis proj))) in
    (_evaluate f p <= 0 <->
     0 <= proj <= height /\ radial <= radius * (1 - proj / height)) /\
    (_evaluate f p <= 0 -> Bounds.contains (FieldMethods.bounds f) p).
Proof.
  intros Hr Hd. unfold Primitives.cone.
  rewrite !decide_false_if by lra. eexists. split; [reflexivity |].
  cbv zeta. unfold FieldMethods.bounds. cbn [_evaluate _bounds].
  unfold Primitives.cone_evaluate. cbv zeta.
  assert (Hlen : Vec3.length (Vec3.sub tip base) > 0).
  { rewrite length_sub_sym. unfold Vec3.distance in Hd. lra. }
  pose proof (cone_sign (Vec3.dot (Vec3.sub p base) (Vec3.normalize (Vec3.sub tip base)))
                (Vec3.distance base tip)
                (Vec3.length
                   (Vec3.sub p
                      (Vec3.add base
                         (Vec3.mul (Vec3.normalize (Vec3.sub tip base))
                            (Vec3.dot (Vec3.sub p base)
                               (Vec3.normalize (Vec3.sub tip base)))))))
                radius (Vec3.distance p tip)) as Hsign.
  cbv zeta in Hsign.
  assert (Htip : Vec3.dot (Vec3.sub p base) (Vec3.normalize (Vec3.sub tip base))
                 > Vec3.distance base tip -> Vec3.distance p tip > 0).
  { intros Hhigh. destruct (decide (Vec3.distance p tip > 0)) as [Hpos | Hzero];
      [exact Hpos | exfalso].
    apply distance_zero_eq in Hzero. subst p.
    rewrite (dot_normalize _ Hlen) in Hhigh.
    unfold Vec3.distance in Hhigh. rewrite (length_sub_sym base tip) in Hhigh. lra. }
  specialize (Hsign Htip).
  split; [exact Hsign |].
  intros Hle. apply Hsign in Hle. destruct Hle as [Hproj Hrad].
  set (proj := Vec3.dot (Vec3.sub p base) (Vec3.normalize (Vec3.sub tip base))) in *.
  set (q := Vec3.add base (Vec3.mul (Vec3.normalize (Vec3.sub tip base)) proj)) in *.
  destruct (segment_point_at base tip proj Hlen) as (Hx & Hy & Hz).
  cbv zeta in Hx, Hy, Hz. fold q in Hx, Hy, Hz.
  assert (Hheight : Vec3.distance base tip = Vec3.length (Vec3.sub tip base))
    by (unfold Vec3.distance; apply length_sub_sym).
  rewrite Hheight in Hproj, Hrad.
  set (u := proj / Vec3.length (Vec3.sub tip base)) in *.
  assert (Hu : 0 <= u <= 1).
  { unfold u. split; [apply Rmult_le_pos; [lra | left; apply Rinv_0_lt_compat, Hlen] |].
    apply Rmult_le_reg_r with (Vec3.length (Vec3.sub tip base)); [exact Hlen |].
    unfold Rdiv. rewrite Rmult_assoc, Rinv_l by lra. lra. }
  pose proof (coordinates_le_distance p q) as (Cx & Cy & Cz).
  change (Vec3.length (Vec3.sub p q)) with (Vec3.distance p q) in Hrad.
  pose proof (cone_coordinate (Vec3.x base) (Vec3.x tip) radius u (Vec3.x q) (Vec3.x p)
                Hu ltac:(lra) Hx ltac:(lra)).
  pose proof (cone_coordinate (Vec3.y base) (Vec3.y tip) radius u (Vec3.y q) (Vec3.y p)
                Hu ltac:(lra) Hy ltac:(lra)).
  pose proof (cone_coordinate (Vec3.z base) (Vec3.z tip) radius u (Vec3.z q) (Vec3.z p)
                Hu ltac:(lra) Hz ltac:(lra)).
  unfold Bounds.contains, Math.min, Math.max.
  cbn [Bounds.min Bounds.max Vec3.x Vec3.y Vec3.z]. repeat split; lra.
Qed.

Lemma cone_solid_witness :
  exists f, Primitives.cone (Vec3.mk 0 0 0) (Vec3.mk 1 0 0) 1 = Ok f /\
    let axis := Vec3.normalize (Vec3.sub (Vec3.mk 1 0 0) (Vec3.mk 0 0 0)) in
    let height := Vec3.distance (Vec3.mk 0 0 0) (Vec3.mk 1 0 0) in
    let proj := Vec3.dot (Vec3.sub (Vec3.mk 0 0 0) (Vec3.mk 0 0 0)) axis in
    let radial := Vec3.length (Vec3.sub (Vec3.mk 0 0 0)
                                 (Vec3.add (Vec3.mk 0 0 0) (Vec3.mul axis proj))) in
    (_evaluate f (Vec3.mk 0 0 0) <= 0 <->
     0 <= proj <= height /\ radial <= 1 * (1 - proj / height)) /\
    (_evaluate f (Vec3.mk 0 0 0) <= 0 ->
     Bounds.contains (FieldMethods.bounds f) (Vec3.mk 0 0 0)).
Proof.
  apply (cone_solid (Vec3.mk 0 0 0) (Vec3.mk 1 0 0) (Vec3.mk 0 0 0) 1); [lra |].
  unfold Vec3.distance, Vec3.sub. cbn [Vec3.x Vec3.y Vec3.z].
  replace (Vec3.mk (0 - 1) (0 - 0) (0 - 0)) with (Vec3.mk (-1) 0 0) by (f_equal; ring).
  rewrite length_x_axis, Rabs_left by lra. lra.
Defined.

Lemma segment_distance_sq (v d : Vec3.t) (t : R) :
  Vec3.dot d d = 1 ->
  Vec3.dot (Vec3.sub v (Vec3.mul d t)) (Vec3.sub v (Vec3.mul d t)) =
  (t - Vec3.dot v d) * (t - Vec3.dot v d) + (Vec3.dot v v - Vec3.dot v d * Vec3.dot v d).
Proof.
  intros Hd. destruct v as [vx vy vz], d as [dx dy dz].
  unfold Vec3.dot, Vec3.sub, Vec3.mul in *. cbn [Vec3.x Vec3.y Vec3.z] in *. nsatz.
Qed.

(** X19: a capsule is the set of points within the radius of a segment.
    For a positive radius and distinct end points, the value of the
    capsule at a point, plus the radius, is the distance from the point
    to the nearest point of the segment: it is attained at a point of the
    segment, and no point of the segment is nearer.  The bounds of the
    field hold every point of the solid. *)
Theorem capsule_nearest (start end_ p : Vec3.t) (radius : R) :
  0 < radius -> Vec3.length (Vec3.sub end_ start) > 0 ->
  exists f, Primitives.capsule start end_ radius = Ok f /\
    let dir := Vec3.normalize (Vec3.sub end_ start) in
    let len := Vec3.length (Vec3.sub end_ start) in
    (exists t, 0 <= t <= len /\
       _evaluate f p + radius = Vec3.distance p (Vec3.add start (Vec3.mul dir t))) /\
    (forall t, 0 <= t <= len ->
       _evaluate f p + radius <= Vec3.distance p (Vec3.add start (Vec3.mul dir t))) /\
    Vec3.add start (Vec3.mul dir len) = end_ /\
    (_evaluate f p <= 0 -> Bounds.contains (FieldMethods.bounds f) p).
Proof.
  intros Hr Hlen. unfold Primitives.capsule.
  rewrite decide_false_if by lra. eexists. split; [reflexivity |].
  cbv zeta. unfold FieldMethods.bounds. cbn [_evaluate _bounds].
  unfold Primitives.capsule_evaluate. cbv zeta.
  pose proof (normalize_dot _ Hlen) as Hd.
  set (dir := Vec3.normalize (Vec3.sub end_ start)) in *.
  set (len := Vec3.length (Vec3.sub end_ start)) in *.
  set (v := Vec3.sub p start). set (proj := Vec3.dot v dir).
  assert (Hdist : forall t, Vec3.distance p (Vec3.add start (Vec3.mul dir t)) =
            Math.sqrt ((t - proj) * (t - proj) + (Vec3.dot v v - proj * proj))).
  { intros t. unfold Vec3.distance, Vec3.length, proj. f_equal.
    rewrite <- (segment_distance_sq v dir t Hd).
    unfold v, Vec3.dot, Vec3.sub, Vec3.add, Vec3.mul. cbn [Vec3.x Vec3.y Vec3.z]. ring. }
  assert (Hclamp : 0 <= Math.max 0 (Math.min len proj) <= len)
    by (pose proof (length_nonneg (Vec3.sub end_ start)); fold len in H;
        split_minmax; lra).
  split; [| split; [| split]].
  - exists (Math.max 0 (Math.min len proj)). split; [exact Hclamp | ring].
  - intros t Ht. rewrite !Hdist.
    replace (Math.sqrt ((Math.max 0 (Math.min len proj) - proj)
                        * (Math.max 0 (Math.min len proj) - proj)
                        + (Vec3.dot v v - proj * proj)) - radius + radius)
      with (Math.sqrt ((Math.max 0 (Math.min len proj) - proj)
                       * (Math.max 0 (Math.min len proj) - proj)
                       + (Vec3.dot v v - proj * proj))) by ring.
    unfold Math.sqrt. apply sqrt_le_1_alt.
    apply Rplus_le_compat_r.
    pose proof (Rle_0_sqr (t - proj)) as Hsq. unfold Rsqr in Hsq.
    split_minmax;
      first [ lra
            | assert (0 <= t * (t - 2 * proj)) by (apply Rmult_le_pos; lra); lra
            | assert (0 <= (len - t) * (2 * proj - t - len))
                by (apply Rmult_le_pos; lra); lra ].
  - unfold dir, Vec3.normalize. fold len. rewrite decide_true_if by exact Hlen.
    destruct start as [sx sy sz], end_ as [ex ey ez].
    unfold Vec3.add, Vec3.mul, Vec3.sub. cbn [Vec3.x Vec3.y Vec3.z].
    f_equal; field; lra.
  - intros Hle.
    apply (near_segment_in_bounds start end_ p radius (Math.max 0 (Math.min len proj)));
      [exact Hclamp |].
    fold dir. lra.
Qed.

Lemma capsule_nearest_witness :
  exists f, Primitives.capsule (Vec3.mk 0 0 0) (Vec3.mk 1 0 0) 1 = Ok f /\
    let dir := Vec3.normalize (Vec3.sub (Vec3.mk 1 0 0) (Vec3.mk 0 0 0)) in
    let len := Vec3.length (Vec3.sub (Vec3.mk 1 0 0) (Vec3.mk 0 0 0)) in
    (exists t, 0 <= t <= len /\
       _evaluate f (Vec3.mk 0 2 0) + 1 =
       Vec3.distance (Vec3.mk 0 2 0) (Vec3.add (Vec3.mk 0 0 0) (Vec3.mul dir t))) /\
    (forall t, 0 <= t <= len ->
       _evaluate f (Vec3.mk 0 2 0) + 1 <=
       Vec3.distance (Vec3.mk 0 2 0) (Vec3.add (Vec3.mk 0 0 0) (Vec3.mul dir t))) /\
    Vec3.add (Vec3.mk 0 0 0) (Vec3.mul dir len) = Vec3.mk 1 0 0 /\
    (_evaluate f (Vec3.mk 0 2 0) <= 0 ->
     Bounds.contains (FieldMethods.bounds f) (Vec3.mk 0 2 0)).
Proof.
  apply (capsule_nearest (Vec3.mk 0 0 0) (Vec3.mk 1 0 0) (Vec3.mk 0 2 0) 1); [lra |].
  unfold Vec3.sub. cbn [Vec3.x Vec3.y Vec3.z].
  replace (Vec3.mk (1 - 0) (0 - 0) (0 - 0)) with (Vec3.mk 1 0 0) by (f_equal; ring).
  rewrite length_axis; lra.
Defined.

Lemma sqrt_le_iff (s r : R) : 0 <= s -> 0 <= r -> (Math.sqrt s <= r <-> s <= r * r).
Proof.
  intros Hs Hr. unfold Math.sqrt. split; intros H.
  - rewrite <- (sqrt_sqrt s Hs).
    pose proof (sqrt_pos s). nra.
  - rewrite <- (sqrt_square r Hr). apply sqrt_le_1_alt, H.
Qed.

(** The decomposition of a vector along a direction that is a unit
    vector or zero, as [normalize] returns it. *)
Lemma radial_decomposition (v normal : Vec3.t) :
  let n := Vec3.normalize normal in
  let h := Vec3.dot v n in
  let radial := Vec3.sub v (Vec3.mul n h) in
  Vec3.dot v v = Vec3.dot radial radial + h * h.
Proof.
  cbv zeta. destruct (decide (Vec3.length normal > 0)) as [Hpos | Hzero].
  - pose proof (normalize_dot normal Hpos) as Hn.
    set (n := Vec3.normalize normal) in *.
    destruct v as [vx vy vz], n as [nx ny nz].
    unfold Vec3.dot, Vec3.sub, Vec3.mul in *. cbn [Vec3.x Vec3.y Vec3.z] in *. nsatz.
  - unfold Vec3.normalize. rewrite decide_false_if by exact Hzero.
    unfold Vec3.dot, Vec3.sub, Vec3.mul. cbn [Vec3.x Vec3.y Vec3.z]. ring.
Qed.

(** X20: the solid of a torus and its bounds.  For positive radii the
    field is non-positive exactly at the points whose distance [d] from
    the axis and height [h] over the plane of the torus satisfy
    [(d - R)^2 + h^2 <= r^2]; every such point is in the bounds of the
    field, whatever the normal, also the zero vector (which [torus] does
    not reject).  A non-positive radius throws. *)
Theorem torus_solid (center normal p : Vec3.t) (majorRadius minorRadius : R) :
  (0 < majorRadius -> 0 < minorRadius ->
   exists f, Primitives.torus center normal majorRadius minorRadius = Ok f /\
     let n := Vec3.normalize normal in
     let v := Vec3.sub p center in
     let h := Vec3.dot v n in
     let d := Vec3.length (Vec3.sub v (Vec3.mul n h)) in
     (_evaluate f p <= 0 <->
      (d - majorRadius) * (d - majorRadius) + h * h <= minorRadius * minorRadius) /\
     (_evaluate f p <= 0 -> Bounds.contains (FieldMethods.bounds f) p)) /\
  (majorRadius <= 0 \/ minorRadius <= 0 ->
   Primitives.torus center normal majorRadius minorRadius
   = Fail (Thrown "Torus radii must be positive")).
Proof.
  unfold Primitives.torus. split.
  - intros HR Hr. rewrite decide_false_if by lra. eexists. split; [reflexivity |].
    cbv zeta. unfold FieldMethods.bounds. cbn [_evaluate _bounds].
    pose proof (radial_decomposition (Vec3.sub p center) normal) as Hdec.
    cbv zeta in Hdec.
    set (n := Vec3.normalize normal) in *.
    set (v := Vec3.sub p center) in *.
    set (h := Vec3.dot v n) in *.
    set (radial := Vec3.sub v (Vec3.mul n h)) in *.
    rewrite <- (length_sq radial) in Hdec.
    pose proof (length_nonneg radial) as Hd0.
    set (d := Vec3.length radial) in *.
    assert (Hsign : Math.sqrt ((d - majorRadius) * (d - majorRadius) + h * h) - minorRadius
                    <= 0 <->
                    (d - majorRadius) * (d - majorRadius) + h * h
                    <= minorRadius * minorRadius).
    { assert (Hs : 0 <= (d - majorRadius) * (d - majorRadius) + h * h).
      { pose proof (Rle_0_sqr (d - majorRadius)) as H1. pose proof (Rle_0_sqr h) as H2.
        unfold Rsqr in H1, H2. lra. }
      rewrite <- (sqrt_le_iff _ minorRadius Hs ltac:(lra)). split; intros; lra. }
    split; [exact Hsign |].
    intros Hle. apply Hsign in Hle.
    assert (Hdr : d <= majorRadius + minorRadius) by nra.
    assert (Hvv : Vec3.dot v v <= (majorRadius + minorRadius) * (majorRadius + minorRadius))
      by nra.
    assert (Hlenv : Vec3.length v <= majorRadius + minorRadius).
    { unfold Vec3.length. apply sqrt_le_iff; [apply sum_squares_nonneg | lra | exact Hvv]. }
    pose proof (coordinates_le_distance p center) as (Cx & Cy & Cz).
    change (Vec3.distance p center) with (Vec3.length v) in Cx, Cy, Cz.
    apply abs_le_bounds in Cx. apply abs_le_bounds in Cy. apply abs_le_bounds in Cz.
    unfold Bounds.contains, Vec3.sub, Vec3.add.
    cbn [Bounds.min Bounds.max Vec3.x Vec3.y Vec3.z]. repeat split; lra.
  - intros H. rewrite decide_true_if by exact H. reflexivity.
Qed.

Lemma torus_solid_witness :
  exists f, Primitives.torus (Vec3.mk 0 0 0) (Vec3.mk 0 0 1) 3 1 = Ok f /\
    let n := Vec3.normalize (Vec3.mk 0 0 1) in
    let v := Vec3.sub (Vec3.mk 3 0 0) (Vec3.mk 0 0 0) in
    let h := Vec3.dot v n in
    let d := Vec3.length (Vec3.sub v (Vec3.mul n h)) in
    (_evaluate f (Vec3.mk 3 0 0) <= 0 <-> (d - 3) * (d - 3) + h * h <= 1 * 1) /\
    (_evaluate f (Vec3.mk 3 0 0) <= 0 ->
     Bounds.contains (FieldMethods.bounds f) (Vec3.mk 3 0 0)).
Proof.
  apply (proj1 (torus_solid (Vec3.mk 0 0 0) (Vec3.mk 0 0 1) (Vec3.mk 3 0 0) 3 1)); lra.
Defined.

(** ** Marching cubes: the triangles of a crossed cube *)

Lemma crossed_entries (c : nat) :
  (0 < c < 255)%nat -> TableCheck.crossedEntry c = true.
Proof.
  intros Hc.
  assert (Hall : forallb TableCheck.crossedEntry (seq 1 254) = true)
    by (vm_compute; reflexivity).
  rewrite forallb_forall in Hall. apply Hall, in_seq. lia.
Qed.

(** The edge loop fills the slot of every flagged edge it visits, and
    never empties a slot. *)
Lemma edgePoints_loop (values : list R) (pos step : Vec3.t)
  (offsets : list (R * R * R)) (edgeFlags : Z) (l : list nat) :
  forall points points',
    foldM (fun i edgePoints =>
             if decide (Z.land edgeFlags (Z.shiftl 1 (Z.of_nat i)) = 0%Z)
             then Ok edgePoints else
             do point <- Mesher.edgePoint values pos step offsets i;
             Ok (<[i := Some point]> edgePoints)) l points = Ok points' ->
    List.length points' = List.length points /\
    (forall e, (exists p, points !! e = Some (Some p)) ->
               exists p, points' !! e = Some (Some p)) /\
    (forall e, In e l -> TableCheck.flagged edgeFlags e = true ->
               (e < List.length points)%nat ->
               exists p, points' !! e = Some (Some p)).
Proof.
  induction l as [| i l IH]; intros points points' Hrun; cbn [foldM] in Hrun.
  - injection Hrun as <-. split; [reflexivity |]. split; [tauto |].
    intros e [].
  - destruct (decide (Z.land edgeFlags (Z.shiftl 1 (Z.of_nat i)) = 0%Z)) as [Hz | Hnz].
    + cbn [bind] in Hrun. destruct (IH _ _ Hrun) as (Hlen & Hkeep & Hfill).
      split; [exact Hlen |]. split; [exact Hkeep |].
      intros e [<- | Hin] Hflag He.
      * apply flagged_true_iff in Hflag. contradiction.
      * apply Hfill; assumption.
    + destruct (Mesher.edgePoint values pos step offsets i) as [point |];
        [| discriminate Hrun].
      cbn [bind] in Hrun. destruct (IH _ _ Hrun) as (Hlen & Hkeep & Hfill).
      rewrite length_insert in Hlen, Hfill.
      split; [exact Hlen |]. split.
      * intros e [p Hp]. apply Hkeep.
        destruct (decide (e = i)) as [-> | Hne].
        -- exists point. apply list_lookup_insert_eq. apply lookup_lt_Some in Hp. exact Hp.
        -- exists p. rewrite list_lookup_insert_ne by congruence. exact Hp.
      * intros e [<- | Hin] Hflag He.
        -- apply Hkeep. exists point. apply list_lookup_insert_eq. exact He.
        -- apply Hfill; assumption.
Qed.

Lemma pointOfTriangle_filled (points : list (option Vec3.t)) (triangles : list nat)
  (i : nat) :
  (forall e, In e triangles -> exists p, points !! e = Some (Some p)) ->
  (i < List.length triangles)%nat ->
  exists p, Mesher.pointOfTriangle points triangles i = Some p.
Proof.
  intros Hfilled Hi. unfold Mesher.pointOfTriangle.
  destruct (lookup_lt_is_Some_2 triangles i Hi) as [e He]. rewrite He.
  destruct (Hfilled e) as [p Hp].
  - apply list_elem_of_In. eapply list_elem_of_lookup_2, He.
  - rewrite Hp. exists p. reflexivity.
Qed.

Lemma emit_loop (field : Field) (points : list (option Vec3.t)) (triangles : list nat)
  (starts : list nat) :
  (forall e, In e triangles -> exists p, points !! e = Some (Some p)) ->
  (forall i, In i starts -> (i + 2 < List.length triangles)%nat) ->
  forall arrays,
    let arrays' := fold_left (fun arrays i => Mesher.emitTriangle field points triangles i arrays)
                             starts arrays in
    List.length (vertices arrays')
      = (List.length (vertices arrays) + 9 * List.length starts)%nat /\
    List.length (normals arrays')
      = (List.length (normals arrays) + 9 * List.length starts)%nat /\
    List.length (indices arrays')
      = (List.length (indices arrays) + 3 * List.length starts)%nat.
Proof.
  intros Hfilled. induction starts as [| i starts IH]; intros Hin arrays; cbn [fold_left].
  - cbn [List.length]. lia.
  - specialize (IH (fun i' H => Hin i' (or_intror H))).
    specialize (Hin i (or_introl eq_refl)).
    destruct (pointOfTriangle_filled points triangles i Hfilled ltac:(lia)) as [p0 H0].
    destruct (pointOfTriangle_filled points triangles (i + 1) Hfilled ltac:(lia)) as [p1 H1].
    destruct (pointOfTriangle_filled points triangles (i + 2) Hfilled ltac:(lia)) as [p2 H2].
    cbv zeta in IH |- *.
    destruct (IH (Mesher.emitTriangle field points triangles i arrays)) as (Hv & Hn & Hi).
    rewrite Hv, Hn, Hi. unfold Mesher.emitTriangle. rewrite H0, H1, H2.
    cbn [vertices normals indices]. rewrite !length_app. cbn [List.length]. lia.
Qed.

Lemma cubeIndex_crossed (values : list R) :
  List.length values = 8%nat ->
  ~ Spec.fullyOutside values -> ~ Spec.fullyInside values ->
  (0 < Z.to_nat (Mesher.cubeIndex values) < 255)%nat /\
  Mesher.cubeIndex values <> 0%Z /\ Mesher.cubeIndex values <> 255%Z.
Proof.
  intros Hlen Hout Hin. rewrite cubeIndex_signs.
  pose proof (indexOfSigns_bits _ (signs_length values)) as (Hrange & _ & H0 & H255).
  rewrite (signs_all_false values Hlen) in H0.
  rewrite (signs_all_true values Hlen) in H255.
  assert (TableCheck.indexOfSigns (map (TableCheck.inside values) (range 8)) <> 0%Z) by tauto.
  assert (TableCheck.indexOfSigns (map (TableCheck.inside values) (range 8)) <> 255%Z)
    by tauto.
  split; [lia | tauto].
Qed.

(** X21: a crossed cube yields from one to five triangles, all of them.
    For the eight samples of a cube that is neither fully inside nor fully
    outside, [_marchCube] returns, and it has appended every triangle of
    the table entry of the cube, none skipped: with [n] the number of
    triangles of the entry, [1 <= n <= 5], the arrays have grown by [9 n]
    coordinates, [9 n] normal components and [3 n] indices. *)
Theorem crossed_cube_triangles (values : list R) (pos step : Vec3.t)
  (arrays : Arrays) (field : Field) :
  List.length values = 8%nat ->
  ~ Spec.fullyOutside values -> ~ Spec.fullyInside values ->
  exists triangles arrays' n,
    MarchingCubesTables.triTable !! Z.to_nat (Mesher.cubeIndex values) = Some triangles /\
    Mesher._marchCube values pos step Mesher.cornerOffsets arrays field = Ok arrays' /\
    (1 <= n <= 5)%nat /\
    List.length triangles = (3 * n)%nat /\
    List.length (vertices arrays') = (List.length (vertices arrays) + 9 * n)%nat /\
    List.length (normals arrays') = (List.length (normals arrays) + 9 * n)%nat /\
    List.length (indices arrays') = (List.length (indices arrays) + 3 * n)%nat.
Proof.
  intros Hlen Hout Hin.
  destruct (cubeIndex_crossed values Hlen Hout Hin) as (Hrange & H0 & H255).
  destruct (configuration_entries values)
    as (edgeFlags & triangles & Hflags & Htris & Hcons & Hnamed & Hmod).
  pose proof (crossed_entries _ Hrange) as Hentry.
  unfold TableCheck.crossedEntry in Hentry. rewrite Hflags, Htris in Hentry.
  apply andb_prop in Hentry as [Hentry Hmax]. apply andb_prop in Hentry as [Hnz Hmin].
  apply Nat.leb_le in Hmax, Hmin. apply Bool.negb_true_iff, Z.eqb_neq in Hnz.
  destruct (edgePoints_ok values pos step edgeFlags Hlen Hcons) as [points Hpoints].
  pose proof Hpoints as Hloop. unfold Mesher.edgePoints in Hloop.
  apply edgePoints_loop in Hloop. destruct Hloop as (Hplen & _ & Hfill).
  rewrite length_replicate in Hplen, Hfill.
  assert (Hfilled : forall e, In e triangles -> exists p, points !! e = Some (Some p)).
  { intros e He. destruct (Hnamed e He) as [He12 Hflag].
    apply Hfill; [unfold range; apply in_seq; lia | exact Hflag | exact He12]. }
  set (n := (List.length triangles / 3)%nat).
  assert (Hn : List.length triangles = (3 * n)%nat).
  { unfold n. pose proof (Nat.div_mod_eq (List.length triangles) 3). lia. }
  clearbody n.
  exists triangles. eexists. exists n.
  split; [exact Htris |].
  unfold Mesher._marchCube. rewrite decide_false_if by tauto.
  rewrite Hflags, decide_false_if by exact Hnz.
  rewrite Hpoints. cbn [bind]. rewrite Htris.
  split; [reflexivity |]. split; [lia |]. split; [exact Hn |].
  pose proof (emit_loop field points triangles
                (triangleStarts (List.length triangles)) Hfilled) as Hemit.
  rewrite Hn, triangleStarts_exact in Hemit |- *.
  rewrite length_map, length_seq in Hemit. apply Hemit.
  intros i Hi. apply in_map_iff in Hi.
  destruct Hi as (q & <- & Hq). apply in_seq in Hq. lia.
Qed.

Lemma crossed_cube_triangles_witness :
  exists triangles arrays' n,
    MarchingCubesTables.triTable !! Z.to_nat (Mesher.cubeIndex Examples.crossedCube)
      = Some triangles /\
    Mesher._marchCube Examples.crossedCube Examples.origin Examples.unitStep
      Mesher.cornerOffsets Examples.noArrays Examples.gyroid40 = Ok arrays' /\
    (1 <= n <= 5)%nat /\
    List.length triangles = (3 * n)%nat /\
    List.length (vertices arrays')
      = (List.length (vertices Examples.noArrays) + 9 * n)%nat /\
    List.length (normals arrays')
      = (List.length (normals Examples.noArrays) + 9 * n)%nat /\
    List.length (indices arrays')
      = (List.length (indices Examples.noArrays) + 3 * n)%nat.
Proof.
  apply (crossed_cube_triangles Examples.crossedCube Examples.origin Examples.unitStep
           Examples.noArrays Examples.gyroid40).
  - reflexivity.
  - unfold Spec.fullyOutside, Examples.crossedCube.
    intros H. apply Forall_inv in H. lra.
  - unfold Spec.fullyInside, Examples.crossedCube.
    intros H. apply Forall_inv_tail, Forall_inv in H. lra.
Defined.

(** ** The mesher: what every returned mesh satisfies *)

(** A property of the three arrays that holds at the start and that
    every call of [_marchCube] made by the cube loops keeps, holds when
    the loops end. *)
Lemma processCubes_invariant (I : Arrays -> Prop) (field : Field) (resolution : Z)
  (min step : Vec3.t) (grid : list R) (trace : list event) :
  Z.of_nat (List.length grid) = ((resolution + 1) ^ 3)%Z ->
  I {| vertices := []; normals := []; indices := [] |} ->
  (forall i j k cube arrays arrays',
     (i < Z.to_nat resolution)%nat -> (j < Z.to_nat resolution)%nat ->
     (k < Z.to_nat resolution)%nat ->
     List.length cube = 8%nat -> I arrays ->
     Mesher._marchCube cube (Mesher.gridPoint min step i j k) step Mesher.cornerOffsets
       arrays field = Ok arrays' ->
     I arrays') ->
  exists trace' arrays count,
    Mesher.processCubes field resolution min step grid trace = (trace', Ok (arrays, count)) /\
    I arrays.
Proof.
  intros Hlen Hempty Hkeep. unfold Mesher.processCubes.
  set (J := fun st : Arrays * Z => I (fst st)).
  destruct (forM_ok J
              (fun k => forM (fun j => forM (Mesher.cubeStep field resolution min step grid k j)
                                            (range (Z.to_nat resolution)))
                             (range (Z.to_nat resolution)))
              (range (Z.to_nat resolution)))
    with (st := ({| vertices := []; normals := []; indices := [] |}, 0%Z)) (trace := trace)
    as (trace' & [arrays count] & Hrun & Hwf).
  - intros k st tr Hk Hst. apply in_range in Hk.
    apply (forM_ok J); [| exact Hst].
    intros j st1 tr1 Hj Hst1. apply in_range in Hj.
    apply (forM_ok J); [| exact Hst1].
    intros i [arrays c] tr2 Hi Hst2. apply in_range in Hi.
    unfold Mesher.cubeStep.
    destruct (cubeValues_ok grid resolution (Z.of_nat i) (Z.of_nat j) (Z.of_nat k) Hlen)
      as (cube & Hcube & Hcube8); try lia.
    destruct (marchCube_ok cube (Mesher.gridPoint min step i j k) step arrays field Hcube8)
      as [arrays' Harrays].
    pose proof (Hkeep i j k cube arrays arrays' Hi Hj Hk Hcube8 Hst2 Harrays) as Hwf'.
    rewrite Hcube. cbv beta iota delta [pbind lift]. rewrite Harrays.
    destruct (decide ((c + 1) mod 1000 = 0)%Z);
      cbv [pbind emit ret lift]; do 2 eexists; (split; [reflexivity | exact Hwf']).
  - exact Hempty.
  - exists trace', arrays, count. split; [exact Hrun | exact Hwf].
Qed.

Lemma marchingCubes_invariant (I : Arrays -> Prop) (field : Field)
  (options : Mesher.Options) :
  let resolution := Mesher.resolution_or_default (Mesher.resolution options) in
  let bounds := FieldMethods.bounds field in
  let min := Bounds.min bounds in
  let max := Bounds.max bounds in
  let step := Vec3.mk ((Vec3.x max - Vec3.x min) / IZR resolution)
                      ((Vec3.y max - Vec3.y min) / IZR resolution)
                      ((Vec3.z max - Vec3.z min) / IZR resolution) in
  Mesher.estimatedMemory resolution
  <= Mesher.maxMemoryMB_or_default (Mesher.maxMemoryMB options) ->
  (-1 <= resolution)%Z ->
  I {| vertices := []; normals := []; indices := [] |} ->
  (forall i j k cube arrays arrays',
     (i < Z.to_nat resolution)%nat -> (j < Z.to_nat resolution)%nat ->
     (k < Z.to_nat resolution)%nat ->
     List.length cube = 8%nat -> I arrays ->
     Mesher._marchCube cube (Mesher.gridPoint min step i j k) step Mesher.cornerOffsets
       arrays field = Ok arrays' ->
     I arrays') ->
  exists trace arrays,
    Mesher.marchingCubes field options
    = (trace,
       Ok {| Mesh.vertices := vertices arrays;
             Mesh.normals := normals arrays;
             Mesh.indices := Mesher.newUint32Array (indices arrays);
             Mesh.vertexCount := (Z.of_nat (List.length (vertices arrays)) / 3)%Z;
             Mesh.triangleCount := (Z.of_nat (List.length (indices arrays)) / 3)%Z;
             Mesh.bounds := bounds |}) /\
    I arrays.
Proof.
  intros resolution bounds min max step Hfits Hres Hempty Hkeep.
  unfold Mesher.marchingCubes, Mesher.marchingCubes_prog.
  fold resolution. fold bounds. fold min. fold max. fold step.
  rewrite decide_false_if by lra.
  assert (Hsize : (0 <= (resolution + 1) ^ 3)%Z) by (apply Z.pow_nonneg; lia).
  unfold Mesher.newFloat32Array. rewrite decide_false_if by lia.
  destruct (_bounds field); cbv beta iota delta [pbind emit ret]; cbn [app];
    match goal with
    | |- context [Mesher.sampleGrid ?f ?r ?m ?s ?g ?t] =>
        destruct (sampleGrid_ok f r m s g t) as (trace2 & grid' & count & Hsample & Hlen);
        rewrite Hsample; cbn [fst];
        assert (Hgrid : Z.of_nat (List.length grid') = ((resolution + 1) ^ 3)%Z)
          by (rewrite Hlen, length_replicate; lia)
    end;
    match goal with
    | |- context [Mesher.processCubes ?f ?r ?m ?s ?g ?t] =>
        destruct (processCubes_invariant I f r m s g t Hgrid Hempty Hkeep)
          as (trace3 & arrays & count' & Hcubes & Hwf);
        rewrite Hcubes
    end;
    cbn [fst]; do 2 eexists; (split; [reflexivity | exact Hwf]).
Qed.

Lemma emitTriangle_soup (field : Field) (points : list (option Vec3.t))
  (triangles : list nat) (i : nat) (arrays : Arrays) :
  (exists count : nat,
     List.length (vertices arrays) = (9 * count)%nat /\
     List.length (normals arrays) = (9 * count)%nat /\
     indices arrays = map Z.of_nat (seq 0 (3 * count))) ->
  exists count : nat,
    List.length (vertices (Mesher.emitTriangle field points triangles i arrays))
      = (9 * count)%nat /\
    List.length (normals (Mesher.emitTriangle field points triangles i arrays))
      = (9 * count)%nat /\
    indices (Mesher.emitTriangle field points triangles i arrays)
      = map Z.of_nat (seq 0 (3 * count)).
Proof.
  intros (count & Hv & Hn & Hi). unfold Mesher.emitTriangle.
  destruct (Mesher.pointOfTriangle points triangles i) as [p0 |]; [| exists count; tauto].
  destruct (Mesher.pointOfTriangle points triangles (i + 1)) as [p1 |];
    [| exists count; tauto].
  destruct (Mesher.pointOfTriangle points triangles (i + 2)) as [p2 |];
    [| exists count; tauto].
  exists (S count). cbn [vertices normals indices].
  rewrite !length_app, Hv, Hn, Hi. cbn [List.length].
  split; [lia |]. split; [lia |].
  replace (Z.of_nat (9 * count) / 3)%Z with (Z.of_nat (3 * count))
    by (replace (Z.of_nat (9 * count)) with (Z.of_nat (3 * count) * 3)%Z by lia;
        rewrite Z.div_mul by lia; reflexivity).
  replace (3 * S count)%nat with (3 * count + 3)%nat by lia.
  rewrite seq_app, map_app. f_equal. cbn [seq map Nat.add]. 
  repeat f_equal; lia.
Qed.

Lemma marchCube_soup (values : list R) (pos step : Vec3.t)
  (offsets : list (R * R * R)) (arrays arrays' : Arrays) (field : Field) :
  Mesher._marchCube values pos step offsets arrays field = Ok arrays' ->
  (exists count : nat,
     List.length (vertices arrays) = (9 * count)%nat /\
     List.length (normals arrays) = (9 * count)%nat /\
     indices arrays = map Z.of_nat (seq 0 (3 * count))) ->
  exists count : nat,
    List.length (vertices arrays') = (9 * count)%nat /\
    List.length (normals arrays') = (9 * count)%nat /\
    indices arrays' = map Z.of_nat (seq 0 (3 * count)).
Proof.
  unfold Mesher._marchCube. intros Hrun Hwf.
  destruct (decide _); [injection Hrun as <-; exact Hwf |].
  destruct (MarchingCubesTables.edgeTable !! _) as [edgeFlags |]; [| discriminate Hrun].
  destruct (decide _); [injection Hrun as <-; exact Hwf |].
  destruct (Mesher.edgePoints _ _ _ _ _) as [points |]; [| discriminate Hrun].
  cbn [bind] in Hrun.
  destruct (MarchingCubesTables.triTable !! _) as [triangles |]; [| discriminate Hrun].
  injection Hrun as <-.
  generalize (triangleStarts (List.length triangles)). intros starts.
  revert arrays Hwf. induction starts as [| i starts IH]; intros arrays Hwf; cbn [fold_left].
  - exact Hwf.
  - apply IH, emitTriangle_soup, Hwf.
Qed.

Lemma marchingCubes_soup (field : Field) (options : Mesher.Options) :
  Mesher.estimatedMemory (Mesher.resolution_or_default (Mesher.resolution options))
  <= Mesher.maxMemoryMB_or_default (Mesher.maxMemoryMB options) ->
  (-1 <= Mesher.resolution_or_default (Mesher.resolution options))%Z ->
  exists trace mesh (n : nat),
    Mesher.marchingCubes field options = (trace, Ok mesh) /\
    Mesh.triangleCount mesh = Z.of_nat n /\
    Mesh.vertexCount mesh = Z.of_nat (3 * n) /\
    List.length (Mesh.vertices mesh) = (9 * n)%nat /\
    List.length (Mesh.normals mesh) = (9 * n)%nat /\
    Mesh.indices mesh = map (fun i => Z.of_nat i mod 2 ^ 32)%Z (seq 0 (3 * n)) /\
    Mesh.bounds mesh = FieldMethods.bounds field.
Proof.
  intros Hfits Hres.
  destruct (marchingCubes_invariant
              (fun arrays => exists count : nat,
                 List.length (vertices arrays) = (9 * count)%nat /\
                 List.length (normals arrays) = (9 * count)%nat /\
                 indices arrays = map Z.of_nat (seq 0 (3 * count)))
              field options Hfits Hres)
    as (trace & arrays & Hrun & n & Hv & Hn & Hi).
  - exists 0%nat. cbn. repeat split; reflexivity.
  - intros i j k cube arrays arrays' _ _ _ _ Hwf Hmarch.
    exact (marchCube_soup _ _ _ _ _ _ _ Hmarch Hwf).
  - exists trace. eexists. exists n. split; [exact Hrun |].
    cbn [Mesh.triangleCount Mesh.vertexCount Mesh.vertices Mesh.normals Mesh.indices
         Mesh.bounds].
    rewrite Hv, Hi, length_map, length_seq. unfold Mesher.newUint32Array.
    rewrite map_map.
    replace (Z.of_nat (3 * n) / 3)%Z with (Z.of_nat n)
      by (replace (Z.of_nat (3 * n)) with (Z.of_nat n * 3)%Z by lia;
          rewrite Z.div_mul by lia; reflexivity).
    replace (Z.of_nat (9 * n) / 3)%Z with (Z.of_nat (3 * n))
      by (replace (Z.of_nat (9 * n)) with (Z.of_nat (3 * n) * 3)%Z by lia;
          rewrite Z.div_mul by lia; reflexivity).
    repeat split; try reflexivity. exact Hn.
Qed.


(** X22: the mesh is a triangle soup.  A call whose grid fits the memory
    budget (and whose resolution is not below -1, where the allocation of
    the grid throws) returns a mesh in which no vertex is shared: with [n]
    triangles there are [3 n] vertices, [9 n] coordinates and as many
    normal components, and the indices are 0, 1, 2, ... in order, each
    taken modulo 2^32; the bounds of the mesh are those of the field. *)
Theorem mesh_is_triangle_soup (field : Field) (options : Mesher.Options) :
  Mesher.estimatedMemory (Mesher.resolution_or_default (Mesher.resolution options))
  <= Mesher.maxMemoryMB_or_default (Mesher.maxMemoryMB options) ->
  (-1 <= Mesher.resolution_or_default (Mesher.resolution options))%Z ->
  exists trace mesh (n : nat),
    Mesher.marchingCubes field options = (trace, Ok mesh) /\
    Mesh.triangleCount mesh = Z.of_nat n /\
    Mesh.vertexCount mesh = Z.of_nat (3 * n) /\
    List.length (Mesh.vertices mesh) = (9 * n)%nat /\
    List.length (Mesh.normals mesh) = (9 * n)%nat /\
    Mesh.indices mesh = map (fun i => Z.of_nat i mod 2 ^ 32)%Z (seq 0 (3 * n)) /\
    Mesh.bounds mesh = FieldMethods.bounds field.
Proof. exact (marchingCubes_soup field options). Qed.

Lemma mesh_is_triangle_soup_witness :
  exists trace mesh (n : nat),
    Mesher.marchingCubes Examples.gyroid40
      {| Mesher.resolution := None; Mesher.maxMemoryMB := None |} = (trace, Ok mesh) /\
    Mesh.triangleCount mesh = Z.of_nat n /\
    Mesh.vertexCount mesh = Z.of_nat (3 * n) /\
    List.length (Mesh.vertices mesh) = (9 * n)%nat /\
    List.length (Mesh.normals mesh) = (9 * n)%nat /\
    Mesh.indices mesh = map (fun i => Z.of_nat i mod 2 ^ 32)%Z (seq 0 (3 * n)) /\
    Mesh.bounds mesh = FieldMethods.bounds Examples.gyroid40.
Proof.
  apply (mesh_is_triangle_soup Examples.gyroid40
           {| Mesher.resolution := None; Mesher.maxMemoryMB := None |}).
  - unfold Mesher.estimatedMemory.
    cbn [Mesher.resolution Mesher.maxMemoryMB Mesher.resolution_or_default
         Mesher.maxMemoryMB_or_default]. lra.
  - cbn [Mesher.resolution Mesher.resolution_or_default]. lia.
Defined.

Lemma edgePoints_loop_all (P : Vec3.t -> Prop) (values : list R) (pos step : Vec3.t)
  (offsets : list (R * R * R)) (edgeFlags : Z) (l : list nat) :
  (forall i p, In i l -> TableCheck.flagged edgeFlags i = true ->
     Mesher.edgePoint values pos step offsets i = Ok p -> P p) ->
  forall points points' : list (option Vec3.t),
    foldM (fun i edgePoints =>
             if decide (Z.land edgeFlags (Z.shiftl 1 (Z.of_nat i)) = 0%Z)
             then Ok edgePoints else
             do point <- Mesher.edgePoint values pos step offsets i;
             Ok (<[i := Some point]> edgePoints)) l points = Ok points' ->
    (forall e p, points !! e = Some (Some p) -> P p) ->
    forall e p, points' !! e = Some (Some p) -> P p.
Proof.
  induction l as [| i l IH]; intros Hedge points points' Hrun Hall; cbn [foldM] in Hrun.
  - injection Hrun as <-. exact Hall.
  - specialize (IH (fun i' p H => Hedge i' p (or_intror H))).
    destruct (decide (Z.land edgeFlags (Z.shiftl 1 (Z.of_nat i)) = 0%Z)) as [Hz | Hnz].
    + cbn [bind] in Hrun. exact (IH _ _ Hrun Hall).
    + destruct (Mesher.edgePoint values pos step offsets i) as [point |] eqn:Epoint;
        [| discriminate Hrun].
      cbn [bind] in Hrun. apply (IH _ _ Hrun).
      intros e p Hp. destruct (decide (e = i)) as [-> | Hne].
      * assert (Hlt : (i < List.length points)%nat).
        { apply lookup_lt_Some in Hp. rewrite length_insert in Hp. exact Hp. }
        rewrite list_lookup_insert_eq in Hp by exact Hlt. injection Hp as <-.
        apply (Hedge i point (or_introl eq_refl)); [| exact Epoint].
        apply flagged_true_iff, Hnz.
      * rewrite list_lookup_insert_ne in Hp by congruence. exact (Hall e p Hp).
Qed.

Lemma cornerOffsets_unit (v : nat) (a b c : R) :
  Mesher.cornerOffsets !! v = Some (a, b, c) ->
  (a = 0 \/ a = 1) /\ (b = 0 \/ b = 1) /\ (c = 0 \/ c = 1).
Proof.
  intros H. do 8 (destruct v as [| v]; [injection H as <- <- <-; tauto |]).
  discriminate H.
Qed.

(** Every point that the edge loop computes lies in the cube. *)
Lemma edgePoints_in_cube (values : list R) (pos step : Vec3.t) (edgeFlags : Z)
  (points : list (option Vec3.t)) :
  List.length values = 8%nat ->
  (forall i, (i < 12)%nat ->
     TableCheck.edgeConsistent (map (TableCheck.inside values) (range 8)) edgeFlags i
     = true) ->
  Mesher.edgePoints values pos step Mesher.cornerOffsets edgeFlags = Ok points ->
  forall e p, points !! e = Some (Some p) ->
    exists a b c, 0 <= a <= 1 /\ 0 <= b <= 1 /\ 0 <= c <= 1 /\
      p = Vec3.mk (Vec3.x pos + a * Vec3.x step) (Vec3.y pos + b * Vec3.y step)
                  (Vec3.z pos + c * Vec3.z step).
Proof.
  intros Hlen Hcons Hrun. unfold Mesher.edgePoints in Hrun.
  apply (edgePoints_loop_all _ values pos step Mesher.cornerOffsets edgeFlags
           (range 12) ) with (points := replicate 12 None) (points' := points).
  - intros i p Hi Hflag Hp. apply in_range in Hi.
    destruct (edgePoint_flagged values pos step edgeFlags i Hlen (Hcons i Hi) Hflag)
      as (v1 & v2 & val1 & val2 & [[a1 b1] c1] & [[a2 b2] c2]
          & _ & _ & _ & Hp1 & Hp2 & _ & Ht & Hpoint).
    rewrite Hpoint in Hp. injection Hp as <-.
    apply cornerOffsets_unit in Hp1, Hp2.
    set (t := Spec.crossing val1 val2) in *.
    exists (a1 + t * (a2 - a1)), (b1 + t * (b2 - b1)), (c1 + t * (c2 - c1)).
    split; [| split; [| split; [| reflexivity]]].
    + destruct Hp1 as ([-> | ->] & _), Hp2 as ([-> | ->] & _); lra.
    + destruct Hp1 as (_ & [-> | ->] & _), Hp2 as (_ & [-> | ->] & _); lra.
    + destruct Hp1 as (_ & _ & [-> | ->]), Hp2 as (_ & _ & [-> | ->]); lra.
  - exact Hrun.
  - intros e p Hp. apply lookup_replicate in Hp. destruct Hp as [Hp _]. discriminate Hp.
Qed.

Lemma pointOfTriangle_some (points : list (option Vec3.t)) (triangles : list nat)
  (i : nat) (p : Vec3.t) :
  Mesher.pointOfTriangle points triangles i = Some p ->
  exists e, points !! e = Some (Some p).
Proof.
  unfold Mesher.pointOfTriangle. destruct (triangles !! i) as [e |]; [| discriminate].
  destruct (points !! e) as [[q |] |] eqn:E; try discriminate.
  intros H. injection H as <-. exists e. exact E.
Qed.

Lemma marchCube_points (P : Vec3.t -> Prop) (values : list R) (pos step : Vec3.t)
  (arrays arrays' : Arrays) (field : Field) :
  List.length values = 8%nat ->
  (forall a b c, 0 <= a <= 1 -> 0 <= b <= 1 -> 0 <= c <= 1 ->
     P (Vec3.mk (Vec3.x pos + a * Vec3.x step) (Vec3.y pos + b * Vec3.y step)
                (Vec3.z pos + c * Vec3.z step))) ->
  Mesher._marchCube values pos step Mesher.cornerOffsets arrays field = Ok arrays' ->
  (exists points,
     vertices arrays = flat_map (fun p => [Vec3.x p; Vec3.y p; Vec3.z p]) points /\
     Forall P points) ->
  exists points,
    vertices arrays' = flat_map (fun p => [Vec3.x p; Vec3.y p; Vec3.z p]) points /\
    Forall P points.
Proof.
  intros Hlen Hcube. unfold Mesher._marchCube. intros Hrun Hwf.
  destruct (decide _); [injection Hrun as <-; exact Hwf |].
  destruct (configuration_entries values)
    as (edgeFlags & triangles & Hflags & Htris & Hcons & _ & _).
  rewrite Hflags in Hrun.
  destruct (decide _); [injection Hrun as <-; exact Hwf |].
  destruct (Mesher.edgePoints _ _ _ _ _) as [points |] eqn:Epoints; [| discriminate Hrun].
  cbn [bind] in Hrun. rewrite Htris in Hrun. injection Hrun as <-.
  assert (Hin : forall e p, points !! e = Some (Some p) -> P p).
  { intros e p Hp.
    destruct (edgePoints_in_cube values pos step edgeFlags points Hlen Hcons Epoints e p Hp)
      as (a & b & c & Ha & Hb & Hc & ->).
    apply Hcube; assumption. }
  generalize (triangleStarts (List.length triangles)). intros starts.
  revert arrays Hwf. induction starts as [| i starts IH]; intros arrays Hwf; cbn [fold_left].
  - exact Hwf.
  - apply IH. destruct Hwf as (pts & Hv & Hall). unfold Mesher.emitTriangle.
    destruct (Mesher.pointOfTriangle points triangles i) as [p0 |] eqn:E0;
      [| exists pts; tauto].
    destruct (Mesher.pointOfTriangle points triangles (i + 1)) as [p1 |] eqn:E1;
      [| exists pts; tauto].
    destruct (Mesher.pointOfTriangle points triangles (i + 2)) as [p2 |] eqn:E2;
      [| exists pts; tauto].
    apply pointOfTriangle_some in E0, E1, E2.
    destruct E0 as [e0 E0], E1 as [e1 E1], E2 as [e2 E2].
    exists (pts ++ [p0; p1; p2]). cbn [vertices]. split.
    + rewrite flat_map_app, Hv. reflexivity.
    + apply Forall_app. split; [exact Hall |].
      repeat constructor; eapply Hin; eassumption.
Qed.

Lemma grid_cell_in_bounds (bounds : Bounds.t) (resolution : Z) (i j k : nat) (a b c : R) :
  Bounds.isValid bounds -> (1 <= resolution)%Z ->
  (i < Z.to_nat resolution)%nat -> (j < Z.to_nat resolution)%nat ->
  (k < Z.to_nat resolution)%nat ->
  0 <= a <= 1 -> 0 <= b <= 1 -> 0 <= c <= 1 ->
  let min := Bounds.min bounds in
  let max := Bounds.max bounds in
  let step := Vec3.mk ((Vec3.x max - Vec3.x min) / IZR resolution)
                      ((Vec3.y max - Vec3.y min) / IZR resolution)
                      ((Vec3.z max - Vec3.z min) / IZR resolution) in
  let pos := Mesher.gridPoint min step i j k in
  Bounds.contains bounds
    (Vec3.mk (Vec3.x pos + a * Vec3.x step) (Vec3.y pos + b * Vec3.y step)
             (Vec3.z pos + c * Vec3.z step)).
Proof.
  intros (Hx & Hy & Hz) Hres Hi Hj Hk Ha Hb Hc. cbv zeta.
  unfold Bounds.contains, Mesher.gridPoint. cbn [Vec3.x Vec3.y Vec3.z].
  assert (Hn : 0 < IZR resolution) by (apply IZR_lt; lia).
  assert (Hcoord : forall lo hi (m : nat) (t : R),
            lo <= hi -> (m < Z.to_nat resolution)%nat -> 0 <= t <= 1 ->
            lo + INR m * ((hi - lo) / IZR resolution) + t * ((hi - lo) / IZR resolution) >= lo /\
            lo + INR m * ((hi - lo) / IZR resolution) + t * ((hi - lo) / IZR resolution) <= hi).
  { intros lo hi m t Hle Hm Ht.
    assert (Hm1 : INR m + 1 <= IZR resolution).
    { rewrite INR_IZR_INZ, <- plus_IZR. apply IZR_le. lia. }
    assert (Hm0 : 0 <= INR m) by apply pos_INR.
    set (s := (hi - lo) / IZR resolution).
    assert (Hs : 0 <= s) by (unfold s; apply Rmult_le_pos;
                             [lra | left; apply Rinv_0_lt_compat, Hn]).
    assert (Hfull : IZR resolution * s = hi - lo) by (unfold s; field; lra).
    assert (0 <= (INR m + t) * s) by (apply Rmult_le_pos; lra).
    assert ((INR m + t) * s <= IZR resolution * s)
      by (apply Rmult_le_compat_r; lra).
    split; lra. }
  destruct (Hcoord _ _ i a Hx Hi Ha).
  destruct (Hcoord _ _ j b Hy Hj Hb).
  destruct (Hcoord _ _ k c Hz Hk Hc).
  tauto.
Qed.

(** X23: every vertex of the mesh lies in the bounds of the field.  For a
    field with valid bounds, a resolution of at least 1 and a grid that
    fits the memory budget, the call returns a mesh whose vertex array is
    the list of the coordinates of points that all lie in the bounds. *)
Theorem mesh_vertices_in_bounds (field : Field) (options : Mesher.Options) :
  Mesher.estimatedMemory (Mesher.resolution_or_default (Mesher.resolution options))
  <= Mesher.maxMemoryMB_or_default (Mesher.maxMemoryMB options) ->
  (1 <= Mesher.resolution_or_default (Mesher.resolution options))%Z ->
  Bounds.isValid (FieldMethods.bounds field) ->
  exists trace mesh points,
    Mesher.marchingCubes field options = (trace, Ok mesh) /\
    Mesh.vertices mesh = flat_map (fun p => [Vec3.x p; Vec3.y p; Vec3.z p]) points /\
    Forall (Bounds.contains (FieldMethods.bounds field)) points.
Proof.
  intros Hfits Hres Hvalid.
  destruct (marchingCubes_invariant
              (fun arrays => exists points,
                 vertices arrays
                 = flat_map (fun p => [Vec3.x p; Vec3.y p; Vec3.z p]) points /\
                 Forall (Bounds.contains (FieldMethods.bounds field)) points)
              field options Hfits ltac:(lia))
    as (trace & arrays & Hrun & points & Hv & Hall).
  - exists []. split; [reflexivity | constructor].
  - intros i j k cube arrays arrays' Hi Hj Hk Hcube Hwf Hmarch.
    refine (marchCube_points _ cube _ _ arrays arrays' field Hcube _ Hmarch Hwf).
    intros a b c Ha Hb Hc.
    exact (grid_cell_in_bounds (FieldMethods.bounds field) _ i j k a b c
             Hvalid Hres Hi Hj Hk Ha Hb Hc).
  - exists trace. eexists. exists points. split; [exact Hrun |].
    cbn [Mesh.vertices]. split; [exact Hv | exact Hall].
Qed.

Lemma mesh_vertices_in_bounds_witness :
  exists trace mesh points,
    Mesher.marchingCubes Examples.gyroid40
      {| Mesher.resolution := None; Mesher.maxMemoryMB := None |} = (trace, Ok mesh) /\
    Mesh.vertices mesh = flat_map (fun p => [Vec3.x p; Vec3.y p; Vec3.z p]) points /\
    Forall (Bounds.contains (FieldMethods.bounds Examples.gyroid40)) points.
Proof.
  apply (mesh_vertices_in_bounds Examples.gyroid40
           {| Mesher.resolution := None; Mesher.maxMemoryMB := None |}).
  - unfold Mesher.estimatedMemory.
    cbn [Mesher.resolution Mesher.maxMemoryMB Mesher.resolution_or_default
         Mesher.maxMemoryMB_or_default]. lra.
  - cbn [Mesher.resolution Mesher.resolution_or_default]. lia.
  - unfold Bounds.isValid, FieldMethods.bounds, Examples.gyroid40, Lattice.gyroid,
      Examples.cube40.
    cbn [_bounds Bounds.min Bounds.max Vec3.x Vec3.y Vec3.z]. lra.
Defined.

(** ** Export to OBJ, and the statistics *)

Lemma foldM_lines {A B} (body : A -> list B -> result (list B)) (g : A -> B) (l : list A) :
  (forall a acc, In a l -> body a acc = Ok (acc ++ [g a])) ->
  forall acc, foldM body l acc = Ok (acc ++ map g l).
Proof.
  induction l as [| a l IH]; intros Hbody acc; cbn [foldM map].
  - rewrite app_nil_r. reflexivity.
  - rewrite (Hbody a acc (or_introl eq_refl)). cbn [bind].
    rewrite IH by (intros a' acc' Hin; apply Hbody; right; exact Hin).
    rewrite <- app_assoc. reflexivity.
Qed.

Lemma toFixed_at_ok (a : list R) (i : nat) :
  (i < List.length a)%nat -> Mesher.toFixed_at a i = Ok (nth i a 0).
Proof.
  intros Hi. unfold Mesher.toFixed_at.
  destruct (lookup_lt_is_Some_2 a i Hi) as [v Hv]. rewrite Hv.
  f_equal. symmetry. apply nth_lookup_Some with (d := 0) in Hv. exact Hv.
Qed.

Lemma index_at_nth (indices : list Z) (i : nat) :
  (i < List.length indices)%nat -> Mesher.index_at indices i = Ok (nth i indices 0%Z).
Proof.
  intros Hi. unfold Mesher.index_at.
  destruct (lookup_lt_is_Some_2 indices i Hi) as [v Hv]. rewrite Hv.
  f_equal. symmetry. apply nth_lookup_Some with (d := 0%Z) in Hv. exact Hv.
Qed.

Lemma toOBJ_ok (mesh : Mesh.t) (name : string) (v m t : nat) :
  List.length (Mesh.vertices mesh) = (3 * v)%nat ->
  List.length (Mesh.normals mesh) = (3 * m)%nat ->
  List.length (Mesh.indices mesh) = (3 * t)%nat ->
  Mesher.toOBJ mesh name =
  Ok ([Mesher.ObjTitle; Mesher.ObjName name; Mesher.ObjVertices (Mesh.vertexCount mesh);
       Mesher.ObjTriangles (Mesh.triangleCount mesh); Mesher.ObjBlank]
      ++ map (fun q => Mesher.ObjV (nth (3 * q) (Mesh.vertices mesh) 0)
                                   (nth (3 * q + 1) (Mesh.vertices mesh) 0)
                                   (nth (3 * q + 2) (Mesh.vertices mesh) 0)) (seq 0 v)
      ++ [Mesher.ObjBlank]
      ++ map (fun q => Mesher.ObjVN (nth (3 * q) (Mesh.normals mesh) 0)
                                    (nth (3 * q + 1) (Mesh.normals mesh) 0)
                                    (nth (3 * q + 2) (Mesh.normals mesh) 0)) (seq 0 m)
      ++ [Mesher.ObjBlank]
      ++ map (fun q => Mesher.ObjF (nth (3 * q) (Mesh.indices mesh) 0 + 1)%Z
                                   (nth (3 * q + 1) (Mesh.indices mesh) 0 + 1)%Z
                                   (nth (3 * q + 2) (Mesh.indices mesh) 0 + 1)%Z) (seq 0 t)).
Proof.
  intros Hv Hm Ht. unfold Mesher.toOBJ.
  rewrite Hv, Hm, Ht, !triangleStarts_exact.
  rewrite (foldM_lines _ (fun i => Mesher.ObjV (nth i (Mesh.vertices mesh) 0)
                                               (nth (i + 1) (Mesh.vertices mesh) 0)
                                               (nth (i + 2) (Mesh.vertices mesh) 0))).
  2:{ intros i acc Hi. apply in_map_iff in Hi. destruct Hi as (q & <- & Hq).
      apply in_seq in Hq. rewrite !toFixed_at_ok by lia. reflexivity. }
  cbn [bind].
  rewrite (foldM_lines _ (fun i => Mesher.ObjVN (nth i (Mesh.normals mesh) 0)
                                                (nth (i + 1) (Mesh.normals mesh) 0)
                                                (nth (i + 2) (Mesh.normals mesh) 0))).
  2:{ intros i acc Hi. apply in_map_iff in Hi. destruct Hi as (q & <- & Hq).
      apply in_seq in Hq. rewrite !toFixed_at_ok by lia. reflexivity. }
  cbn [bind].
  rewrite (foldM_lines _ (fun i => Mesher.ObjF (nth i (Mesh.indices mesh) 0 + 1)%Z
                                               (nth (i + 1) (Mesh.indices mesh) 0 + 1)%Z
                                               (nth (i + 2) (Mesh.indices mesh) 0 + 1)%Z)).
  2:{ intros i acc Hi. apply in_map_iff in Hi. destruct Hi as (q & <- & Hq).
      apply in_seq in Hq. rewrite !index_at_nth by lia. reflexivity. }
  rewrite !map_map, <- !app_assoc. reflexivity.
Qed.

Lemma foldM_app {A S} (body : A -> S -> result S) (l1 l2 : list A) (st : S) :
  foldM body (l1 ++ l2) st = do st' <- foldM body l1 st; foldM body l2 st'.
Proof.
  revert st. induction l1 as [| a l1 IH]; intros st; cbn [foldM app bind].
  - reflexivity.
  - destruct (body a st) as [st' |]; cbn [bind]; [apply IH | reflexivity].
Qed.

(** X24: the lines of an OBJ export.  For a mesh whose three arrays hold
    whole triples, [toOBJ] returns the five header lines, one [v] line
    per vertex, a blank line, one [vn] line per normal, a blank line and
    one [f] line per index triple, each index raised by one; when the
    vertex array ends in the middle of a triple, the call throws a
    [TypeError]. *)
Theorem toOBJ_lines (mesh : Mesh.t) (name : string) (v m t : nat) :
  (List.length (Mesh.vertices mesh) = (3 * v)%nat ->
   List.length (Mesh.normals mesh) = (3 * m)%nat ->
   List.length (Mesh.indices mesh) = (3 * t)%nat ->
   Mesher.toOBJ mesh name =
   Ok ([Mesher.ObjTitle; Mesher.ObjName name; Mesher.ObjVertices (Mesh.vertexCount mesh);
        Mesher.ObjTriangles (Mesh.triangleCount mesh); Mesher.ObjBlank]
       ++ map (fun q => Mesher.ObjV (nth (3 * q) (Mesh.vertices mesh) 0)
                                    (nth (3 * q + 1) (Mesh.vertices mesh) 0)
                                    (nth (3 * q + 2) (Mesh.vertices mesh) 0)) (seq 0 v)
       ++ [Mesher.ObjBlank]
       ++ map (fun q => Mesher.ObjVN (nth (3 * q) (Mesh.normals mesh) 0)
                                     (nth (3 * q + 1) (Mesh.normals mesh) 0)
                                     (nth (3 * q + 2) (Mesh.normals mesh) 0)) (seq 0 m)
       ++ [Mesher.ObjBlank]
       ++ map (fun q => Mesher.ObjF (nth (3 * q) (Mesh.indices mesh) 0 + 1)%Z
                                    (nth (3 * q + 1) (Mesh.indices mesh) 0 + 1)%Z
                                    (nth (3 * q + 2) (Mesh.indices mesh) 0 + 1)%Z)
              (seq 0 t))) /\
  (List.length (Mesh.vertices mesh) = (3 * v + 1)%nat \/
   List.length (Mesh.vertices mesh) = (3 * v + 2)%nat ->
   Mesher.toOBJ mesh name
   = Fail (TypeError "Cannot read properties of undefined (reading 'toFixed')")).
Proof.
  split; [apply toOBJ_ok |].
  intros Hlen. unfold Mesher.toOBJ.
  assert (Hstarts : triangleStarts (List.length (Mesh.vertices mesh))
                    = map (fun q => 3 * q)%nat (seq 0 v) ++ [(3 * v)%nat]).
  { unfold triangleStarts, range.
    replace ((List.length (Mesh.vertices mesh) + 2) / 3)%nat with (v + 1)%nat.
    - rewrite seq_app, map_app. reflexivity.
    - destruct Hlen as [-> | ->].
      + replace (3 * v + 1 + 2)%nat with (0 + (v + 1) * 3)%nat by lia.
        rewrite Nat.div_add by lia. reflexivity.
      + replace (3 * v + 2 + 2)%nat with (1 + (v + 1) * 3)%nat by lia.
        rewrite Nat.div_add by lia. reflexivity. }
  rewrite Hstarts, foldM_app.
  rewrite (foldM_lines _ (fun i => Mesher.ObjV (nth i (Mesh.vertices mesh) 0)
                                               (nth (i + 1) (Mesh.vertices mesh) 0)
                                               (nth (i + 2) (Mesh.vertices mesh) 0))).
  2:{ intros i acc Hi. apply in_map_iff in Hi. destruct Hi as (q & <- & Hq).
      apply in_seq in Hq. rewrite !toFixed_at_ok by lia. reflexivity. }
  cbn [bind foldM]. rewrite toFixed_at_ok by lia. cbn [bind].
  destruct Hlen as [Hlen | Hlen].
  - assert (E : Mesh.vertices mesh !! (3 * v + 1)%nat = None)
      by (apply lookup_ge_None_2; rewrite Hlen; lia).
    unfold Mesher.toFixed_at at 1. rewrite E. reflexivity.
  - assert (E : Mesh.vertices mesh !! (3 * v + 2)%nat = None)
      by (apply lookup_ge_None_2; rewrite Hlen; lia).
    rewrite toFixed_at_ok by lia. cbn [bind].
    unfold Mesher.toFixed_at at 1. rewrite E. reflexivity.
Qed.

Lemma toOBJ_lines_witness :
  Mesher.toOBJ Examples.oneTriangle "model" =
  Ok ([Mesher.ObjTitle; Mesher.ObjName "model";
       Mesher.ObjVertices (Mesh.vertexCount Examples.oneTriangle);
       Mesher.ObjTriangles (Mesh.triangleCount Examples.oneTriangle); Mesher.ObjBlank]
      ++ map (fun q => Mesher.ObjV (nth (3 * q) (Mesh.vertices Examples.oneTriangle) 0)
                                   (nth (3 * q + 1) (Mesh.vertices Examples.oneTriangle) 0)
                                   (nth (3 * q + 2) (Mesh.vertices Examples.oneTriangle) 0))
             (seq 0 3)
      ++ [Mesher.ObjBlank]
      ++ map (fun q => Mesher.ObjVN (nth (3 * q) (Mesh.normals Examples.oneTriangle) 0)
                                    (nth (3 * q + 1) (Mesh.normals Examples.oneTriangle) 0)
                                    (nth (3 * q + 2) (Mesh.normals Examples.oneTriangle) 0))
             (seq 0 3)
      ++ [Mesher.ObjBlank]
      ++ map (fun q => Mesher.ObjF (nth (3 * q) (Mesh.indices Examples.oneTriangle) 0 + 1)%Z
                                   (nth (3 * q + 1) (Mesh.indices Examples.oneTriangle) 0 + 1)%Z
                                   (nth (3 * q + 2) (Mesh.indices Examples.oneTriangle) 0 + 1)%Z)
             (seq 0 1)).
Proof.
  apply (proj1 (toOBJ_lines Examples.oneTriangle "model" 3 3 1)); reflexivity.
Defined.

(** X25: every mesh of the mesher can be exported.  A call of
    [marchingCubes] whose grid fits the memory budget returns a mesh, of
    [n] triangles say, on which [toSTL] returns a buffer of [84 + 50 n]
    bytes and [toOBJ] returns [7 + 7 n] lines whose [f] lines only name
    vertices from 1 to [3 n], all of which have a [v] line; [analyze]
    reports [84 n] bytes for the three arrays. *)
Theorem mesh_exports (field : Field) (options : Mesher.Options) (name : string) :
  Mesher.estimatedMemory (Mesher.resolution_or_default (Mesher.resolution options))
  <= Mesher.maxMemoryMB_or_default (Mesher.maxMemoryMB options) ->
  (-1 <= Mesher.resolution_or_default (Mesher.resolution options))%Z ->
  exists trace mesh (n : nat) bytes lines,
    Mesher.marchingCubes field options = (trace, Ok mesh) /\
    Mesh.triangleCount mesh = Z.of_nat n /\
    Mesher.toSTL mesh name = Ok bytes /\
    List.length bytes = (84 + 50 * n)%nat /\
    Mesher.toOBJ mesh name = Ok lines /\
    List.length lines = (7 + 7 * n)%nat /\
    Forall (fun line => match line with
                        | Mesher.ObjF i1 i2 i3 =>
                            (1 <= i1 <= 3 * Z.of_nat n /\ 1 <= i2 <= 3 * Z.of_nat n /\
                             1 <= i3 <= 3 * Z.of_nat n)%Z
                        | _ => True
                        end) lines /\
    Mesher.usage_total (Mesher.memoryUsage (Mesher.analyze mesh)) = (84 * Z.of_nat n)%Z /\
    Mesher.memoryMB (Mesher.analyze mesh) = IZR (84 * Z.of_nat n) / (1024 * 1024).
Proof.
  intros Hfits Hres.
  destruct (marchingCubes_soup field options Hfits Hres)
    as (trace & mesh & n & Hrun & Htri & Hvc & Hv & Hn & Hi & Hb).
  pose proof (marchingCubes_wellFormed _ _ _ _ Hrun) as Hwf.
  exists trace, mesh, n. do 2 eexists.
  split; [exact Hrun |]. split; [exact Htri |].
  split; [apply toSTL_ok, Hwf |]. split.
  { unfold Spec.stl. rewrite !length_app, stlHeader_length.
    rewrite (flat_map_constant_length _ _ 50) by (intros q; apply stlTriangle_length).
    rewrite length_seq, Htri. cbn [DataView.uint_le range seq map List.length]. lia. }
  assert (Hilen : List.length (Mesh.indices mesh) = (3 * n)%nat)
    by (rewrite Hi, length_map, length_seq; reflexivity).
  split.
  { apply (toOBJ_ok mesh name (3 * n) (3 * n) n); [rewrite Hv | rewrite Hn | exact Hilen]; lia. }
  split.
  { rewrite !length_app, !length_map, !length_seq. cbn [List.length]. lia. }
  split.
  { assert (Hnth : forall i, (i < 3 * n)%nat ->
              (1 <= nth i (Mesh.indices mesh) 0 + 1 <= 3 * Z.of_nat n)%Z).
    { intros i Hlt. rewrite Hi.
      rewrite (nth_indep _ 0%Z ((fun i => Z.of_nat i mod 2 ^ 32)%Z 0%nat))
        by (rewrite length_map, length_seq; exact Hlt).
      rewrite (map_nth (fun i => Z.of_nat i mod 2 ^ 32)%Z), seq_nth by exact Hlt.
      cbn [Nat.add].
      pose proof (Z.mod_pos_bound (Z.of_nat i) (2 ^ 32) ltac:(lia)).
      pose proof (Z.mod_le (Z.of_nat i) (2 ^ 32) ltac:(lia) ltac:(lia)). lia. }
    repeat (apply Forall_app; split);
      try (repeat constructor);
      try (apply Forall_map, Forall_forall; intros; exact I).
    apply Forall_map, List.Forall_forall. intros q Hq. apply in_seq in Hq.
    cbn beta. repeat split; apply Hnth; lia. }
  unfold Mesher.analyze, Mesher.byteLength.
  cbn [Mesher.memoryUsage Mesher.usage_total Mesher.memoryMB].
  rewrite Hv, Hn, Hilen.
  replace (4 * Z.of_nat (9 * n) + 4 * Z.of_nat (9 * n) + 4 * Z.of_nat (3 * n))%Z
    with (84 * Z.of_nat n)%Z by lia.
  split; reflexivity.
Qed.

Lemma mesh_exports_witness :
  exists trace mesh (n : nat) bytes lines,
    Mesher.marchingCubes Examples.gyroid40
      {| Mesher.resolution := None; Mesher.maxMemoryMB := None |} = (trace, Ok mesh) /\
    Mesh.triangleCount mesh = Z.of_nat n /\
    Mesher.toSTL mesh "model" = Ok bytes /\
    List.length bytes = (84 + 50 * n)%nat /\
    Mesher.toOBJ mesh "model" = Ok lines /\
    List.length lines = (7 + 7 * n)%nat /\
    Forall (fun line => match line with
                        | Mesher.ObjF i1 i2 i3 =>
                            (1 <= i1 <= 3 * Z.of_nat n /\ 1 <= i2 <= 3 * Z.of_nat n /\
                             1 <= i3 <= 3 * Z.of_nat n)%Z
                        | _ => True
                        end) lines /\
    Mesher.usage_total (Mesher.memoryUsage (Mesher.analyze mesh)) = (84 * Z.of_nat n)%Z /\
    Mesher.memoryMB (Mesher.analyze mesh) = IZR (84 * Z.of_nat n) / (1024 * 1024).
Proof.
  apply (mesh_exports Examples.gyroid40
           {| Mesher.resolution := None; Mesher.maxMemoryMB := None |} "model").
  - unfold Mesher.estimatedMemory.
    cbn [Mesher.resolution Mesher.maxMemoryMB Mesher.resolution_or_default
         Mesher.maxMemoryMB_or_default]. lra.
  - cbn [Mesher.resolution Mesher.resolution_or_default]. lia.
Defined.

(** ** The mesher: the progress reports *)

Lemma percents_app (t1 t2 : list event) : percents (t1 ++ t2) = percents t1 ++ percents t2.
Proof. unfold percents. apply flat_map_app. Qed.

Lemma progress_weaken (b b' : R) (trace : list event) :
  b <= b' -> progressUpTo b trace -> progressUpTo b' trace.
Proof.
  intros Hb (Hhead & Hsorted & Hall). split; [exact Hhead |]. split; [exact Hsorted |].
  eapply Forall_impl; [exact Hall |]. intros p Hp. cbn beta in *. lra.
Qed.

Lemma progress_emit (b p : R) (m : message) (trace : list event) :
  b <= p -> progressUpTo b trace -> progressUpTo p (trace ++ [OnProgress p m]).
Proof.
  intros Hb ([rest Hhead] & Hsorted & Hall).
  unfold progressUpTo. rewrite percents_app. cbn [percents flat_map app].
  split; [| split].
  - exists (rest ++ [p]). rewrite Hhead. reflexivity.
  - intros i j a c Hij Ha Hc.
    destruct (decide (j < List.length (percents trace))%nat) as [Hj | Hj].
    + rewrite lookup_app_l in Ha, Hc by lia. exact (Hsorted i j a c Hij Ha Hc).
    + rewrite lookup_app_r in Hc by lia.
      destruct (j - List.length (percents trace))%nat as [| d] eqn:Ed;
        [| destruct d; discriminate Hc].
      injection Hc as <-.
      destruct (decide (i < List.length (percents trace))%nat) as [Hi | Hi].
      * rewrite lookup_app_l in Ha by lia.
        rewrite Forall_forall in Hall.
        assert (a <= b) by (apply Hall; eapply list_elem_of_lookup_2, Ha). lra.
      * rewrite lookup_app_r in Ha by lia.
        replace (i - List.length (percents trace))%nat with 0%nat in Ha by lia.
        injection Ha as <-. lra.
  - apply Forall_app. split.
    + eapply Forall_impl; [exact Hall |]. intros q Hq. cbn beta in *. lra.
    + constructor; [lra | constructor].
Qed.

Lemma progress_silent (b : R) (e : event) (trace : list event) :
  percents [e] = [] -> progressUpTo b trace -> progressUpTo b (trace ++ [e]).
Proof.
  intros He H. unfold progressUpTo in *. rewrite percents_app, He, app_nil_r. exact H.
Qed.

(** A loop over [0 .. n-1] with an invariant that knows the number of
    turns made and the trace. *)
Lemma forM_range_inv {S} (I : nat -> S -> list event -> Prop)
  (body : nat -> S -> prog S) (n : nat) :
  (forall i st trace, (i < n)%nat -> I i st trace ->
     exists trace' st', body i st trace = (trace', Ok st') /\ I (Datatypes.S i) st' trace') ->
  forall st trace, I 0%nat st trace ->
    exists trace' st', forM body (range n) st trace = (trace', Ok st') /\ I n st' trace'.
Proof.
  intros Hbody. unfold range.
  assert (Hgen : forall len a st trace, (a + len = n)%nat -> I a st trace ->
            exists trace' st', forM body (seq a len) st trace = (trace', Ok st') /\
                               I n st' trace').
  { induction len as [| len IH]; intros a st trace Hlen Hst; cbn [seq forM].
    - replace n with a by lia. exists trace, st. split; [reflexivity | exact Hst].
    - destruct (Hbody a st trace ltac:(lia) Hst) as (trace1 & st1 & Hrun & Hst1).
      unfold pbind. rewrite Hrun. apply IH; [lia | exact Hst1]. }
  intros st trace Hst. apply Hgen; [lia | exact Hst].
Qed.

(** Three nested loops of [n] turns each: the invariant knows how many
    times the innermost body has run. *)
Lemma forM_cube_inv {S} (J : nat -> S -> list event -> Prop)
  (body : nat -> nat -> nat -> S -> prog S) (n : nat) :
  (forall k j i st trace, (k < n)%nat -> (j < n)%nat -> (i < n)%nat ->
     J ((k * n + j) * n + i)%nat st trace ->
     exists trace' st', body k j i st trace = (trace', Ok st') /\
                        J (Datatypes.S ((k * n + j) * n + i)) st' trace') ->
  forall st trace, J 0%nat st trace ->
    exists trace' st',
      forM (fun k => forM (fun j => forM (body k j) (range n)) (range n)) (range n) st trace
      = (trace', Ok st') /\ J (n * n * n)%nat st' trace'.
Proof.
  intros Hbody st trace Hst.
  destruct (forM_range_inv (fun k => J (k * n * n)%nat)
              (fun k => forM (fun j => forM (body k j) (range n)) (range n)) n)
    with (st := st) (trace := trace) as (trace' & st' & Hrun & Hend).
  - intros k st1 trace1 Hk Hst1.
    destruct (forM_range_inv (fun j => J ((k * n + j) * n)%nat)
                (fun j => forM (body k j) (range n)) n)
      with (st := st1) (trace := trace1) as (trace2 & st2 & Hrun2 & Hend2).
    + intros j st3 trace3 Hj Hst3.
      destruct (forM_range_inv (fun i => J ((k * n + j) * n + i)%nat) (body k j) n)
        with (st := st3) (trace := trace3) as (trace4 & st4 & Hrun4 & Hend4).
      * intros i st5 trace5 Hi Hst5.
        destruct (Hbody k j i st5 trace5 Hk Hj Hi Hst5) as (trace6 & st6 & Hrun6 & Hend6).
        exists trace6, st6. split; [exact Hrun6 |].
        replace ((k * n + j) * n + Datatypes.S i)%nat
          with (Datatypes.S ((k * n + j) * n + i)) by lia.
        exact Hend6.
      * replace ((k * n + j) * n + 0)%nat with ((k * n + j) * n)%nat by lia. exact Hst3.
      * exists trace4, st4. split; [exact Hrun4 |].
        replace ((k * n + Datatypes.S j) * n)%nat with ((k * n + j) * n + n)%nat by lia.
        exact Hend4.
    + replace ((k * n + 0) * n)%nat with (k * n * n)%nat by lia. exact Hst1.
    + exists trace2, st2. split; [exact Hrun2 |].
      replace (Datatypes.S k * n * n)%nat with ((k * n + n) * n)%nat by lia. exact Hend2.
  - exact Hst.
  - exists trace', st'. split; [exact Hrun | exact Hend].
Qed.

Lemma progress_start (m : message) (pre : list event) :
  percents pre = [] -> progressUpTo 0 (pre ++ [OnProgress 0 m]).
Proof.
  intros Hpre. unfold progressUpTo. rewrite percents_app, Hpre.
  cbn [percents flat_map app]. split; [exists []; reflexivity |]. split.
  - intros i j a c _ Ha Hc.
    destruct i; [| discriminate Ha]. destruct j; [| discriminate Hc].
    injection Ha as <-. injection Hc as <-. lra.
  - constructor; [lra | constructor].
Qed.

Lemma fraction_step (m : nat) (total : Z) :
  (0 < total)%Z ->
  IZR (Z.of_nat m) / IZR total <= IZR (Z.of_nat m + 1) / IZR total.
Proof.
  intros Ht. apply Rmult_le_compat_r.
  - left. apply Rinv_0_lt_compat, IZR_lt, Ht.
  - apply IZR_le. lia.
Qed.

Lemma fraction_end (n : nat) (total : Z) :
  (n = 0%nat \/ total = Z.of_nat n) -> 0 <= IZR (Z.of_nat n) / IZR total <= 1.
Proof.
  intros [-> | ->].
  - cbn. unfold Rdiv. rewrite Rmult_0_l. lra.
  - destruct n as [| n].
    + cbn. unfold Rdiv. rewrite Rmult_0_l. lra.
    + unfold Rdiv. rewrite Rinv_r; [lra |].
      apply not_0_IZR. lia.
Qed.

Lemma sampleGrid_progress (field : Field) (resolution : Z) (min step : Vec3.t)
  (grid : list R) (trace : list event) :
  (-1 <= resolution)%Z -> progressUpTo 10 trace ->
  exists trace' grid' count,
    Mesher.sampleGrid field resolution min step grid trace = (trace', Ok (grid', count)) /\
    List.length grid' = List.length grid /\ progressUpTo 40 trace'.
Proof.
  intros Hres Hstart. unfold Mesher.sampleGrid.
  set (n := Z.to_nat (resolution + 1)).
  set (total := ((resolution + 1) ^ 3)%Z).
  set (J := fun (m : nat) (st : list R * Z) (tr : list event) =>
              snd st = Z.of_nat m /\ List.length (fst st) = List.length grid /\
              progressUpTo (10 + IZR (Z.of_nat m) / IZR total * 30) tr).
  destruct (forM_cube_inv J (Mesher.sampleStep field resolution min step) n)
    with (st := (grid, 0%Z)) (trace := trace) as (trace' & [grid' count] & Hrun & Hend).
  - intros k j i [g c] tr Hk Hj Hi (Hc & Hg & Hp). cbn [fst snd] in *. subst c.
    set (m := ((k * n + j) * n + i)%nat) in *.
    assert (Htotal : (0 < total)%Z).
    { unfold total. replace (resolution + 1)%Z with (Z.of_nat n) by (unfold n; lia).
      apply Z.pow_pos_nonneg; lia. }
    pose proof (fraction_step m total Htotal) as Hmono.
    unfold Mesher.sampleStep. fold total.
    destruct (decide ((Z.of_nat m + 1) mod 10000 = 0)%Z);
      cbv [pbind emit ret]; do 2 eexists; (split; [reflexivity |]);
      unfold J; cbn [fst snd]; rewrite grid_set_length;
      (split; [lia |]); (split; [exact Hg |]);
      replace (Z.of_nat (Datatypes.S m)) with (Z.of_nat m + 1)%Z by lia.
    + apply (progress_emit (10 + IZR (Z.of_nat m) / IZR total * 30)); [lra | exact Hp].
    + apply (progress_weaken (10 + IZR (Z.of_nat m) / IZR total * 30)); [lra | exact Hp].
  - unfold J. cbn [fst snd]. split; [reflexivity |]. split; [reflexivity |].
    replace (10 + IZR (Z.of_nat 0) / IZR total * 30) with 10
      by (cbn; unfold Rdiv; rewrite Rmult_0_l; ring).
    exact Hstart.
  - destruct Hend as (_ & Hlen & Hp). cbn [fst snd] in *.
    exists trace', grid', count. split; [exact Hrun |]. split; [exact Hlen |].
    refine (progress_weaken _ 40 _ _ Hp).
    pose proof (fraction_end (n * n * n) total) as Hfrac.
    assert (n * n * n = 0 \/ total = Z.of_nat (n * n * n))%nat as Hcase.
    { destruct (decide (n = 0%nat)) as [-> | Hn]; [left; reflexivity | right].
      unfold total. replace (resolution + 1)%Z with (Z.of_nat n) by (unfold n; lia).
      rewrite !Nat2Z.inj_mul. ring. }
    specialize (Hfrac Hcase). lra.
Qed.

Lemma processCubes_progress (field : Field) (resolution : Z) (min step : Vec3.t)
  (grid : list R) (trace : list event) :
  Z.of_nat (List.length grid) = ((resolution + 1) ^ 3)%Z ->
  progressUpTo 40 trace ->
  exists trace' arrays count,
    Mesher.processCubes field resolution min step grid trace = (trace', Ok (arrays, count)) /\
    progressUpTo 90 trace'.
Proof.
  intros Hlen Hstart. unfold Mesher.processCubes.
  set (n := Z.to_nat resolution).
  set (total := (resolution ^ 3)%Z).
  set (J := fun (m : nat) (st : Arrays * Z) (tr : list event) =>
              snd st = Z.of_nat m /\
              progressUpTo (40 + IZR (Z.of_nat m) / IZR total * 50) tr).
  destruct (forM_cube_inv J (Mesher.cubeStep field resolution min step grid) n)
    with (st := ({| vertices := []; normals := []; indices := [] |}, 0%Z)) (trace := trace)
    as (trace' & [arrays count] & Hrun & Hend).
  - intros k j i [arrays c] tr Hk Hj Hi (Hc & Hp). cbn [fst snd] in *. subst c.
    set (m := ((k * n + j) * n + i)%nat) in *.
    assert (Hn : Z.of_nat n = resolution) by (unfold n; lia).
    assert (Htotal : (0 < total)%Z).
    { unfold total. rewrite <- Hn. apply Z.pow_pos_nonneg; lia. }
    pose proof (fraction_step m total Htotal) as Hmono.
    unfold Mesher.cubeStep. fold total.
    destruct (cubeValues_ok grid resolution (Z.of_nat i) (Z.of_nat j) (Z.of_nat k) Hlen)
      as (cube & Hcube & Hcube8); try lia.
    destruct (marchCube_ok cube (Mesher.gridPoint min step i j k) step arrays field Hcube8)
      as [arrays' Harrays].
    rewrite Hcube. cbv beta iota delta [pbind lift]. rewrite Harrays.
    destruct (decide ((Z.of_nat m + 1) mod 1000 = 0)%Z);
      cbv [pbind emit ret lift]; do 2 eexists; (split; [reflexivity |]);
      unfold J; cbn [fst snd]; (split; [lia |]);
      replace (Z.of_nat (Datatypes.S m)) with (Z.of_nat m + 1)%Z by lia.
    + apply (progress_emit (40 + IZR (Z.of_nat m) / IZR total * 50)); [lra | exact Hp].
    + apply (progress_weaken (40 + IZR (Z.of_nat m) / IZR total * 50)); [lra | exact Hp].
  - unfold J. cbn [fst snd]. split; [reflexivity |].
    replace (40 + IZR (Z.of_nat 0) / IZR total * 50) with 40
      by (cbn; unfold Rdiv; rewrite Rmult_0_l; ring).
    exact Hstart.
  - destruct Hend as (_ & Hp). cbn [fst snd] in *.
    exists trace', arrays, count. split; [exact Hrun |].
    refine (progress_weaken _ 90 _ _ Hp).
    pose proof (fraction_end (n * n * n) total) as Hfrac.
    assert (n * n * n = 0 \/ total = Z.of_nat (n * n * n))%nat as Hcase.
    { destruct (decide (n = 0%nat)) as [-> | Hn]; [left; reflexivity | right].
      unfold total. replace resolution with (Z.of_nat n) at 1 by (unfold n; lia).
      rewrite !Nat2Z.inj_mul. ring. }
    specialize (Hfrac Hcase). lra.
Qed.

(** X26: the progress reports.  A call whose grid fits the memory budget
    returns, and the percentages it has passed to [onProgress] start with
    0, end with 100, never decrease, and so all lie between 0 and 100. *)
Theorem progress_reports (field : Field) (options : Mesher.Options) :
  Mesher.estimatedMemory (Mesher.resolution_or_default (Mesher.resolution options))
  <= Mesher.maxMemoryMB_or_default (Mesher.maxMemoryMB options) ->
  (-1 <= Mesher.resolution_or_default (Mesher.resolution options))%Z ->
  exists trace mesh middle,
    Mesher.marchingCubes field options = (trace, Ok mesh) /\
    percents trace = 0 :: middle ++ [100] /\
    nondecreasing (percents trace) /\
    Forall (fun p => 0 <= p <= 100) (percents trace).
Proof.
  intros Hfits Hres.
  unfold Mesher.marchingCubes, Mesher.marchingCubes_prog.
  set (resolution := Mesher.resolution_or_default (Mesher.resolution options)) in *.
  rewrite decide_false_if by lra.
  assert (Hsize : (0 <= (resolution + 1) ^ 3)%Z) by (apply Z.pow_nonneg; lia).
  unfold Mesher.newFloat32Array. rewrite decide_false_if by lia.
  assert (Hfinish : forall trace3, progressUpTo 90 trace3 ->
            exists middle,
              percents ((trace3 ++ [OnProgress 90 (Text "Finalizing mesh...")])
                        ++ [OnProgress 100 (Text "Mesh generation complete!")])
              = 0 :: middle ++ [100] /\
              nondecreasing
                (percents ((trace3 ++ [OnProgress 90 (Text "Finalizing mesh...")])
                           ++ [OnProgress 100 (Text "Mesh generation complete!")])) /\
              Forall (fun p => 0 <= p <= 100)
                (percents ((trace3 ++ [OnProgress 90 (Text "Finalizing mesh...")])
                           ++ [OnProgress 100 (Text "Mesh generation complete!")]))).
  { intros trace3 H90.
    pose proof (progress_emit 90 90 (Text "Finalizing mesh...") trace3 ltac:(lra) H90)
      as H90'.
    pose proof (progress_emit 90 100 (Text "Mesh generation complete!") _ ltac:(lra) H90')
      as ([rest Hhead] & Hsorted & Hall).
    destruct H90' as ([rest' Hhead'] & _ & _).
    exists rest'. split; [| split].
    - rewrite percents_app, Hhead'. reflexivity.
    - exact Hsorted.
    - apply Forall_lookup. intros i p Hp. split.
      + apply (Hsorted 0%nat i 0 p); [lia | rewrite Hhead; reflexivity | exact Hp].
      + rewrite Forall_lookup in Hall. exact (Hall i p Hp). }
  destruct (_bounds field); cbv beta iota delta [pbind emit ret]; cbn [app];
    match goal with
    | |- context [Mesher.sampleGrid ?f ?r ?m ?s ?g ?t] =>
        destruct (sampleGrid_progress f r m s g t Hres)
          as (trace2 & grid' & count & Hsample & Hlen & H40);
        [ | rewrite Hsample; cbn [fst];
            assert (Hgrid : Z.of_nat (List.length grid') = ((resolution + 1) ^ 3)%Z)
              by (rewrite Hlen, length_replicate; lia) ]
    end.
  - apply (progress_silent 10 (NewFloat32Array _) [_; _]); [reflexivity |].
    apply (progress_emit 0 10 _ [_]); [lra |].
    apply (progress_start _ []). reflexivity.
  - pose proof (progress_emit 40 40 (Text "Generating triangles...") trace2 ltac:(lra) H40)
      as H40'.
    match goal with
    | |- context [Mesher.processCubes ?f ?r ?m ?s ?g ?t] =>
        destruct (processCubes_progress f r m s g t Hgrid H40')
          as (trace3 & arrays & count' & Hcubes & H90);
        rewrite Hcubes
    end.
    destruct (Hfinish trace3 H90) as (middle & H1 & H2 & H3).
    do 2 eexists. exists middle. split; [reflexivity |]. tauto.
  - apply (progress_silent 10 (NewFloat32Array _) [_; _; _]); [reflexivity |].
    apply (progress_emit 0 10 _ [_; _]); [lra |].
    apply (progress_start _ [ConsoleWarnBounds]). reflexivity.
  - pose proof (progress_emit 40 40 (Text "Generating triangles...") trace2 ltac:(lra) H40)
      as H40'.
    match goal with
    | |- context [Mesher.processCubes ?f ?r ?m ?s ?g ?t] =>
        destruct (processCubes_progress f r m s g t Hgrid H40')
          as (trace3 & arrays & count' & Hcubes & H90);
        rewrite Hcubes
    end.
    destruct (Hfinish trace3 H90) as (middle & H1 & H2 & H3).
    do 2 eexists. exists middle. split; [reflexivity |]. tauto.
Qed.

Lemma progress_reports_witness :
  exists trace mesh middle,
    Mesher.marchingCubes Examples.gyroid40
      {| Mesher.resolution := None; Mesher.maxMemoryMB := None |} = (trace, Ok mesh) /\
    percents trace = 0 :: middle ++ [100] /\
    nondecreasing (percents trace) /\
    Forall (fun p => 0 <= p <= 100) (percents trace).
Proof.
  apply (progress_reports Examples.gyroid40
           {| Mesher.resolution := None; Mesher.maxMemoryMB := None |}).
  - unfold Mesher.estimatedMemory.
    cbn [Mesher.resolution Mesher.maxMemoryMB Mesher.resolution_or_default
         Mesher.maxMemoryMB_or_default]. lra.
  - cbn [Mesher.resolution Mesher.resolution_or_default]. lia.
Defined.

(** ** Sketches and extrusion *)

Lemma vec2_length_nonneg (v : Vec2.t) : 0 <= Vec2.length v.
Proof. unfold Vec2.length, Math.sqrt. apply sqrt_pos. Qed.

Lemma vec2_distance_self (a : Vec2.t) : Vec2.distance a a = 0.
Proof.
  unfold Vec2.distance, Vec2.sub, Vec2.length, Math.sqrt. cbn [Vec2.x Vec2.y].
  replace ((Vec2.x a - Vec2.x a) * (Vec2.x a - Vec2.x a)
           + (Vec2.y a - Vec2.y a) * (Vec2.y a - Vec2.y a)) with 0 by ring.
  apply sqrt_0.
Qed.

Lemma sqrt_sum_ge_right (a b : R) : 0 <= b -> b <= Math.sqrt (a * a + b ^ 2).
Proof.
  intros Hb. unfold Math.sqrt.
  rewrite <- (sqrt_square b) at 1 by exact Hb.
  apply sqrt_le_1_alt. nra.
Qed.

(** The value of an extrusion along +z, as a function of the height [z]
    of the point and of the 2D distance. *)
Lemma extrusion_sign (z distance dist2D : R) :
  let distToBottom := - z in
  let distToTop := z - distance in
  let distToCap := Math.max distToBottom distToTop in
  let value :=
    if decide (z >= 0 /\ z <= distance) then
      if decide (dist2D < 0) then Math.max dist2D distToCap else dist2D
    else
      if decide (dist2D < 0) then
        Math.abs (if decide (z < 0) then distToBottom else distToTop)
      else Math.sqrt (dist2D * dist2D + Math.max distToCap 0 ^ 2) in
  (value <= 0 <-> 0 <= z <= distance /\ dist2D <= 0) /\
  (0 <= dist2D -> 0 <= value) /\
  (0 <= z <= distance -> 0 <= dist2D -> value = dist2D).
Proof.
  cbv zeta. destruct (decide (z >= 0 /\ z <= distance)) as [Hin | Hout].
  - destruct (decide (dist2D < 0)); split_minmax; repeat split; intros; lra.
  - destruct (decide (dist2D < 0)) as [Hneg | Hpos].
    + destruct (decide (z < 0)); split_minmax; repeat split; intros; lra.
    + set (cap := Math.max (- z) (z - distance)).
      assert (Hcap : 0 < cap) by (unfold cap; split_minmax; lra).
      assert (Hm : Math.max cap 0 = cap) by (split_minmax; lra).
      rewrite Hm. pose proof (sqrt_sum_ge_right dist2D cap ltac:(lra)).
      repeat split; intros; lra.
Qed.

Lemma dot_z_axis (p : Vec3.t) (a : R) :
  0 < a -> Vec3.dot p (Vec3.normalize (Vec3.mk 0 0 a)) = Vec3.z p.
Proof.
  intros Ha. rewrite (normalize_z_axis a Ha). unfold Vec3.dot.
  cbn [Vec3.x Vec3.y Vec3.z]. ring.
Qed.

(** X27: an extruded circle has no inside.  The sketch made by [circle]
    is closed, but the inside test of a sketch only looks at its lines:
    the 2D distance of the sketch is the magnitude of the distance to
    the circle line, also within the circle.  So the field of the
    extrusion along +z is nowhere negative, and on the axis of the
    cylinder, between the caps, its value is the radius. *)
Theorem extruded_circle_is_hollow (center : Vec2.t) (radius a distance : R) :
  0 < radius -> 0 < a ->
  let sketch := Sketch.circle Sketch.new center radius in
  Sketch.closed sketch = true /\
  (forall x y, Sketch.toSDF2D sketch x y
               = Some (Math.abs (Math.abs (Vec2.distance (Vec2.mk x y) center - radius)))) /\
  exists f, Extrude.linear sketch (Vec3.mk 0 0 a) distance = Some f /\
    (forall p, 0 <= _evaluate f p) /\
    (forall z, 0 <= z <= distance ->
       _evaluate f (Vec3.mk (Vec2.x center) (Vec2.y center) z) = radius) /\
    FieldMethods.bounds f
    = Bounds.mk (Vec3.mk (Vec2.x center - radius) (Vec2.y center - radius) 0)
                (Vec3.mk (Vec2.x center + radius) (Vec2.y center + radius) distance).
Proof.
  intros Hr Ha sketch. destruct center as [cx cy].
  split; [reflexivity |]. split; [reflexivity |].
  eexists. split; [reflexivity |]. cbn [_evaluate].
  assert (Hsdf : forall x y,
            Sketch.sdf2D sketch (Sketch.Circle (Vec2.create cx cy) radius) [] x y
            = Math.abs (Math.abs (Vec2.distance (Vec2.mk x y) (Vec2.mk cx cy) - radius)))
    by reflexivity.
  split; [| split; [| reflexivity]].
  - intros p. rewrite (dot_z_axis p a Ha).
    cbn [Vec2.x Vec2.y]. rewrite Hsdf.
    apply (extrusion_sign (Vec3.z p) distance). unfold Math.abs. apply Rabs_pos.
  - intros z Hz. rewrite (dot_z_axis _ a Ha). cbn [Vec3.x Vec3.y Vec3.z Vec2.x Vec2.y].
    rewrite Hsdf, vec2_distance_self.
    destruct (extrusion_sign z distance (Math.abs (Math.abs (0 - radius))))
      as (_ & _ & Hvalue).
    cbv zeta in Hvalue. rewrite Hvalue.
    + unfold Math.abs. rewrite Rabs_Rabsolu, Rabs_left by lra. ring.
    + exact Hz.
    + unfold Math.abs. apply Rabs_pos.
Qed.

Lemma extruded_circle_is_hollow_witness :
  let sketch := Sketch.circle Sketch.new (Vec2.mk 0 0) 1 in
  Sketch.closed sketch = true /\
  (forall x y, Sketch.toSDF2D sketch x y
               = Some (Math.abs (Math.abs (Vec2.distance (Vec2.mk x y) (Vec2.mk 0 0) - 1)))) /\
  exists f, Extrude.linear sketch (Vec3.mk 0 0 1) 2 = Some f /\
    (forall p, 0 <= _evaluate f p) /\
    (forall z, 0 <= z <= 2 ->
       _evaluate f (Vec3.mk (Vec2.x (Vec2.mk 0 0)) (Vec2.y (Vec2.mk 0 0)) z) = 1) /\
    FieldMethods.bounds f
    = Bounds.mk (Vec3.mk (Vec2.x (Vec2.mk 0 0) - 1) (Vec2.y (Vec2.mk 0 0) - 1) 0)
                (Vec3.mk (Vec2.x (Vec2.mk 0 0) + 1) (Vec2.y (Vec2.mk 0 0) + 1) 2).
Proof.
  apply (extruded_circle_is_hollow (Vec2.mk 0 0) 1 1 2); lra.
Defined.

Lemma vec2_length_sq (v : Vec2.t) : Vec2.length v * Vec2.length v = Vec2.dot v v.
Proof.
  unfold Vec2.length, Vec2.dot, Math.sqrt. apply sqrt_sqrt.
  pose proof (Rle_0_sqr (Vec2.x v)). pose proof (Rle_0_sqr (Vec2.y v)).
  unfold Rsqr in *. lra.
Qed.

Lemma vec2_length_zero_iff (a b : R) :
  Vec2.length (Vec2.mk a b) = 0 <-> a = 0 /\ b = 0.
Proof.
  split.
  - intros H. pose proof (vec2_length_sq (Vec2.mk a b)) as Hsq.
    rewrite H in Hsq. unfold Vec2.dot in Hsq. cbn [Vec2.x Vec2.y] in Hsq.
    split; nra.
  - intros [-> ->]. unfold Vec2.length, Math.sqrt. cbn [Vec2.x Vec2.y].
    replace (0 * 0 + 0 * 0) with 0 by ring. apply sqrt_0.
Qed.

(** The distance to a line element is zero exactly on the segment. *)
Lemma line_distance_zero (start end_ : Vec2.t) (x y : R) :
  Vec2.length (Vec2.sub end_ start) <> 0 ->
  0 <= Sketch._distanceToElement (Sketch.Line start end_) x y /\
  (Sketch._distanceToElement (Sketch.Line start end_) x y = 0 <->
   exists t, 0 <= t <= 1 /\
     x = Vec2.x start + (Vec2.x end_ - Vec2.x start) * t /\
     y = Vec2.y start + (Vec2.y end_ - Vec2.y start) * t).
Proof.
  intros Hlen. unfold Sketch._distanceToElement.
  rewrite decide_false_if by exact Hlen.
  set (line := Vec2.sub end_ start) in *.
  set (toPoint := Vec2.sub (Vec2.mk x y) start).
  set (t := Math.max 0 (Math.min 1 (Vec2.dot toPoint line
                                    / (Vec2.length line * Vec2.length line)))).
  assert (Ht : 0 <= t <= 1) by (unfold t; split_minmax; lra).
  split; [apply vec2_length_nonneg |].
  unfold Vec2.distance, Vec2.sub, Vec2.add, Vec2.mul. cbn [Vec2.x Vec2.y].
  rewrite vec2_length_zero_iff. split.
  - intros [Hx Hy]. exists t. split; [exact Ht |].
    unfold line, Vec2.sub in Hx, Hy. cbn [Vec2.x Vec2.y] in Hx, Hy. split; lra.
  - intros (t' & Ht' & Hx & Hy).
    assert (Hdot : Vec2.dot toPoint line = t' * (Vec2.length line * Vec2.length line)).
    { rewrite vec2_length_sq. unfold toPoint, line, Vec2.dot, Vec2.sub.
      cbn [Vec2.x Vec2.y]. rewrite Hx, Hy. ring. }
    assert (Hsq : Vec2.length line * Vec2.length line <> 0) by nra.
    assert (Heq : t = t').
    { unfold t. rewrite Hdot. unfold Rdiv. rewrite Rmult_assoc, Rinv_r by exact Hsq.
      rewrite Rmult_1_r. split_minmax; lra. }
    rewrite Heq. unfold line, Vec2.sub. cbn [Vec2.x Vec2.y]. split; lra.
Qed.

(** The loop of [toSDF2D] over four distances that are not negative. *)
Lemma minDist_four (e1 e2 e3 e4 : Sketch.element) (x y : R) :
  0 <= Sketch._distanceToElement e1 x y -> 0 <= Sketch._distanceToElement e2 x y ->
  0 <= Sketch._distanceToElement e3 x y -> 0 <= Sketch._distanceToElement e4 x y ->
  0 <= Sketch.minDist e1 [e2; e3; e4] x y /\
  (Sketch.minDist e1 [e2; e3; e4] x y = 0 <->
   Sketch._distanceToElement e1 x y = 0 \/ Sketch._distanceToElement e2 x y = 0 \/
   Sketch._distanceToElement e3 x y = 0 \/ Sketch._distanceToElement e4 x y = 0).
Proof.
  unfold Sketch.minDist. cbn [fold_left].
  generalize (Sketch._distanceToElement e1 x y) (Sketch._distanceToElement e2 x y)
             (Sketch._distanceToElement e3 x y) (Sketch._distanceToElement e4 x y).
  intros d1 d2 d3 d4 H1 H2 H3 H4.
  destruct (decide (Math.abs d2 < Math.abs d1)) as [c1 | c1];
    destruct (decide (Math.abs d3 < Math.abs _)) as [c2 | c2];
    destruct (decide (Math.abs d4 < Math.abs _)) as [c3 | c3];
    split_minmax; (split; [lra | split; lra]).
Qed.

(** The inside test on the sketch made by [rectangle]. *)
Lemma rectangle_inside (corner : Vec2.t) (width height x y : R) :
  0 < width -> 0 < height ->
  Sketch._pointInPolygon (Sketch.rectangle Sketch.new corner width height) x y = true
  <-> Vec2.x corner <= x < Vec2.x corner + width /\
      Vec2.y corner <= y < Vec2.y corner + height.
Proof.
  intros Hw Hh. destruct corner as [cx cy].
  unfold Sketch._pointInPolygon, Sketch.lines, Sketch.rectangle, Sketch.new, Vec2.create.
  cbn [Sketch.elements app flat_map fold_left Vec2.x Vec2.y].
  replace ((cx + width - (cx + width)) * (y - cy) / (cy + height - cy) + (cx + width))
    with (cx + width) by (unfold Rdiv; ring).
  replace ((cx - cx) * (y - (cy + height)) / (cy - (cy + height)) + cx)
    with cx by (unfold Rdiv; ring).
  repeat match goal with
         | |- context [decide ?P] => destruct (decide P)
         end;
    repeat match goal with
           | H : bool_decide _ <> bool_decide _ |- _ => revert H
           | H : ~ bool_decide _ <> bool_decide _ |- _ => revert H
           end;
    repeat match goal with
           | |- context [bool_decide ?P] => destruct (bool_decide_reflect P)
           end;
    cbn [negb]; intros; split; intros; try discriminate; try congruence; try lra;
    try (exfalso; lra); try tauto.
Qed.

(** The sign of the 2D distance of a rectangle. *)
Lemma rectangle_sdf_sign (cx cy width height x y : R) :
  0 < width -> 0 < height ->
  let c := Vec2.create cx cy in
  let sketch := Sketch.rectangle Sketch.new (Vec2.mk cx cy) width height in
  Sketch.sdf2D sketch
    (Sketch.Line c (Vec2.mk (cx + width) cy))
    [Sketch.Line (Vec2.mk (cx + width) cy) (Vec2.mk (cx + width) (cy + height));
     Sketch.Line (Vec2.mk (cx + width) (cy + height)) (Vec2.mk cx (cy + height));
     Sketch.Line (Vec2.mk cx (cy + height)) c] x y <= 0
  <-> cx <= x <= cx + width /\ cy <= y <= cy + height.
Proof.
  intros Hw Hh c sketch. unfold Sketch.sdf2D.
  change (Sketch.closed sketch) with true. cbv iota.
  pose proof (rectangle_inside (Vec2.mk cx cy) width height x y Hw Hh) as Hinside.
  fold sketch in Hinside. cbn [Vec2.x Vec2.y] in Hinside.
  set (e1 := Sketch.Line c (Vec2.mk (cx + width) cy)).
  set (e2 := Sketch.Line (Vec2.mk (cx + width) cy) (Vec2.mk (cx + width) (cy + height))).
  set (e3 := Sketch.Line (Vec2.mk (cx + width) (cy + height)) (Vec2.mk cx (cy + height))).
  set (e4 := Sketch.Line (Vec2.mk cx (cy + height)) c).
  destruct (line_distance_zero c (Vec2.mk (cx + width) cy) x y) as [H1 Z1].
  { unfold Vec2.sub, c, Vec2.create. cbn [Vec2.x Vec2.y].
    rewrite vec2_length_zero_iff. lra. }
  destruct (line_distance_zero (Vec2.mk (cx + width) cy)
              (Vec2.mk (cx + width) (cy + height)) x y) as [H2 Z2].
  { unfold Vec2.sub. cbn [Vec2.x Vec2.y]. rewrite vec2_length_zero_iff. lra. }
  destruct (line_distance_zero (Vec2.mk (cx + width) (cy + height))
              (Vec2.mk cx (cy + height)) x y) as [H3 Z3].
  { unfold Vec2.sub. cbn [Vec2.x Vec2.y]. rewrite vec2_length_zero_iff. lra. }
  destruct (line_distance_zero (Vec2.mk cx (cy + height)) c x y) as [H4 Z4].
  { unfold Vec2.sub, c, Vec2.create. cbn [Vec2.x Vec2.y].
    rewrite vec2_length_zero_iff. lra. }
  fold e1 in H1, Z1. fold e2 in H2, Z2. fold e3 in H3, Z3. fold e4 in H4, Z4.
  unfold c, Vec2.create in Z1, Z4. cbn [Vec2.x Vec2.y] in Z1, Z2, Z3, Z4.
  destruct (minDist_four e1 e2 e3 e4 x y H1 H2 H3 H4) as [Hm Zm].
  set (m := Sketch.minDist e1 [e2; e3; e4] x y) in *.
  unfold Math.abs. rewrite (Rabs_pos_eq m) by exact Hm.
  destruct (Sketch._pointInPolygon sketch x y).
  - assert (cx <= x < cx + width /\ cy <= y < cy + height) by (apply Hinside; reflexivity).
    split; intros; lra.
  - assert (Hnot : ~ (cx <= x < cx + width /\ cy <= y < cy + height)).
    { intros H. apply Hinside in H. discriminate H. }
    split.
    + intros Hle. assert (Hzero : m = 0) by lra.
      apply Zm in Hzero.
      destruct Hzero as [Hz | [Hz | [Hz | Hz]]];
        [apply Z1 in Hz | apply Z2 in Hz | apply Z3 in Hz | apply Z4 in Hz];
        destruct Hz as (t & Ht & -> & ->); nra.
    + intros (Hx & Hy).
      assert (Hzero : m = 0); [| lra].
      apply Zm.
      destruct (Req_dec x (cx + width)) as [Ex | Ex].
      * right; left. apply Z2. exists ((y - cy) / height).
        split; [| split; [lra | field; lra]].
        split; [apply Rmult_le_pos; [lra | left; apply Rinv_0_lt_compat, Hh] |].
        apply Rmult_le_reg_r with height; [exact Hh |].
        unfold Rdiv. rewrite Rmult_assoc, Rinv_l by lra. lra.
      * assert (Ey : y = cy + height) by lra.
        right; right; left. apply Z3. exists ((cx + width - x) / width).
        split; [| split; [field; lra | lra]].
        split; [apply Rmult_le_pos; [lra | left; apply Rinv_0_lt_compat, Hw] |].
        apply Rmult_le_reg_r with width; [exact Hw |].
        unfold Rdiv. rewrite Rmult_assoc, Rinv_l by lra. lra.
Qed.

Lemma rectangle_bounds (cx cy width height : R) :
  0 < width -> 0 < height ->
  Sketch.bounds (Sketch.rectangle Sketch.new (Vec2.mk cx cy) width height)
  = Some (Vec2.mk cx cy, Vec2.mk (cx + width) (cy + height)).
Proof.
  intros Hw Hh. unfold Sketch.bounds, Sketch.rectangle, Sketch.new, Vec2.create.
  cbn [Sketch.elements Sketch.elementBox fold_left app Vec2.x Vec2.y].
  f_equal. f_equal; f_equal; split_minmax; lra.
Qed.

(** X28: an extruded rectangle is a box.  For a rectangle of positive
    width and height, extruded along +z, the field is non-positive
    exactly at the points of the box that the rectangle spans between the
    heights 0 and the distance, and this box is the bounds of the
    field. *)
Theorem extruded_rectangle_is_box (corner : Vec2.t) (width height a distance : R)
  (p : Vec3.t) :
  0 < width -> 0 < height -> 0 < a ->
  exists f,
    Extrude.linear (Sketch.rectangle Sketch.new corner width height)
                   (Vec3.mk 0 0 a) distance = Some f /\
    FieldMethods.bounds f
    = Bounds.mk (Vec3.mk (Vec2.x corner) (Vec2.y corner) 0)
                (Vec3.mk (Vec2.x corner + width) (Vec2.y corner + height) distance) /\
    (_evaluate f p <= 0 <-> Bounds.contains (FieldMethods.bounds f) p).
Proof.
  intros Hw Hh Ha. destruct corner as [cx cy].
  unfold Extrude.linear. rewrite (rectangle_bounds cx cy width height Hw Hh).
  cbn [Sketch.elements Sketch.rectangle Sketch.new app Vec2.x Vec2.y].
  eexists. split; [reflexivity |]. split; [reflexivity |].
  unfold FieldMethods.bounds. cbn [_bounds].
  cbn [_evaluate]. rewrite (dot_z_axis p a Ha).
  destruct (extrusion_sign (Vec3.z p) distance
              (Sketch.sdf2D (Sketch.rectangle Sketch.new (Vec2.mk cx cy) width height)
                 (Sketch.Line (Vec2.create cx cy) (Vec2.mk (cx + width) cy))
                 [Sketch.Line (Vec2.mk (cx + width) cy)
                              (Vec2.mk (cx + width) (cy + height));
                  Sketch.Line (Vec2.mk (cx + width) (cy + height))
                              (Vec2.mk cx (cy + height));
                  Sketch.Line (Vec2.mk cx (cy + height)) (Vec2.create cx cy)]
                 (Vec3.x p) (Vec3.y p))) as (Hsign & _ & _).
  cbv zeta in Hsign. rewrite Hsign.
  rewrite (rectangle_sdf_sign cx cy width height (Vec3.x p) (Vec3.y p) Hw Hh).
  unfold Bounds.contains. cbn [Bounds.min Bounds.max Vec3.x Vec3.y Vec3.z].
  split; intros; lra.
Qed.

Lemma extruded_rectangle_is_box_witness :
  exists f,
    Extrude.linear (Sketch.rectangle Sketch.new (Vec2.mk 0 0) 2 1)
                   (Vec3.mk 0 0 1) 3 = Some f /\
    FieldMethods.bounds f
    = Bounds.mk (Vec3.mk (Vec2.x (Vec2.mk 0 0)) (Vec2.y (Vec2.mk 0 0)) 0)
                (Vec3.mk (Vec2.x (Vec2.mk 0 0) + 2) (Vec2.y (Vec2.mk 0 0) + 1) 3) /\
    (_evaluate f (Vec3.mk 1 1 1) <= 0 <->
     Bounds.contains (FieldMethods.bounds f) (Vec3.mk 1 1 1)).
Proof.
  apply (extruded_rectangle_is_box (Vec2.mk 0 0) 2 1 1 3 (Vec3.mk 1 1 1)); lra.
Defined.
